(* ===== verification/_CoqProject ===== *)
-Q . S2P
Prelude.v
JsNumber.v
Money.v
JsString.v
Json.v
JsonPretty.v
AdminRuntime.v
FormActions.v
ConfigActions.v
TenantActions.v
Trace.v
TraceProps.v
Widgets.v
JsonTree.v
DesktopApi.v
Urls.v
Format.v
TraceViewer.v
WebTrace.v
ConfigForms.v
Loaders.v
ListPages.v
Calendar.v
DateRanges.v
Overview.v
SettingsPages.v
AdminPages.v
PageProps.v
SearchPages.v
AdminForms.v
AccessForms.v
AdminTables.v
AdminDialogs.v
I18n.v
TableViews.v
LogViews.v
OverviewPage.v
DesktopPages.v
BudgetViews.v
