(* ===== verification/Prelude.v ===== *)
(** * Verification of the voxeltoad front ends

    voxeltoad is an LLM gateway.  Its Go back end routes model requests and
    keeps configuration, tenants, quotas and traces; two TypeScript front ends
    drive it over HTTP, and this development is about them:

    - the Control Panel ([web/src]), a Next.js application whose server actions
      call the admin API through the SDK's typed client
      ([sdk/typescript/src/admin.ts]) on behalf of an operator identified by an
      encrypted cookie;
    - the desktop UI ([desktop-ui/src]), a single-page application that the
      desktop gateway serves and that reads traces and edits the local
      configuration.

    Paths below are relative to [src/].

    ** Files

    - [Prelude]: strings, exceptions and completions ([result]), generic lemmas,
      the hint and rewrite databases and tactics.
    - [JsNumber]: JavaScript numbers.  Every operator is the exact rational
      operation followed by one rounding to binary64; the lemmas give the
      bounds within which quotients, floors and decimal renderings of integers
      are the exact ones.
    - [Money]: [web/src/lib/money.ts] (module [Web]) and its port in
      [desktop-ui/src/lib/format.ts] (module [Desktop]).
    - [JsString], [Json]: the string methods, JSON values, [JSON.parse] and
      [JSON.stringify] the code uses, with the proof that parsing undoes
      stringifying.  The parser recurses on fuel [2 * length + 2], which
      [json_size_le] shows is enough for every stringified value.
    - [AdminRuntime]: the server side of the Control Panel: environment,
      session cookie ([web/src/lib/session.ts]), client factories
      ([web/src/lib/admin.ts]), error helpers ([web/src/lib/errors.ts],
      [i18n-errors.ts]), permissions, sidebar and logout route.  A server
      action is a function on a [world] (environment, cookie store, back end,
      event log) that returns or throws.
    - [FormActions]: submitted forms and the contract of a form action
      ([action_contract]), with combinator lemmas that discharge it.
    - [ConfigActions]: the actions of providers, models, routes, plugins,
      settings and configuration history, one definition per exported function
      of the [actions.ts] files.
    - [TenantActions]: the actions of tenants, groups, applications, operators,
      roles, API keys, quotas, budgets, login and trace detail.
    - [Trace], [TraceProps]: the trace analysis of both front ends
      ([components/trace/trace-categories.tsx], [trace-baseline.ts]) and its
      properties.
    - [Widgets]: pagination and multi-select.
    - [JsonTree]: the JSON tree viewer.
    - [DesktopApi]: the desktop API client and toast actions
      ([desktop-ui/src/lib/api.ts], [app-actions.ts]).
    - [Format]: labels and compact renderings ([desktop-ui/src/lib/format.ts]).
    - [TraceViewer]: the trace page ([desktop-ui/src/pages/TraceViewer.tsx]) as a
      state machine of clicks, commits and replies.
    - [WebTrace]: the trace tree as the Control Panel renders it
      ([web/src/components/trace/trace-categories.tsx]).
    - [ConfigForms]: the provider, model and route forms of the desktop UI
      ([pages/Providers.tsx], [Models.tsx], [Routes.tsx]), one module each: the
      form's state, the initial state for a new or a stored object, the edits
      its controls offer, its checks and the body it submits.
    - [Loaders]: pages that load from an effect, as a machine over a [Loader]:
      changing the query (while the page renders the controls for it),
      committing the effect (with or without a cleanup), timers, explicit
      reloads and replies, together with the specification of a page that
      shows answers to its current query only.
    - [ListPages]: the loaders of the sessions, request-log, prompt and runtime
      log pages, of the metrics bar and the dispatch path, their tables, the
      confirmation dialog and the health badges.
    - [Calendar]: the ECMAScript calendar (days, months, weekdays, ISO strings)
      and the [TimeZone] interface.
    - [DateRanges]: the time-range presets of both overview pages
      ([web/.../overview/range.ts], [desktop-ui/src/pages/Overview.tsx]) and the
      date-input helpers ([web/src/lib/datetime.ts]).
    - [Overview]: bars, percentages, cost estimate and setup card of the desktop
      overview.
    - [SettingsPages]: the settings page, data cleanup and API-key rotation
      ([pages/Settings.tsx]), the prompt dialog
      ([components/prompts/prompt-form-modal.tsx]) and the playground.
    - [JsonPretty]: [JSON.stringify(v, null, 2)] is read back by [JSON.parse].
    - [Urls]: form serialisation of search parameters and percent-encoding.
    - [AdminPages]: every [page.tsx] of the Control Panel's dashboard
      ([web/src/app/[locale]/(dashboard)]), one definition each: its requests
      in order, what it hands to its client component, and its redirect, notice
      and not-found exits.  [PageProps] has their properties, stated on the
      exchange of requests and replies a page makes with the API.
    - [SearchPages]: filters and paging: the addresses the client components
      push and how the pages read them back.
    - [AdminForms]: the model, route and provider forms of the Control Panel
      ([models/create-form.tsx], [routes/route-form.tsx],
      [providers/create-form.tsx] and their row components).
    - [AccessForms]: the role, operator, API-key, plugin, budget, reservation
      and settings forms, a module each; [Review] is the confirmation step the
      budget and reservation forms share.
    - [AdminTables]: the confirmation dialog of a table ([Confirmed]), the tables
      with a dialog to disable, a dialog to delete and a button to enable
      ([StatusTable]), the requests of all row actions, configuration history,
      the model grid, the usage summary, the display of a new key and the
      session page.
    - [AdminDialogs]: the create and edit dialogs of the client pages, changing
      the password ([components/change-password-button.tsx]), the top-up
      dialog, and the overview, session summary, usage chart and raw trace
      view.
    - [I18n]: finding and assembling the message catalogues
      ([web/src/i18n/request.ts]); a locale's directory is an inductive tree.
    - [TableViews]: the Control Panel's tables as they are shown: columns, cells,
      buttons and confirmation dialogs of tenants, groups, applications,
      providers, routes, plugins, operators, API keys and roles.
    - [LogViews]: the request-log, audit, node and usage tables, the trace
      session list, configuration history and the model pages.
    - [OverviewPage]: the desktop overview page, put together from [Overview],
      [DateRanges] and a loader.
    - [DesktopPages]: the provider, model and route pages of the desktop UI
      around their forms, the pane of one request, and the frame (sidebar,
      tabs, shortcut, routes).
    - [BudgetViews]: the budgets page and the page of one budget, the
      attribution card, and the create dialogs of tenants, groups and
      applications.

    A form is modelled by its hooks ([state], [opened]), the changes its
    controls make ([handle]) and the entries it submits ([form_data]); its
    theorems compose these with the server action that receives the entries.

    ** Interfaces

    What the code calls but does not define is a type class: [IronSession]
    (sealing and unsealing the cookie, with the laws [IronLaws] of the
    documented behaviour: what could be saved is read back, a session too long
    for a cookie is refused with an [Error], a destroyed one is empty), [AdminApi] (the admin API behind openapi-fetch; the
    hypothesis [PlainFetch] says that HTTP failures are values), [Fetch] (the
    browser's fetch), [Locale] (internationalised formatting and [Date]) and
    [TimeZone] (offsets of local time).  Plain parameters stand for smaller
    things: the current time, which of several failures [Promise.all] reports
    ([first_rejected]), the translator ([t], [te]), the engine's lower-casing
    ([lower]) and its reading of dates outside the standard format ([other]),
    and the browser's sanitizing of input values ([sanitize]).  [Loader] is the interface between a
    page and the loading machine: theorems on the machine hold for every page.
    [AdminRuntime.Reference] and [DesktopApi.always] are concrete instances, on
    which the witnesses run.

    ** What the theorems show

    - Money: formatting and parsing are exact decimal arithmetic although they
      compute on doubles, and a displayed amount reads back as displayed.
    - Sessions and permissions ([TenantActions], [AdminRuntime]): login stores
      the token, role and permissions the API answered and only then redirects,
      or changes nothing; a stored session is what every later request uses,
      and logging out by any of its ways, or a form refused with 401, leaves
      none in force; the sidebar shows exactly the links of a literal table of
      addresses, scopes and permissions.
    - Server actions: every write either succeeds and then revalidates exactly
      its own pages, or reports an inline error with cookie and caches
      untouched (creating a key has one exception, an accepted reply without
      data); provider secrets travel only on the credential endpoint;
      model prices and budget limits are the exact amounts typed; budget writes
      are guarded before any request.
    - Traces: both front ends split a request alike, at the longest common
      prefix; the baseline is optimal; a streamed reply is re-assembled exactly
      from any interleaving of fragments; the rendered tree has exactly one
      section per non-empty category, with the counts of what it lists, and
      both front ends render the same tree, field by field, but for role names
      and Markdown.
    - Widgets: page numbers stay in range, the page window is complete, toggling
      is an involution; the JSON tree determines its value.
    - Desktop client: an identifier in a path decodes to itself and cannot
      escape its segment, but for ["."] and [".."], which URL parsing removes; both transports classify failures alike; toasts
      report every outcome.
    - Trace page: by induction on steps, the pane shown is the answer for the
      row selected, and a pane that loads has a request outstanding.
    - Loading pages: those with a cleanup refine the specification; every page
      comes to rest, within a bound, once the user stops ([settles]), the
      polling runtime log before each tick of its timer
      ([settles_between_ticks]); with replies in order
      every page shows its selected query, and out of order the three pages
      without a cleanup do not.
    - Desktop forms: saving a stored object unchanged sends back what was
      stored, up to the fields the statement lists; submitting never raises,
      makes at most one write, and shows the success toast and closes exactly
      when that write succeeded; row keys stay distinct under every edit.
    - Dates and amounts: the presets of both front ends denote the local days
      they name and agree where local midnights exist; a typed date survives
      the trip through UTC; percentages stay in range and the cost estimate is
      within two micro-units.
    - Settings: loading and saving is the identity; a rotated key is shown; what
      the retention field means to each of its two readers.

    - Control Panel pages: they only read, keep cookie and caches, render only
      when every reply carried data, and turn a 401 into the logout redirect
      and a 403 into the notice, with the exceptions listed in
      [pages_contract] and [pages_denied]; the API-key page's loops
      end and collect every page of its three lists; a model link opens the
      model it was made from.
    - Filters: what is typed is what the API is asked for, the form reopens as
      it was submitted, and paging keeps the filters.
    - Control Panel forms: the parallel arrays of the row editors implement a
      list of rows, the permission boxes a set with an all flag; saving an
      object unchanged sends what the statement lists, in one request and
      without a credential (a model's currency becomes USD, a provider's
      endpoints lose their timeouts); a bound key keeps its
      identity; a budget's exact limit survives an unrelated edit; reviewed
      requests go out once per confirmation.
    - Tables: at most one request per confirmation, for the row that was asked
      about, and one under way per dialog; enabling asks nothing; a new key is shown until it is saved; the usage summary shows the
      dearest groups; the session page settles on the selected request.
    - Dialogs and views: with the mouse an edit form shows the row it edits;
      the session summary agrees with its table; the charts partition the
      buckets; the raw view can be parsed back; every range tab leads to its
      range.
    - Message catalogues: every message file of the default locale is found at
      its own path, none hides another, and a locale fails to load only when it
      lacks a file.
    - Tables as shown: a button asks for the opposite of the status its row
      shows; links lead to the session, agent, model or budget they were made
      from, whatever characters its name has; what the read-only pages show is
      what the editable ones show, less the buttons.
    - Desktop pages: the overview and the configuration pages come to rest and
      with replies in order show the last answer; at every address at most one
      link of the sidebar is highlighted, and every page has one; a tab that is
      offered has something to show; what is copied parses to what is stored.
    - Budgets: the available amount is marked exactly when the limit is
      exceeded; only unresolved reservations can be resolved; a create dialog
      starts clean and sends one request.

    Some theorems state behaviour that falls short of the code's own comments
    or of its neighbours (inexact top-ups, untranslated role errors, prices
    rounded by an unchanged edit, a status that is ignored, an unescaped path,
    requests that are not cancelled, a dialog that discards typing, a masked
    reference that is saved, a reply that reaches another row's dialog, a
    time-out that cancels itself, an empty list that is [null]); they say
    exactly when.

    ** Bounds

    The machines have no fuel: they are step relations and functions of one
    step.  [pages_settle] bounds the number of steps to rest by the replies
    outstanding plus two.  Recursion on fuel occurs in the JSON parser (see
    [Json]), in decimal digits (the binary length of the number, an upper bound
    of the decimal one), in [Number::toString] (17 digits always identify a
    double), in percent-decoding (the length of the text) and in the cursor
    loops of the API-key page, where [api_keys_options] shows that one step per
    page of the lists is enough; the effect of the password dialog needs three
    commits at most ([commit_settles]).  Theorems about floating-point amounts name
    the range of integers in which the doubles are exact or the error is
    bounded.

    ** Not modelled

    The Go back end and deployment, which the front ends reach only over HTTP;
    the generated API schema, which has no run-time behaviour; the SDK's
    inference client, a configuration of a third-party package.  Of the
    components, the markup that carries no data: layout, class names that do
    not depend on state, icons, skeletons, and the wrappers of third-party
    primitives ([web/src/components/ui], [desktop-ui/src/components/ui]);
    keyboard handling and focus of the multi-select; native field validation;
    the drawing of charts and of Markdown.  Locale formatting is a parameter.
    Helpers that both front ends carry in identical copies (message signature,
    re-assembly of a streamed reply, block colours) have one definition, mapped
    to the desktop's copy. *)

From stdpp Require Export base list numbers sets strings.
From Stdlib Require Export ZArith Lia.

#[global] Open Scope Z_scope.

(** ** JavaScript strings

    A JavaScript string is a sequence of UTF-16 code units; [jstr] is that
    sequence.  Literals are written as Rocq strings (UTF-8 in the source
    file) and converted by the coercion [js]. *)

Definition jstr : Type := list Z.

#[global] Instance jstr_eq_dec : EqDecision jstr := _.
#[global] Instance jstr_inhabited : Inhabited jstr := populate [].

Fixpoint utf16_of_utf8 (l : list Z) : jstr :=
  match l with
  | [] => []
  | b0 :: t =>
      if b0 <? 128 then b0 :: utf16_of_utf8 t else
      match t with
      | [] => [65533]
      | b1 :: t1 =>
          if b0 <? 224 then ((b0 - 192) * 64 + (b1 - 128)) :: utf16_of_utf8 t1 else
          match t1 with
          | [] => [65533]
          | b2 :: t2 =>
              if b0 <? 240 then
                ((b0 - 224) * 4096 + (b1 - 128) * 64 + (b2 - 128)) :: utf16_of_utf8 t2
              else
                match t2 with
                | [] => [65533]
                | b3 :: t3 =>
                    let cp := (b0 - 240) * 262144 + (b1 - 128) * 4096
                              + (b2 - 128) * 64 + (b3 - 128) - 65536 in
                    (55296 + cp / 1024) :: (56320 + cp mod 1024) :: utf16_of_utf8 t3
                end
          end
      end
  end.

Definition js (s : string) : jstr :=
  utf16_of_utf8 (map (fun c => Z.of_N (Ascii.N_of_ascii c)) (String.list_ascii_of_string s)).
Coercion js : string >-> jstr.
#[global] Arguments js : simpl never.

(** [s === t] on strings. *)
Definition streq (s t : jstr) : bool := bool_decide (s = t).

(** The empty string is the only falsy string. *)
Definition str_empty (s : jstr) : bool :=
  match s with [] => true | _ => false end.

(** ** Exceptions

    What a JavaScript [throw] carries in the modelled code: built-in error
    objects (by constructor name), the SDK's [AdminError], and the control
    exception by which Next.js implements [redirect]. *)

Inductive exn : Type :=
  | EError (name message : jstr)
  | EAdmin (status : Z) (type message : jstr)
  | ERedirect (href : jstr) (locale : option jstr).

#[global] Instance exn_eq_dec : EqDecision exn.
Proof. solve_decision. Defined.

Definition err_error (m : jstr) : exn := EError "Error" m.
Definition err_type (m : jstr) : exn := EError "TypeError" m.
Definition err_range (m : jstr) : exn := EError "RangeError" m.
Definition err_syntax (m : jstr) : exn := EError "SyntaxError" m.

(** [e instanceof RangeError] *)
Definition is_range_error (e : exn) : bool :=
  match e with EError n _ => streq n "RangeError" | _ => false end.

(** [e.message] *)
Definition exn_message (e : exn) : jstr :=
  match e with
  | EError _ m => m
  | EAdmin _ _ m => m
  | ERedirect _ _ => "NEXT_REDIRECT"
  end.

(** [String(e)]: [Error.prototype.toString] is ["name: message"], or the name
    alone when the message is empty. *)
Definition exn_to_string (e : exn) : jstr :=
  let show (n m : jstr) : jstr :=
    if str_empty m then n else if str_empty n then m else n ++ js ": " ++ m in
  match e with
  | EError n m => show n m
  | EAdmin _ _ m => show (js "AdminError") m
  | ERedirect _ _ => show (js "Error") (js "NEXT_REDIRECT")
  end.

(** Completion of a computation that may throw. *)
Inductive result (A : Type) : Type :=
  | Ret (a : A)
  | Throw (e : exn).
#[global] Arguments Ret {A} a.
#[global] Arguments Throw {A} e.

#[global] Instance result_ret : MRet result := @Ret.
#[global] Instance result_bind : MBind result := fun A B f m =>
  match m with Ret a => f a | Throw e => Throw e end.
#[global] Instance result_fmap : FMap result := fun A B f m =>
  match m with Ret a => Ret (f a) | Throw e => Throw e end.

(** [try { m } catch (e) { h e }] *)
Definition catch {A} (m : result A) (h : exn -> result A) : result A :=
  match m with Ret a => Ret a | Throw e => h e end.

Fixpoint map_result {A B} (f : A -> result B) (l : list A) : result (list B) :=
  match l with
  | [] => Ret []
  | x :: t => y ← f x; ys ← map_result f t; Ret (y :: ys)
  end.

(** ** Generic lemmas *)

Lemma map_result_length {A B} (f : A -> result B) l l' :
  map_result f l = Ret l' -> length l' = length l.
Proof.
  revert l'. induction l as [|x t IH]; intros l'; simpl.
  - by intros [= <-].
  - destruct (f x); [|done]. simpl. destruct (map_result f t); [|done].
    intros [= <-]. simpl. by rewrite (IH _ eq_refl).
Qed.

Lemma map_result_ret_ext {A B} (f : A -> result B) (g : A -> B) l :
  (forall x, x ∈ l -> f x = Ret (g x)) -> map_result f l = Ret (map g l).
Proof.
  induction l as [|x t IH]; intros H; simpl; [done|].
  rewrite (H x) by set_solver. simpl. rewrite IH; [done|set_solver].
Qed.

Lemma map_result_throw {A B} (f : A -> result B) l e :
  map_result f l = Throw e -> exists x, x ∈ l /\ f x = Throw e.
Proof.
  induction l as [|x t IH]; simpl; [done|].
  destruct (f x) eqn:E; simpl.
  - destruct (map_result f t); [done|]. intros [= ->].
    destruct IH as (y & ? & ?); [done|]. exists y. split; [set_solver|done].
  - intros [= <-]. exists x. split; [set_solver|done].
Qed.

Lemma streq_true s t : streq s t = true <-> s = t.
Proof. apply bool_decide_eq_true. Qed.

Lemma streq_refl s : streq s s = true.
Proof. by apply streq_true. Qed.

Lemma streq_false s t : streq s t = false <-> s <> t.
Proof. apply bool_decide_eq_false. Qed.

Lemma str_empty_true s : str_empty s = true <-> s = [].
Proof. by destruct s. Qed.

Lemma filter_split {A} (f : A -> bool) (l : list A) :
  l ≡ₚ List.filter f l ++ List.filter (fun x => negb (f x)) l.
Proof.
  induction l as [|x t IH]; simpl; [done|].
  destruct (f x); simpl; rewrite <- ?Permutation_middle; by constructor.
Qed.

(** ** Automation *)

Create HintDb voxel discriminated.
#[export] Hint Constants Opaque : voxel.
#[export] Hint Resolve streq_refl map_result_length : voxel.
Create Rewrite HintDb voxel.
#[export] Hint Rewrite streq_true streq_false : voxel.

(** Decide a closed proposition about literals by evaluation. *)
Ltac closed := first [ reflexivity | vm_compute; reflexivity | vm_compute; congruence ].

(** Split every boolean conjunction/disjunction in sight into propositions. *)
Ltac bool_to_prop :=
  repeat match goal with
  | H : (_ && _)%bool = true |- _ => apply andb_prop in H; destruct H
  | H : (_ || _)%bool = false |- _ => apply orb_false_elim in H; destruct H
  | H : negb _ = true |- _ => apply negb_true_iff in H
  | H : negb _ = false |- _ => apply negb_false_iff in H
  | H : (_ <? _) = true |- _ => apply Z.ltb_lt in H
  | H : (_ <? _) = false |- _ => apply Z.ltb_ge in H
  | H : (_ <=? _) = true |- _ => apply Z.leb_le in H
  | H : (_ <=? _) = false |- _ => apply Z.leb_gt in H
  | H : (_ =? _) = true |- _ => apply Z.eqb_eq in H
  | H : (_ =? _) = false |- _ => apply Z.eqb_neq in H
  | H : streq _ _ = true |- _ => apply streq_true in H
  | H : streq _ _ = false |- _ => apply streq_false in H
  end.

(** Case-split the scrutinee of the first conditional or match of the goal,
    keeping its equation. *)
Ltac split_match :=
  match goal with
  | |- context [if ?b then _ else _] => destruct b eqn:?
  | |- context [match ?x with _ => _ end] => destruct x eqn:?
  end.
