(* ===== verification/JsNumber.v ===== *)
(** * JavaScript numbers

    IEEE-754 binary64 as the language defines it, on exact dyadic rationals.
    [Fin m k] is [m / 2^k] in lowest terms ([k = 0], or [m] odd), so an
    integer [n] is [Fin n 0] and structural equality is numeric equality.
    [rnd p q] is the double nearest to [p / q] (ties to even); every
    arithmetic operator computes exactly and rounds once.  Negative zero is
    identified with zero: no modelled code divides by a computed zero or
    inspects a sign bit. *)

From S2P Require Import Prelude.

Inductive num : Type :=
  | NaN
  | Inf (neg : bool)
  | Fin (m : Z) (k : nat).

#[global] Instance num_eq_dec : EqDecision num.
Proof. solve_decision. Defined.

(** Integer literals. *)
Definition int (n : Z) : num := Fin n 0.

(** ** Normal forms *)

Fixpoint strip (m : positive) (k : nat) : positive * nat :=
  match m, k with
  | xO m', S k' => strip m' k'
  | _, _ => (m, k)
  end.

Definition norm (m : Z) (k : nat) : num :=
  match m with
  | Z0 => Fin 0 0
  | Zpos p => let '(p', k') := strip p k in Fin (Zpos p') k'
  | Zneg p => let '(p', k') := strip p k in Fin (Zneg p') k'
  end.

(** ** Rounding *)

(** Nearest integer to [x / y] ([y > 0]), ties to even. *)
Definition rhe (x y : Z) : Z :=
  let q := x / y in
  let r := x mod y in
  if 2 * r <? y then q
  else if y <? 2 * r then q + 1
  else if Z.even q then q else q + 1.

(** [floor (log2 (a / q))] for [a, q > 0]. *)
Definition ratio_log2 (a q : Z) : Z :=
  let e := Z.log2 a - Z.log2 q in
  if (if 0 <=? e then a <? q * 2 ^ e else a * 2 ^ (- e) <? q) then e - 1 else e.

(** Fractional bits kept for a value with leading bit [2^e]: 53 significant
    bits, at most 1074 below the point (gradual underflow). *)
Definition frac_bits (e : Z) : Z := Z.min (52 - e) 1074.

Definition signed (neg : bool) (x : num) : num :=
  match x with
  | NaN => NaN
  | Inf b => Inf (xorb neg b)
  | Fin m k => Fin (if neg then - m else m) k
  end.

Definition rnd_pos (a q : Z) : num :=
  let s := frac_bits (ratio_log2 a q) in
  if 0 <=? s then norm (rhe (a * 2 ^ s) q) (Z.to_nat s)
  else
    let v := rhe a (q * 2 ^ (- s)) * 2 ^ (- s) in
    if 2 ^ 1024 <=? v then Inf false else Fin v 0.

Definition rnd (p q : Z) : num :=
  if p =? 0 then Fin 0 0
  else signed (p <? 0) (rnd_pos (Z.abs p) q).

(** ** Operators *)

Definition pow2 (k : nat) : Z := 2 ^ Z.of_nat k.

Definition nopp (x : num) : num :=
  match x with NaN => NaN | Inf b => Inf (negb b) | Fin m k => Fin (- m) k end.

Definition nabs (x : num) : num :=
  match x with NaN => NaN | Inf _ => Inf false | Fin m k => Fin (Z.abs m) k end.

Definition nadd (x y : num) : num :=
  match x, y with
  | NaN, _ | _, NaN => NaN
  | Inf a, Inf b => if eqb a b then Inf a else NaN
  | Inf a, Fin _ _ => Inf a
  | Fin _ _, Inf b => Inf b
  | Fin a i, Fin b j => rnd (a * pow2 j + b * pow2 i) (pow2 i * pow2 j)
  end.

Definition nsub (x y : num) : num := nadd x (nopp y).

Definition nmul (x y : num) : num :=
  match x, y with
  | NaN, _ | _, NaN => NaN
  | Inf a, Inf b => Inf (xorb a b)
  | Inf a, Fin b _ | Fin b _, Inf a =>
      if b =? 0 then NaN else Inf (xorb a (b <? 0))
  | Fin a i, Fin b j => rnd (a * b) (pow2 i * pow2 j)
  end.

Definition ndiv (x y : num) : num :=
  match x, y with
  | NaN, _ | _, NaN => NaN
  | Inf _, Inf _ => NaN
  | Inf a, Fin b _ => Inf (xorb a (b <? 0))
  | Fin _ _, Inf _ => Fin 0 0
  | Fin a i, Fin b j =>
      if b =? 0 then (if a =? 0 then NaN else Inf (a <? 0))
      else rnd (Z.sgn b * a * pow2 j) (Z.abs b * pow2 i)
  end.

(** The remainder [%] takes the sign of the dividend and is exact. *)
Definition nmod (x y : num) : num :=
  match x, y with
  | Fin a i, Fin b j =>
      if b =? 0 then NaN else norm (Z.rem (a * pow2 j) (b * pow2 i)) (i + j)
  | Fin a i, Inf _ => Fin a i
  | _, _ => NaN
  end.

Definition nlt (x y : num) : bool :=
  match x, y with
  | NaN, _ | _, NaN => false
  | Inf a, Inf b => a && negb b
  | Inf a, Fin _ _ => a
  | Fin _ _, Inf b => negb b
  | Fin a i, Fin b j => a * pow2 j <? b * pow2 i
  end.

Definition neqb (x y : num) : bool :=
  match x, y with
  | NaN, _ | _, NaN => false
  | Inf a, Inf b => eqb a b
  | Fin a i, Fin b j => a * pow2 j =? b * pow2 i
  | _, _ => false
  end.

Definition nle (x y : num) : bool := nlt x y || neqb x y.

(** [Math.floor], [Math.ceil], [Math.round] (half towards +infinity). *)
Definition zfloor (m : Z) (k : nat) : Z := m / pow2 k.

Definition nfloor (x : num) : num :=
  match x with Fin m k => Fin (zfloor m k) 0 | _ => x end.
Definition nceil (x : num) : num :=
  match x with Fin m k => Fin (- zfloor (- m) k) 0 | _ => x end.
Definition nround (x : num) : num :=
  match x with Fin m k => Fin ((2 * m + pow2 k) / (2 * pow2 k)) 0 | _ => x end.

(** [Math.min], [Math.max] of two arguments. *)
Definition nmin (x y : num) : num :=
  match x, y with NaN, _ | _, NaN => NaN | _, _ => if nlt y x then y else x end.
Definition nmax (x y : num) : num :=
  match x, y with NaN, _ | _, NaN => NaN | _, _ => if nlt x y then y else x end.

Definition is_nan (x : num) : bool := match x with NaN => true | _ => false end.
Definition is_finite (x : num) : bool := match x with Fin _ _ => true | _ => false end.
Definition is_integer (x : num) : bool := match x with Fin _ 0 => true | _ => false end.

Definition MAX_SAFE : Z := 2 ^ 53 - 1.

Definition is_safe_integer (x : num) : bool :=
  match x with Fin m 0 => Z.abs m <=? MAX_SAFE | _ => false end.

(** Truthiness of a number. *)
Definition num_truthy (x : num) : bool :=
  match x with NaN => false | Fin 0 _ => false | _ => true end.

(** ** Decimal digits *)

Fixpoint digs (fuel : nat) (n : Z) : jstr :=
  match fuel with
  | O => []
  | S f => if n <? 10 then [48 + n] else digs f (n / 10) ++ [48 + n mod 10]
  end.

(** Decimal digits of [n >= 0]. *)
Definition digits (n : Z) : jstr := digs (S (Z.to_nat (Z.log2 n))) n.

Definition zstr (n : Z) : jstr := if n <? 0 then js "-" ++ digits (- n) else digits n.

Definition is_digit (c : Z) : bool := (48 <=? c) && (c <=? 57).

(** Value of a digit string. *)
Definition dval (l : jstr) : Z := foldl (fun acc c => 10 * acc + (c - 48)) 0 l.

(** [s.padStart(n, c)] with a one-unit filler. *)
Definition padStart (n : nat) (c : Z) (s : jstr) : jstr :=
  replicate (n - length s) c ++ s.

(** ** [Number::toString]

    The shortest digit string that rounds to the value, closest first. *)

Fixpoint shortest (fuel k : nat) (a : Z) (q : Z) (n : Z) (x : num) : Z * nat :=
  match fuel with
  | O => (a, k)
  | S f =>
      let j := Z.of_nat k - n in
      let '(p, d) := if 0 <=? j then (a * 10 ^ j, q) else (a, q * 10 ^ (- j)) in
      let back s := if 0 <=? j then rnd s (10 ^ j) else rnd (s * 10 ^ (- j)) 1 in
      let near := rhe p d in
      let far := if near =? p / d then near + 1 else near - 1 in
      if bool_decide (back near = x) then (near, k)
      else if bool_decide (back far = x) then (far, k)
      else shortest f (S k) a q n x
  end.

(** Least [n] with [a / q < 10^n]. *)
Definition dec_exponent (a q : Z) : Z :=
  let g := (Z.log2 a - Z.log2 q) * 30103 / 100000 - 1 in
  let below n := if 0 <=? n then a <? q * 10 ^ n else a * 10 ^ (- n) <? q in
  if below g then g else if below (g + 1) then g + 1
  else if below (g + 2) then g + 2 else g + 3.

Definition show_digits (d : jstr) (n : Z) : jstr :=
  let k := Z.of_nat (length d) in
  if (k <=? n) && (n <=? 21) then d ++ replicate (Z.to_nat (n - k)) 48
  else if (0 <? n) && (n <=? 21) then take (Z.to_nat n) d ++ js "." ++ drop (Z.to_nat n) d
  else if (-6 <? n) && (n <=? 0) then js "0." ++ replicate (Z.to_nat (- n)) 48 ++ d
  else
    let e := n - 1 in
    let es := (if e <? 0 then js "e-" else js "e+") ++ digits (Z.abs e) in
    match d with
    | [c] => [c] ++ es
    | c :: r => [c] ++ js "." ++ r ++ es
    | [] => es
    end.

(** Drop trailing zeros of a digit string. *)
Definition strip_zeros (d : jstr) : jstr :=
  reverse ((fix go l := match l with 48 :: t => go t | _ => l end) (reverse d)).

Definition pos_to_string (m : Z) (k : nat) : jstr :=
  if (k =? 0)%nat && (m <=? 2 ^ 53) then digits m
  else
    let n := dec_exponent m (pow2 k) in
    let '(s, w) := shortest 17 1 m (pow2 k) n (Fin m k) in
    let d := digits s in
    (* rounding up to a power of ten adds a digit and moves the point *)
    show_digits (strip_zeros d) (n + Z.of_nat (length d) - Z.of_nat w).

Definition num_to_string (x : num) : jstr :=
  match x with
  | NaN => "NaN"
  | Inf false => "Infinity"
  | Inf true => "-Infinity"
  | Fin m k =>
      if m =? 0 then js "0"
      else if m <? 0 then js "-" ++ pos_to_string (- m) k
      else pos_to_string m k
  end.

(** ** [Number.prototype.toFixed]

    The integer nearest to [x * 10^f] (the larger one on a tie), printed with
    [f] decimals; magnitudes of [10^21] and more print as [String(x)]. *)
Definition toFixed (f : nat) (x : num) : jstr :=
  match x with
  | Fin m k =>
      if 10 ^ 21 * pow2 k <=? Z.abs m then num_to_string x
      else
        let n := (2 * Z.abs m * 10 ^ Z.of_nat f + pow2 k) / (2 * pow2 k) in
        let d := padStart (S f) 48 (digits n) in
        let cut := (length d - f)%nat in
        (if m <? 0 then js "-" else []) ++
        (if (f =? 0)%nat then d else take cut d ++ js "." ++ drop cut d)
  | _ => num_to_string x
  end.

(** ** [StringToNumber] *)

(** White space and line terminators ([String.prototype.trim]). *)
Definition is_space (c : Z) : bool :=
  ((9 <=? c) && (c <=? 13)) || (c =? 32) || (c =? 160) || (c =? 5760)
  || ((8192 <=? c) && (c <=? 8202)) || (c =? 8232) || (c =? 8233)
  || (c =? 8239) || (c =? 8287) || (c =? 12288) || (c =? 65279).

Fixpoint trimStart (s : jstr) : jstr :=
  match s with
  | c :: t => if is_space c then trimStart t else s
  | [] => []
  end.
Definition trimEnd (s : jstr) : jstr := reverse (trimStart (reverse s)).
Definition trim (s : jstr) : jstr := trimEnd (trimStart s).

Fixpoint span (p : Z -> bool) (s : jstr) : jstr * jstr :=
  match s with
  | c :: t => if p c then let '(a, b) := span p t in (c :: a, b) else ([], s)
  | [] => ([], [])
  end.

(** Value of [m * 10^e]. *)
Definition scale10 (m e : Z) : num :=
  if 0 <=? e then rnd (m * 10 ^ e) 1 else rnd m (10 ^ (- e)).

(** A leading sign. *)
Definition sign_prefix (s : jstr) : bool * jstr :=
  match s with
  | c :: u => if c =? 45 then (true, u) else if c =? 43 then (false, u) else (false, s)
  | [] => (false, [])
  end.

(** An optional fraction part [.digits]. *)
Definition fraction_part (s : jstr) : jstr * jstr :=
  match s with
  | c :: r => if c =? 46 then span is_digit r else ([], s)
  | [] => ([], [])
  end.

(** [StrUnsignedDecimalLiteral], without [Infinity]. *)
Definition dec_literal (s : jstr) : option num :=
  let '(ip, r1) := span is_digit s in
  let '(fp, r2) := fraction_part r1 in
  if str_empty ip && str_empty fp then None else
  let m := dval (ip ++ fp) in
  let fe := - Z.of_nat (length fp) in
  match r2 with
  | [] => Some (scale10 m fe)
  | c :: r =>
      if (c =? 101) || (c =? 69) then
        let '(neg, ds) := sign_prefix r in
        if negb (str_empty ds) && forallb is_digit ds then
          Some (scale10 m (fe + (if (neg : bool) then - dval ds else dval ds)))
        else None
      else None
  end.

Definition radix_digit (r : Z) (c : Z) : option Z :=
  let v := if is_digit c then c - 48
           else if (97 <=? c) && (c <=? 122) then c - 87
           else if (65 <=? c) && (c <=? 90) then c - 55 else 99 in
  if v <? r then Some v else None.

Definition radix_literal (r : Z) (s : jstr) : option num :=
  match s with
  | [] => None
  | _ => ds ← mapM (radix_digit r) s; Some (rnd (foldl (fun a d => r * a + d) 0 ds) 1)
  end.

Definition radix_prefix (s : jstr) : option (Z * jstr) :=
  match s with
  | z :: x :: h =>
      if z =? 48 then
        if (x =? 120) || (x =? 88) then Some (16, h)
        else if (x =? 111) || (x =? 79) then Some (8, h)
        else if (x =? 98) || (x =? 66) then Some (2, h)
        else None
      else None
  | _ => None
  end.

(** [Number(s)]. *)
Definition str_to_num (s : jstr) : num :=
  let t := trim s in
  if str_empty t then int 0 else
  match radix_prefix t with
  | Some (r, h) => default NaN (radix_literal r h)
  | None =>
      let '(neg, u) := sign_prefix t in
      if streq u "Infinity" then Inf neg
      else default NaN (signed neg <$> dec_literal u)
  end.

(** ** Lemmas: normal forms and rounding *)

Lemma pow2_pos k : 0 < pow2 k.
Proof. unfold pow2. apply Z.pow_pos_nonneg; lia. Qed.

Lemma pow2_S k : pow2 (S k) = 2 * pow2 k.
Proof. unfold pow2. rewrite Nat2Z.inj_succ, Z.pow_succ_r; lia. Qed.

Lemma pow2_add i j : pow2 (i + j) = pow2 i * pow2 j.
Proof. unfold pow2. rewrite Nat2Z.inj_add, Z.pow_add_r; lia. Qed.

Lemma strip_spec m k p j :
  strip m k = (p, j) ->
  exists d, k = (d + j)%nat /\ Zpos m = Zpos p * pow2 d /\ (j = 0%nat \/ Z.odd (Zpos p) = true).
Proof.
  revert k. induction m as [m IH|m IH|]; intros k; simpl.
  - intros [= <- <-]. exists 0%nat. split; [done|]. split; [unfold pow2; lia|by right].
  - destruct k as [|k]; simpl.
    + intros [= <- <-]. exists 0%nat. split; [done|]. split; [unfold pow2; lia|by left].
    + intros H. destruct (IH _ H) as (d & -> & E & ?). exists (S d).
      rewrite pow2_S. split; [lia|]. split; [lia|done].
  - intros [= <- <-]. exists 0%nat. split; [done|]. split; [unfold pow2; lia|by right].
Qed.

(** [norm] preserves the value and lowers the denominator. *)
Lemma norm_value m k : exists p j d,
  norm m k = Fin p j /\ m = p * pow2 d /\ (m = 0 \/ k = (d + j)%nat) /\ (j = 0%nat \/ Z.odd p = true).
Proof.
  destruct m as [|p|p]; simpl.
  - exists 0, 0%nat, 0%nat. repeat split; auto.
  - destruct (strip p k) as [p' j] eqn:E. destruct (strip_spec _ _ _ _ E) as (d & -> & ? & ?).
    exists (Zpos p'), j, d. repeat split; auto.
  - destruct (strip p k) as [p' j] eqn:E. destruct (strip_spec _ _ _ _ E) as (d & -> & ? & ?).
    exists (Zneg p'), j, d. repeat split; auto; lia.
Qed.

Lemma norm_exact n k : norm (n * pow2 k) k = Fin n 0.
Proof.
  destruct (norm_value (n * pow2 k) k) as (p & j & d & -> & E & H & O).
  pose proof (pow2_pos k). pose proof (pow2_pos d). pose proof (pow2_pos j).
  destruct H as [H| ->].
  - assert (n = 0) by nia. subst n.
    assert (p = 0) by nia. subst p. destruct O as [-> | O]; done.
  - rewrite pow2_add in E. assert (E' : p = n * pow2 j) by nia.
    destruct j as [|j].
    + f_equal. rewrite E'. unfold pow2. simpl. lia.
    + destruct O as [|O]; [done|]. rewrite E', pow2_S in O.
      replace (n * (2 * pow2 j)) with (2 * (n * pow2 j)) in O by lia.
      by rewrite Z.odd_mul in O.
Qed.

Lemma norm_int n : norm n 0 = Fin n 0.
Proof. rewrite <- (norm_exact n 0). f_equal. unfold pow2. simpl. lia. Qed.

Lemma nfloor_norm m k : nfloor (norm m k) = int (m / pow2 k).
Proof.
  destruct (norm_value m k) as (p & j & d & -> & E & H & _). simpl.
  unfold int, zfloor. f_equal. pose proof (pow2_pos d). pose proof (pow2_pos j).
  destruct H as [-> | ->].
  - assert (p = 0) by nia. subst p. by rewrite !Z.div_0_l by (pose proof (pow2_pos k); lia).
  - rewrite pow2_add, E, (Z.mul_comm (pow2 d)). rewrite Z.div_mul_cancel_r; lia.
Qed.

Lemma rhe_exact q y : 0 < y -> rhe (q * y) y = q.
Proof.
  intros. unfold rhe. rewrite Z.div_mul, Z.mod_mul by lia.
  destruct (Z.ltb_spec (2 * 0) y); lia.
Qed.

(** [rhe x y] is within one half of [x / y]. *)
Lemma rhe_half x y : 0 < y -> 2 * x - y <= 2 * rhe x y * y <= 2 * x + y.
Proof.
  intros Hy. unfold rhe.
  pose proof (Z.div_mod x y ltac:(lia)). pose proof (Z.mod_pos_bound x y Hy).
  destruct (Z.ltb_spec (2 * (x mod y)) y); [nia|].
  destruct (Z.ltb_spec y (2 * (x mod y))); [nia|].
  destruct (Z.even (x / y)); nia.
Qed.

Lemma rhe_ge x y n : 0 < y -> n * y <= x -> n <= rhe x y.
Proof.
  intros Hy H. unfold rhe. assert (n <= x / y) by (apply Z.div_le_lower_bound; lia).
  repeat case_match; lia.
Qed.

Lemma log2_ratio_bounds a q : 0 < a -> 0 < q ->
  2 ^ Z.log2 a <= a < 2 * 2 ^ Z.log2 a /\ 2 ^ Z.log2 q <= q < 2 * 2 ^ Z.log2 q.
Proof.
  intros Ha Hq. pose proof (Z.log2_spec a Ha). pose proof (Z.log2_spec q Hq).
  pose proof (Z.log2_nonneg a). pose proof (Z.log2_nonneg q).
  rewrite Z.pow_succ_r in * by lia. lia.
Qed.

(** An upper bound on [a / q] bounds its binary exponent. *)
Lemma ratio_log2_le a q b : 0 < a -> 0 < q -> 0 <= b -> a < q * 2 ^ (b + 1) -> ratio_log2 a q <= b.
Proof.
  intros Ha Hq Hb H. unfold ratio_log2.
  destruct (log2_ratio_bounds a q Ha Hq) as [[La Ua] [Lq Uq]].
  set (e := Z.log2 a - Z.log2 q).
  destruct (Z.le_gt_cases e b) as [|Hgt]; [by repeat case_match; lia|].
  assert (0 <= e) by lia. rewrite (proj2 (Z.leb_le 0 e)) by lia.
  destruct (Z.le_gt_cases (b + 2) e) as [Hbig|].
  - exfalso. assert (2 ^ Z.log2 a = 2 ^ (e - (b + 2)) * 2 ^ (Z.log2 q) * 2 ^ (b + 2)) as E.
    { rewrite <- !Z.pow_add_r by (pose proof (Z.log2_nonneg q); lia). f_equal. lia. }
    assert (2 ^ (b + 2) = 2 * 2 ^ (b + 1)) as E2 by (rewrite <- Z.pow_succ_r by lia; f_equal; lia).
    pose proof (Z.pow_pos_nonneg 2 (e - (b + 2)) ltac:(lia) ltac:(lia)) as PX.
    pose proof (Z.pow_pos_nonneg 2 (b + 1) ltac:(lia) ltac:(lia)) as PT.
    rewrite E2 in E. revert E H PX PT Lq Uq La.
    generalize (2 ^ (e - (b + 2))) (2 ^ Z.log2 q) (2 ^ (b + 1)) (2 ^ Z.log2 a).
    intros X L T A -> H PX PT Lq Uq La.
    assert (q * T < 2 * L * T) by nia. assert (0 < L) by lia.
    assert (2 * L * T <= X * L * (2 * T)) by nia. lia.
  - assert (e = b + 1) as -> by lia.
    assert (a < q * 2 ^ (b + 1)) as L by lia. rewrite (proj2 (Z.ltb_lt _ _) L). lia.
Qed.

(** A lower bound on [a / q] bounds its binary exponent from below. *)
Lemma ratio_log2_ge a q b : 0 < a -> 0 < q -> 0 <= b -> q <= a * 2 ^ b -> - b <= ratio_log2 a q.
Proof.
  intros Ha Hq Hb H. unfold ratio_log2.
  destruct (log2_ratio_bounds a q Ha Hq) as [[La Ua] [Lq Uq]].
  set (e := Z.log2 a - Z.log2 q).
  destruct (Z.le_gt_cases (1 - b) e) as [|Hlt]; [by repeat case_match; lia|].
  destruct (Z.le_gt_cases 0 e).
  { assert (b = 0) as -> by lia. assert (e = 0) as -> by lia. simpl.
    rewrite Z.mul_1_r in *. rewrite (proj2 (Z.ltb_ge a q)); lia. }
  rewrite (proj2 (Z.leb_gt 0 e)) by lia.
  assert (2 ^ Z.log2 q = 2 ^ (- e) * 2 ^ Z.log2 a) as E.
  { rewrite <- Z.pow_add_r by (pose proof (Z.log2_nonneg a); lia). f_equal. lia. }
  destruct (Z.eq_dec e (- b)) as [-> | Hne].
  - rewrite Z.opp_involutive. rewrite (proj2 (Z.ltb_ge _ _) H). lia.
  - exfalso. assert (2 ^ (- e) = 2 * 2 ^ (- e - 1)) as E1 by (rewrite <- Z.pow_succ_r by lia; f_equal; lia).
    assert (2 ^ (- e - 1) = 2 ^ (- e - 1 - b) * 2 ^ b) as E2 by (rewrite <- Z.pow_add_r by lia; f_equal; lia).
    pose proof (Z.pow_pos_nonneg 2 (- e - 1 - b) ltac:(lia) ltac:(lia)) as PX.
    pose proof (Z.pow_pos_nonneg 2 b ltac:(lia) ltac:(lia)) as PB.
    rewrite E1, E2 in E. revert E H PX PB La Ua Lq.
    generalize (2 ^ (- e - 1 - b)) (2 ^ b) (2 ^ Z.log2 q) (2 ^ Z.log2 a).
    intros X B L A -> H PX PB La Ua Lq. assert (0 < A) by lia.
    assert (a * B < 2 * A * B) by nia. assert (2 * A * B <= 2 * (X * B) * A) by nia. lia.
Qed.

(** Integers of magnitude at most [2^53] are represented exactly. *)
Lemma rnd_int n : Z.abs n <= 2 ^ 53 -> rnd n 1 = int n.
Proof.
  intros H. unfold rnd, int. destruct (Z.eqb_spec n 0) as [-> | Hn]; [done|].
  assert (P : rnd_pos (Z.abs n) 1 = Fin (Z.abs n) 0).
  { unfold rnd_pos. set (a := Z.abs n) in *. assert (0 < a) by lia.
    assert (0 <= ratio_log2 a 1) by (apply (ratio_log2_ge a 1 0); lia).
    unfold frac_bits. rewrite Z.min_l by lia.
    destruct (Z.leb_spec 0 (52 - ratio_log2 a 1)) as [Hs|Hs].
    - rewrite <- (Z.mul_1_r (a * _)). rewrite rhe_exact by lia.
      rewrite <- (norm_exact a (Z.to_nat (52 - ratio_log2 a 1))). f_equal.
      unfold pow2. by rewrite Z2Nat.id by lia.
    - assert (ratio_log2 a 1 <= 53).
      { apply ratio_log2_le; lia. }
      assert (ratio_log2 a 1 = 53) as E by lia.
      assert (a = 2 ^ 53) as ->.
      { destruct (Z.lt_ge_cases a (2 ^ 53)) as [L|]; [|lia]. exfalso.
        pose proof (ratio_log2_le a 1 52). change (2 ^ (52 + 1)) with (2 ^ 53) in *. lia. }
      done. }
  rewrite P. simpl. destruct (Z.ltb_spec n 0); f_equal; lia.
Qed.

(** Rounding a quotient of safe integers does not move it across an integer,
    as long as the divisor is below the spacing of the doubles there:
    [Math.floor(a / b)] is then exact integer division. *)
Lemma nfloor_rnd a b e :
  0 <= a -> 0 < b -> 0 <= e <= 51 -> a < b * 2 ^ (e + 1) -> b < 2 ^ (53 - e) -> b <= 2 ^ 1000 ->
  nfloor (rnd a b) = int (a / b).
Proof.
  intros Ha Hb He Hab Hbe Hbig. unfold rnd.
  destruct (Z.eqb_spec a 0) as [-> | Hn]; [by rewrite Z.div_0_l by lia|].
  rewrite (proj2 (Z.ltb_ge a 0)) by lia. rewrite Z.abs_eq by lia.
  assert (L : ratio_log2 a b <= e) by (apply ratio_log2_le; lia).
  assert (G : -1000 <= ratio_log2 a b) by (apply (ratio_log2_ge a b 1000); nia).
  unfold rnd_pos, frac_bits. rewrite Z.min_l by lia.
  set (s := 52 - ratio_log2 a b). assert (52 - e <= s) by lia.
  rewrite (proj2 (Z.leb_le 0 s)) by lia.
  set (m := rhe (a * 2 ^ s) b).
  assert (E : signed false (norm m (Z.to_nat s)) = norm m (Z.to_nat s)) by (by destruct (norm m _)).
  rewrite E, nfloor_norm. f_equal. unfold pow2. rewrite Z2Nat.id by lia.
  pose proof (Z.pow_pos_nonneg 2 s ltac:(lia) ltac:(lia)) as PS.
  assert (2 ^ (53 - e) <= 2 * 2 ^ s) as Hs.
  { rewrite <- Z.pow_succ_r by lia. apply Z.pow_le_mono_r; lia. }
  pose proof (Z.div_mod a b ltac:(lia)) as D. pose proof (Z.mod_pos_bound a b Hb) as M.
  assert (a / b * 2 ^ s <= m) by (apply rhe_ge; nia).
  assert (m < (a / b + 1) * 2 ^ s).
  { pose proof (rhe_half (a * 2 ^ s) b Hb) as R. fold m in R. nia. }
  symmetry. apply (Z.div_unique m (2 ^ s) (a / b) (m - 2 ^ s * (a / b))); lia.
Qed.

Lemma rhe_le x y n : 0 < y -> x <= n * y -> rhe x y <= n.
Proof.
  intros Hy H. unfold rhe. pose proof (Z.div_mod x y ltac:(lia)). pose proof (Z.mod_pos_bound x y Hy).
  destruct (Z.ltb_spec (2 * (x mod y)) y); [nia|]. destruct (Z.ltb_spec y (2 * (x mod y))); [nia|].
  destruct (Z.even (x / y)); nia.
Qed.

Lemma nceil_norm m k : nceil (norm m k) = int (- (- m / pow2 k)).
Proof.
  destruct (norm_value m k) as (p & j & d & -> & E & H & _). simpl.
  unfold int, zfloor. do 2 f_equal. pose proof (pow2_pos d). pose proof (pow2_pos j).
  destruct H as [-> | ->].
  - assert (p = 0) by nia. subst p. simpl. by rewrite !Z.div_0_l by (pose proof (pow2_pos k); lia).
  - rewrite pow2_add, E, (Z.mul_comm (pow2 d)).
    replace (- (p * pow2 d)) with (- p * pow2 d) by ring. rewrite Z.div_mul_cancel_r; lia.
Qed.

(** [Math.ceil(a / b)] is exact under the same bounds. *)
Lemma nceil_rnd a b e :
  0 <= a -> 0 < b -> 0 <= e <= 51 -> a < b * 2 ^ (e + 1) -> b < 2 ^ (53 - e) -> b <= 2 ^ 1000 ->
  nceil (rnd a b) = int ((a + b - 1) / b).
Proof.
  intros Ha Hb He Hab Hbe Hbig. unfold rnd.
  destruct (Z.eqb_spec a 0) as [-> | Hn]; [by rewrite Z.div_small by lia|].
  rewrite (proj2 (Z.ltb_ge a 0)) by lia. rewrite Z.abs_eq by lia.
  assert (L : ratio_log2 a b <= e) by (apply ratio_log2_le; lia).
  assert (G : -1000 <= ratio_log2 a b) by (apply (ratio_log2_ge a b 1000); nia).
  unfold rnd_pos, frac_bits. rewrite Z.min_l by lia.
  set (s := 52 - ratio_log2 a b). assert (52 - e <= s) by lia.
  rewrite (proj2 (Z.leb_le 0 s)) by lia.
  set (m := rhe (a * 2 ^ s) b).
  assert (E : signed false (norm m (Z.to_nat s)) = norm m (Z.to_nat s)) by (by destruct (norm m _)).
  rewrite E, nceil_norm. f_equal. unfold pow2. rewrite Z2Nat.id by lia.
  pose proof (Z.pow_pos_nonneg 2 s ltac:(lia) ltac:(lia)) as PS.
  assert (2 ^ (53 - e) <= 2 * 2 ^ s) as Hs.
  { rewrite <- Z.pow_succ_r by lia. apply Z.pow_le_mono_r; lia. }
  pose proof (Z.div_mod (a + b - 1) b ltac:(lia)) as D. pose proof (Z.mod_pos_bound (a + b - 1) b Hb) as M.
  set (c := (a + b - 1) / b) in *.
  assert (m <= c * 2 ^ s) by (apply rhe_le; nia).
  assert ((c - 1) * 2 ^ s < m).
  { pose proof (rhe_half (a * 2 ^ s) b Hb) as R. fold m in R. nia. }
  assert (Q : - m / 2 ^ s = - c); [|lia].
  symmetry. apply (Z.div_unique (- m) (2 ^ s) (- c) (c * 2 ^ s - m)); lia.
Qed.

(** ** Lemmas: operators on integers *)

Lemma nadd_int a b : Z.abs (a + b) <= 2 ^ 53 -> nadd (int a) (int b) = int (a + b).
Proof.
  intros. simpl. change (pow2 0) with 1. rewrite !Z.mul_1_r. change (1 * 1) with 1. by apply rnd_int.
Qed.

Lemma nsub_int a b : Z.abs (a - b) <= 2 ^ 53 -> nsub (int a) (int b) = int (a - b).
Proof. intros. unfold nsub. apply (nadd_int a (- b)). lia. Qed.

Lemma nmul_int a b : Z.abs (a * b) <= 2 ^ 53 -> nmul (int a) (int b) = int (a * b).
Proof. intros. simpl. change (pow2 0 * pow2 0) with 1. by apply rnd_int. Qed.

Lemma nmod_int a b : 0 <= a -> 0 < b -> nmod (int a) (int b) = int (a mod b).
Proof.
  intros. simpl. change (pow2 0) with 1. rewrite (proj2 (Z.eqb_neq b 0)) by lia.
  rewrite !Z.mul_1_r, norm_int. unfold int. f_equal. apply Z.rem_mod_nonneg; lia.
Qed.

Lemma ndiv_int a b : 0 < b -> ndiv (int a) (int b) = rnd a b.
Proof.
  intros. simpl. change (pow2 0) with 1. rewrite (proj2 (Z.eqb_neq b 0)) by lia.
  rewrite Z.sgn_pos, Z.abs_eq by lia. f_equal; lia.
Qed.

Lemma nlt_int a b : nlt (int a) (int b) = (a <? b).
Proof. simpl. change (pow2 0) with 1. by rewrite !Z.mul_1_r. Qed.

Lemma neqb_int a b : neqb (int a) (int b) = (a =? b).
Proof. simpl. change (pow2 0) with 1. by rewrite !Z.mul_1_r. Qed.

Lemma nle_int a b : nle (int a) (int b) = (a <=? b).
Proof. unfold nle. rewrite nlt_int, neqb_int. lia. Qed.

Lemma nmin_int a b : nmin (int a) (int b) = int (Z.min a b).
Proof.
  unfold nmin. change (match int a with NaN => _ | _ => _ end) with (if nlt (int b) (int a) then int b else int a).
  rewrite nlt_int. destruct (Z.ltb_spec b a); unfold int; f_equal; lia.
Qed.

Lemma nmax_int a b : nmax (int a) (int b) = int (Z.max a b).
Proof.
  unfold nmax. change (match int a with NaN => _ | _ => _ end) with (if nlt (int a) (int b) then int b else int a).
  rewrite nlt_int. destruct (Z.ltb_spec a b); unfold int; f_equal; lia.
Qed.

Lemma rnd_not_nan p q : rnd p q <> NaN.
Proof.
  unfold rnd, rnd_pos. destruct (p =? 0); [done|]. destruct (0 <=? _).
  - destruct (norm_value (rhe (Z.abs p * 2 ^ frac_bits (ratio_log2 (Z.abs p) q)) q)
                (Z.to_nat (frac_bits (ratio_log2 (Z.abs p) q)))) as (a & j & d & -> & _). done.
  - by destruct (_ <=? _).
Qed.

Lemma safe_nopp x : is_safe_integer (nopp x) = is_safe_integer x.
Proof. destruct x as [| |m [|k]]; simpl; by rewrite ?Z.abs_opp. Qed.

(** Rounding never makes an unsafe integer look safe. *)
Lemma rnd_safe a : 0 <= a -> is_safe_integer (rnd a 1) = true -> a <= MAX_SAFE.
Proof.
  intros Ha H. destruct (Z.le_gt_cases a MAX_SAFE) as [|Hgt]; [done|]. exfalso. unfold MAX_SAFE in Hgt.
  assert (He : 53 <= Z.log2 a) by (apply Z.log2_le_pow2; lia).
  destruct (Z.log2_spec a ltac:(lia)) as [L _].
  assert (E : ratio_log2 a 1 = Z.log2 a).
  { unfold ratio_log2. change (Z.log2 1) with 0. rewrite Z.sub_0_r, (proj2 (Z.leb_le _ _)) by lia.
    by rewrite Z.mul_1_l, (proj2 (Z.ltb_ge _ _)) by lia. }
  revert H. unfold rnd, rnd_pos. rewrite (proj2 (Z.eqb_neq a 0)) by lia. rewrite Z.abs_eq, E by lia.
  unfold frac_bits. rewrite Z.min_l by lia. rewrite (proj2 (Z.leb_gt 0 (52 - Z.log2 a))) by lia.
  rewrite Z.mul_1_l. set (y := 2 ^ (- (52 - Z.log2 a))).
  assert (Hy : 0 < y) by (apply Z.pow_pos_nonneg; lia).
  assert (P : 2 ^ Z.log2 a = 2 ^ 52 * y) by (unfold y; rewrite <- Z.pow_add_r by lia; f_equal; lia).
  assert (G : 2 ^ 52 <= rhe a y) by (apply rhe_ge; lia).
  assert (B : 2 ^ 53 <= 2 ^ Z.log2 a) by (apply Z.pow_le_mono_r; lia).
  rewrite (proj2 (Z.ltb_ge a 0)) by lia.
  destruct (2 ^ 1024 <=? rhe a y * y); [done|]. simpl. unfold MAX_SAFE. rewrite Z.leb_le. nia.
Qed.

(** [Math.min(Math.max(x, lo), hi)] lies between its bounds. *)
Lemma clamp_bounds x lo hi : x <> NaN -> lo <= hi ->
  nle (int lo) (nmin (nmax x (int lo)) (int hi)) = true /\ nle (nmin (nmax x (int lo)) (int hi)) (int hi) = true.
Proof.
  intros Hx Hl. destruct x as [|[]|b j]; [done| | |].
  - change (nmax (Inf true) (int lo)) with (int lo). rewrite nmin_int, !nle_int. lia.
  - change (nmin (nmax (Inf false) (int lo)) (int hi)) with (int hi). rewrite !nle_int. lia.
  - pose proof (pow2_pos j). unfold nmin, nmax, nle, nlt, neqb, int. change (pow2 0) with 1. rewrite !Z.mul_1_r.
    repeat (split_match; bool_to_prop; try nia); rewrite ?orb_true_iff, ?Z.ltb_lt, ?Z.eqb_eq; change (pow2 0) with 1; nia.
Qed.

#[export] Hint Rewrite nlt_int neqb_int nle_int nmin_int nmax_int : voxel.

(** ** Lemmas: digits *)

Lemma dval_foldl l acc :
  foldl (fun acc c => 10 * acc + (c - 48)) acc l = acc * 10 ^ Z.of_nat (length l) + dval l.
Proof.
  unfold dval. revert acc. induction l as [|c l IH]; intros acc; cbn [foldl length].
  - simpl. lia.
  - rewrite IH, (IH (10 * 0 + (c - 48))). rewrite Nat2Z.inj_succ, Z.pow_succ_r by lia. lia.
Qed.

Lemma dval_app l1 l2 : dval (l1 ++ l2) = dval l1 * 10 ^ Z.of_nat (length l2) + dval l2.
Proof. unfold dval at 1. rewrite foldl_app. apply dval_foldl. Qed.

Lemma dval_bound l : Forall (fun c => is_digit c = true) l -> 0 <= dval l < 10 ^ Z.of_nat (length l).
Proof.
  induction l as [|c l IH] using rev_ind; intros H; [done|].
  apply Forall_app in H as [Hl Hc]. apply Forall_inv in Hc. specialize (IH Hl).
  unfold is_digit in Hc. bool_to_prop. rewrite dval_app, length_app. simpl.
  replace (dval [c]) with (c - 48) by (unfold dval; simpl; lia).
  rewrite Nat2Z.inj_add, Z.pow_add_r by lia. simpl. lia.
Qed.

Lemma digs_spec f n : 0 <= n < 2 ^ Z.of_nat f ->
  dval (digs f n) = n /\ Forall (fun c => is_digit c = true) (digs f n).
Proof.
  revert n. induction f as [|f IH]; intros n Hn; [by split; [unfold dval; simpl in *; lia|constructor]|].
  rewrite Nat2Z.inj_succ, Z.pow_succ_r in Hn by lia. simpl.
  destruct (Z.ltb_spec n 10) as [H|H].
  - split; [unfold dval; simpl; lia|]. constructor; [|done]. unfold is_digit.
    apply andb_true_intro; split; apply Z.leb_le; lia.
  - pose proof (Z.mod_pos_bound n 10 ltac:(lia)). pose proof (Z.div_mod n 10 ltac:(lia)).
    destruct (IH (n / 10)) as [E D].
    { split; [apply Z.div_pos; lia|]. apply Z.div_lt_upper_bound; lia. }
    rewrite dval_app, E. split; [simpl length; unfold dval; simpl; lia|].
    apply Forall_app; split; [done|]. constructor; [|done]. unfold is_digit.
    apply andb_true_intro; split; apply Z.leb_le; lia.
Qed.

Lemma digits_spec n : 0 <= n -> dval (digits n) = n /\ Forall (fun c => is_digit c = true) (digits n).
Proof.
  intros H. apply digs_spec. split; [done|].
  pose proof (Z.log2_nonneg n).
  rewrite Nat2Z.inj_succ, Z2Nat.id by lia. destruct (Z.eq_dec n 0) as [-> |]; [done|].
  apply Z.log2_spec. lia.
Qed.

Lemma digits_nonempty n : digits n <> [].
Proof. unfold digits. simpl. case_match; [done|]. intros E%app_eq_nil. by destruct E. Qed.

Lemma digits_length_pos n : (1 <= length (digits n))%nat.
Proof. pose proof (digits_nonempty n). destruct (digits n); [done|simpl; lia]. Qed.

Lemma digits_small n : 0 <= n < 10 -> digits n = [48 + n].
Proof. intros. unfold digits. simpl. rewrite (proj2 (Z.ltb_lt n 10)); [done|lia]. Qed.

Lemma digits_two n : 10 <= n < 100 -> length (digits n) = 2%nat.
Proof.
  intros. unfold digits.
  assert (exists f, Z.to_nat (Z.log2 n) = S f) as [f ->].
  { pose proof (Z.log2_le_mono 2 n ltac:(lia)) as L. change (Z.log2 2) with 1 in L.
    exists (Z.to_nat (Z.log2 n - 1)). lia. }
  simpl. rewrite (proj2 (Z.ltb_ge n 10)) by lia.
  rewrite (proj2 (Z.ltb_lt (n / 10) 10)); [done|]. apply Z.div_lt_upper_bound; lia.
Qed.

Lemma dval_zeros m : dval (replicate m 48) = 0.
Proof.
  induction m as [|m IH]; [done|]. rewrite (replicate_add 1 m), dval_app, IH. unfold dval. simpl. lia.
Qed.

Lemma padStart_digits w l : Forall (fun c => is_digit c = true) l ->
  dval (padStart w 48 l) = dval l /\ Forall (fun c => is_digit c = true) (padStart w 48 l).
Proof.
  intros H. unfold padStart. rewrite dval_app, dval_zeros. split; [lia|].
  apply Forall_app; split; [|done]. by apply Forall_replicate.
Qed.

(** ** Lemmas: white space and parsing *)

Lemma trimStart_id s : match s with c :: _ => is_space c = false | [] => True end -> trimStart s = s.
Proof. destruct s as [|c s]; simpl; [done|]. by intros ->. Qed.

Lemma trimEnd_snoc s c : is_space c = false -> trimEnd (s ++ [c]) = s ++ [c].
Proof.
  intros H. unfold trimEnd. rewrite reverse_app. simpl. rewrite H.
  change (c :: reverse s) with ([c] ++ reverse s). by rewrite reverse_app, reverse_involutive.
Qed.

(** A string with no white space at either end is its own trim. *)
Lemma trim_id s : Forall (fun c => is_space c = false) s -> trim s = s.
Proof.
  intros H. unfold trim. rewrite trimStart_id by (destruct H; done).
  destruct s as [|x s _] using rev_ind; [done|]. apply Forall_app in H as [_ H].
  apply trimEnd_snoc. by apply Forall_inv in H.
Qed.

Lemma digit_not_space c : is_digit c = true -> is_space c = false.
Proof. unfold is_digit, is_space. intros. bool_to_prop. repeat (apply orb_false_intro); lia. Qed.

Lemma span_all p l r : Forall (fun c => p c = true) l ->
  match r with c :: _ => p c = false | [] => True end -> span p (l ++ r) = (l, r).
Proof.
  intros Hl Hr. induction Hl as [|c l Hc _ IH]; simpl.
  - destruct r as [|c r]; [done|]. simpl. by rewrite Hr.
  - by rewrite Hc, IH.
Qed.

Lemma span_app p s a b : span p s = (a, b) ->
  s = a ++ b /\ Forall (fun c => p c = true) a /\ match b with c :: _ => p c = false | [] => True end.
Proof.
  revert a b. induction s as [|c s IH]; intros a b; simpl; [by intros [= <- <-]|].
  destruct (p c) eqn:E.
  - destruct (span p s) as [a' b']. intros [= <- <-]. destruct (IH _ _ eq_refl) as (-> & ? & ?).
    split; [done|]. split; [by constructor|done].
  - intros [= <- <-]. done.
Qed.

(** [Number] of a plain digit string is the decimal value, rounded. *)
Lemma str_to_num_digits l : l <> [] -> Forall (fun c => is_digit c = true) l ->
  str_to_num l = rnd (dval l) 1.
Proof.
  intros Hn H.
  assert (T : trim l = l).
  { apply trim_id. eapply Forall_impl; [exact H|]. intros; by apply digit_not_space. }
  assert (D : dec_literal l = Some (rnd (dval l) 1)).
  { unfold dec_literal. rewrite <- (app_nil_r l) at 1. rewrite span_all by done. simpl.
    destruct (str_empty l) eqn:E; [by apply str_empty_true in E|]. simpl. rewrite app_nil_r.
    unfold scale10. simpl. by rewrite Z.mul_1_r. }
  assert (S : forall x, signed false x = x) by (by intros []).
  assert (N : streq l "Infinity" = false).
  { apply streq_false. intros ->. apply (f_equal (forallb is_digit)) in T. by apply Forall_inv in H. }
  assert (P : radix_prefix l = None /\ sign_prefix l = (false, l)).
  { destruct H as [|c l Hc Hl]; [done|]. unfold is_digit in Hc. simpl. split.
    - destruct Hl as [|x l Hx]; [done|]. unfold is_digit in Hx. bool_to_prop.
      by repeat (case_match; bool_to_prop; try lia).
    - bool_to_prop. repeat (case_match; bool_to_prop; try lia); done. }
  destruct P as [P1 P2].
  unfold str_to_num. rewrite T, P1, P2, N, D. destruct (str_empty l) eqn:E; [|simpl; apply S].
  by apply str_empty_true in E.
Qed.

(** ** Rounded quotients and products *)

(** The double nearest [a / b]: within [2^-(53-e)] when the quotient is below
    [2^(e+1)], and on the same side of every integer. *)
Lemma rnd_near a b e t : 0 <= a -> 0 < b <= 2 ^ t -> 0 <= t <= 1000 -> 0 <= e <= 52 -> a < b * 2 ^ (e + 1) ->
  exists p j, rnd a b = Fin p j /\ pow2 j <= 2 ^ (52 + t) /\
    Z.abs (p * b - a * pow2 j) * 2 ^ (53 - e) <= b * pow2 j /\
    (forall n, n * b <= a -> n * pow2 j <= p) /\ (forall n, a <= n * b -> p <= n * pow2 j).
Proof.
  intros Ha [Hb Hbt] Ht He Hab. unfold rnd. pose proof (Z.pow_pos_nonneg 2 (52 + t) ltac:(lia) ltac:(lia)).
  destruct (Z.eqb_spec a 0) as [-> | Hn]; [exists 0, 0%nat; change (pow2 0) with 1; split_and!; [done|lia|replace (Z.abs _) with 0 by lia; lia|nia|nia]|].
  rewrite (proj2 (Z.ltb_ge a 0)), Z.abs_eq by lia.
  assert (L : ratio_log2 a b <= e) by (apply ratio_log2_le; lia).
  assert (G : - t <= ratio_log2 a b) by (apply (ratio_log2_ge a b t); nia).
  unfold rnd_pos, frac_bits. rewrite Z.min_l by lia. set (s := 52 - ratio_log2 a b). rewrite (proj2 (Z.leb_le 0 s)) by lia.
  set (m := rhe (a * 2 ^ s) b). destruct (norm_value m (Z.to_nat s)) as (p & j & d & E & M & K & O). exists p, j.
  rewrite E. pose proof (pow2_pos j) as Pj. pose proof (pow2_pos d) as Pd.
  pose proof (Z.pow_pos_nonneg 2 s ltac:(lia) ltac:(lia)) as Ps.
  (* [m / 2^s] and [p / 2^j] are the same number *)
  assert (V : p * 2 ^ s = m * pow2 j /\ pow2 j <= 2 ^ s).
  { destruct K as [K|K].
    - assert (p = 0) by nia. subst p. destruct O as [-> | O]; [|done]. change (pow2 0) with 1. lia.
    - assert (2 ^ s = pow2 d * pow2 j) as -> by (rewrite <- pow2_add, <- K; unfold pow2; by rewrite Z2Nat.id by lia). nia. }
  destruct V as [V Vj]. assert (2 ^ s <= 2 ^ (52 + t)) by (apply Z.pow_le_mono_r; lia).
  assert (2 ^ (53 - e) <= 2 * 2 ^ s) by (rewrite <- Z.pow_succ_r by lia; apply Z.pow_le_mono_r; lia).
  pose proof (rhe_half (a * 2 ^ s) b Hb) as R. fold m in R. split_and!.
  - done.
  - lia.
  - assert (Z.abs (p * b - a * pow2 j) * 2 ^ s = Z.abs (m * b - a * 2 ^ s) * pow2 j) as X.
    { rewrite <- (Z.abs_eq (2 ^ s)) at 1 by lia. rewrite <- (Z.abs_eq (pow2 j)) at 2 by lia. rewrite <- !Z.abs_mul. f_equal. nia. }
    assert (2 * Z.abs (m * b - a * 2 ^ s) <= b) by lia. nia.
  - intros n Hle. assert (n * 2 ^ s <= m) by (apply rhe_ge; nia). nia.
  - intros n Hle. assert (m <= n * 2 ^ s) by (apply rhe_le; nia). nia.
Qed.

(** [Math.round(a / b * c)] is less than one off [a * c / b], and within the
    bounds of the exact value. *)
Lemma nround_scaled a b c e :
  0 <= a -> 0 < b <= 2 ^ 53 -> 0 <= e <= 50 -> a < b * 2 ^ (e + 1) -> 0 <= c <= 2 ^ (50 - e) ->
  exists r, nround (nmul (ndiv (int a) (int b)) (int c)) = int r /\
    Z.abs (r * b - a * c) < b /\ 0 <= r /\ forall n, a <= n * b -> r <= n * c.
Proof.
  intros Ha Hb He Hab Hc. rewrite ndiv_int by lia.
  destruct (rnd_near a b e 53 Ha Hb ltac:(lia) ltac:(lia) Hab) as (p & j & -> & Bj & Er & Lo & Hi).
  pose proof (pow2_pos j) as Pj. assert (P0 : 0 <= p) by (apply (Lo 0); lia).
  assert (Pu : p <= 2 ^ (e + 1) * pow2 j) by (apply Hi; lia).
  assert (C2 : 2 ^ (e + 1) * 2 ^ (50 - e) = 2 ^ 51) by (rewrite <- Z.pow_add_r by lia; f_equal; lia).
  unfold int at 1. simpl nmul. change (pow2 0) with 1. rewrite Z.mul_1_r.
  destruct (rnd_near (p * c) (pow2 j) 51 105 ltac:(nia) ltac:(simpl in Bj; lia) ltac:(lia) ltac:(lia)) as (q & i & -> & _ & Er2 & Lo2 & Hi2).
  { assert (p * c <= 2 ^ 51 * pow2 j) by (rewrite <- C2; nia). change (2 ^ (51 + 1)) with (2 * 2 ^ 51). lia. }
  pose proof (pow2_pos i) as Pi. simpl nround. eexists. split; [reflexivity|]. set (r := (2 * q + pow2 i) / (2 * pow2 i)).
  assert (Q : 2 * q - pow2 i < 2 * r * pow2 i <= 2 * q + pow2 i).
  { pose proof (Z.div_mod (2 * q + pow2 i) (2 * pow2 i) ltac:(lia)) as D. fold r in D.
    pose proof (Z.mod_pos_bound (2 * q + pow2 i) (2 * pow2 i) ltac:(lia)). nia. }
  assert (Q0 : 0 <= q) by (apply (Lo2 0); nia). change (2 ^ (53 - 51)) with 4 in Er2.
  assert (C3 : 8 * 2 ^ (50 - e) = 2 ^ (53 - e)) by (replace (53 - e) with (50 - e + 3) by lia; rewrite Z.pow_add_r by lia; lia).
  split_and!.
  - (* r b - a c, scaled by 2^i 2^j, as three errors *)
    assert (X : (r * b - a * c) * (pow2 i * pow2 j) =
      b * pow2 j * (r * pow2 i - q) + b * (q * pow2 j - p * c * pow2 i) + c * pow2 i * (p * b - a * pow2 j)) by ring.
    assert (E1 : 2 * Z.abs (b * pow2 j * (r * pow2 i - q)) <= b * pow2 j * pow2 i) by (rewrite Z.abs_mul, (Z.abs_eq (b * pow2 j)) by nia; nia).
    assert (E2 : 4 * Z.abs (b * (q * pow2 j - p * c * pow2 i)) <= b * pow2 j * pow2 i) by (rewrite Z.abs_mul, (Z.abs_eq b) by lia; nia).
    assert (E3 : 8 * Z.abs (c * pow2 i * (p * b - a * pow2 j)) <= b * pow2 j * pow2 i).
    { rewrite Z.abs_mul, (Z.abs_eq (c * pow2 i)) by nia.
      assert (8 * c * Z.abs (p * b - a * pow2 j) <= b * pow2 j) by nia. nia. }
    assert (0 < b * pow2 j * pow2 i) by nia. assert (Z.abs (r * b - a * c) * (pow2 i * pow2 j) < b * (pow2 i * pow2 j)); [|nia].
    rewrite <- (Z.abs_eq (pow2 i * pow2 j)) at 1 by nia. rewrite <- Z.abs_mul, X. lia.
  - unfold r. apply Z.div_pos; lia.
  - intros n Hn. pose proof (Hi n Hn). assert (q <= n * c * pow2 i) by (apply Hi2; nia). nia.
Qed.
