(* ===== verification/Money.v ===== *)
(** * Money

    [web/src/lib/money.ts] and its desktop port in [desktop-ui/src/lib/format.ts]:
    int64 micro-units against two-decimal display strings.  The code computes
    on doubles; the theorems state the exact integer arithmetic it refines. *)

From S2P Require Import Prelude JsNumber.

Definition MICRO_PER_UNIT : num := int 1000000.
Definition DECIMALS : nat := 2.
Definition SCALE : num := int 100.

(** The capture groups of [/^(-)?(\d+)(?:\.(\d+))?$/]: sign, integer part and
    fraction part ([""] when the fraction group did not take part). *)
Definition match_amount (t : jstr) : option (bool * jstr * jstr) :=
  let '(neg, r) :=
    match t with c :: u => if c =? 45 then (true, u) else (false, t) | [] => (false, []) end in
  let '(ip, r1) := span is_digit r in
  if str_empty ip then None else
  match r1 with
  | [] => Some (neg, ip, [])
  | c :: r2 =>
      if c =? 46 then
        let '(fp, r3) := span is_digit r2 in
        if str_empty fp || negb (str_empty r3) then None else Some (neg, ip, fp)
      else None
  end.

Module Web.

Definition microToDisplay (micro : num) : jstr :=
  let negative := nlt micro (int 0) in
  let abs := nabs micro in
  let whole := nfloor (ndiv abs MICRO_PER_UNIT) in
  let remainder := nmod abs MICRO_PER_UNIT in
  let frac := nfloor (ndiv (nadd (nmul remainder SCALE) (ndiv MICRO_PER_UNIT (int 2))) MICRO_PER_UNIT) in
  let '(wholeOut, frac) :=
    if nle SCALE frac then (nadd whole (int 1), nsub frac SCALE) else (whole, frac) in
  let fracStr := padStart DECIMALS 48 (num_to_string frac) in
  let sign := if negative && (negb (neqb wholeOut (int 0)) || negb (neqb frac (int 0)))
              then js "-" else [] in
  sign ++ num_to_string wholeOut ++ js "." ++ fracStr.

Definition displayToMicro (input : jstr) : result num :=
  let trimmed := trim input in
  match match_amount trimmed with
  | None => Throw (err_range (js "invalid decimal amount: " ++ [34] ++ input ++ [34]))
  | Some (sign, intPart, fracPart) =>
      let fracDigits := take 6 (fracPart ++ js "000000") in
      let value := str_to_num (intPart ++ fracDigits) in
      Ret (if sign then nopp value else value)
  end.

End Web.

Module Desktop.

Definition microToDisplay (micro : num) : jstr :=
  let negative := nlt micro (int 0) in
  let abs := nabs micro in
  let whole := nfloor (ndiv abs MICRO_PER_UNIT) in
  let remainder := nmod abs MICRO_PER_UNIT in
  let frac := nfloor (ndiv (nadd (nmul remainder SCALE) (ndiv MICRO_PER_UNIT (int 2))) MICRO_PER_UNIT) in
  let '(wholeOut, frac) :=
    if nle SCALE frac then (nadd whole (int 1), nsub frac SCALE) else (whole, frac) in
  let fracStr := padStart DECIMALS 48 (num_to_string frac) in
  let sign := if negative && (negb (neqb wholeOut (int 0)) || negb (neqb frac (int 0)))
              then js "-" else [] in
  sign ++ num_to_string wholeOut ++ js "." ++ fracStr.

Definition displayToMicro (input : jstr) : result num :=
  let trimmed := trim input in
  match match_amount trimmed with
  | None => Throw (err_range (js "invalid decimal amount: " ++ [34] ++ input ++ [34]))
  | Some (sign, intPart, fracPart) =>
      let fracDigits := take 6 (fracPart ++ js "000000") in
      let value := str_to_num (intPart ++ fracDigits) in
      Ret (if sign then nopp value else value)
  end.

End Desktop.

(** ** Specification *)

(** Micro-units rounded half up (on the magnitude) to hundredths. *)
Definition cents (n : Z) : Z := (Z.abs n + 5000) / 10000.

(** The two-decimal rendering of a number of micro-units. *)
Definition display_spec (n : Z) : jstr :=
  let c := cents n in
  (if (n <? 0) && negb (c =? 0) then js "-" else []) ++
  digits (c / 100) ++ js "." ++ padStart 2 48 (digits (c mod 100)).

(** The micro-unit value of an amount, fraction truncated to six digits. *)
Definition amount_value (neg : bool) (ip fp : jstr) : Z :=
  let v := dval ip * 1000000 + dval (take 6 (fp ++ js "000000")) in
  if neg then - v else v.

(** The strings the parser accepts, after trimming. *)
Inductive Amount : jstr -> bool -> jstr -> jstr -> Prop :=
  | Amount_intro (neg : bool) ip fp :
      ip <> [] -> Forall (fun c => is_digit c = true) ip ->
      Forall (fun c => is_digit c = true) fp ->
      Amount ((if neg then [45] else []) ++ (ip ++ (if str_empty fp then [] else [46] ++ fp))) neg ip fp.

(** ** Parsing *)

Lemma digit_ne c d : is_digit c = true -> is_digit d = false -> (c =? d) = false.
Proof. intros H1 H2. apply Z.eqb_neq. intros ->. congruence. Qed.

Lemma match_amount_complete t neg ip fp : Amount t neg ip fp -> match_amount t = Some (neg, ip, fp).
Proof.
  intros [? ? ? Hn Hi Hf]. unfold match_amount.
  set (tl := if str_empty fp0 then [] else [46] ++ fp0).
  assert (Hd : match ip0 ++ tl with c :: _ => is_digit c = true | [] => False end)
    by (destruct Hi; done).
  destruct (match _ with [] => _ | _ :: _ => _ end) as [b r] eqn:E.
  assert (b = neg0 /\ r = ip0 ++ tl) as [-> ->].
  { destruct neg0; simpl in E.
    - by injection E as <- <-.
    - destruct (ip0 ++ tl) as [|c u]; [done|]. rewrite (digit_ne c 45) in E by done.
      by injection E as <- <-. }
  rewrite span_all by (done || (subst tl; destruct fp0; done)).
  destruct (str_empty ip0) eqn:E1; [by apply str_empty_true in E1|].
  subst tl. destruct fp0 as [|c fq]; simpl; [done|].
  apply Forall_cons in Hf as Hf'. destruct Hf' as [-> Hf'].
  rewrite <- (app_nil_r fq) at 1. rewrite span_all by done. done.
Qed.

Lemma match_amount_sound t neg ip fp : match_amount t = Some (neg, ip, fp) -> Amount t neg ip fp.
Proof.
  unfold match_amount. destruct (match t with [] => _ | _ :: _ => _ end) as [b r] eqn:E.
  assert (t = (if b then [45] else []) ++ r) as ->.
  { destruct t as [|c u]; [by injection E as <- <-|].
    destruct (Z.eqb_spec c 45) as [-> |]; by injection E as <- <-. }
  destruct (span is_digit r) as [ip' r1] eqn:S1. apply span_app in S1 as (-> & Hi & _).
  destruct (str_empty ip') eqn:E1; [done|].
  assert (ip' <> []) by (intros ->; done).
  destruct r1 as [|c r2].
  - intros [= <- <- <-]. by apply (Amount_intro b ip' []).
  - destruct (Z.eqb_spec c 46) as [-> |]; [|done].
    destruct (span is_digit r2) as [fp' r3] eqn:S2. apply span_app in S2 as (-> & Hf & _).
    destruct (str_empty fp') eqn:E2; [done|]. destruct r3; [|done]. simpl.
    intros [= <- <- <-]. rewrite app_nil_r.
    pose proof (Amount_intro b ip' fp' ltac:(done) Hi Hf) as A. by rewrite E2 in A.
Qed.

Lemma take_zeros_digits fp : Forall (fun c => is_digit c = true) fp ->
  Forall (fun c => is_digit c = true) (take 6 (fp ++ js "000000"))
  /\ length (take 6 (fp ++ js "000000")) = 6%nat.
Proof.
  intros H. split.
  - apply Forall_take, Forall_app. split; [done|]. vm_compute. by repeat constructor.
  - rewrite length_take, length_app. change (length (js "000000")) with 6%nat. lia.
Qed.

(** The double computed from the concatenated digits. *)
Lemma amount_digits ip fp : ip <> [] -> Forall (fun c => is_digit c = true) ip ->
  Forall (fun c => is_digit c = true) fp ->
  str_to_num (ip ++ take 6 (fp ++ js "000000")) = rnd (amount_value false ip fp) 1.
Proof.
  intros Hn Hi Hf. destruct (take_zeros_digits fp Hf) as [Ht Hl].
  rewrite str_to_num_digits.
  - rewrite dval_app, Hl. done.
  - by intros [? _]%app_eq_nil.
  - by apply Forall_app.
Qed.

Lemma amount_value_nonneg ip fp : Forall (fun c => is_digit c = true) ip ->
  Forall (fun c => is_digit c = true) fp -> 0 <= amount_value false ip fp.
Proof.
  intros Hi Hf. destruct (take_zeros_digits fp Hf) as [Ht _].
  pose proof (dval_bound _ Hi). pose proof (dval_bound _ Ht). unfold amount_value. lia.
Qed.

Lemma displayToMicro_amount input neg ip fp :
  Amount (trim input) neg ip fp -> Z.abs (amount_value neg ip fp) <= 2 ^ 53 ->
  Web.displayToMicro input = Ret (int (amount_value neg ip fp)).
Proof.
  intros A B. unfold Web.displayToMicro. rewrite (match_amount_complete _ _ _ _ A).
  destruct A as [neg ip fp Hn Hi Hf].
  rewrite amount_digits by done. pose proof (amount_value_nonneg ip fp Hi Hf).
  unfold amount_value in *. destruct neg; rewrite rnd_int by lia; done.
Qed.

(** ** Formatting *)

Lemma num_to_string_int n : 0 <= n <= 2 ^ 53 -> num_to_string (int n) = digits n.
Proof.
  intros H. unfold num_to_string, int. destruct (Z.eqb_spec n 0) as [-> |]; [done|].
  rewrite (proj2 (Z.ltb_ge n 0)) by lia. unfold pos_to_string.
  by rewrite (proj2 (Z.leb_le n (2 ^ 53))) by lia.
Qed.

(** Printing a safe integer and reading it back. *)
Lemma str_to_num_int k : 0 <= k <= 2 ^ 53 -> str_to_num (num_to_string (int k)) = int k.
Proof.
  intros Hk. rewrite num_to_string_int by lia. destruct (digits_spec k) as [V D]; [lia|].
  rewrite str_to_num_digits, V, rnd_int by (done || lia || apply digits_nonempty). done.
Qed.

(** The floating-point quotient and remainder are the integer ones. *)
Lemma micro_whole a : 0 <= a <= MAX_SAFE ->
  nfloor (ndiv (int a) MICRO_PER_UNIT) = int (a / 1000000).
Proof.
  unfold MAX_SAFE. intros. unfold MICRO_PER_UNIT. rewrite ndiv_int by lia.
  apply (nfloor_rnd a 1000000 33); lia.
Qed.

Lemma micro_frac a : 0 <= a ->
  nfloor (ndiv (nadd (nmul (nmod (int a) MICRO_PER_UNIT) SCALE) (ndiv MICRO_PER_UNIT (int 2)))
            MICRO_PER_UNIT) = int ((a mod 1000000 * 100 + 500000) / 1000000).
Proof.
  intros. pose proof (Z.mod_pos_bound a 1000000 ltac:(lia)).
  unfold MICRO_PER_UNIT, SCALE. rewrite nmod_int by lia. rewrite nmul_int by lia.
  change (ndiv (int 1000000) (int 2)) with (int 500000).
  rewrite nadd_int by lia. apply micro_whole. unfold MAX_SAFE. lia.
Qed.

(** Carrying the rounded fraction is the same as rounding once. *)
Lemma cents_split a : 0 <= a ->
  let f := (a mod 1000000 * 100 + 500000) / 1000000 in
  (a + 5000) / 10000 = a / 1000000 * 100 + f /\ 0 <= f <= 100.
Proof.
  intros Ha f. subst f. pose proof (Z.div_mod a 1000000 ltac:(lia)).
  pose proof (Z.mod_pos_bound a 1000000 ltac:(lia)).
  set (q := a / 1000000) in *. set (r := a mod 1000000) in *.
  replace (r * 100 + 500000) with ((r + 5000) * 100) by lia.
  change 1000000 with (10000 * 100) at 1 3. rewrite Z.div_mul_cancel_r by lia. split.
  - replace (a + 5000) with (r + 5000 + q * 100 * 10000) by lia. rewrite Z.div_add by lia. lia.
  - split; [apply Z.div_pos; lia|]. apply Z.lt_succ_r, Z.div_lt_upper_bound; lia.
Qed.

Lemma microToDisplay_exact n : Z.abs n <= MAX_SAFE -> Web.microToDisplay (int n) = display_spec n.
Proof.
  intros H. unfold Web.microToDisplay. change (nabs (int n)) with (int (Z.abs n)).
  rewrite micro_whole, micro_frac by lia. unfold display_spec.
  assert (E : cents n = (Z.abs n + 5000) / 10000) by done. revert E. generalize (cents n) as c.
  set (a := Z.abs n) in *. assert (Ha : 0 <= a) by lia.
  destruct (cents_split a Ha) as [-> Hf]. intros c ->.
  set (q := a / 1000000). set (f := (a mod 1000000 * 100 + 500000) / 1000000) in *.
  assert (0 <= q <= 2 ^ 40).
  { subst q. split; [apply Z.div_pos; lia|]. apply Z.div_le_upper_bound; unfold MAX_SAFE in *; lia. }
  unfold SCALE. rewrite nle_int.
  set (w := if 100 <=? f then q + 1 else q). set (g := if 100 <=? f then f - 100 else f).
  assert (P : (if 100 <=? f then (nadd (int q) (int 1), nsub (int f) (int 100)) else (int q, int f))
              = (int w, int g)).
  { subst w g. destruct (Z.leb_spec 100 f); [|done]. rewrite nadd_int, nsub_int by lia. done. }
  rewrite P, !nlt_int, !neqb_int.
  assert (Hc : (q * 100 + f) / 100 = w /\ (q * 100 + f) mod 100 = g /\ 0 <= g < 100 /\ 0 <= w <= 2 ^ 41).
  { subst w g. destruct (Z.leb_spec 100 f).
    - assert (f = 100) as -> by lia. replace (q * 100 + 100) with ((q + 1) * 100) by lia.
      rewrite Z.div_mul, Z.mod_mul by lia. lia.
    - rewrite Z.div_add_l, Z.div_small by lia. rewrite (Z.add_comm _ f), Z.mod_add, Z.mod_small by lia. lia. }
  destruct Hc as (-> & -> & ? & ?). rewrite !num_to_string_int by lia. f_equal.
  replace (negb (w =? 0) || negb (g =? 0)) with (negb (q * 100 + f =? 0)); [done|].
  subst w g. destruct (Z.leb_spec 100 f); lia.
Qed.

Lemma padStart_two n : 0 <= n < 100 -> length (padStart 2 48 (digits n)) = 2%nat.
Proof.
  intros. unfold padStart. rewrite length_app, length_replicate.
  destruct (Z.lt_ge_cases n 10).
  - rewrite digits_small by lia. done.
  - rewrite digits_two by lia. done.
Qed.

Lemma digits_not_space l : Forall (fun c => is_digit c = true) l -> Forall (fun c => is_space c = false) l.
Proof. intros Hl. eapply Forall_impl; [exact Hl|]. intros; by apply digit_not_space. Qed.

Lemma display_not_space n : Forall (fun c => is_space c = false) (display_spec n).
Proof.
  assert (Hc : 0 <= cents n) by (unfold cents; apply Z.div_pos; lia).
  pose proof (Z.mod_pos_bound (cents n) 100 ltac:(lia)). pose proof (Z.div_pos (cents n) 100 Hc ltac:(lia)).
  unfold display_spec. rewrite !Forall_app. split; [|split; [|split]].
  - destruct ((n <? 0) && negb (cents n =? 0)); vm_compute; by repeat constructor.
  - apply digits_not_space, digits_spec. lia.
  - vm_compute. by repeat constructor.
  - apply digits_not_space, padStart_digits, digits_spec. lia.
Qed.

(** The rendering is an amount of the accepted grammar, worth its cents. *)
Lemma display_spec_amount n : Z.abs n <= MAX_SAFE -> exists neg ip fp,
  Amount (trim (display_spec n)) neg ip fp /\ amount_value neg ip fp = Z.sgn n * cents n * 10000.
Proof.
  intros H. unfold display_spec. set (c := cents n).
  assert (Hc : 0 <= c) by (unfold c, cents; apply Z.div_pos; lia).
  pose proof (Z.mod_pos_bound c 100 ltac:(lia)) as Hm. pose proof (Z.div_pos c 100 Hc ltac:(lia)) as Hd.
  destruct (digits_spec (c / 100) Hd) as [V1 D1]. destruct (digits_spec (c mod 100) ltac:(lia)) as [V2 D2].
  destruct (padStart_digits 2 _ D2) as [V3 D3].
  set (neg := (n <? 0) && negb (c =? 0)). set (ip := digits (c / 100)) in *.
  set (fp := padStart 2 48 (digits (c mod 100))) in *.
  assert (L : length fp = 2%nat) by (apply padStart_two; lia).
  assert (str_empty fp = false) as F by (by destruct fp).
  pose proof (Amount_intro neg ip fp (digits_nonempty _) D1 D3) as A. rewrite F in A.
  exists neg, ip, fp. split.
  - pose proof (trim_id _ (display_not_space n)) as T. unfold display_spec in T. fold c neg ip fp in T. rewrite T.
    by destruct neg.
  - unfold amount_value. rewrite V1.
    assert (take 6 (fp ++ js "000000") = fp ++ js "0000") as ->.
    { destruct fp as [|x [|y [|]]]; done. }
    rewrite dval_app, V3, V2. change (length (js "0000")) with 4%nat. change (dval (js "0000")) with 0.
    pose proof (Z.div_mod c 100 ltac:(lia)). subst neg. change (10 ^ Z.of_nat 4) with 10000.
    destruct (Z.ltb_spec n 0), (Z.eqb_spec c 0); simpl; try lia.
    destruct (Z.eq_dec n 0) as [-> |]; [|lia].
    assert (c = 0) by reflexivity. lia.
Qed.

(** A displayed amount parses back to its hundredths. *)
Lemma display_parse n : Z.abs n <= 2 ^ 52 ->
  Web.displayToMicro (Web.microToDisplay (int n)) = Ret (int (Z.sgn n * cents n * 10000)).
Proof.
  intros H. rewrite microToDisplay_exact by (unfold MAX_SAFE; lia).
  destruct (display_spec_amount n) as (neg & ip & fp & A & V); [unfold MAX_SAFE; lia|].
  rewrite (displayToMicro_amount _ neg ip fp A); [by rewrite V|]. rewrite V. unfold cents.
  pose proof (Z.div_mod (Z.abs n + 5000) 10000 ltac:(lia)). pose proof (Z.mod_pos_bound (Z.abs n + 5000) 10000 ltac:(lia)).
  destruct (Z.lt_trichotomy n 0) as [?|[-> |?]]; [|done|]; rewrite ?Z.sgn_neg, ?Z.sgn_pos by lia; lia.
Qed.

(** ** Properties *)

(** A displayed non-negative amount is not blank, needs no trimming and reads
    back as the displayed hundredths. *)
Lemma display_back a : 0 <= a <= 2 ^ 52 ->
  let s := Web.microToDisplay (int a) in
  trim s = s /\ str_empty s = false /\ Web.displayToMicro s = Ret (int (cents a * 10000)).
Proof.
  intros Ha. assert (T : trim (Web.microToDisplay (int a)) = Web.microToDisplay (int a)).
  { rewrite microToDisplay_exact by (unfold MAX_SAFE; lia). apply trim_id, display_not_space. }
  assert (N : str_empty (Web.microToDisplay (int a)) = false).
  { rewrite microToDisplay_exact by (unfold MAX_SAFE; lia). unfold display_spec. destruct (_ && _); [done|].
    destruct (digits _) eqn:E; [by apply digits_nonempty in E|done]. }
  cbv zeta. split_and!; [done|done|]. rewrite display_parse by lia. do 2 f_equal.
  destruct (Z.eq_dec a 0) as [-> |]; [done|]. rewrite Z.sgn_pos by lia. lia.
Qed.

(** C29: formatting a safe-integer number of micro-units — computed with
    floating-point division, remainder and a manual carry — is exactly the
    amount rounded half up to two decimals, with a minus sign only when
    something other than zero is shown.  Holds for the desktop port too. *)
Theorem microToDisplay_correct n : Z.abs n <= MAX_SAFE ->
  Web.microToDisplay (int n) = display_spec n /\ Desktop.microToDisplay (int n) = display_spec n.
Proof. intros H. split; exact (microToDisplay_exact n H). Qed.

Lemma microToDisplay_correct_witness :
  Web.microToDisplay (int (-1005000)) = js "-1.01" /\ Desktop.microToDisplay (int (-1005000)) = js "-1.01".
Proof. exact (microToDisplay_correct (-1005000) ltac:(vm_compute; congruence)). Defined.

(** C28: parsing is total and its grammar is exactly an optional minus sign,
    digits and an optional non-empty fraction, after trimming: such an input
    within the safe range yields its exact micro-unit value (fraction cut at
    six digits), every other input raises a RangeError. *)
Theorem displayToMicro_correct input :
  (forall neg ip fp, Amount (trim input) neg ip fp -> Z.abs (amount_value neg ip fp) <= 2 ^ 53 ->
     Web.displayToMicro input = Ret (int (amount_value neg ip fp))) /\
  ((forall neg ip fp, ~ Amount (trim input) neg ip fp) ->
     exists m, Web.displayToMicro input = Throw (err_range m)).
Proof.
  split; [apply displayToMicro_amount|]. intros H. unfold Web.displayToMicro.
  destruct (match_amount (trim input)) as [[[neg ip] fp]|] eqn:E; [|eauto].
  by apply match_amount_sound, H in E.
Qed.

(** C27: a displayed amount that is entered back unchanged is the displayed
    number of hundredths; so whole hundredths survive the round trip exactly
    and any other value moves by at most 5000 micro-units. *)
Theorem money_roundtrip n : Z.abs n <= 2 ^ 52 -> exists m,
  Web.displayToMicro (Web.microToDisplay (int n)) = Ret (int m) /\
  Z.abs (m - n) <= 5000 /\ (n mod 10000 = 0 -> m = n).
Proof.
  intros H. exists (Z.sgn n * cents n * 10000). rewrite display_parse by done.
  pose proof (Z.div_mod (Z.abs n + 5000) 10000 ltac:(lia)) as D.
  pose proof (Z.mod_pos_bound (Z.abs n + 5000) 10000 ltac:(lia)) as M.
  assert (B : Z.abs (Z.sgn n * cents n * 10000 - n) <= 5000).
  { unfold cents in *. destruct (Z.lt_trichotomy n 0) as [?|[-> |?]]; [|done|];
      rewrite ?Z.sgn_neg, ?Z.sgn_pos by lia; lia. }
  split; [done|split; [done|]]. intros E. apply Z.mod_divide in E as [k ->]; [|lia].
  destruct (Z.lt_trichotomy k 0) as [?|[-> |?]]; [|done|];
    rewrite ?Z.sgn_neg, ?Z.sgn_pos in * by lia; lia.
Qed.

Lemma money_roundtrip_witness : exists m,
  Web.displayToMicro (Web.microToDisplay (int 12340000)) = Ret (int m) /\
  Z.abs (m - 12340000) <= 5000 /\ (12340000 mod 10000 = 0 -> m = 12340000).
Proof. apply (money_roundtrip 12340000). vm_compute. congruence. Defined.
