(* ===== verification/JsString.v ===== *)
(** * JavaScript string operations

    The methods of [String.prototype] the code uses, on UTF-16 code units. *)

From S2P Require Import Prelude JsNumber.

(** [s.startsWith(p)] *)
Fixpoint startsWith (p s : jstr) : bool :=
  match p, s with
  | [], _ => true
  | a :: p', b :: s' => (a =? b) && startsWith p' s'
  | _ :: _, [] => false
  end.

Definition endsWith (p s : jstr) : bool := startsWith (reverse p) (reverse s).

(** [s.indexOf(sub)], [None] for [-1]. *)
Fixpoint indexOf (sub s : jstr) : option nat :=
  if startsWith sub s then Some 0%nat
  else match s with
       | [] => None
       | _ :: t => S <$> indexOf sub t
       end.

Definition includes (sub s : jstr) : bool :=
  match indexOf sub s with Some _ => true | None => false end.

(** [s.split(c)] for a one-unit separator. *)
Fixpoint split_char (c : Z) (s : jstr) : list jstr :=
  match s with
  | [] => [[]]
  | x :: t =>
      if x =? c then [] :: split_char c t
      else match split_char c t with
           | w :: ws => (x :: w) :: ws
           | [] => [[x]]
           end
  end.

(** [s.split(/[p]+/)]: split at maximal runs of units satisfying [p]. *)
Fixpoint split_runs_go (p : Z -> bool) (cur : jstr) (inrun : bool) (s : jstr) : list jstr :=
  match s with
  | [] => [reverse cur]
  | c :: t =>
      if p c then
        if inrun then split_runs_go p [] true t else reverse cur :: split_runs_go p [] true t
      else split_runs_go p (c :: cur) false t
  end.
Definition split_runs (p : Z -> bool) (s : jstr) : list jstr := split_runs_go p [] false s.

(** [l.join(sep)] *)
Fixpoint join (sep : jstr) (l : list jstr) : jstr :=
  match l with
  | [] => []
  | [w] => w
  | w :: ws => w ++ sep ++ join sep ws
  end.

(** [l.filter(Boolean)] on strings. *)
Definition filter_truthy (l : list jstr) : list jstr := List.filter (fun s => negb (str_empty s)) l.

(** [l.includes(x)] on arrays of strings. *)
Definition array_includes (l : list jstr) (x : jstr) : bool := existsb (streq x) l.

(** ** Lemmas *)

Lemma startsWith_spec p s : startsWith p s = true <-> exists r, s = p ++ r.
Proof.
  revert s. induction p as [|a p IH]; intros s; simpl.
  - split; [by exists s|done].
  - destruct s as [|b s]; [split; [done|by intros [? ?]]|]. rewrite andb_true_iff, Z.eqb_eq, IH. split.
    + intros [-> [r ->]]. by exists r.
    + intros [r [= -> ->]]. eauto.
Qed.

Lemma startsWith_app p r : startsWith p (p ++ r) = true.
Proof. apply startsWith_spec. by exists r. Qed.

Lemma indexOf_some sub s i : indexOf sub s = Some i ->
  s = take i s ++ sub ++ drop (i + length sub) s /\ indexOf sub (take i s) = None \/ sub = [].
Proof.
  destruct (decide (sub = [])); [by right|]. intros H. left. revert i H.
  induction s as [|c s IH]; intros i; simpl.
  - destruct sub; simpl; [done|]. done.
  - destruct (startsWith sub (c :: s)) eqn:E.
    + intros [= <-]. apply startsWith_spec in E as [r E]. simpl. rewrite E.
      rewrite drop_app_length. split; [done|]. by destruct sub.
    + destruct (indexOf sub s) as [j|]; [|done]. simpl. intros [= <-].
      destruct (IH j eq_refl) as [E1 E2]. simpl. rewrite <- E1. split; [done|].
      destruct (startsWith sub (c :: take j s)) eqn:F; [|by rewrite E2].
      exfalso. apply startsWith_spec in F as [r F].
      enough (startsWith sub (c :: s) = true) by congruence.
      apply startsWith_spec. exists (r ++ drop j s).
      rewrite app_assoc, <- F. simpl. by rewrite take_drop.
Qed.

Lemma split_char_nonempty c s : split_char c s <> [].
Proof. destruct s as [|x s]; simpl; [done|]. case_match; [done|]. by destruct (split_char c s). Qed.

(** Joining the pieces of a split gives the string back. *)
Lemma join_split c s : join [c] (split_char c s) = s.
Proof.
  induction s as [|x s IH]; [done|]. simpl. pose proof (split_char_nonempty c s).
  destruct (Z.eqb_spec x c) as [-> |].
  - destruct (split_char c s); [done|]. simpl in *. by rewrite IH.
  - destruct (split_char c s) as [|w [|w' ws]]; [done| |]; simpl in *; by rewrite IH.
Qed.

Lemma split_char_none c w : c ∉ w -> split_char c w = [w].
Proof.
  induction w as [|x w IH]; intros H; simpl; [done|]. apply not_elem_of_cons in H as [N H].
  rewrite (proj2 (Z.eqb_neq x c)) by congruence. by rewrite IH.
Qed.

Lemma split_char_app c w r : c ∉ w -> split_char c (w ++ c :: r) = w :: split_char c r.
Proof.
  induction w as [|x w IH]; intros H; simpl; [by rewrite Z.eqb_refl|]. apply not_elem_of_cons in H as [N H].
  rewrite (proj2 (Z.eqb_neq x c)) by congruence. by rewrite IH.
Qed.

Lemma array_includes_spec l x : array_includes l x = true <-> x ∈ l.
Proof.
  unfold array_includes. rewrite existsb_exists. split.
  - intros (y & Hy & E). apply streq_true in E as ->. by apply list_elem_of_In.
  - intros H. exists x. split; [by apply list_elem_of_In|apply streq_refl].
Qed.

Lemma filter_truthy_spec l : Forall (fun s => s <> []) (filter_truthy l).
Proof.
  unfold filter_truthy. rewrite Forall_forall. intros x Hx.
  apply list_elem_of_In, filter_In in Hx as [_ Hx]. by destruct x.
Qed.
