(* ===== verification/Json.v ===== *)
(** * JSON values

    The values [JSON.parse] produces, property access and conversion on them,
    [JSON.stringify] and [JSON.parse].  An object is its property list in
    enumeration order. *)

From S2P Require Import Prelude JsNumber JsString.

#[warnings="-register-all"]
Inductive json : Type :=
  | JNull
  | JBool (b : bool)
  | JNum (n : num)
  | JStr (s : jstr)
  | JArr (l : list json)
  | JObj (l : list (jstr * json)).

(** A value of TypeScript type [unknown] read from decoded JSON: [None] is
    [undefined]. *)
Definition unknown : Type := option json.

Section induction.
  Variable P : json -> Prop.
  Hypothesis Hnull : P JNull.
  Hypothesis Hbool : forall b, P (JBool b).
  Hypothesis Hnum : forall n, P (JNum n).
  Hypothesis Hstr : forall s, P (JStr s).
  Hypothesis Harr : forall l, Forall P l -> P (JArr l).
  Hypothesis Hobj : forall l, Forall (fun kv => P kv.2) l -> P (JObj l).

Fixpoint json_ind_nested (v : json) : P v :=
  match v with
  | JNull => Hnull
  | JBool b => Hbool b
  | JNum n => Hnum n
  | JStr s => Hstr s
  | JArr l =>
      Harr l ((fix go l : Forall P l :=
        match l with [] => Forall_nil_2 _ | x :: t => Forall_cons_2 _ _ _ (json_ind_nested x) (go t) end) l)
  | JObj l =>
      Hobj l ((fix go l : Forall (fun kv => P kv.2) l :=
        match l with [] => Forall_nil_2 _ | x :: t => Forall_cons_2 _ _ _ (json_ind_nested x.2) (go t) end) l)
  end.
End induction.


(** ** Property access and coercions *)

Fixpoint lookup_prop (k : jstr) (l : list (jstr * json)) : unknown :=
  match l with
  | [] => None
  | (k', v) :: t => if streq k k' then Some v else lookup_prop k t
  end.

(** [v.k] for the property names the code reads: a TypeError on [null], and
    [undefined] on values without that property. *)
Definition prop (v : json) (k : jstr) : result unknown :=
  match v with
  | JNull => Throw (err_type (js "Cannot read properties of null (reading '" ++ k ++ js "')"))
  | JObj l => Ret (lookup_prop k l)
  | _ => Ret None
  end.

(** [v?.k] on a possibly missing value. *)
Definition opt_prop (v : unknown) (k : jstr) : unknown :=
  match v with
  | Some (JObj l) => lookup_prop k l
  | _ => None
  end.

(** [v ?? d] *)
Definition nullish (v : unknown) (d : json) : json :=
  match v with None | Some JNull => d | Some x => x end.

(** [v ?? w] on possibly missing values. *)
Definition nullish2 (v w : unknown) : unknown :=
  match v with None | Some JNull => w | _ => v end.

Definition truthy (v : unknown) : bool :=
  match v with
  | None | Some JNull | Some (JBool false) => false
  | Some (JStr s) => negb (str_empty s)
  | Some (JNum n) => num_truthy n
  | _ => true
  end.

Definition as_string (v : unknown) : option jstr := match v with Some (JStr s) => Some s | _ => None end.
Definition as_array (v : unknown) : option (list json) := match v with Some (JArr l) => Some l | _ => None end.

(** [String(v)]: arrays join their elements with commas, [null] elements
    empty. *)
Fixpoint to_string (v : json) : jstr :=
  match v with
  | JNull => js "null"
  | JBool true => js "true"
  | JBool false => js "false"
  | JNum n => num_to_string n
  | JStr s => s
  | JArr l => join (js ",") (map (fun x => match x with JNull => [] | _ => to_string x end) l)
  | JObj _ => js "[object Object]"
  end.

(** ** [JSON.stringify] *)

Definition hex_digit (n : Z) : Z := if n <? 10 then 48 + n else 87 + n.
Definition hex4 (c : Z) : jstr :=
  [hex_digit (c / 4096); hex_digit (c / 256 mod 16); hex_digit (c / 16 mod 16); hex_digit (c mod 16)].

Definition is_high (c : Z) : bool := (55296 <=? c) && (c <=? 56319).
Definition is_low (c : Z) : bool := (56320 <=? c) && (c <=? 57343).

Definition u_escape (c : Z) : jstr := [92; 117] ++ hex4 c.

(** The escape of one code unit that is not half of a surrogate pair. *)
Definition quote_unit (c : Z) : jstr :=
  if c =? 8 then js "\b" else if c =? 9 then js "\t" else if c =? 10 then js "\n"
  else if c =? 12 then js "\f" else if c =? 13 then js "\r"
  else if c =? 34 then [92; 34] else if c =? 92 then [92; 92]
  else if (c <? 32) || is_high c || is_low c then u_escape c else [c].

Fixpoint quote_body (s : jstr) : jstr :=
  match s with
  | [] => []
  | c :: t =>
      match t with
      | d :: t' => if is_high c && is_low d then c :: d :: quote_body t' else quote_unit c ++ quote_body t
      | [] => quote_unit c
      end
  end.

Definition quote (s : jstr) : jstr := [34] ++ quote_body s ++ [34].

Definition num_to_json (n : num) : jstr := if is_finite n then num_to_string n else js "null".

Fixpoint stringify (v : json) : jstr :=
  match v with
  | JNull => js "null"
  | JBool true => js "true"
  | JBool false => js "false"
  | JNum n => num_to_json n
  | JStr s => quote s
  | JArr l => [91] ++ join [44] (map stringify l) ++ [93]
  | JObj l => [123] ++ join [44] (map (fun kv => quote kv.1 ++ [58] ++ stringify kv.2) l) ++ [125]
  end.

(** [JSON.stringify(v, null, 2)], at nesting indentation [ind]. *)
Fixpoint stringify_pretty (ind : nat) (v : json) : jstr :=
  let nl (k : nat) : jstr := [10] ++ replicate k 32 in
  match v with
  | JArr [] => js "[]"
  | JObj [] => js "{}"
  | JArr l =>
      [91] ++ nl (ind + 2)%nat ++ join ([44] ++ nl (ind + 2)%nat) (map (stringify_pretty (ind + 2)) l) ++ nl ind ++ [93]
  | JObj l =>
      [123] ++ nl (ind + 2)%nat ++
      join ([44] ++ nl (ind + 2)%nat)
        (map (fun kv => quote kv.1 ++ js ": " ++ stringify_pretty (ind + 2) kv.2) l) ++ nl ind ++ [125]
  | _ => stringify v
  end.

(** ** Objects in property order

    Array-index keys come first in ascending order, other keys in insertion
    order; assigning an existing key keeps its place. *)

Definition index_key (k : jstr) : option Z :=
  if str_empty k || negb (forallb is_digit k) then None
  else let n := dval k in
       if streq (digits n) k && (n <? 2 ^ 32 - 1) then Some n else None.

Fixpoint obj_insert (k : jstr) (v : json) (l : list (jstr * json)) : list (jstr * json) :=
  match l with
  | [] => [(k, v)]
  | (k', v') :: t =>
      match index_key k, index_key k' with
      | Some n, Some n' => if n <? n' then (k, v) :: l else (k', v') :: obj_insert k v t
      | Some _, None => (k, v) :: l
      | None, _ => (k', v') :: obj_insert k v t
      end
  end.

Definition obj_set (k : jstr) (v : json) (l : list (jstr * json)) : list (jstr * json) :=
  match lookup_prop k l with
  | Some _ => map (fun kv => if streq k kv.1 then (kv.1, v) else kv) l
  | None => obj_insert k v l
  end.

Definition obj_of_list (l : list (jstr * json)) : list (jstr * json) :=
  foldl (fun acc kv => obj_set kv.1 kv.2 acc) [] l.

(** ** [JSON.parse] *)

Definition is_json_ws (c : Z) : bool := (c =? 32) || (c =? 9) || (c =? 10) || (c =? 13).

Fixpoint skip_ws (s : jstr) : jstr :=
  match s with c :: t => if is_json_ws c then skip_ws t else s | [] => [] end.

Definition unhex (c : Z) : option Z := radix_digit 16 c.

Definition simple_escape (e : Z) : option Z :=
  if (e =? 34) || (e =? 92) || (e =? 47) then Some e
  else if e =? 98 then Some 8 else if e =? 102 then Some 12 else if e =? 110 then Some 10
  else if e =? 114 then Some 13 else if e =? 116 then Some 9 else None.

(** The rest of a string literal, after its opening quote. *)
Fixpoint parse_string (s : jstr) : option (jstr * jstr) :=
  match s with
  | [] => None
  | c :: t =>
      if c =? 34 then Some ([], t)
      else if c =? 92 then
        match t with
        | e :: t1 =>
            if e =? 117 then
              match t1 with
              | a :: b :: d :: f :: t2 =>
                  a' ← unhex a; b' ← unhex b; d' ← unhex d; f' ← unhex f;
                  '(w, r) ← parse_string t2;
                  Some ((a' * 4096 + b' * 256 + d' * 16 + f') :: w, r)
              | _ => None
              end
            else x ← simple_escape e; '(w, r) ← parse_string t1; Some (x :: w, r)
        | [] => None
        end
      else if c <? 32 then None
      else '(w, r) ← parse_string t; Some (c :: w, r)
  end.

(** An optional exponent part; [None] when malformed. *)
Definition exponent_part (s : jstr) : option (Z * jstr) :=
  match s with
  | c :: t =>
      if (c =? 101) || (c =? 69) then
        let '(neg, u) := sign_prefix t in
        let '(ds, r) := span is_digit u in
        if str_empty ds then None else Some ((if (neg : bool) then - dval ds else dval ds), r)
      else Some (0, s)
  | [] => Some (0, [])
  end.

Definition parse_number (s : jstr) : option (num * jstr) :=
  let '(neg, u) := match s with c :: u => if c =? 45 then (true, u) else (false, s) | [] => (false, []) end in
  let '(ip, r1) := span is_digit u in
  if str_empty ip || (startsWith [48] ip && (1 <? Z.of_nat (length ip))) then None else
  let '(fp, r2) := fraction_part r1 in
  if str_empty fp && startsWith [46] r1 then None else
  '(e, r3) ← exponent_part r2;
  Some (signed neg (scale10 (dval (ip ++ fp)) (e - Z.of_nat (length fp))), r3).

Definition literal (w : jstr) (v : json) (s : jstr) : option (json * jstr) :=
  if startsWith w s then Some (v, drop (length w) s) else None.

Fixpoint parse_value (fuel : nat) (s : jstr) : option (json * jstr) :=
  match fuel with
  | O => None
  | S f =>
      match skip_ws s with
      | [] => None
      | c :: t =>
          if c =? 34 then '(w, r) ← parse_string t; Some (JStr w, r)
          else if c =? 91 then
            match skip_ws t with
            | d :: r => if d =? 93 then Some (JArr [], r)
                        else '(l, r') ← parse_elements f (d :: r); Some (JArr l, r')
            | [] => None
            end
          else if c =? 123 then
            match skip_ws t with
            | d :: r => if d =? 125 then Some (JObj [], r)
                        else '(l, r') ← parse_members f (d :: r); Some (JObj (obj_of_list l), r')
            | [] => None
            end
          else if c =? 110 then literal (js "null") JNull (c :: t)
          else if c =? 116 then literal (js "true") (JBool true) (c :: t)
          else if c =? 102 then literal (js "false") (JBool false) (c :: t)
          else '(n, r) ← parse_number (c :: t); Some (JNum n, r)
      end
  end
with parse_elements (fuel : nat) (s : jstr) : option (list json * jstr) :=
  match fuel with
  | O => None
  | S f =>
      '(v, r) ← parse_value f s;
      match skip_ws r with
      | d :: r' =>
          if d =? 93 then Some ([v], r')
          else if d =? 44 then '(l, r'') ← parse_elements f r'; Some (v :: l, r'')
          else None
      | [] => None
      end
  end
with parse_members (fuel : nat) (s : jstr) : option (list (jstr * json) * jstr) :=
  match fuel with
  | O => None
  | S f =>
      match skip_ws s with
      | q :: t =>
          if q =? 34 then
            '(k, r) ← parse_string t;
            match skip_ws r with
            | d :: r' =>
                if d =? 58 then
                  '(v, r2) ← parse_value f r';
                  match skip_ws r2 with
                  | e :: r3 =>
                      if e =? 125 then Some ([(k, v)], r3)
                      else if e =? 44 then '(l, r4) ← parse_members f r3; Some ((k, v) :: l, r4)
                      else None
                  | [] => None
                  end
                else None
            | [] => None
            end
          else None
      | [] => None
      end
  end.

(** [JSON.parse(s)]: one value and trailing white space.  Every recursive
    call consumes a code unit, so twice the length is enough fuel. *)
Definition json_parse (s : jstr) : result json :=
  match parse_value (2 * length s + 2) s with
  | Some (v, r) => if str_empty (skip_ws r) then Ret v else Throw (err_syntax (js "Unexpected non-whitespace character after JSON"))
  | None => Throw (err_syntax (js "Unexpected token in JSON"))
  end.

(** ** Well-formed values

    Strings of 16-bit units, integer numbers of magnitude at most [2^53], and
    objects listed in enumeration order. *)

Definition unit_ok (c : Z) : Prop := 0 <= c < 65536.
Definition wf_str (s : jstr) : Prop := Forall unit_ok s.
Definition wf_num (n : num) : Prop := match n with Fin m 0 => Z.abs m <= 2 ^ 53 | _ => False end.

Fixpoint wf_json (v : json) : Prop :=
  match v with
  | JNull | JBool _ => True
  | JNum n => wf_num n
  | JStr s => wf_str s
  | JArr l => (fix go l := match l with [] => True | x :: t => wf_json x /\ go t end) l
  | JObj l =>
      obj_of_list l = l /\
      (fix go l := match l with [] => True | kv :: t => (wf_str kv.1 /\ wf_json kv.2) /\ go t end) l
  end.

Lemma wf_json_arr l : wf_json (JArr l) <-> Forall wf_json l.
Proof.
  simpl. induction l as [|x t IH]; [split; [constructor|done]|]. rewrite IH, Forall_cons. done.
Qed.

Lemma wf_json_obj l :
  wf_json (JObj l) <-> obj_of_list l = l /\ Forall (fun kv => wf_str kv.1 /\ wf_json kv.2) l.
Proof.
  simpl. f_equiv. induction l as [|x t IH]; [split; [constructor|done]|]. rewrite IH, Forall_cons. done.
Qed.

(** What may follow a number literal without extending it. *)
Definition num_stop (r : jstr) : Prop :=
  match r with
  | [] => True
  | c :: _ => is_digit c = false /\ c <> 46 /\ c <> 101 /\ c <> 69
  end.

(** ** Lemmas: strings *)

Lemma unhex_hex_digit d : 0 <= d < 16 -> unhex (hex_digit d) = Some d.
Proof.
  intros. unfold unhex, radix_digit, hex_digit, is_digit.
  destruct (Z.ltb_spec d 10).
  - rewrite (proj2 (Z.leb_le 48 (48 + d))), (proj2 (Z.leb_le (48 + d) 57)) by lia. simpl.
    rewrite (proj2 (Z.ltb_lt (48 + d - 48) 16)) by lia. f_equal. lia.
  - rewrite (proj2 (Z.leb_gt (87 + d) 57)), andb_false_r by lia.
    rewrite (proj2 (Z.leb_le 97 (87 + d))), (proj2 (Z.leb_le (87 + d) 122)) by lia. simpl.
    rewrite (proj2 (Z.ltb_lt (87 + d - 87) 16)) by lia. f_equal. lia.
Qed.

Lemma parse_u_escape c X : unit_ok c ->
  parse_string (u_escape c ++ X) = ('(w, r) ← parse_string X; Some (c :: w, r)).
Proof.
  intros [H0 H1]. unfold u_escape, hex4. simpl.
  pose proof (Z.div_mod c 16 ltac:(lia)) as E1. pose proof (Z.mod_pos_bound c 16 ltac:(lia)) as B1.
  pose proof (Z.div_mod (c / 16) 16 ltac:(lia)) as E2. pose proof (Z.mod_pos_bound (c / 16) 16 ltac:(lia)) as B2.
  assert (c / 256 = c / 16 / 16) as F1 by (by rewrite Z.div_div by lia).
  assert (c / 4096 = c / 16 / 16 / 16) as F2 by (by rewrite !Z.div_div by lia).
  rewrite F1, F2.
  pose proof (Z.div_mod (c / 16 / 16) 16 ltac:(lia)) as E3.
  pose proof (Z.mod_pos_bound (c / 16 / 16) 16 ltac:(lia)) as B3.
  rewrite !unhex_hex_digit by lia. simpl.
  destruct (parse_string X) as [[w r]|]; [|done]. simpl. do 3 f_equal. lia.
Qed.

Lemma parse_plain c X : 32 <= c -> c <> 34 -> c <> 92 ->
  parse_string (c :: X) = ('(w, r) ← parse_string X; Some (c :: w, r)).
Proof.
  intros. cbn [parse_string]. rewrite (proj2 (Z.eqb_neq c 34)), (proj2 (Z.eqb_neq c 92)) by lia.
  by rewrite (proj2 (Z.ltb_ge c 32)) by lia.
Qed.

Lemma parse_quote_unit c X : unit_ok c ->
  parse_string (quote_unit c ++ X) = ('(w, r) ← parse_string X; Some (c :: w, r)).
Proof.
  intros Hc. unfold quote_unit.
  repeat match goal with |- context [if ?x =? ?k then _ else _] =>
    destruct (Z.eqb_spec x k) as [-> |]; [reflexivity|] end.
  destruct ((c <? 32) || is_high c || is_low c) eqn:E; [by apply parse_u_escape|].
  bool_to_prop. by apply parse_plain.
Qed.

Lemma quote_body_two c d t : quote_body (c :: d :: t) =
  if is_high c && is_low d then c :: d :: quote_body t else quote_unit c ++ quote_body (d :: t).
Proof. reflexivity. Qed.

Lemma parse_quote_body s r : wf_str s -> parse_string (quote_body s ++ 34 :: r) = Some (s, r).
Proof.
  remember (length s) as n eqn:E. revert s E. induction n as [n IH] using lt_wf_ind.
  intros s -> H. destruct s as [|c [|d t]]; [done| |].
  - apply Forall_inv in H. cbn [quote_body]. by rewrite parse_quote_unit.
  - rewrite quote_body_two. apply Forall_cons in H as [Hc H]. destruct (is_high c && is_low d) eqn:P.
    + apply Forall_cons in H as [Hd H]. unfold is_high, is_low in P. bool_to_prop. cbn [app].
      rewrite parse_plain, parse_plain by lia. by rewrite (IH (length t)) by (simpl; lia || done).
    + rewrite <- app_assoc, parse_quote_unit by done.
      by rewrite (IH (length (d :: t))) by (simpl; lia || done).
Qed.

(** ** Lemmas: numbers *)

(** Without leading zeros: a positive number starts with a non-zero digit. *)
Lemma digs_head f n : 0 < n < 2 ^ Z.of_nat f -> exists c t, digs f n = c :: t /\ c <> 48.
Proof.
  revert n. induction f as [|f IH]; intros n Hn; [simpl in *; lia|].
  rewrite Nat2Z.inj_succ, Z.pow_succ_r in Hn by lia. simpl.
  destruct (Z.ltb_spec n 10); [exists (48 + n), []; split; [done|lia]|].
  destruct (IH (n / 10)) as (c & t & -> & Hc).
  { split; [apply Z.div_str_pos; lia|]. apply Z.div_lt_upper_bound; lia. }
  exists c, (t ++ [48 + n mod 10]). done.
Qed.

Lemma digits_head n : 0 < n -> exists c t, digits n = c :: t /\ c <> 48.
Proof.
  intros H. apply digs_head. split; [done|]. pose proof (Z.log2_nonneg n).
  rewrite Nat2Z.inj_succ, Z2Nat.id by lia. apply Z.log2_spec. lia.
Qed.

(** An integer literal parses back, whatever delimiter follows. *)
Lemma parse_digits (neg : bool) n r : 0 <= n <= 2 ^ 53 -> num_stop r ->
  parse_number ((if neg then [45] else []) ++ digits n ++ r) = Some (signed neg (int n), r).
Proof.
  intros Hn Hr. destruct (digits_spec n ltac:(lia)) as [V D].
  assert (Hd : match digits n ++ r with c :: _ => is_digit c = true | [] => False end).
  { pose proof (digits_nonempty n). by destruct D. }
  unfold parse_number.
  destruct (match _ with [] => _ | _ :: _ => _ end) as [b u] eqn:E.
  assert (b = neg /\ u = digits n ++ r) as [-> ->].
  { destruct neg; simpl in E; [by injection E as <- <-|].
    destruct (digits n ++ r) as [|c t]; [done|]. unfold is_digit in Hd. bool_to_prop.
    rewrite (proj2 (Z.eqb_neq c 45)) in E by lia. by injection E as <- <-. }
  rewrite span_all; [|done|by destruct r as [|? ?]; [|destruct Hr as [-> ?]]].
  assert (Z0 : startsWith [48] (digits n) && (1 <? Z.of_nat (length (digits n))) = false).
  { destruct (Z.eq_dec n 0) as [-> |]; [done|]. destruct (digits_head n ltac:(lia)) as (c & t & -> & ?).
    cbn [startsWith]. by destruct (Z.eqb_spec 48 c). }
  destruct (str_empty (digits n)) eqn:E1; [by apply str_empty_true, digits_nonempty in E1|].
  rewrite Z0. cbn [orb].
  assert (F : fraction_part r = ([], r) /\ startsWith [46] r = false /\ exponent_part r = Some (0, r)).
  { destruct r as [|c r]; [done|]. destruct Hr as (? & ? & ? & ?).
    cbn [fraction_part startsWith exponent_part].
    rewrite (proj2 (Z.eqb_neq c 46)), (proj2 (Z.eqb_neq 46 c)) by lia.
    by rewrite (proj2 (Z.eqb_neq c 101)), (proj2 (Z.eqb_neq c 69)) by lia. }
  destruct F as (-> & -> & ->). simpl. rewrite app_nil_r, V. unfold scale10. simpl.
  by rewrite Z.mul_1_r, rnd_int by lia.
Qed.

Lemma parse_number_int n r : Z.abs n <= 2 ^ 53 -> num_stop r ->
  parse_number (num_to_json (int n) ++ r) = Some (int n, r).
Proof.
  intros Hn Hr. unfold num_to_json, num_to_string, int. simpl.
  destruct (Z.eqb_spec n 0) as [-> |]; [apply (parse_digits false 0 r); [lia|done]|].
  unfold pos_to_string. simpl.
  destruct (Z.ltb_spec n 0).
  - rewrite (proj2 (Z.leb_le (- n) (2 ^ 53))) by lia.
    etransitivity; [apply (parse_digits true (- n) r); [lia|done]|]. simpl. by rewrite Z.opp_involutive.
  - rewrite (proj2 (Z.leb_le n (2 ^ 53))) by lia. apply (parse_digits false n r); [lia|done].
Qed.

(** ** Round trip *)

Fixpoint json_size (v : json) : nat :=
  match v with
  | JArr l => S (S (list_sum (map (fun x => S (json_size x)) l)))
  | JObj l => S (S (list_sum (map (fun kv => S (json_size kv.2)) l)))
  | _ => 1%nat
  end.

(** A stringified value starts with a unit that is neither white space nor a
    closing bracket. *)
Definition starts_value (s : jstr) : Prop :=
  match s with
  | c :: _ => is_json_ws c = false /\ c <> 93 /\ c <> 125
  | [] => False
  end.

Lemma skip_ws_value s : starts_value s -> skip_ws s = s.
Proof. destruct s as [|c s]; [done|]. intros [E _]. simpl. by rewrite E. Qed.

Lemma digits_starts n r : 0 <= n -> match digits n ++ r with c :: _ => 48 <= c <= 57 | [] => False end.
Proof.
  intros H. destruct (digits_spec n H) as [_ D]. pose proof (digits_nonempty n).
  destruct D as [|c t Hc]; [done|]. unfold is_digit in Hc. bool_to_prop. simpl. lia.
Qed.

Lemma starts_unit c s : is_json_ws c = false -> c <> 93 -> c <> 125 -> starts_value (c :: s).
Proof. done. Qed.

Lemma num_to_json_starts n r : Z.abs n <= 2 ^ 53 ->
  match num_to_json (int n) ++ r with c :: _ => 48 <= c <= 57 \/ c = 45 | [] => False end.
Proof.
  intros H. unfold num_to_json, num_to_string, int. simpl.
  destruct (Z.eqb_spec n 0) as [-> |]; [simpl; lia|]. unfold pos_to_string. simpl.
  destruct (Z.ltb_spec n 0); [by right|].
  rewrite (proj2 (Z.leb_le n (2 ^ 53))) by lia.
  pose proof (digits_starts n r ltac:(lia)). destruct (digits n ++ r); [done|]. by left.
Qed.

Lemma stringify_starts v r : wf_json v -> starts_value (stringify v ++ r).
Proof.
  destruct v as [|[]|[| |m [|]]|s|l|l]; try done; simpl wf_json; intros H.
  all: try (by apply starts_unit).
  pose proof (num_to_json_starts m r H) as S. change (stringify (JNum (Fin m 0))) with (num_to_json (int m)).
  destruct (num_to_json (int m) ++ r) as [|c t]; [done|].
  apply starts_unit; [unfold is_json_ws; repeat apply orb_false_intro; apply Z.eqb_neq; lia|lia|lia].
Qed.

Definition roundtrips (v : json) : Prop :=
  forall f r, (json_size v <= f)%nat -> num_stop r -> parse_value f (stringify v ++ r) = Some (v, r).

Lemma stop_comma r : num_stop (44 :: r).
Proof. done. Qed.
Lemma stop_bracket r : num_stop (93 :: r).
Proof. done. Qed.
Lemma stop_brace r : num_stop (125 :: r).
Proof. done. Qed.
#[export] Hint Resolve stop_comma stop_bracket stop_brace : voxel.

Lemma join_cons sep w ws : ws <> [] -> join sep (w :: ws) = w ++ sep ++ join sep ws.
Proof. by destruct ws. Qed.

Lemma parse_elements_join l f r : l <> [] -> Forall wf_json l -> Forall roundtrips l ->
  (list_sum (map (fun x => S (json_size x)) l) <= f)%nat ->
  parse_elements f (join [44] (map stringify l) ++ 93 :: r) = Some (l, r).
Proof.
  revert f. induction l as [|x l IH]; intros f Hn W H Hf; [done|].
  apply Forall_cons in H as [Hx H]. apply Forall_cons in W as [Wx W]. simpl in Hf.
  destruct f as [|f]; [lia|]. cbn [parse_elements map].
  destruct l as [|y l].
  - cbn [map join]. rewrite Hx by (lia || auto with voxel). reflexivity.
  - rewrite join_cons by done. rewrite <- !app_assoc. cbn [app].
    rewrite Hx by (lia || auto with voxel). simpl.
    rewrite IH by (done || lia). done.
Qed.

Lemma parse_members_join l f r : l <> [] -> Forall (fun kv => wf_str kv.1 /\ wf_json kv.2) l ->
  Forall (fun kv => roundtrips kv.2) l ->
  (list_sum (map (fun kv => S (json_size kv.2)) l) <= f)%nat ->
  parse_members f (join [44] (map (fun kv => quote kv.1 ++ [58] ++ stringify kv.2) l) ++ 125 :: r) = Some (l, r).
Proof.
  revert f. induction l as [|[k x] l IH]; intros f Hn W H Hf; [done|].
  apply Forall_cons in H as [Hx H]. apply Forall_cons in W as [[Wk Wx] W]. simpl in Hf, Hx, Wk, Wx.
  destruct f as [|f]; [lia|]. cbn [parse_members map fst snd].
  destruct l as [|y l].
  - cbn [map join]. unfold quote. repeat (rewrite <- app_assoc; simpl).
    rewrite parse_quote_body by done. simpl. rewrite Hx by (lia || auto with voxel). done.
  - rewrite join_cons by done.
    assert (Hr : parse_members f (join [44] (map (fun kv => quote kv.1 ++ [58] ++ stringify kv.2) (y :: l))
                   ++ 125 :: r) = Some (y :: l, r)) by (apply IH; done || lia).
    revert Hr. generalize (join [44] (map (fun kv => quote kv.1 ++ [58] ++ stringify kv.2) (y :: l))) as rest.
    intros rest Hr. unfold quote. repeat (rewrite <- app_assoc; simpl).
    rewrite parse_quote_body by done. simpl. rewrite Hx by (lia || auto with voxel). simpl. by rewrite Hr.
Qed.

Lemma parse_value_stringify v : wf_json v -> roundtrips v.
Proof.
  induction v as [|b|n|s|l IH|l IH] using json_ind_nested; intros W f r Hf Hr;
    (destruct f as [|f]; [simpl in Hf; lia|]).
  - done.
  - by destruct b.
  - destruct n as [| |m [|]]; try done. simpl in W. cbn [stringify].
    change (Fin m 0) with (int m). cbn [parse_value].
    pose proof (num_to_json_starts m r W) as S. pose proof (parse_number_int m r W Hr) as Pn.
    rewrite skip_ws_value by (apply (stringify_starts (JNum (int m)) r); done).
    destruct (num_to_json (int m) ++ r) as [|c t]; [done|].
    repeat (rewrite (proj2 (Z.eqb_neq c _)) by lia). by rewrite Pn.
  - simpl in *. rewrite <- app_assoc. simpl. by rewrite parse_quote_body.
  - apply wf_json_arr in W as W'. simpl in Hf.
    assert (R : Forall roundtrips l) by (clear -IH W'; induction IH; inversion W'; subst; constructor; auto).
    destruct l as [|x l]; [done|]. cbn [stringify]. cbn [app]. cbn [parse_value skip_ws].
    rewrite <- app_assoc. cbn [app].
    assert (S : starts_value (join [44] (map stringify (x :: l)) ++ 93 :: r)).
    { apply Forall_cons in W' as [Wx _]. destruct l; cbn [map join].
      - by apply stringify_starts.
      - rewrite <- app_assoc. by apply stringify_starts. }
    cbn [is_json_ws Z.eqb Pos.eqb orb]. rewrite skip_ws_value by done.
    destruct (join [44] (map stringify (x :: l)) ++ 93 :: r) as [|d t] eqn:E; [done|].
    destruct S as (_ & ? & _). rewrite (proj2 (Z.eqb_neq d 93)) by done.
    rewrite <- E, parse_elements_join; [done|done|done|done|lia].
  - apply wf_json_obj in W as [Wo W']. simpl in Hf.
    assert (R : Forall (fun kv => roundtrips kv.2) l).
    { clear -IH W'. induction IH; inversion W'; subst; constructor; intuition auto. }
    destruct l as [|x l]; [done|]. cbn [stringify]. cbn [app]. cbn [parse_value skip_ws].
    rewrite <- app_assoc. cbn [app]. cbn [is_json_ws Z.eqb Pos.eqb orb].
    set (body := join [44] _).
    assert (S : exists t, body ++ 125 :: r = 34 :: t).
    { subst body. unfold quote. destruct l; cbn [map join]; simpl; eauto. }
    destruct S as [t S]. rewrite S. cbn [skip_ws is_json_ws Z.eqb Pos.eqb orb]. rewrite <- S. subst body.
    rewrite parse_members_join by (done || lia). simpl. by rewrite Wo.
Qed.

Lemma list_sum_le {A} (g h : A -> nat) l : (forall x, x ∈ l -> (g x <= h x)%nat) ->
  (list_sum (map g l) <= list_sum (map h l))%nat.
Proof.
  induction l as [|x l IH]; intros H; simpl; [done|].
  pose proof (H x ltac:(set_solver)). assert (list_sum (map g l) <= list_sum (map h l))%nat by (apply IH; set_solver).
  lia.
Qed.

Lemma join_length sep l : (list_sum (map length l) <= length (join sep l))%nat.
Proof.
  induction l as [|w [|w' l] IH]; simpl in *; [done|lia|]. rewrite !length_app. lia.
Qed.

Lemma stringify_nonempty v : wf_json v -> (1 <= length (stringify v))%nat.
Proof.
  intros W. pose proof (stringify_starts v [] W) as S. rewrite app_nil_r in S.
  destruct (stringify v); [done|simpl; lia].
Qed.

Lemma join_length_sep c l : (list_sum (map length l) + length l <= S (length (join [c] l)))%nat.
Proof.
  induction l as [|w [|w' l] IH]; simpl in *; [lia|lia|]. rewrite !length_app. simpl. lia.
Qed.

Lemma list_sum_S {A} (g : A -> nat) l : list_sum (map (fun x => S (g x)) l) = (list_sum (map g l) + length l)%nat.
Proof. induction l as [|x l IH]; simpl; [done|]. rewrite IH. lia. Qed.

Lemma list_sum_double {A} (g : A -> nat) l :
  list_sum (map (fun x => 2 * g x)%nat l) = (2 * list_sum (map g l))%nat.
Proof.
  induction l as [|x l IH]; [done|]. cbn [map]. unfold list_sum in *. cbn [foldr]. rewrite IH. lia.
Qed.

(** The fuel of [json_parse] covers every stringified value. *)
Lemma json_size_le v : wf_json v -> (json_size v <= 2 * length (stringify v))%nat.
Proof.
  induction v as [|b|n|s|l IH|l IH] using json_ind_nested; intros W.
  1-4: pose proof (stringify_nonempty _ W); simpl in *; lia.
  - apply wf_json_arr in W. cbn [json_size stringify]. rewrite !length_app, list_sum_S. cbn [length].
    pose proof (join_length_sep 44 (map stringify l)) as J. rewrite map_map, length_map in J.
    assert (list_sum (map json_size l) <= list_sum (map (fun x => 2 * length (stringify x)) l))%nat as B.
    { apply list_sum_le. intros x Hx. rewrite Forall_forall in IH, W. auto. }
    rewrite list_sum_double in B. lia.
  - apply wf_json_obj in W as [_ W]. cbn [json_size stringify]. rewrite !length_app, list_sum_S. cbn [length].
    set (member := fun kv : jstr * json => quote kv.1 ++ [58] ++ stringify kv.2).
    pose proof (join_length_sep 44 (map member l)) as J. rewrite map_map, length_map in J.
    assert (list_sum (map (fun kv => json_size kv.2) l) <= list_sum (map (fun kv => 2 * length (member kv)) l))%nat as B.
    { apply list_sum_le. intros x Hx. rewrite Forall_forall in IH, W.
      pose proof (IH x Hx (proj2 (W x Hx))). subst member. simpl. rewrite !length_app. simpl. lia. }
    rewrite list_sum_double in B. lia.
Qed.

(** Parsing what was stringified gives the value back. *)
Lemma json_parse_stringify v : wf_json v -> json_parse (stringify v) = Ret v.
Proof.
  intros W. unfold json_parse.
  pose proof (parse_value_stringify v W (2 * length (stringify v) + 2)%nat []) as R.
  rewrite app_nil_r in R. rewrite R; [done| |done]. pose proof (json_size_le v W). lia.
Qed.

(** Stringification is uniquely decodable in front of a delimiter. *)
Lemma stringify_inj v w r1 r2 : wf_json v -> wf_json w -> num_stop r1 -> num_stop r2 ->
  stringify v ++ r1 = stringify w ++ r2 -> v = w /\ r1 = r2.
Proof.
  intros Wv Ww H1 H2 E.
  pose proof (parse_value_stringify v Wv (json_size v + json_size w)%nat r1 ltac:(lia) H1) as P1.
  pose proof (parse_value_stringify w Ww (json_size v + json_size w)%nat r2 ltac:(lia) H2) as P2.
  rewrite E, P2 in P1. by injection P1 as -> ->.
Qed.
