(* ===== verification/JsonPretty.v ===== *)
(** * Reading back indented JSON

    [JSON.parse] inverts [JSON.stringify(v, null, 2)]: the text the plugin form
    and the trace viewers show is another spelling of the same value. *)

From S2P Require Import Prelude JsNumber Money JsString Json.

Definition nl (k : nat) : jstr := [10] ++ replicate k 32.

Lemma skip_spaces k s : skip_ws (replicate k 32 ++ s) = skip_ws s.
Proof. by induction k. Qed.

Lemma skip_nl k s : skip_ws (nl k ++ s) = skip_ws s.
Proof. unfold nl. cbn [app]. change (skip_ws (10 :: replicate k 32 ++ s)) with (skip_ws (replicate k 32 ++ s)). apply skip_spaces. Qed.

Lemma parse_value_nl f k s : parse_value f (nl k ++ s) = parse_value f s.
Proof. destruct f; [done|]. cbn [parse_value]. by rewrite skip_nl. Qed.

Lemma parse_value_sp f s : parse_value f (32 :: s) = parse_value f s.
Proof. by destruct f. Qed.

Lemma parse_elements_nl f k s : parse_elements f (nl k ++ s) = parse_elements f s.
Proof. destruct f; [done|]. cbn [parse_elements]. by rewrite parse_value_nl. Qed.

Lemma parse_members_nl f k s : parse_members f (nl k ++ s) = parse_members f s.
Proof. destruct f; [done|]. cbn [parse_members]. by rewrite skip_nl. Qed.


Definition reads_back (v : json) : Prop :=
  forall i f r, (json_size v <= f)%nat -> num_stop r -> parse_value f (stringify_pretty i v ++ r) = Some (v, r).

Definition elements_text (k : nat) (l : list json) : jstr := join ([44] ++ nl k) (map (stringify_pretty k) l).

Definition member_text (k : nat) (kv : jstr * json) : jstr := quote kv.1 ++ js ": " ++ stringify_pretty k kv.2.
Definition members_text (k : nat) (l : list (jstr * json)) : jstr := join ([44] ++ nl k) (map (member_text k) l).

Lemma pretty_arr i x l : stringify_pretty i (JArr (x :: l)) = [91] ++ nl (i + 2) ++ elements_text (i + 2) (x :: l) ++ nl i ++ [93].
Proof. done. Qed.

Lemma pretty_obj i x l : stringify_pretty i (JObj (x :: l)) = [123] ++ nl (i + 2) ++ members_text (i + 2) (x :: l) ++ nl i ++ [125].
Proof. done. Qed.

Lemma pretty_starts i v r : wf_json v -> starts_value (stringify_pretty i v ++ r).
Proof.
  destruct v as [|b|n|s|[|x l]|[|x l]]; intros W; try exact (stringify_starts _ r W); by apply starts_unit.
Qed.

Lemma parse_elements_pretty k i l f r : l <> [] -> Forall reads_back l -> (list_sum (map (fun x => S (json_size x)) l) <= f)%nat ->
  parse_elements f (elements_text k l ++ nl i ++ 93 :: r) = Some (l, r).
Proof.
  revert f. induction l as [|x l IH]; intros f Hn H Hf; [done|]. apply Forall_cons in H as [Hx H]. simpl in Hf.
  destruct f as [|f]; [lia|]. unfold elements_text in *. cbn [parse_elements map]. destruct l as [|y l].
  - cbn [map join]. rewrite Hx; [|lia|done]. cbn [mbind option_bind]. rewrite skip_nl. done.
  - rewrite join_cons by done. rewrite <- !app_assoc. rewrite Hx; [|lia|done]. cbn [mbind option_bind app skip_ws].
    change (is_json_ws 44) with false. change (44 =? 93) with false. change (44 =? 44) with true. cbv iota.
    rewrite parse_elements_nl, IH by (done || lia). done.
Qed.

Lemma parse_members_pretty k i l f r : l <> [] -> Forall (fun kv => wf_str kv.1) l -> Forall (fun kv => reads_back kv.2) l ->
  (list_sum (map (fun kv => S (json_size kv.2)) l) <= f)%nat ->
  parse_members f (members_text k l ++ nl i ++ 125 :: r) = Some (l, r).
Proof.
  revert f. induction l as [|[key x] l IH]; intros f Hn W H Hf; [done|].
  apply Forall_cons in H as [Hx H]. apply Forall_cons in W as [Wk W]. simpl in Hf, Hx, Wk.
  destruct f as [|f]; [lia|]. unfold members_text in *. cbn [parse_members map].
  assert (K : forall rest, parse_string (quote_body key ++ 34 :: js ": " ++ rest) = Some (key, js ": " ++ rest))
    by (intros rest; by apply parse_quote_body).
  destruct l as [|y l].
  - cbn [map join]. unfold member_text, quote. cbn [fst snd]. rewrite <- !app_assoc. cbn [app skip_ws].
    change (is_json_ws 34) with false. change (34 =? 34) with true. cbv iota. rewrite K. cbn [mbind option_bind].
    change (js ": ") with [58; 32]. cbn [app skip_ws]. change (is_json_ws 58) with false. change (58 =? 58) with true. cbv iota.
    rewrite parse_value_sp, Hx; [|lia|done]. cbn [mbind option_bind]. rewrite skip_nl. done.
  - rewrite join_cons by done. assert (R := IH f ltac:(done) W H ltac:(lia)). revert R.
    generalize (join ([44] ++ nl k) (map (member_text k) (y :: l))) as rest. intros rest R.
    unfold member_text, quote. cbn [fst snd]. rewrite <- !app_assoc. cbn [app skip_ws].
    change (is_json_ws 34) with false. change (34 =? 34) with true. cbv iota. rewrite K. cbn [mbind option_bind].
    change (js ": ") with [58; 32]. cbn [app skip_ws]. change (is_json_ws 58) with false. change (58 =? 58) with true. cbv iota.
    rewrite parse_value_sp, Hx; [|lia|done]. cbn [mbind option_bind skip_ws].
    change (is_json_ws 44) with false. change (44 =? 125) with false. change (44 =? 44) with true. cbv iota.
    by rewrite parse_members_nl, R.
Qed.

Lemma parse_pretty v : wf_json v -> reads_back v.
Proof.
  induction v as [|b|n|s|l IH|l IH] using json_ind_nested; intros W;
    try (intros i f r Hf Hr; by apply parse_value_stringify).
  - apply wf_json_arr in W as W'.
    assert (R : Forall reads_back l) by (clear -IH W'; induction IH; inversion W'; subst; constructor; auto).
    destruct l as [|x l]; [intros i f r Hf Hr; exact (parse_value_stringify (JArr []) W f r Hf Hr)|].
    intros i f r Hf Hr. destruct f as [|f]; [simpl in Hf; lia|]. simpl in Hf. rewrite pretty_arr, <- !app_assoc. cbn [app parse_value skip_ws].
    change (is_json_ws 91) with false. change (91 =? 34) with false. change (91 =? 91) with true. cbv iota. rewrite skip_nl.
    pose proof (parse_elements_pretty (i + 2) i (x :: l) f r ltac:(done) R ltac:(simpl; lia)) as P.
    assert (S : starts_value (elements_text (i + 2) (x :: l) ++ nl i ++ 93 :: r)).
    { apply Forall_cons in W' as [Wx _]. unfold elements_text. destruct l; cbn [map join]; rewrite <- ?app_assoc; by apply pretty_starts. }
    rewrite skip_ws_value by done. destruct (elements_text _ _ ++ _) as [|d t] eqn:E; [done|].
    destruct S as (_ & ? & _). rewrite (proj2 (Z.eqb_neq d 93)) by done. by rewrite P.
  - apply wf_json_obj in W as [Wo W'].
    assert (R : Forall (fun kv => reads_back kv.2) l) by (clear -IH W'; induction IH; inversion W'; subst; constructor; intuition auto).
    assert (K : Forall (fun kv : jstr * json => wf_str kv.1) l) by (eapply Forall_impl; [exact W'|]; by intros ? [? _]).
    destruct l as [|x l]; [intros i f r Hf Hr; exact (parse_value_stringify (JObj []) ltac:(by apply wf_json_obj) f r Hf Hr)|].
    intros i f r Hf Hr. destruct f as [|f]; [simpl in Hf; lia|]. simpl in Hf. rewrite pretty_obj, <- !app_assoc. cbn [app parse_value skip_ws].
    change (is_json_ws 123) with false. change (123 =? 34) with false. change (123 =? 91) with false. change (123 =? 123) with true. cbv iota.
    rewrite skip_nl. pose proof (parse_members_pretty (i + 2) i (x :: l) f r ltac:(done) K R ltac:(simpl; lia)) as P.
    assert (S : exists t, members_text (i + 2) (x :: l) ++ nl i ++ 125 :: r = 34 :: t)
      by (unfold members_text, member_text, quote; destruct l; cbn [map join]; simpl; eauto).
    destruct S as [t S]. rewrite S in P |- *. cbn [skip_ws]. change (is_json_ws 34) with false. cbv iota.
    change (34 =? 125) with false. cbv iota. rewrite P. cbn [mbind option_bind]. by rewrite Wo.
Qed.

(** Indentation only adds code units, so the fuel of [json_parse] covers it. *)
Lemma join_longer s1 s2 l1 l2 : (length s1 <= length s2)%nat -> Forall2 (fun a b : jstr => (length a <= length b)%nat) l1 l2 ->
  (length (join s1 l1) <= length (join s2 l2))%nat.
Proof.
  intros S F. induction F as [|a b l1 l2 L F IH]; [done|]. destruct F as [|a' b' l1 l2 L' F]; [simpl; lia|].
  rewrite (join_cons s1), (join_cons s2) by done. rewrite !length_app. unfold jstr in *. lia.
Qed.

Lemma pretty_longer i v : (length (stringify v) <= length (stringify_pretty i v))%nat.
Proof.
  revert i. induction v as [|b|n|s|l IH|l IH] using json_ind_nested; intros i; try done.
  - destruct l as [|x l]; [done|]. rewrite pretty_arr. cbn [stringify]. rewrite !length_app.
    enough (length (join [44%Z] (map stringify (x :: l))) <= length (elements_text (i + 2) (x :: l)))%nat by lia.
    apply join_longer; [rewrite length_app; simpl; lia|]. revert IH. generalize (x :: l). intros l' F.
    induction F; constructor; auto.
  - destruct l as [|x l]; [done|]. rewrite pretty_obj. cbn [stringify]. rewrite !length_app.
    enough (length (join [44%Z] (map (fun kv => quote kv.1 ++ [58%Z] ++ stringify kv.2) (x :: l))) <= length (members_text (i + 2) (x :: l)))%nat by lia.
    apply join_longer; [rewrite length_app; simpl; lia|]. revert IH. generalize (x :: l). intros l' F.
    induction F as [|y l' Hy F IHF]; constructor; auto. unfold member_text. rewrite !length_app. specialize (Hy (i + 2)%nat). simpl. lia.
Qed.

(** Parsing an indented rendering gives the value back. *)
Lemma json_parse_pretty v : wf_json v -> json_parse (stringify_pretty 0 v) = Ret v.
Proof.
  intros W. unfold json_parse. pose proof (parse_pretty v W 0%nat (2 * length (stringify_pretty 0 v) + 2)%nat []) as R.
  rewrite app_nil_r in R. rewrite R; [done| |done]. pose proof (json_size_le v W). pose proof (pretty_longer 0 v). lia.
Qed.
