(* ===== verification/AdminRuntime.v ===== *)
(** * Server-side runtime of the Control Panel

    The typed admin client of the SDK ([sdk/typescript/src/admin.ts]), the
    encrypted session ([web/src/lib/session.ts]), the client factories
    ([web/src/lib/admin.ts]), the error helpers ([web/src/lib/errors.ts],
    [web/src/lib/i18n-errors.ts]) and the permission checks
    ([web/src/lib/permissions.ts], the dashboard layout).  Server code runs in
    a monad of requests, cookie writes, cache revalidations and exceptions.
    The iron-session library and the admin API behind openapi-fetch are the
    interfaces [IronSession] and [AdminApi]. *)

From S2P Require Import Prelude JsNumber JsString Json.

(** ** Data *)

Record SessionData : Type := {
  token : option jstr;
  email : option jstr;
  role : option jstr;
  roleID : option num;
  scopeKind : option jstr;
  permissions : option (list jstr);
  tenantName : option jstr;
}.

Definition empty_session : SessionData :=
  {| token := None; email := None; role := None; roleID := None; scopeKind := None;
     permissions := None; tenantName := None |}.

Record SessionOptions : Type := {
  password : jstr;
  cookieName : jstr;
  httpOnly : bool;
  sameSite : jstr;
  secure : bool;
  cookiePath : jstr;
}.

(** [process.env] *)
Record env : Type := {
  ADMIN_URL : option jstr;
  SESSION_SECRET : option jstr;
  NODE_ENV : option jstr;
}.

Record AdminClient : Type := {
  baseUrl : jstr;
  headers : list (jstr * jstr);
  credentials : option jstr;
}.

Inductive http_method : Type := GET | POST | PUT | PATCH | DELETE.

(** The options object of an openapi-fetch call. *)
Record api_opts : Type := {
  path_params : list (jstr * json);
  query_params : list (jstr * unknown);
  body : unknown;
}.

Definition no_opts : api_opts := {| path_params := []; query_params := []; body := None |}.
Definition with_body (b : json) : api_opts := {| path_params := []; query_params := []; body := Some b |}.
Definition with_path (k : jstr) (v : json) : api_opts :=
  {| path_params := [(k, v)]; query_params := []; body := None |}.

(** [{ data, error, response }] *)
Record api_result : Type := {
  data : unknown;
  error : unknown;
  status : Z;
}.

(** [response.ok] of the Fetch standard. *)
Definition response_ok (r : api_result) : bool := (200 <=? status r) && (status r <=? 299).

Inductive event : Type :=
  | Sent (client : AdminClient) (meth : http_method) (path : jstr) (opts : api_opts)
  | Revalidated (path : jstr).

(** ** Interfaces *)

(** The cookie store as iron-session seals, opens and destroys it.  Sealing
    fails when the cookie would exceed the 4,096 bytes browsers accept. *)
Class IronSession (St : Type) : Type := {
  iron_load : SessionOptions -> St -> SessionData;
  iron_save : SessionOptions -> SessionData -> St -> result St;
  iron_destroy : SessionOptions -> St -> St;
}.

(** A sealed session is read back as it was, a refused one is reported with a
    plain [Error], a destroyed one is read back empty. *)
Class IronLaws (St : Type) `{IronSession St} : Prop := {
  iron_load_save : forall o d s s', iron_save o d s = Ret s' -> iron_load o s' = d;
  iron_save_plain : forall o d s e, iron_save o d s = Throw e -> exists n t, e = EError n t;
  iron_load_destroy : forall o s, iron_load o (iron_destroy o s) = empty_session;
}.

(** The admin API as seen through openapi-fetch. *)
Class AdminApi (Bk : Type) : Type :=
  api_call : AdminClient -> http_method -> jstr -> api_opts -> Bk -> result api_result * Bk.

(** openapi-fetch reports HTTP failures in its result; what it throws are the
    errors of [fetch] itself, never the SDK's [AdminError] or a redirect. *)
Class PlainFetch (Bk : Type) `{AdminApi Bk} : Prop :=
  api_throws_plain : forall c m p o b e b',
    api_call c m p o b = (Throw e, b') -> exists n t, e = EError n t.

(** ** The server monad *)

Record world (St Bk : Type) : Type := {
  w_env : env;
  w_store : St;
  w_backend : Bk;
  w_log : list event;
}.
Arguments w_env {St Bk} w.
Arguments w_store {St Bk} w.
Arguments w_backend {St Bk} w.
Arguments w_log {St Bk} w.

Definition M (St Bk A : Type) : Type := world St Bk -> result A * world St Bk.

#[global] Instance M_ret {St Bk} : MRet (M St Bk) := fun A a w => (Ret a, w).
#[global] Instance M_bind {St Bk} : MBind (M St Bk) := fun A B f m w =>
  match m w with
  | (Ret a, w') => f a w'
  | (Throw e, w') => (Throw e, w')
  end.
#[global] Instance M_fmap {St Bk} : FMap (M St Bk) := fun A B f m w =>
  match m w with
  | (Ret a, w') => (Ret (f a), w')
  | (Throw e, w') => (Throw e, w')
  end.

Definition throw {St Bk A} (e : exn) : M St Bk A := fun w => (Throw e, w).
Definition lift {St Bk A} (r : result A) : M St Bk A := fun w => (r, w).

(** [try { m } catch (e) { h e }] *)
Definition try_catch {St Bk A} (m : M St Bk A) (h : exn -> M St Bk A) : M St Bk A := fun w =>
  match m w with
  | (Ret a, w') => (Ret a, w')
  | (Throw e, w') => h e w'
  end.

Definition getenv {St Bk} : M St Bk env := fun w => (Ret (w_env w), w).

Definition read_store {St Bk} : M St Bk St := fun w => (Ret (w_store w), w).
Definition write_store {St Bk} (s : St) : M St Bk unit := fun w =>
  (Ret tt, {| w_env := w_env w; w_store := s; w_backend := w_backend w; w_log := w_log w |}).

(** Next.js [redirect]: does not return. *)
Definition redirect {St Bk A} (href : jstr) : M St Bk A := throw (ERedirect href None).

(** next-intl's locale-aware [redirect]. *)
Definition redirect_locale {St Bk A} (href locale : jstr) : M St Bk A := throw (ERedirect href (Some locale)).

Definition revalidatePath {St Bk} (p : jstr) : M St Bk unit := fun w =>
  (Ret tt, {| w_env := w_env w; w_store := w_store w; w_backend := w_backend w;
              w_log := w_log w ++ [Revalidated p] |}).

(** ** Session *)

Definition COOKIE_NAME : jstr := "voxeltoad_admin_session".

Definition requireSessionSecret (e : env) : result jstr :=
  match SESSION_SECRET e with
  | Some secret =>
      if str_empty secret || (Z.of_nat (length secret) <? 32)
      then Throw (err_error "SESSION_SECRET must be set and at least 32 characters (see web/.env.example)")
      else Ret secret
  | None => Throw (err_error "SESSION_SECRET must be set and at least 32 characters (see web/.env.example)")
  end.

Definition sessionOptions (e : env) : result SessionOptions :=
  pw ← requireSessionSecret e;
  Ret {| password := pw; cookieName := COOKIE_NAME; httpOnly := true; sameSite := "lax";
         secure := match NODE_ENV e with Some s => streq s "production" | None => false end;
         cookiePath := "/" |}.

Section Session.
  Context {St Bk : Type} `{IronSession St}.

Definition getSession : M St Bk SessionData :=
  e ← getenv; o ← lift (sessionOptions e);
  s ← read_store; mret (iron_load o s).

Definition getToken : M St Bk (option jstr) :=
  session ← getSession; mret (token session).

(** Every field of the handle is assigned, then sealed into the cookie. *)
Definition setSession (d : SessionData) : M St Bk unit :=
  _ ← getSession;
  let session :=
    {| token := token d; email := email d; role := role d; roleID := roleID d;
       scopeKind := scopeKind d; permissions := permissions d; tenantName := tenantName d |} in
  e ← getenv; o ← lift (sessionOptions e);
  s ← read_store; s' ← lift (iron_save o session s); write_store s'.

Definition clearSession : M St Bk unit :=
  _ ← getSession;
  e ← getenv; o ← lift (sessionOptions e);
  s ← read_store; write_store (iron_destroy o s).

End Session.

(** ** The SDK's admin client *)

Definition createAdminClient (base : jstr) (tok : option jstr) (cred : option jstr) : AdminClient :=
  {| baseUrl := base;
     headers := match tok with
                | Some t => if str_empty t then [] else [(js "Authorization", js "Bearer " ++ t)]
                | None => []
                end;
     credentials := cred |}.

(** [error?.error?.message] and [error?.error?.type], at their schema types. *)
Definition error_message (e : unknown) : option jstr := as_string (opt_prop (opt_prop e "error") "message").
Definition error_type (e : unknown) : option jstr := as_string (opt_prop (opt_prop e "error") "type").

(** [new AdminError(status, body)] *)
Definition AdminError (st : Z) (b : unknown) : exn :=
  EAdmin st (default (js "api_error") (error_type b))
    (default (js "admin request failed (" ++ zstr st ++ js ")") (error_message b)).

Definition unwrap (r : result api_result) : result unknown :=
  res ← r;
  if match error res with Some _ => true | None => false end || negb (response_ok res)
  then Throw (AdminError (status res) (error res))
  else Ret (data res).

Section Clients.
  Context {St Bk : Type} `{IronSession St} `{AdminApi Bk}.

Definition serverAdminClient : M St Bk AdminClient :=
  e ← getenv;
  match ADMIN_URL e with
  | Some base =>
      if str_empty base then throw (err_error "ADMIN_URL must be set (see web/.env.example)")
      else t ← getToken; mret (createAdminClient base t None)
  | None => throw (err_error "ADMIN_URL must be set (see web/.env.example)")
  end.

Definition anonAdminClient : M St Bk AdminClient :=
  e ← getenv;
  match ADMIN_URL e with
  | Some base =>
      if str_empty base then throw (err_error "ADMIN_URL must be set (see web/.env.example)")
      else mret (createAdminClient base None None)
  | None => throw (err_error "ADMIN_URL must be set (see web/.env.example)")
  end.

(** [await client.<METHOD>(path, opts)] *)
Definition api (c : AdminClient) (m : http_method) (path : jstr) (o : api_opts) : M St Bk api_result :=
  fun w =>
    let '(r, b') := api_call c m path o (w_backend w) in
    (r, {| w_env := w_env w; w_store := w_store w; w_backend := b';
           w_log := w_log w ++ [Sent c m path o] |}).

End Clients.

(** ** Error mapping *)

Record MappedError : Type := { key : option jstr; fallback : jstr }.

Definition mapBackendError (message : jstr) : MappedError :=
  let prefix := js "errors." in
  if startsWith prefix message then
    let rest := drop (length prefix) message in
    let colonIdx := indexOf ": " rest in
    let keyPart := match colonIdx with Some i => take i rest | None => rest end in
    if includes "." keyPart then
      {| key := Some keyPart;
         fallback := match colonIdx with Some i => trim (drop (i + 2) rest) | None => message end |}
    else {| key := None; fallback := message |}
  else {| key := None; fallback := message |}.

(** [err instanceof Error] holds of every modelled exception. *)
Definition mapBackendErr (e : exn) : MappedError := mapBackendError (exn_message e).

Inductive FormResult : Type :=
  | FOk
  | FErr (err : jstr) (errorKey : option jstr).

(** [{ ok: false, error: mapped.fallback, errorKey: mapped.key }] *)
Definition mapped_error (message : jstr) : FormResult :=
  let mapped := mapBackendError message in FErr (fallback mapped) (key mapped).

(** [error || !response.ok] *)
Definition failed (r : api_result) : bool := truthy (error r) || negb (response_ok r).

Inductive ForbiddenOutcome : Type := Forbidden (message : jstr).

Section Errors.
  Context {St Bk : Type} `{IronSession St}.

Definition onAuthExpired {A} (err : exn) : M St Bk A :=
  match err with
  | EAdmin st _ _ => if st =? 401 then redirect "/logout" else throw err
  | _ => throw err
  end.

Definition handleAdminError (err : exn) : M St Bk ForbiddenOutcome :=
  match err with
  | EAdmin st _ m =>
      if st =? 401 then redirect "/logout"
      else if st =? 403 then mret (Forbidden m) else throw err
  | _ => throw err
  end.

Definition toFormError (err : exn) : M St Bk FormResult :=
  match err with
  | EAdmin st _ m =>
      if st =? 401 then _ ← clearSession; redirect "/login"
      else mret (FErr m None)
  | _ => mret (FErr "unexpected error" None)
  end.

(** The [try] block shared by the form actions: [Some r] is an early
    [return r] inside the block, [None] falls through to the code after it. *)
Definition try_form (body : M St Bk (option FormResult)) (after : M St Bk FormResult) : M St Bk FormResult :=
  early ← try_catch body (fun e => Some <$> toFormError e);
  match early with Some r => mret r | None => after end.

(** [if (error || !response.ok) return mapped(error?.error?.message ?? d)] *)
Definition check_result (r : api_result) (d : jstr) : option FormResult :=
  if failed r then Some (mapped_error (default d (error_message (error r)))) else None.

(** [revalidatePath(p); return { ok: true }] *)
Definition revalidate_ok (ps : list jstr) : M St Bk FormResult :=
  (fix go ps := match ps with [] => mret FOk | p :: t => _ ← revalidatePath p; go t end) ps.

(** GET /logout *)
Definition logout_GET : M St Bk jstr := _ ← clearSession; mret (js "/login").

End Errors.

(** ** Permissions *)

Definition has (session : SessionData) (perm : jstr) : bool :=
  match permissions session with
  | None | Some [] => false
  | Some ps => if array_includes ps "*" then true else array_includes ps perm
  end.

Definition hasAny (session : SessionData) (perms : list jstr) : bool := existsb (has session) perms.

Record NavPerms : Type := {
  np_overview : jstr; np_provider : jstr; np_tenant : jstr; np_operator : jstr; np_role : jstr;
  np_configHistory : jstr; np_settings : jstr; np_dataplane : jstr; np_apiKey : jstr;
  np_application : jstr; np_budget : jstr; np_usage : jstr; np_audit : jstr; np_requestLog : jstr;
}.

Definition NAV_PERMS : NavPerms := {|
  np_overview := "overview.read"; np_provider := "provider.read"; np_tenant := "tenant.read";
  np_operator := "operator.read"; np_role := "role.read"; np_configHistory := "config_history.read";
  np_settings := "settings.read"; np_dataplane := "dataplane.read"; np_apiKey := "api_key.read";
  np_application := "application.read"; np_budget := "budget.read"; np_usage := "usage.read";
  np_audit := "audit.read"; np_requestLog := "request_log.read" |}.

(** The links of the sidebar, in order. *)
Definition nav_links (session : SessionData) : list jstr :=
  let N := NAV_PERMS in
  let link (b : bool) (l : list string) : list jstr := if b then map js l else [] in
  let scope (k : jstr) := match scopeKind session with Some s => streq s k | None => false end in
  (if scope "global" then
     link (has session (np_overview N)) ["/overview"]
     ++ link (has session (np_provider N)) ["/providers"; "/models"; "/routes"; "/plugins"]
     ++ link (has session (np_tenant N)) ["/tenants"]
     ++ link (has session (np_operator N)) ["/operators"]
     ++ link (has session (np_role N)) ["/roles"]
     ++ link (has session (np_configHistory N)) ["/config/history"]
     ++ link (has session (np_settings N)) ["/settings"]
     ++ link (has session (np_dataplane N)) ["/data-plane-nodes"]
   else [])
  ++ link (scope "tenant" && has session (np_apiKey N)) ["/api-keys"; "/groups"; "/applications"; "/quotas"]
  ++ link (has session (np_budget N)) ["/budgets"]
  ++ link (has session (np_usage N)) ["/usage"]
  ++ link (has session (np_audit N)) ["/audit"]
  ++ link (has session (np_requestLog N)) ["/request-logs"]
  ++ link (has session (np_requestLog N)) ["/trace"].

Section Layout.
  Context {St Bk : Type} `{IronSession St}.
  (** next-intl's request locale. *)
  Variable locale : jstr.

Definition DashboardLayout : M St Bk (list jstr) :=
  session ← getSession;
  if match token session with Some t => str_empty t | None => true end
     || match role session with Some r => str_empty r | None => true end
  then redirect_locale "/login" locale
  else mret (nav_links session).

End Layout.

(** ** Lemmas: error mapping *)

Lemma drop_app_prefix (p r : jstr) : drop (length p) (p ++ r) = r.
Proof. apply drop_app_length. Qed.

Lemma startsWith_self_app p r : startsWith p (p ++ r) = true.
Proof. apply startsWith_app. Qed.

(** The index found splits the string at its first occurrence. *)
Lemma indexOf_first sub s i : sub <> [] -> indexOf sub s = Some i ->
  s = take i s ++ sub ++ drop (i + length sub) s /\ indexOf sub (take i s) = None.
Proof. intros Hn H. by destruct (indexOf_some sub s i H) as [?|?]. Qed.

Lemma indexOf_colon k ctx : indexOf (js ": ") k = None ->
  indexOf (js ": ") (k ++ js ": " ++ ctx) = Some (length k).
Proof.
  change (js ": ") with [58; 32]. induction k as [|c k IH]; intros H; [done|].
  cbn [indexOf app length] in *.
  destruct (startsWith [58; 32] (c :: k)) eqn:E; [done|].
  assert (E' : startsWith [58; 32] (c :: k ++ [58; 32] ++ ctx) = false).
  { cbn [startsWith] in *. destruct (58 =? c); [|done]. by destruct k. }
  cbn [app] in E'. rewrite E'. destruct (indexOf [58; 32] k); [done|]. cbn [app] in IH. by rewrite IH.
Qed.

(** The message shapes the back end produces. *)
Inductive coded_message : jstr -> jstr -> jstr -> Prop :=
  | coded_bare k : includes "." k = true -> indexOf ": " k = None ->
      coded_message (js "errors." ++ k) k (js "errors." ++ k)
  | coded_context k ctx : includes "." k = true -> indexOf ": " k = None ->
      coded_message (js "errors." ++ k ++ js ": " ++ ctx) k (trim ctx).

Lemma mapBackendError_coded m k f : coded_message m k f ->
  mapBackendError m = {| key := Some k; fallback := f |}.
Proof.
  intros [k' H1 H2|k' ctx H1 H2]; unfold mapBackendError;
    rewrite startsWith_self_app, drop_app_prefix.
  - by rewrite H2, H1.
  - rewrite indexOf_colon, take_app_length, H1 by done. do 2 f_equal.
    change (length k' + 2)%nat with (length k' + length (js ": "))%nat.
    rewrite app_assoc, <- length_app. apply drop_app_prefix.
Qed.

Lemma mapBackendError_key m k : key (mapBackendError m) = Some k ->
  coded_message m k (fallback (mapBackendError m)).
Proof.
  unfold mapBackendError. destruct (startsWith (js "errors.") m) eqn:S; [|done].
  apply startsWith_spec in S as [r ->]. rewrite drop_app_prefix.
  destruct (indexOf (js ": ") r) as [i|] eqn:I.
  - destruct (includes (js ".") (take i r)) eqn:D; simpl; [|done]. intros [= <-].
    destruct (indexOf_first (js ": ") r i) as [E N]; [done|done|].
    change (length (js ": ")) with 2%nat in E.
    rewrite E at 1. by apply coded_context.
  - destruct (includes (js ".") r) eqn:D; simpl; [|done]. intros [= <-]. by apply coded_bare.
Qed.

(** ** Properties: error mapping *)

(** A back-end message is given an i18n key exactly when it is an apperr
    code — [errors.] and a dotted path, optionally followed by a colon and
    context — and then the key is the dotted path and the fallback the trimmed
    context; any other message is its own fallback with no key. *)
Theorem mapBackendError_correct m :
  (forall k f, coded_message m k f <-> key (mapBackendError m) = Some k /\ fallback (mapBackendError m) = f) /\
  (key (mapBackendError m) = None -> fallback (mapBackendError m) = m).
Proof.
  split.
  - intros k f. split.
    + intros C. by rewrite (mapBackendError_coded _ _ _ C).
    + intros [K <-]. by apply mapBackendError_key.
  - unfold mapBackendError. repeat case_match; done.
Qed.

(** ** Permissions *)

Lemma has_spec session p : has session p = true <->
  exists ps, permissions session = Some ps /\ (js "*" ∈ ps \/ p ∈ ps).
Proof.
  unfold has. destruct (permissions session) as [[|x ps]|].
  - split; [done|]. intros (? & [= <-] & [H|H]); by apply not_elem_of_nil in H.
  - destruct (array_includes (x :: ps) (js "*")) eqn:E.
    + apply array_includes_spec in E. split; eauto.
    + rewrite array_includes_spec. split; [eauto|]. intros (? & [= <-] & [H|H]); [|done].
      apply array_includes_spec in H. congruence.
  - split; [done|]. by intros (? & ? & _).
Qed.

(** Who may see which link: the link, the scope of the session it is
    offered to and the permission it takes, as the back end's permission
    catalogue writes it. *)
Definition nav_table : list (string * option string * string) := (
  [ ("/overview", Some "global", "overview.read"); ("/providers", Some "global", "provider.read");
    ("/models", Some "global", "provider.read"); ("/routes", Some "global", "provider.read");
    ("/plugins", Some "global", "provider.read"); ("/tenants", Some "global", "tenant.read");
    ("/operators", Some "global", "operator.read"); ("/roles", Some "global", "role.read");
    ("/config/history", Some "global", "config_history.read"); ("/settings", Some "global", "settings.read");
    ("/data-plane-nodes", Some "global", "dataplane.read");
    ("/api-keys", Some "tenant", "api_key.read"); ("/groups", Some "tenant", "api_key.read");
    ("/applications", Some "tenant", "api_key.read"); ("/quotas", Some "tenant", "api_key.read");
    ("/budgets", None, "budget.read"); ("/usage", None, "usage.read"); ("/audit", None, "audit.read");
    ("/request-logs", None, "request_log.read"); ("/trace", None, "request_log.read") ])%string.

Definition scope_ok (session : SessionData) (sc : option jstr) : bool :=
  match sc with
  | None => true
  | Some k => match scopeKind session with Some s => streq s k | None => false end
  end.

Definition row_shown (session : SessionData) (r : string * option string * string) : list jstr :=
  if scope_ok session (option_map js r.1.2) && has session (js r.2) then [js r.1.1] else [].

Lemma if_cons2 {A} (b : bool) (x y : A) xs :
  (if b then x :: y :: xs else []) = (if b then [x] else []) ++ (if b then y :: xs else []).
Proof. by destruct b. Qed.

Lemma nav_links_table session : nav_links session = flat_map (row_shown session) nav_table.
Proof.
  unfold nav_links, nav_table, NAV_PERMS.
  cbn [map app flat_map np_overview np_provider np_tenant np_operator np_role np_configHistory np_settings
       np_dataplane np_apiKey np_budget np_usage np_audit np_requestLog].
  unfold row_shown. cbn [fst snd option_map].
  cbn [fst snd scope_ok].
  change (match scopeKind session with Some s => streq s (js "global") | None => false end)
    with (scope_ok session (Some (js "global"))).
  change (match scopeKind session with Some s => streq s (js "tenant") | None => false end)
    with (scope_ok session (Some (js "tenant"))).
  destruct (scope_ok session (Some (js "global"))), (scope_ok session (Some (js "tenant")));
    cbn [andb app]; rewrite ?if_cons2, <- ?app_assoc; cbn [app]; by rewrite ?app_nil_r.
Qed.

Lemma scope_ok_spec session sc :
  scope_ok session sc = true <-> (forall k, sc = Some k -> scopeKind session = Some k).
Proof.
  destruct sc as [k|]; simpl; [|naive_solver].
  destruct (scopeKind session); [rewrite streq_true|]; naive_solver.
Qed.

Lemma row_shown_spec session l r : l ∈ row_shown session r <->
  l = js r.1.1 /\ (forall k, r.1.2 = Some k -> scopeKind session = Some (js k)) /\
  exists ps, permissions session = Some ps /\ (js "*" ∈ ps \/ js r.2 ∈ ps).
Proof.
  unfold row_shown. rewrite <- has_spec. destruct r as [[l' sc] p]. cbn [fst snd].
  destruct (scope_ok session (option_map js sc)) eqn:S; rewrite ?scope_ok_spec in S.
  - destruct (has session (js p)) eqn:P; cbn [andb]; rewrite ?list_elem_of_singleton, ?elem_of_nil.
    + split; [intros ->; split_and!; try done|naive_solver]. intros k ->. by apply S.
    + split; [done|naive_solver].
  - cbn [andb]. rewrite elem_of_nil. split; [done|]. intros (_ & K & _).
    assert (T : scope_ok session (option_map js sc) = true); [|congruence].
    apply scope_ok_spec. destruct sc as [k|]; intros k' [= <-]. by apply K.
Qed.

(** C36: the sidebar shows exactly the links of the access table whose scope
    is the session's and whose permission the operator holds, directly or by
    the wildcard, each once and in the table's order — so a wildcard
    super-admin sees no tenant link and a tenant role misconfigured with a
    global permission sees no global link.  The applications link follows
    [api_key.read]: with the permission [application.read] alone it stays
    hidden. *)
Theorem nav_links_correct session :
  (forall l, l ∈ nav_links session <->
     exists sc p ps link, l = js link /\ (link, sc, p) ∈ nav_table /\
       (forall k, sc = Some k -> scopeKind session = Some (js k)) /\
       permissions session = Some ps /\ (js "*" ∈ ps \/ js p ∈ ps)) /\
  nav_links session `sublist_of` map (fun r => js r.1.1) nav_table /\
  (permissions session = Some [js "application.read"] -> nav_links session = []).
Proof.
  rewrite nav_links_table. split_and!.
  - intros l. rewrite list_elem_of_In, in_flat_map. split.
    + intros ([[k sc] p] & R & H). apply list_elem_of_In, row_shown_spec in H as (-> & S & ps & P & E).
      exists sc, p, ps, k. by rewrite list_elem_of_In.
    + intros (sc & p & ps & k & -> & R & S & P & E). exists (k, sc, p). rewrite <- !list_elem_of_In.
      split; [done|]. apply row_shown_spec. cbn [fst snd]. eauto.
  - generalize nav_table. intros rows. induction rows as [|r rows IH]; [done|]. cbn [flat_map map].
    unfold row_shown at 1. destruct (_ && _); cbn [app]; by constructor.
  - intros P. unfold row_shown, has. rewrite P. set (k := scopeKind session).
    assert (N : forall x, array_includes [js "application.read"] (js x) = false -> 
      (if array_includes [js "application.read"] (js "*") then true else array_includes [js "application.read"] (js x)) = false)
      by (intros x ->; by vm_compute).
    cbn [flat_map nav_table fst snd]. rewrite !N by (by vm_compute). by rewrite !andb_false_r.
Qed.

(** ** Properties: session life cycle *)

Section SessionLaws.
  Context {St Bk : Type} `{IronLaws St}.

Lemma getSession_eq (w : world St Bk) o : sessionOptions (w_env w) = Ret o ->
  getSession w = (Ret (iron_load o (w_store w)), w).
Proof. intros E. unfold getSession, getenv, lift, mbind, M_bind. by rewrite E. Qed.

Lemma setSession_eq (w : world St Bk) o d : sessionOptions (w_env w) = Ret o ->
  setSession d w =
  match iron_save o d (w_store w) with
  | Ret s' => (Ret tt, {| w_env := w_env w; w_store := s'; w_backend := w_backend w; w_log := w_log w |})
  | Throw e => (Throw e, w)
  end.
Proof.
  intros E. unfold setSession. unfold mbind, M_bind. rewrite (getSession_eq w o E).
  unfold getenv, lift. rewrite E. cbn [read_store]. destruct d. by destruct (iron_save _ _ _).
Qed.

Lemma clearSession_eq (w : world St Bk) o : sessionOptions (w_env w) = Ret o ->
  clearSession w = (Ret tt, {| w_env := w_env w; w_store := iron_destroy o (w_store w);
                               w_backend := w_backend w; w_log := w_log w |}).
Proof.
  intros E. unfold clearSession. unfold mbind, M_bind. rewrite (getSession_eq w o E).
  unfold getenv, lift. by rewrite E.
Qed.

Lemma clearSession_throw (w : world St Bk) e : sessionOptions (w_env w) = Throw e ->
  clearSession w = (Throw e, w).
Proof. intros E. unfold clearSession, getSession, getenv, lift, mbind, M_bind. by rewrite E. Qed.

(** The session [d] is in force: what a request reads, the token its API
    client carries, and what the dashboard layout does with it. *)
Definition in_force (d : SessionData) (w : world St Bk) : Prop :=
  getSession w = (Ret d, w) /\ getToken w = (Ret (token d), w) /\
  (forall url, ADMIN_URL (w_env w) = Some url -> url <> [] ->
     serverAdminClient w = (Ret (createAdminClient url (token d) None), w)) /\
  (forall loc, DashboardLayout loc w =
     (match token d, role d with
      | Some (_ :: _), Some (_ :: _) => Ret (nav_links d)
      | _, _ => Throw (ERedirect (js "/login") (Some loc))
      end, w)).

Lemma load_in_force (w : world St Bk) o d : sessionOptions (w_env w) = Ret o -> iron_load o (w_store w) = d ->
  in_force d w.
Proof.
  intros O L. assert (G : getSession w = (Ret d, w)) by (by rewrite (getSession_eq w o O), L).
  assert (T : getToken w = (Ret (token d), w)) by (unfold getToken, mbind, M_bind; by rewrite G).
  split_and!; try done.
  - intros url U N. unfold serverAdminClient, getenv, mbind at 1, M_bind at 1. rewrite U.
    destruct url as [|c url]; [done|]. cbn [str_empty]. unfold mbind, M_bind. by rewrite T.
  - intros loc. unfold DashboardLayout, mbind, M_bind. rewrite G.
    by destruct (token d) as [[|]|], (role d) as [[|]|].
Qed.

End SessionLaws.

(** A reference implementation of the interfaces: the cookie is the session,
    the back end answers each call from a fixed list of replies. *)
Module Reference.

#[global] Instance plain_cookie : IronSession SessionData := {|
  iron_load := fun _ s => s;
  iron_save := fun _ d _ =>
    if 4096 <? Z.of_nat (length (default [] (email d))) then Throw (err_error "iron-session: Cookie length is too big")
    else Ret d;
  iron_destroy := fun _ _ => empty_session |}.
#[global] Instance plain_cookie_laws : IronLaws SessionData.
Proof.
  constructor; cbn [iron_load iron_save iron_destroy plain_cookie]; try done; intros o d s s';
    destruct (4096 <? _); try done; intros [= <-]; [done|]. by eexists _, _.
Qed.

#[global] Instance scripted : AdminApi (list api_result) := fun _ _ _ _ b =>
  match b with
  | r :: t => (Ret r, t)
  | [] => (Throw (err_type (js "fetch failed")), [])
  end.
#[global] Instance scripted_plain : PlainFetch (list api_result).
Proof. intros c m p o [|r b] e b' E; [|done]. injection E as <- <-. by eexists _, _. Qed.

Definition env0 : env :=
  {| ADMIN_URL := Some (js "http://admin:8090"); SESSION_SECRET := Some (replicate 32 97); NODE_ENV := None |}.

Definition operator : SessionData :=
  {| token := Some (js "tok"); email := Some (js "a@b.c"); role := Some (js "super-admin"); roleID := None;
     scopeKind := Some (js "global"); permissions := Some [js "*"]; tenantName := None |}.

Definition world0 (replies : list api_result) : world SessionData (list api_result) :=
  {| w_env := env0; w_store := operator; w_backend := replies; w_log := [] |}.

Definition reply (st : Z) (d e : unknown) : api_result := {| data := d; error := e; status := st |}.

(** An error envelope [{error: {message}}]. *)
Definition envelope (m : string) : unknown :=
  Some (JObj [(js "error", JObj [(js "message", JStr (js m))])]).

End Reference.
