(* ===== verification/FormActions.v ===== *)
(** * Form data and the contract of server actions

    [FormData] as the browser submits it, and what every write action of the
    Control Panel promises its form: [action_contract].  The combinator lemmas
    below discharge it for each action by [auto with action]. *)

From S2P Require Import Prelude JsNumber JsString Json AdminRuntime.

(** ** FormData *)

Inductive entry : Type :=
  | FText (s : jstr)
  | FFile.

Definition FormData : Type := list (jstr * entry).

Fixpoint fd_get (fd : FormData) (k : jstr) : option entry :=
  match fd with
  | [] => None
  | (k', e) :: t => if streq k k' then Some e else fd_get t k
  end.

Definition fd_getAll (fd : FormData) (k : jstr) : list entry :=
  map snd (List.filter (fun kv => streq k kv.1) fd).

Definition entry_string (e : entry) : jstr := match e with FText s => s | FFile => js "[object File]" end.

(** [String(formData.get(k) ?? "")] *)
Definition field (fd : FormData) (k : jstr) : jstr :=
  match fd_get fd k with Some e => entry_string e | None => [] end.

(** [String(formData.get(k))], ["null"] when the field is missing. *)
Definition field_null (fd : FormData) (k : jstr) : jstr :=
  match fd_get fd k with Some e => entry_string e | None => js "null" end.

(** [Number(formData.get(k))] *)
Definition field_number (fd : FormData) (k : jstr) : num :=
  match fd_get fd k with Some (FText s) => str_to_num s | Some FFile => NaN | None => int 0 end.

(** [formData.get(k) === v] *)
Definition field_is (fd : FormData) (k v : jstr) : bool :=
  match fd_get fd k with Some (FText s) => streq s v | _ => false end.

(** [formData.getAll(k).map(String)] *)
Definition fields (fd : FormData) (k : jstr) : list jstr := map entry_string (fd_getAll fd k).

(** An optional property of an object literal. *)
Definition prop_if (b : bool) (k : jstr) (v : json) : list (jstr * json) := if b then [(k, v)] else [].

Definition JStrs (l : list jstr) : json := JArr (map JStr l).

(** [l[i]] on an array of strings, and [l[i] ?? ""]. *)
Definition at_index (l : list jstr) (i : nat) : option jstr := l !! i.
Definition nth_field (l : list jstr) (i : nat) : jstr :=
  match at_index l i with Some s => s | None => [] end.

(** The keys of a request body. *)
Definition keys (o : list (jstr * json)) : list jstr := map fst o.

(** The write every form action ends in: one admin call, an inline error when
    it is refused, revalidation of the list pages when it is not. *)
Definition call_block {St Bk} `{IronSession St} `{AdminApi Bk} (meth : http_method) (path : jstr)
  (o : api_opts) (d : jstr) : M St Bk (option FormResult) :=
  client ← serverAdminClient;
  r ← api client meth path o;
  mret (check_result r d).

Definition submit {St Bk} `{IronSession St} `{AdminApi Bk} (meth : http_method) (path : jstr)
  (o : api_opts) (d : jstr) (ps : list jstr) : M St Bk FormResult :=
  try_form (call_block meth path o d) (revalidate_ok ps).

(** [unwrap(await client.METHOD(path, opts))] on the server client. *)
Definition call_unwrap {St Bk} `{IronSession St} `{AdminApi Bk} (meth : http_method) (path : jstr) (o : api_opts) : M St Bk unknown :=
  client ← serverAdminClient; r ← api client meth path o; lift (unwrap (Ret r)).

(** Sequencing inside a [try] block: an early [return] of the first part skips
    the second. *)
Definition and_then {St Bk} (m1 m2 : M St Bk (option FormResult)) : M St Bk (option FormResult) :=
  early ← m1;
  match early with Some e => mret (Some e) | None => m2 end.

(** [const mapped = mapBackendError(m); return { ok: false, ... }] *)
Definition reject {St Bk} (m : jstr) : M St Bk FormResult := mret (mapped_error m).

Definition path_body (k : jstr) (v : json) (b : json) : api_opts :=
  {| path_params := [(k, v)]; query_params := []; body := Some b |}.

Lemma serverAdminClient_pure {St Bk} `{IronSession St} (w : world St Bk) :
  exists r, serverAdminClient w = (r, w).
Proof.
  unfold serverAdminClient, getToken, getSession, getenv, read_store, lift, throw, mret, M_ret, mbind, M_bind.
  destruct (ADMIN_URL (w_env w)) as [u|]; [destruct (str_empty u)|]; try by eexists.
  destruct (sessionOptions (w_env w)); by eexists.
Qed.

(** ** Computations that only call the API *)

Definition is_sent (ev : event) : Prop := match ev with Sent _ _ _ _ => True | Revalidated _ => False end.

Section Contract.
  Context {St Bk : Type} `{IronSession St}.

(** [w'] differs from [w] only by API calls: the session cookie and the
    environment are untouched and nothing was revalidated. *)
Definition only_calls (w w' : world St Bk) : Prop :=
  w_env w' = w_env w /\ w_store w' = w_store w /\
  exists calls, w_log w' = w_log w ++ calls /\ Forall is_sent calls.

Definition quiet {A} (m : M St Bk A) : Prop := forall w, only_calls w (m w).2.

(** A [try] block of a form action: quiet, and returning early only with an
    error. *)
Definition form_block (m : M St Bk (option FormResult)) : Prop :=
  quiet m /\ forall w w', m w <> (Ret (Some FOk), w').

(** What a server action promises the form that submits it:
    - success revalidates exactly the listed paths, after the API calls;
    - an inline error leaves session and caches alone;
    - the only way not to return is the expired-session redirect (the cookie
      is destroyed first), or a misconfigured session secret. *)
Record action_contract (paths : list jstr) (act : M St Bk FormResult) : Prop := {
  ac_ok : forall w w', act w = (Ret FOk, w') ->
    w_env w' = w_env w /\ w_store w' = w_store w /\
    exists calls, w_log w' = w_log w ++ calls ++ map Revalidated paths /\ Forall is_sent calls;
  ac_err : forall w e k w', act w = (Ret (FErr e k), w') -> only_calls w w';
  ac_throw : forall w e w', act w = (Throw e, w') ->
    (exists o w1, e = ERedirect (js "/login") None /\ only_calls w w1 /\
       sessionOptions (w_env w) = Ret o /\ w_store w' = iron_destroy o (w_store w) /\ w_log w' = w_log w1)
    \/ (sessionOptions (w_env w) = Throw e /\ only_calls w w');
}.

Lemma only_calls_refl w : only_calls w w.
Proof. split; [done|]. split; [done|]. exists []. by rewrite app_nil_r. Qed.

Lemma only_calls_trans w1 w2 w3 : only_calls w1 w2 -> only_calls w2 w3 -> only_calls w1 w3.
Proof.
  intros (E1 & S1 & c1 & L1 & F1) (E2 & S2 & c2 & L2 & F2).
  split; [congruence|]. split; [congruence|]. exists (c1 ++ c2).
  split; [by rewrite L2, L1, app_assoc|by apply Forall_app].
Qed.

#[global] Instance only_calls_preorder : PreOrder only_calls.
Proof. split; [exact only_calls_refl|exact only_calls_trans]. Qed.

Lemma quiet_ret {A} (a : A) : quiet (mret a).
Proof. intros w. reflexivity. Qed.

Lemma quiet_throw {A} e : quiet (throw e : M St Bk A).
Proof. intros w. reflexivity. Qed.

Lemma quiet_lift {A} (r : result A) : quiet (lift r).
Proof. intros w. reflexivity. Qed.

Lemma quiet_bind {A B} (m : M St Bk A) (f : A -> M St Bk B) :
  quiet m -> (forall a, quiet (f a)) -> quiet (m ≫= f).
Proof.
  intros Hm Hf w. unfold mbind, M_bind. specialize (Hm w). destruct (m w) as [[a|e] w']; [|done].
  etransitivity; [exact Hm|]. exact (Hf a w').
Qed.

Lemma quiet_fmap {A B} (f : A -> B) (m : M St Bk A) : quiet m -> quiet (f <$> m).
Proof. intros Hm w. unfold fmap, M_fmap. specialize (Hm w). by destruct (m w) as [[a|e] w']. Qed.

Lemma quiet_getenv : quiet (getenv : M St Bk env).
Proof. intros w. reflexivity. Qed.

Lemma quiet_read : quiet (read_store : M St Bk St).
Proof. intros w. reflexivity. Qed.

Lemma quiet_getSession : quiet (getSession : M St Bk SessionData).
Proof.
  unfold getSession. apply quiet_bind; [apply quiet_getenv|intros e].
  apply quiet_bind; [apply quiet_lift|intros o]. apply quiet_bind; [apply quiet_read|intros s]. apply quiet_ret.
Qed.

Lemma quiet_serverAdminClient : quiet (serverAdminClient : M St Bk AdminClient).
Proof.
  unfold serverAdminClient. apply quiet_bind; [apply quiet_getenv|intros e].
  destruct (ADMIN_URL e) as [u|]; [|apply quiet_throw]. destruct (str_empty u); [apply quiet_throw|].
  apply quiet_bind; [|intros; apply quiet_ret]. unfold getToken.
  apply quiet_bind; [apply quiet_getSession|intros; apply quiet_ret].
Qed.

Lemma quiet_anonAdminClient : quiet (anonAdminClient : M St Bk AdminClient).
Proof.
  unfold anonAdminClient. apply quiet_bind; [apply quiet_getenv|intros e].
  destruct (ADMIN_URL e) as [u|]; [|apply quiet_throw]. destruct (str_empty u); [apply quiet_throw|apply quiet_ret].
Qed.

Lemma quiet_api `{AdminApi Bk} c m p o : quiet (api c m p o : M St Bk api_result).
Proof.
  intros w. unfold api. destruct (api_call _ _ _ _ _) as [r b'].
  split; [done|]. split; [done|]. exists [Sent c m p o]. split; [done|]. by constructor.
Qed.

(** ** Early returns *)

Lemma mapped_error_not_ok m : mapped_error m <> FOk.
Proof. done. Qed.

Lemma check_result_not_ok r d : check_result r d <> Some FOk.
Proof. unfold check_result. by destruct (failed r). Qed.

Lemma block_ret x : x <> Some FOk -> form_block (mret x).
Proof. intros Hx. split; [apply quiet_ret|]. intros w w' [= E]. done. Qed.

Lemma block_throw e : form_block (throw e).
Proof. split; [apply quiet_throw|done]. Qed.

Lemma block_bind {A} (m : M St Bk A) f : quiet m -> (forall a, form_block (f a)) -> form_block (m ≫= f).
Proof.
  intros Hm Hf. split; [apply quiet_bind; [done|intros; apply Hf]|].
  intros w w'. unfold mbind, M_bind. destruct (m w) as [[a|e] w1]; [|done]. apply Hf.
Qed.

Lemma block_fmap {A} (m : M St Bk A) (f : A -> option FormResult) :
  quiet m -> (forall a, f a <> Some FOk) -> form_block (f <$> m).
Proof.
  intros Hm Hf. split; [by apply quiet_fmap|]. intros w w'. unfold fmap, M_fmap.
  destruct (m w) as [[a|e] w1]; [|done]. intros [= E]. by apply (Hf a).
Qed.

Lemma block_and_then m1 m2 : form_block m1 -> form_block m2 -> form_block (and_then m1 m2).
Proof.
  intros [Q1 E1] [Q2 E2]. split.
  - apply quiet_bind; [done|]. intros [e|]; [apply quiet_ret|done].
  - intros w w'. unfold and_then, mbind, M_bind. specialize (E1 w). destruct (m1 w) as [[[e|]|e] w1]; [|apply E2|done].
    intros [= -> ->]. by apply (E1 w').
Qed.

(** ** The contract of the combinators *)

Lemma contract_err ps e k : action_contract ps (mret (FErr e k)).
Proof. split; intros w; unfold mret, M_ret; intros; simplify_eq; reflexivity. Qed.

Lemma contract_if ps (b : bool) m1 m2 :
  action_contract ps m1 -> action_contract ps m2 -> action_contract ps (if b then m1 else m2).
Proof. by destruct b. Qed.

Lemma revalidate_ok_eq ps (w : world St Bk) : revalidate_ok ps w =
  (Ret FOk, {| w_env := w_env w; w_store := w_store w; w_backend := w_backend w;
               w_log := w_log w ++ map Revalidated ps |}).
Proof.
  revert w. induction ps as [|p ps IH]; intros w; simpl.
  - rewrite app_nil_r. by destruct w.
  - unfold mbind, M_bind, revalidatePath. rewrite IH. simpl. by rewrite <- app_assoc.
Qed.

(** [toFormError] either answers inline or destroys the session and
    redirects. *)
Lemma toFormError_cases e (w : world St Bk) :
  (exists m k, toFormError e w = (Ret (FErr m k), w)) \/
  (exists t m, e = EAdmin 401 t m /\
     ((exists o, sessionOptions (w_env w) = Ret o /\
        toFormError e w = (Throw (ERedirect (js "/login") None),
          {| w_env := w_env w; w_store := iron_destroy o (w_store w);
             w_backend := w_backend w; w_log := w_log w |})) \/
      (exists x, sessionOptions (w_env w) = Throw x /\ toFormError e w = (Throw x, w)))).
Proof.
  unfold toFormError. destruct e as [n m|st t m|h l]; [left; eexists _, _; reflexivity| |left; eexists _, _; reflexivity].
  destruct (Z.eqb_spec st 401) as [-> |]; [|left; eexists _, _; reflexivity].
  right. exists t, m. split; [done|]. unfold mbind, M_bind.
  destruct (sessionOptions (w_env w)) as [o|x] eqn:E.
  - left. exists o. split; [done|]. unfold clearSession, getSession, getenv, lift, mbind, M_bind, read_store. rewrite E. simpl. by rewrite E.
  - right. exists x. split; [done|]. unfold clearSession, getSession, getenv, lift, mbind, M_bind. by rewrite E.
Qed.

Lemma contract_try ps body : form_block body -> action_contract ps (try_form body (revalidate_ok ps)).
Proof.
  intros [Q E]. unfold try_form, mbind, M_bind, try_catch. split.
  - intros w w'. specialize (Q w). specialize (E w). destruct (body w) as [[[r|]|e] w1] eqn:B; simpl in Q.
    + intros [= -> ->]. by destruct (E w').
    + rewrite revalidate_ok_eq. intros [= <-]. destruct Q as (? & ? & c & L & F). simpl.
      split; [done|]. split; [done|]. exists c. by rewrite L, app_assoc.
    + unfold fmap, M_fmap. destruct (toFormError_cases e w1) as [(m & k & ->)|(t & m & -> & [(o & _ & ->)|(x & _ & ->)])]; done.
  - intros w err k w'. specialize (Q w). destruct (body w) as [[[r|]|e] w1]; simpl in Q.
    + by intros [= _ <-].
    + rewrite revalidate_ok_eq. done.
    + unfold fmap, M_fmap. destruct (toFormError_cases e w1) as [(m & k' & ->)|(t & m & -> & [(o & _ & ->)|(x & _ & ->)])]; try done.
      intros [= _ _ <-]. done.
  - intros w err w'. specialize (Q w). destruct (body w) as [[[r|]|e] w1]; simpl in Q; [done|by rewrite revalidate_ok_eq|].
    unfold fmap, M_fmap. destruct Q as (Ee & Es & Q).
    destruct (toFormError_cases e w1) as [(m & k' & ->)|(t & m & -> & [(o & O & ->)|(x & X & ->)])]; [done| |].
    + intros [= <- <-]. left. exists o, w1. rewrite <- Ee, <- Es. repeat split; done || congruence.
    + intros [= <- <-]. right. rewrite <- Ee. repeat split; done || congruence.
Qed.

(** ** Actions that never end the session *)

(** Throws only the built-in errors of the runtime. *)
Definition plain {A} (m : M St Bk A) : Prop :=
  forall w e w', m w = (Throw e, w') -> exists n t, e = EError n t.

Lemma plain_ret {A} (a : A) : plain (mret a).
Proof. by intros w e w'. Qed.

Lemma plain_bind {A B} (m : M St Bk A) (f : A -> M St Bk B) :
  plain m -> (forall a, plain (f a)) -> plain (m ≫= f).
Proof.
  intros Hm Hf w e w'. unfold mbind, M_bind. destruct (m w) as [[a|x] w1] eqn:E; [apply Hf|].
  intros [= <- <-]. by apply (Hm w _ w1).
Qed.

Lemma plain_and_then m1 m2 : plain m1 -> plain m2 -> plain (and_then m1 m2).
Proof. intros P1 P2. apply plain_bind; [done|]. intros [e|]; [apply plain_ret|done]. Qed.

Lemma plain_serverAdminClient : plain (serverAdminClient : M St Bk AdminClient).
Proof.
  intros w e w'. unfold serverAdminClient, getToken, getSession, getenv, lift, throw, mbind, M_bind.
  destruct (ADMIN_URL (w_env w)) as [u|]; [destruct (str_empty u)|]; [intros [= <- <-]; by eexists _, _| |intros [= <- <-]; by eexists _, _].
  unfold sessionOptions, requireSessionSecret. destruct (SESSION_SECRET (w_env w)) as [s|].
  - destruct (_ || _); [intros [= <- <-]; by eexists _, _|done].
  - intros [= <- <-]; by eexists _, _.
Qed.

Lemma plain_api `{PlainFetch Bk} c m p o : plain (api c m p o : M St Bk api_result).
Proof.
  intros w e w'. unfold api. destruct (api_call _ _ _ _ _) as [r b'] eqn:E. intros [= -> <-].
  by eapply api_throws_plain.
Qed.

Lemma try_form_plain ps body : form_block body -> plain body -> forall w r w',
  try_form body (revalidate_ok ps) w = (r, w') -> w_store w' = w_store w /\ exists a, r = Ret a.
Proof.
  intros [Q _] P w r w'. unfold try_form, mbind, M_bind, try_catch. specialize (Q w). specialize (P w).
  destruct (body w) as [[[x|]|e] w1]; simpl in Q; destruct Q as (_ & S & _).
  - intros [= <- <-]. eauto.
  - rewrite revalidate_ok_eq. intros [= <- <-]. eauto.
  - destruct (P e w1 eq_refl) as (n & t & ->). intros [= <- <-]. eauto.
Qed.

(** The revalidations that follow a successful write. *)
Definition revalidations (ps : list jstr) (r : result FormResult) : list event :=
  match r with Ret FOk => map Revalidated ps | _ => [] end.

Lemma try_form_log ps body w r w' : form_block body -> try_form body (revalidate_ok ps) w = (r, w') ->
  exists o w1, body w = (o, w1) /\ w_log w' = w_log w1 ++ revalidations ps r /\ (r = Ret FOk <-> o = Ret None).
Proof.
  intros [_ E]. unfold try_form, try_catch, mbind, M_bind. specialize (E w).
  destruct (body w) as [[[x|]|e] w1]; simpl.
  - intros [= <- <-]. exists (Ret (Some x)), w1. destruct x; [by destruct (E w1)|]. simpl. by rewrite app_nil_r.
  - rewrite revalidate_ok_eq. intros [= <- <-]. by exists (Ret None), w1.
  - unfold fmap, M_fmap. intros H'. exists (Throw e), w1. split; [done|].
    destruct (toFormError_cases e w1) as [(m & k & Q)|(t & m & -> & [(o & _ & Q)|(x & _ & Q)])];
      rewrite Q in H'; injection H' as <- <-; simpl; by rewrite app_nil_r.
Qed.

(** Every run of [act] returns to the form and leaves the cookie alone. *)
Definition keeps_session (act : M St Bk FormResult) : Prop :=
  forall w r w', act w = (r, w') -> w_store w' = w_store w /\ exists a, r = Ret a.

Lemma keeps_reject m : keeps_session (reject m).
Proof. intros w r w' [= <- <-]. eauto. Qed.

Lemma keeps_if (b : bool) m1 m2 : keeps_session m1 -> keeps_session m2 -> keeps_session (if b then m1 else m2).
Proof. by destruct b. Qed.

Lemma contract_reject ps m : action_contract ps (reject m).
Proof. apply contract_err. Qed.

Lemma block_call `{AdminApi Bk} m p o d : form_block (call_block m p o d).
Proof.
  apply block_bind; [apply quiet_serverAdminClient|intros c]. apply block_bind; [apply quiet_api|intros r].
  apply block_ret, check_result_not_ok.
Qed.

Lemma contract_submit `{AdminApi Bk} m p o d ps : action_contract ps (submit m p o d ps).
Proof. apply contract_try, block_call. Qed.

Lemma plain_call `{PlainFetch Bk} m p o d : plain (call_block m p o d).
Proof.
  apply plain_bind; [apply plain_serverAdminClient|intros c]. apply plain_bind; [apply plain_api|intros r].
  apply plain_ret.
Qed.

Lemma keeps_submit `{PlainFetch Bk} m p o d ps : keeps_session (submit m p o d ps).
Proof. intros w r w'. apply try_form_plain; [apply block_call|apply plain_call]. Qed.

(** The exact behaviour of [submit] once the client is configured. *)
Lemma submit_eq `{AdminApi Bk} m p o d ps w c : serverAdminClient w = (Ret c, w) ->
  submit m p o d ps w =
  let '(r, b') := api_call c m p o (w_backend w) in
  let w1 := {| w_env := w_env w; w_store := w_store w; w_backend := b'; w_log := w_log w ++ [Sent c m p o] |} in
  match r with
  | Ret a =>
      match check_result a d with
      | Some e => (Ret e, w1)
      | None => revalidate_ok ps w1
      end
  | Throw e => toFormError e w1
  end.
Proof.
  intros E. unfold submit, try_form, try_catch, call_block, mbind, M_bind. rewrite E. unfold api.
  destruct (api_call c m p o (w_backend w)) as [[a|e] b'].
  - unfold mret, M_ret. by destruct (check_result a d).
  - unfold fmap, M_fmap. by destruct (toFormError e _) as [[x|x] w2].
Qed.

(** What one unwrapped admin call does, by the reply. *)
Lemma call_unwrap_eq `{AdminApi Bk} m p o (w : world St Bk) c r b' : serverAdminClient w = (Ret c, w) ->
  api_call c m p o (w_backend w) = (Ret r, b') ->
  call_unwrap m p o w = (unwrap (Ret r), {| w_env := w_env w; w_store := w_store w; w_backend := b';
                                            w_log := w_log w ++ [Sent c m p o] |}).
Proof. intros C A. unfold call_unwrap, mbind, M_bind. rewrite C. unfold api. by rewrite A. Qed.

End Contract.

Create HintDb action discriminated.
#[export] Hint Resolve quiet_ret quiet_throw quiet_serverAdminClient quiet_api check_result_not_ok
  block_call plain_ret plain_serverAdminClient plain_call contract_err contract_reject contract_submit
  keeps_reject keeps_submit : action.
#[export] Hint Extern 3 (quiet (_ ≫= _)) => apply quiet_bind; [|intros ?] : action.
#[export] Hint Extern 3 (plain (_ ≫= _)) => apply plain_bind; [|intros ?] : action.
#[export] Hint Extern 4 (action_contract _ (if _ then _ else _)) => apply contract_if : action.
#[export] Hint Extern 4 (keeps_session (if _ then _ else _)) => apply keeps_if : action.

(** Discharge the contract of an action written with [reject] and [submit]. *)
Ltac solve_action if_rule :=
  first
    [ progress auto with action
    | apply contract_submit | apply keeps_submit | apply contract_reject | apply keeps_reject
    | apply contract_err
    | if_rule; solve_action if_rule
    | match goal with |- context [match ?x with _ => _ end] => destruct x; solve_action if_rule end
    | (intros ? ? ? [= <- <-]; eauto) ].
Ltac solve_contract := solve_action ltac:(apply contract_if).
Ltac solve_keeps := solve_action ltac:(apply keeps_if).
