(* ===== verification/ConfigActions.v ===== *)
(** * Configuration actions of the Control Panel

    The server actions that write gateway configuration:
    [providers/actions.ts], [models/actions.ts], [routes/actions.ts],
    [plugins/actions.ts], [settings/actions.ts] and
    [config/history/actions.ts] under [web/src/app/[locale]/(dashboard)]. *)

From S2P Require Import Prelude JsNumber Money JsString Json AdminRuntime FormActions.

(** An object under construction: properties in assignment order. *)
Definition obj : Type := list (jstr * json).

(** ** Providers *)

Record endpoint : Type := { ep_id : option jstr; ep_adapter : jstr; ep_base_url : jstr }.

Definition endpoint_json (e : endpoint) : json :=
  JObj (match ep_id e with Some i => [(js "id", JStr i)] | None => [] end
        ++ [(js "adapter", JStr (ep_adapter e)); (js "base_url", JStr (ep_base_url e))]).

(** The [for] loop over the parallel arrays, from index [i]. *)
Fixpoint collectEndpoints_from (adapters baseUrls ids : list jstr) (i n : nat) : list endpoint :=
  match n with
  | O => []
  | S n' =>
      let adapter := trim (nth_field adapters i) in
      let base_url := trim (nth_field baseUrls i) in
      if str_empty adapter && str_empty base_url then collectEndpoints_from adapters baseUrls ids (S i) n'
      else
        let id := trim (nth_field ids i) in
        {| ep_id := if str_empty id then None else Some id; ep_adapter := adapter; ep_base_url := base_url |}
        :: collectEndpoints_from adapters baseUrls ids (S i) n'
  end.

Definition collectEndpoints (fd : FormData) : list endpoint :=
  let adapters := fields fd "endpoint_adapter" in
  collectEndpoints_from adapters (fields fd "endpoint_base_url") (fields fd "endpoint_id") 0 (length adapters).

(** [if (v) body.k = v] *)
Definition set_text (k : jstr) (v : jstr) : obj := prop_if (negb (str_empty v)) k (JStr v).

(** [if (endpoints.length > 0) body.endpoints = endpoints] *)
Definition set_endpoints (l : list endpoint) : obj :=
  prop_if (match l with [] => false | _ => true end) (js "endpoints") (JArr (map endpoint_json l)).

(** [if (weight) body.weight = Number(weight)] *)
Definition set_number (k : jstr) (v : jstr) : obj := prop_if (negb (str_empty v)) k (JNum (str_to_num v)).

Definition providers_page : list jstr := [js "/providers"].

Inductive ProviderTestOutcome : Type :=
  | TestOk (latencyMs st : unknown)
  | TestFailed (err : jstr) (errorKey : option jstr).

Record ProviderTestSpec : Type := {
  ts_name : option jstr; ts_adapter : jstr; ts_baseUrl : jstr; ts_apiKey : option jstr; ts_apiKeyRef : option jstr;
}.

(** [...(s ? { k: s } : {})] *)
Definition spread_text (k : jstr) (s : option jstr) : obj := match s with Some v => set_text k v | None => [] end.

Definition toOutcome (d : unknown) : ProviderTestOutcome :=
  if truthy (opt_prop d "ok") then TestOk (opt_prop d "latency_ms") (opt_prop d "status")
  else TestFailed (default (js "test failed") (as_string (opt_prop d "error"))) None.

Definition testHttpFailure (e : unknown) : ProviderTestOutcome :=
  let mapped := mapBackendError (default (js "test failed") (error_message e)) in
  TestFailed (fallback mapped) (key mapped).

(** [const fe = await toFormError(err); return fe.ok ? ... : fe] *)
Definition form_outcome (fe : FormResult) : ProviderTestOutcome :=
  match fe with FOk => TestFailed (js "unexpected error") None | FErr e k => TestFailed e k end.

Section Providers.
  Context {St Bk : Type} `{IronSession St} `{AdminApi Bk}.

Definition createProvider (fd : FormData) : M St Bk FormResult :=
  let name := trim (field fd "name") in
  if str_empty name then reject (js "name is required")
  else
    let apiKey := trim (field fd "api_key") in
    let b := [(js "name", JStr name)]
             ++ set_text (js "type") (trim (field fd "type"))
             ++ set_endpoints (collectEndpoints fd)
             ++ set_text (js "api_key") apiKey
             ++ set_text (js "api_key_ref") (trim (field fd "api_key_ref"))
             ++ set_number (js "weight") (trim (field fd "weight")) in
    submit POST (js "/api/v1/providers") (with_body (JObj b)) (js "create failed") providers_page.

(** The non-secret fields of an update. *)
Definition provider_patch (fd : FormData) : obj :=
  let apiKey := trim (field fd "api_key") in
  set_text (js "type") (trim (field fd "type"))
  ++ set_endpoints (collectEndpoints fd)
  ++ (if str_empty apiKey then set_text (js "api_key_ref") (trim (field fd "api_key_ref")) else [])
  ++ set_number (js "weight") (trim (field fd "weight")).

(** Step (a): generic partial update for non-secret fields, if any. *)
Definition patch_provider (client : AdminClient) (name : jstr) (b : obj) : M St Bk (option FormResult) :=
  match b with
  | [] => mret None
  | _ =>
      r ← api client PATCH (js "/api/v1/providers/{name}") (path_body (js "name") (JStr name) (JObj b));
      mret (check_result r (js "update failed"))
  end.

(** Step (b): rotate the credential when a plaintext key was supplied. *)
Definition rotate_credential (client : AdminClient) (name apiKey : jstr) : M St Bk (option FormResult) :=
  if str_empty apiKey then mret None
  else
    r ← api client PATCH (js "/api/v1/providers/{name}/credential")
          (path_body (js "name") (JStr name) (JObj [(js "api_key", JStr apiKey)]));
    mret (check_result r (js "credential update failed")).

Definition updateProvider (fd : FormData) : M St Bk FormResult :=
  let name := trim (field fd "name") in
  if str_empty name then reject (js "name is required")
  else
    let apiKey := trim (field fd "api_key") in
    let b := provider_patch fd in
    try_form
      (client ← serverAdminClient;
       and_then (patch_provider client name b) (rotate_credential client name apiKey))
      (revalidate_ok providers_page).

Definition deleteProvider (name : jstr) : M St Bk FormResult :=
  submit DELETE (js "/api/v1/providers/{name}") (with_path (js "name") (JStr name)) (js "delete failed") providers_page.

Definition testProvider (name : jstr) : M St Bk ProviderTestOutcome :=
  try_catch
    (client ← serverAdminClient;
     r ← api client POST (js "/api/v1/providers/{name}/test") (with_path (js "name") (JStr name));
     mret (if failed r then testHttpFailure (error r) else toOutcome (data r)))
    (fun err => form_outcome <$> toFormError err).

Definition testProviderConnection (spec : ProviderTestSpec) : M St Bk ProviderTestOutcome :=
  try_catch
    (client ← serverAdminClient;
     r ← api client POST (js "/api/v1/provider-tests")
           (with_body (JObj ([(js "adapter", JStr (ts_adapter spec)); (js "base_url", JStr (ts_baseUrl spec))]
              ++ spread_text (js "name") (ts_name spec)
              ++ spread_text (js "api_key") (ts_apiKey spec)
              ++ spread_text (js "api_key_ref") (ts_apiKeyRef spec))));
     mret (if failed r then testHttpFailure (error r) else toOutcome (data r)))
    (fun err => form_outcome <$> toFormError err).

End Providers.

(** ** Models *)

Record Pricing : Type := {
  prompt_per_1m : num; completion_per_1m : num; currency : jstr; cache_hit_multiplier : option num;
}.

Record ModelUpstream : Type := {
  provider : jstr; upstream_model : jstr; default_max_tokens : option num; pricing : option Pricing;
}.

Definition opt_num (k : jstr) (v : option num) : obj := match v with Some n => [(k, JNum n)] | None => [] end.

Definition pricing_json (p : Pricing) : json :=
  JObj ([(js "prompt_per_1m", JNum (prompt_per_1m p)); (js "completion_per_1m", JNum (completion_per_1m p));
         (js "currency", JStr (currency p))] ++ opt_num (js "cache_hit_multiplier") (cache_hit_multiplier p)).

Definition upstream_json (u : ModelUpstream) : json :=
  JObj ([(js "provider", JStr (provider u)); (js "upstream_model", JStr (upstream_model u))]
        ++ opt_num (js "default_max_tokens") (default_max_tokens u)
        ++ match pricing u with Some p => [(js "pricing", pricing_json p)] | None => [] end).

Definition parseList (raw : jstr) : list jstr :=
  filter_truthy (map trim (split_runs (fun c => (c =? 44) || is_space c) raw)).

(** [x ? displayToMicro(x) : 0] *)
Definition price (s : jstr) : result num := if str_empty s then Ret (int 0) else Money.Web.displayToMicro s.

(** [Math.min(Math.max(pct * 10_000, 0), 1_000_000)], when [pct] is finite and
    positive. *)
Definition cache_multiplier (pct : num) : option num :=
  if is_finite pct && nlt (int 0) pct
  then Some (nmin (nmax (nmul pct (int 10000)) (int 0)) (int 1000000)) else None.

(** [l[i]?.trim()]: the missing value and the empty string are both falsy, and
    [Number] of the default [""] is [Number("")]. *)
Definition trim_at (l : list jstr) (i : nat) : jstr :=
  match at_index l i with Some s => trim s | None => [] end.

(** The callback of [providers.map((provider, i) => ...)]. *)
Definition parse_upstream (fd : FormData) (i : nat) (p : jstr) : result ModelUpstream :=
  let mt := match at_index (fields fd "upstream_max_tokens") i with Some s => str_to_num s | None => NaN end in
  let prompt := trim_at (fields fd "upstream_prompt_price") i in
  let completion := trim_at (fields fd "upstream_completion_price") i in
  let cacheMulPct := str_to_num (trim_at (fields fd "upstream_cache_hit_multiplier") i) in
  pr ← (if negb (str_empty prompt) || negb (str_empty completion) then
          pp ← price prompt;
          cp ← price completion;
          Ret (Some {| prompt_per_1m := pp; completion_per_1m := cp; currency := js "USD";
                       cache_hit_multiplier := cache_multiplier cacheMulPct |})
        else Ret None);
  Ret {| provider := p; upstream_model := nth_field (fields fd "upstream_model") i;
         default_max_tokens := if nlt (int 0) mt then Some mt else None; pricing := pr |}.

Definition parse_upstreams (fd : FormData) : result (list ModelUpstream) :=
  map_result (fun ip => parse_upstream fd ip.1 ip.2) (imap pair (fields fd "upstream_provider")).

(** The default values [UpstreamRow] shows for a stored upstream. *)
Definition maxTokensVal (u : ModelUpstream) : jstr :=
  match default_max_tokens u with Some n => if num_truthy n then num_to_string n else [] | None => [] end.

Definition promptPriceVal (u : ModelUpstream) : jstr :=
  match pricing u with Some p => Money.Web.microToDisplay (prompt_per_1m p) | None => [] end.

Definition completionPriceVal (u : ModelUpstream) : jstr :=
  match pricing u with Some p => Money.Web.microToDisplay (completion_per_1m p) | None => [] end.

Definition cacheHitMulVal (u : ModelUpstream) : jstr :=
  match pricing u with
  | Some p => match cache_hit_multiplier p with
              | Some n => if nlt (int 0) n then num_to_string (ndiv n (int 10000)) else []
              | None => []
              end
  | None => []
  end.

(** The entries an edit row submits when the operator changes nothing, in DOM
    order. *)
Definition UpstreamRow (u : ModelUpstream) : FormData :=
  [ (js "upstream_provider", FText (provider u)); (js "upstream_model", FText (upstream_model u));
    (js "upstream_max_tokens", FText (maxTokensVal u)); (js "upstream_prompt_price", FText (promptPriceVal u));
    (js "upstream_completion_price", FText (completionPriceVal u));
    (js "upstream_cache_hit_multiplier", FText (cacheHitMulVal u)) ].

Definition set_list (k : jstr) (l : list jstr) : obj :=
  prop_if (match l with [] => false | _ => true end) k (JStrs l).

Definition invalid_pricing : FormResult := FErr (js "invalid pricing amount") (Some (js "invalidPricingAmount")).

Section Models.
  Context {St Bk : Type} `{IronSession St} `{AdminApi Bk}.

Definition createModel (fd : FormData) : M St Bk FormResult :=
  let alias := trim (field fd "alias") in
  if str_empty alias then reject (js "model alias is required")
  else match parse_upstreams fd with
       | Throw _ => mret invalid_pricing
       | Ret upstreams =>
           let contextLengthRaw := trim (field fd "context_length") in
           let cl := str_to_num contextLengthRaw in
           let b := [(js "alias", JStr alias); (js "upstreams", JArr (map upstream_json upstreams))]
                    ++ set_text (js "description") (trim (field fd "description"))
                    ++ prop_if (negb (str_empty contextLengthRaw) && nlt (int 0) cl) (js "context_length") (JNum cl)
                    ++ set_list (js "capabilities") (parseList (field fd "capabilities"))
                    ++ set_list (js "tags") (parseList (field fd "tags")) in
           submit POST (js "/api/v1/models") (with_body (JObj b)) (js "create failed") [js "/models"]
       end.

Definition updateModel (fd : FormData) : M St Bk FormResult :=
  let alias := trim (field fd "alias") in
  if str_empty alias then reject (js "model alias is required")
  else match parse_upstreams fd with
       | Throw _ => mret invalid_pricing
       | Ret upstreams =>
           let contextLengthRaw := trim (field fd "context_length") in
           let cl := str_to_num contextLengthRaw in
           let b := [(js "description", JStr (trim (field fd "description")));
                     (js "capabilities", JStrs (parseList (field fd "capabilities")));
                     (js "tags", JStrs (parseList (field fd "tags")));
                     (js "upstreams", JArr (map upstream_json upstreams));
                     (js "context_length",
                        JNum (if negb (str_empty contextLengthRaw) then (if nlt (int 0) cl then cl else int 0)
                              else int 0))] in
           submit PATCH (js "/api/v1/models/{alias}") (path_body (js "alias") (JStr alias) (JObj b))
             (js "update failed") [js "/models"]
       end.

Definition deleteModel (alias : jstr) : M St Bk FormResult :=
  submit DELETE (js "/api/v1/models/{alias}") (with_path (js "alias") (JStr alias)) (js "delete failed") [js "/models"].

End Models.

(** ** Routes *)

Record RouteProvider : Type := { rp_name : jstr; rp_weight : option num }.

Definition route_provider_json (p : RouteProvider) : json :=
  JObj ((js "name", JStr (rp_name p)) :: opt_num (js "weight") (rp_weight p)).

(** [providerNames.map((name, i) => ...).filter((p) => p.name !== "")] *)
Definition route_providers (fd : FormData) : list RouteProvider :=
  let weights := fields fd "route_provider_weight" in
  List.filter (fun p => negb (str_empty (rp_name p)))
    (imap (fun i name =>
       {| rp_name := name;
          rp_weight := match at_index weights i with
                       | Some s => let weight := str_to_num s in
                                   if negb (str_empty s) && negb (is_nan weight) then Some weight else None
                       | None => None
                       end |}) (fields fd "route_provider_name")).

Section Routes.
  Context {St Bk : Type} `{IronSession St} `{AdminApi Bk}.

Definition upsertRoute (fd : FormData) : M St Bk FormResult :=
  let modelAlias := trim (field fd "model_alias") in
  if str_empty modelAlias then reject (js "model alias is required")
  else
    let providers := route_providers fd in
    let b := [(js "model_alias", JStr modelAlias)]
             ++ prop_if (match providers with [] => false | _ => true end) (js "providers")
                  (JArr (map route_provider_json providers))
             ++ set_text (js "strategy") (trim (field fd "strategy")) in
    submit POST (js "/api/v1/routes") (with_body (JObj b)) (js "create/update failed") [js "/routes"].

Definition updateRoute (fd : FormData) : M St Bk FormResult :=
  let modelAlias := trim (field fd "model_alias") in
  if str_empty modelAlias then reject (js "model alias is required")
  else
    let b := [(js "providers", JArr (map route_provider_json (route_providers fd)))]
             ++ set_text (js "strategy") (trim (field fd "strategy")) in
    submit PATCH (js "/api/v1/routes/{alias}") (path_body (js "alias") (JStr modelAlias) (JObj b))
      (js "update failed") [js "/routes"].

Definition deleteRoute (modelAlias : jstr) : M St Bk FormResult :=
  submit DELETE (js "/api/v1/routes/{alias}") (with_path (js "alias") (JStr modelAlias)) (js "delete failed")
    [js "/routes"].

End Routes.

(** ** Plugins *)

(** [if (paramsJson) try { body.params = JSON.parse(paramsJson) } catch ...]:
    [None] is the early return of the [catch]. *)
Definition plugin_params (fd : FormData) : option obj :=
  let paramsJson := trim (field fd "params_json") in
  if str_empty paramsJson then Some []
  else match json_parse paramsJson with
       | Ret v => Some [(js "params", v)]
       | Throw _ => None
       end.

(** [query: { scope: scope || undefined }] *)
Definition scope_query (scope : jstr) : list (jstr * unknown) :=
  [(js "scope", if str_empty scope then None else Some (JStr scope))].

Section Plugins.
  Context {St Bk : Type} `{IronSession St} `{AdminApi Bk}.

Definition upsertPlugin (fd : FormData) : M St Bk FormResult :=
  let name := trim (field fd "name") in
  if str_empty name then reject (js "plugin name is required")
  else match plugin_params fd with
       | None => reject (js "invalid params JSON")
       | Some params =>
           let b := [(js "name", JStr name)]
                    ++ set_text (js "phase") (trim (field fd "phase"))
                    ++ prop_if (field_is fd "enabled" "true") (js "enabled") (JBool true)
                    ++ set_text (js "scope") (trim (field fd "scope"))
                    ++ params in
           submit POST (js "/api/v1/plugins") (with_body (JObj b)) (js "upsert failed") [js "/plugins"]
       end.

Definition updatePlugin (fd : FormData) : M St Bk FormResult :=
  let name := trim (field fd "name") in
  if str_empty name then reject (js "plugin name is required")
  else match plugin_params fd with
       | None => reject (js "invalid params JSON")
       | Some params =>
           let b := set_text (js "phase") (trim (field fd "phase"))
                    ++ [(js "enabled", JBool (field_is fd "enabled" "true"))] ++ params in
           submit PATCH (js "/api/v1/plugins/{name}")
             {| path_params := [(js "name", JStr name)]; query_params := scope_query (trim (field fd "scope"));
                body := Some (JObj b) |} (js "update failed") [js "/plugins"]
       end.

Definition deletePlugin (name scope : jstr) : M St Bk FormResult :=
  submit DELETE (js "/api/v1/plugins/{name}")
    {| path_params := [(js "name", JStr name)]; query_params := scope_query scope; body := None |}
    (js "delete failed") [js "/plugins"].

End Plugins.

(** ** Gateway settings *)

(** [Number(formData.get(k) ?? d) || 0] *)
Definition field_number_or (fd : FormData) (k : jstr) (d : Z) : num :=
  let n := match fd_get fd k with Some (FText s) => str_to_num s | Some FFile => NaN | None => int d end in
  if num_truthy n then n else int 0.

Section Settings.
  Context {St Bk : Type} `{IronSession St} `{AdminApi Bk}.

Definition settings_body (fd : FormData) : json :=
  JObj [(js "trace", JObj [(js "capture_payload_enabled", JBool (field_is fd "capture_enabled" "true"));
                           (js "max_body_kb", JNum (field_number_or fd "max_body_kb" 0));
                           (js "retention_days", JNum (field_number_or fd "retention_days" 7))]);
        (js "ingress", JObj [(js "anthropic_disabled", JBool (field_is fd "anthropic_disabled" "true"))])].

Definition updateSettings (fd : FormData) : M St Bk FormResult :=
  try_form
    (client ← serverAdminClient;
     r ← api client PUT (js "/api/v1/gateway-settings") (with_body (settings_body fd));
     mret (if truthy (error r)
           then Some (mapped_error (default (js "save failed") (error_message (error r)))) else None))
    (revalidate_ok [js "/settings"]).

End Settings.

(** ** Configuration history *)

Section History.
  Context {St Bk : Type} `{IronSession St} `{AdminApi Bk}.

Definition rollbackAction (version : num) : M St Bk unit :=
  _ ← try_catch
        (_ ← call_unwrap POST (js "/api/v1/config/rollback") (with_body (JObj [(js "version", JNum version)]));
         mret tt)
        onAuthExpired;
  revalidatePath (js "/config/history").

Definition diffAction (from to : num) : M St Bk unknown :=
  try_catch
    (call_unwrap GET (js "/api/v1/config/history/diff")
       {| path_params := []; query_params := [(js "from", Some (JNum from)); (js "to", Some (JNum to))]; body := None |})
    (fun err => _ ← (onAuthExpired err : M St Bk unit); throw err).

Definition snapshotAction (version : num) : M St Bk unknown :=
  try_catch
    (call_unwrap GET (js "/api/v1/config/history/{version}") (with_path (js "version") (JNum version)))
    (fun err => _ ← (onAuthExpired err : M St Bk unit); throw err).

Definition previewAction (b : json) : M St Bk unknown :=
  try_catch (call_unwrap POST (js "/api/v1/config/preview") (with_body b))
    (fun err => _ ← (onAuthExpired err : M St Bk unit); throw err).

End History.

(** ** Lemmas *)

Lemma map_result_ret_inv {A B} (f : A -> result B) l l' : map_result f l = Ret l' ->
  Forall2 (fun x y => f x = Ret y) l l'.
Proof.
  revert l'. induction l as [|x t IH]; intros l'; simpl; [intros [= <-]; constructor|].
  destruct (f x) as [y|] eqn:E; [|done]. destruct (map_result f t) as [ys|]; [|done].
  intros [= <-]. constructor; [done|]. by apply IH.
Qed.

Lemma map_result_ret_all {A B} (f : A -> result B) l :
  (exists l', map_result f l = Ret l') <-> Forall (fun x => exists y, f x = Ret y) l.
Proof.
  induction l as [|x t IH]; simpl; [split; [constructor|by eexists]|].
  rewrite Forall_cons, <- IH. destruct (f x) as [y|e]; simpl.
  - destruct (map_result f t) as [ys|e]; simpl; split; [eauto|eauto|by intros [? ?]|by intros [_ [? ?]]].
  - split; [by intros [? ?]|]. by intros [[? ?] _].
Qed.

Section Contracts.
  Context {St Bk : Type} `{IronSession St} `{AdminApi Bk}.

Lemma patch_provider_ok c name b : form_block (patch_provider c name b : M St Bk _).
Proof.
  destruct b; [by apply block_ret|]. apply block_bind; [apply quiet_api|intros r].
  apply block_ret, check_result_not_ok.
Qed.

Lemma rotate_credential_ok c name k : form_block (rotate_credential c name k : M St Bk _).
Proof.
  unfold rotate_credential. destruct (str_empty k); [by apply block_ret|].
  apply block_bind; [apply quiet_api|intros r]. apply block_ret, check_result_not_ok.
Qed.

Lemma contract_updateProvider fd : action_contract providers_page (updateProvider fd : M St Bk _).
Proof.
  apply contract_if; [auto with action|]. apply contract_try, block_bind; [apply quiet_serverAdminClient|].
  intros c. apply block_and_then; [apply patch_provider_ok|apply rotate_credential_ok].
Qed.

Lemma contract_updateSettings fd : action_contract [js "/settings"] (updateSettings fd : M St Bk _).
Proof.
  apply contract_try, block_bind; [apply quiet_serverAdminClient|intros c].
  apply block_bind; [apply quiet_api|intros r]. apply block_ret. by destruct (truthy (error r)).
Qed.

Lemma keeps_updateProvider `{!PlainFetch Bk} fd : keeps_session (updateProvider fd : M St Bk _).
Proof.
  apply keeps_if; [auto with action|]. intros w r w'. apply try_form_plain.
  - apply block_bind; [apply quiet_serverAdminClient|].
    intros c. apply block_and_then; [apply patch_provider_ok|apply rotate_credential_ok].
  - apply plain_bind; [apply plain_serverAdminClient|intros c]. apply plain_and_then.
    + destruct (provider_patch fd); [apply plain_ret|]. apply plain_bind; [apply plain_api|intros; apply plain_ret].
    + unfold rotate_credential. destruct (str_empty _); [apply plain_ret|].
      apply plain_bind; [apply plain_api|intros; apply plain_ret].
Qed.

Lemma keeps_updateSettings `{!PlainFetch Bk} fd : keeps_session (updateSettings fd : M St Bk _).
Proof.
  intros w r w'. apply try_form_plain.
  - apply block_bind; [apply quiet_serverAdminClient|intros c].
    apply block_bind; [apply quiet_api|intros x]. apply block_ret. by destruct (truthy (error x)).
  - apply plain_bind; [apply plain_serverAdminClient|intros c].
    apply plain_bind; [apply plain_api|intros; apply plain_ret].
Qed.

End Contracts.

(** ** Properties *)

Section Properties.
  Context {St Bk : Type} `{IronSession St} `{AdminApi Bk}.

(** The actions that report the API's refusals inline, with the list page
    each one refreshes. *)
Definition config_form_actions (fd : FormData) (name scope : jstr) : list (list jstr * M St Bk FormResult) :=
  [ ([js "/providers"], createProvider fd); ([js "/providers"], updateProvider fd);
    ([js "/providers"], deleteProvider name);
    ([js "/models"], createModel fd); ([js "/models"], updateModel fd); ([js "/models"], deleteModel name);
    ([js "/routes"], upsertRoute fd); ([js "/routes"], updateRoute fd); ([js "/routes"], deleteRoute name);
    ([js "/plugins"], upsertPlugin fd); ([js "/plugins"], updatePlugin fd); ([js "/plugins"], deletePlugin name scope);
    ([js "/settings"], updateSettings fd) ].

(** C10: every configuration form action either succeeds, having made its API
    calls and then revalidated exactly its own list page, or reports an inline
    error with session and page caches untouched; the only other ends are the
    expired-session redirect (cookie destroyed first) and a missing session
    secret. *)
Theorem config_actions_contract fd name scope :
  Forall (fun pa => action_contract pa.1 pa.2) (config_form_actions fd name scope).
Proof.
  repeat apply Forall_cons_2; try apply Forall_nil_2; cbn [fst snd];
    [|apply contract_updateProvider| | | | | | | | | | |apply contract_updateSettings];
    unfold createProvider, deleteProvider, createModel, updateModel, deleteModel, upsertRoute, updateRoute,
      deleteRoute, upsertPlugin, updatePlugin, deletePlugin; cbv zeta; solve_contract.
Qed.

(** These actions never end the session: whatever status the API answers,
    401 included, the operator gets an inline result and keeps the cookie
    (fetch reporting HTTP failures as values). *)
Theorem config_actions_keep_session `{!PlainFetch Bk} fd name scope :
  Forall (fun pa => keeps_session pa.2) (config_form_actions fd name scope).
Proof.
  repeat apply Forall_cons_2; try apply Forall_nil_2; cbn [fst snd];
    [|apply keeps_updateProvider| | | | | | | | | | |apply keeps_updateSettings];
    unfold createProvider, deleteProvider, createModel, updateModel, deleteModel, upsertRoute, updateRoute,
      deleteRoute, upsertPlugin, updatePlugin, deletePlugin; cbv zeta; solve_keeps.
Qed.

Definition update_block (fd : FormData) : M St Bk (option FormResult) :=
  client ← serverAdminClient;
  and_then (patch_provider client (trim (field fd "name")) (provider_patch fd))
           (rotate_credential client (trim (field fd "name")) (trim (field fd "api_key"))).

Definition patch_request (client : AdminClient) (name : jstr) (b : obj) : list event :=
  match b with
  | [] => []
  | _ => [Sent client PATCH (js "/api/v1/providers/{name}") (path_body (js "name") (JStr name) (JObj b))]
  end.

Definition rotate_request (client : AdminClient) (name apiKey : jstr) : list event :=
  if str_empty apiKey then []
  else [Sent client PATCH (js "/api/v1/providers/{name}/credential")
          (path_body (js "name") (JStr name) (JObj [(js "api_key", JStr apiKey)]))].

(** The requests an update plans to make through [client], in order. *)
Definition update_requests (client : AdminClient) (fd : FormData) : list event :=
  patch_request client (trim (field fd "name")) (provider_patch fd)
  ++ rotate_request client (trim (field fd "name")) (trim (field fd "api_key")).

Lemma patch_provider_log c name b w : w_log ((patch_provider c name b : M St Bk _) w).2 = w_log w ++ patch_request c name b.
Proof.
  destruct b as [|x b]; [by rewrite app_nil_r|].
  unfold patch_provider, api, mbind, M_bind. by destruct (api_call _ _ _ _ _) as [[r|e] b'].
Qed.

Lemma rotate_credential_log c name k w :
  w_log ((rotate_credential c name k : M St Bk _) w).2 = w_log w ++ rotate_request c name k.
Proof.
  unfold rotate_credential, rotate_request. destruct (str_empty k); [by rewrite app_nil_r|].
  unfold api, mbind, M_bind. by destruct (api_call _ _ _ _ _) as [[r|e] b'].
Qed.

(** The block sends a prefix of the planned requests, all of them when it
    falls through. *)
Lemma update_block_log fd w o w1 : update_block fd w = (o, w1) ->
  exists client calls rest, update_requests client fd = calls ++ rest /\ w_log w1 = w_log w ++ calls /\
    (o = Ret None -> rest = []).
Proof.
  unfold update_block, mbind, M_bind. destruct (serverAdminClient_pure w) as [[c|x] ->].
  2:{ intros [= <- <-]. pose (c := {| baseUrl := []; headers := []; credentials := None |}).
      exists c, [], (update_requests c fd). by rewrite app_nil_r. }
  exists c. unfold and_then, mbind, M_bind in *. unfold update_requests.
  pose proof (patch_provider_log c (trim (field fd "name")) (provider_patch fd) w) as L1.
  destruct (patch_provider c _ (provider_patch fd) w) as [[[e|]|e] w2]; simpl in L1.
  - injection H1 as <- <-. by eexists _, _.
  - pose proof (rotate_credential_log c (trim (field fd "name")) (trim (field fd "api_key")) w2) as L2.
    rewrite H1 in L2. simpl in L2. eexists _, []. rewrite app_nil_r. split; [done|].
    rewrite L2, L1, <- app_assoc. done.
  - injection H1 as <- <-. by eexists _, _.
Qed.

Lemma provider_patch_keys fd : (js "api_key" ∉ keys (provider_patch fd)) /\
  (str_empty (trim (field fd "api_key")) = false -> js "api_key_ref" ∉ keys (provider_patch fd)).
Proof.
  unfold provider_patch, keys, set_text, set_endpoints, set_number, prop_if.
  destruct (str_empty (trim (field fd "type"))), (collectEndpoints fd), (str_empty (trim (field fd "weight"))),
    (str_empty (trim (field fd "api_key"))), (str_empty (trim (field fd "api_key_ref")));
    cbn [map negb fst app]; (split; [|intros ?]); try done; by apply (bool_decide_unpack _).
Qed.

(** C4: updating a provider keeps secrets on the credential endpoint.  The
    requests made are a prefix of: the generic PATCH of the non-secret fields
    (if any), then the credential rotation (if a key was typed) — all of them
    on success; the generic body never holds [api_key], and holds no
    [api_key_ref] (possibly a masked value) when a key is being rotated. *)
Theorem updateProvider_secrets fd (w w' : world St Bk) r : updateProvider fd w = (r, w') ->
  (js "api_key" ∉ keys (provider_patch fd)) /\
  (trim (field fd "api_key") <> [] -> js "api_key_ref" ∉ keys (provider_patch fd)) /\
  exists client calls rest, update_requests client fd = calls ++ rest /\
    (r = Ret FOk -> rest = []) /\
    w_log w' = w_log w ++ calls ++ revalidations providers_page r.
Proof.
  intros E. destruct (provider_patch_keys fd) as [K1 K2]. split; [done|].
  split; [intros N; apply K2; by destruct (trim _)|]. unfold updateProvider in E.
  destruct (str_empty (trim (field fd "name"))).
  { injection E as <- <-. pose (c := {| baseUrl := []; headers := []; credentials := None |}).
    exists c, [], (update_requests c fd). by rewrite app_nil_r. }
  apply try_form_log in E as (o & w1 & B & L & R).
  - apply update_block_log in B as (c & calls & rest & U & L1 & N). exists c, calls, rest.
    split; [done|]. split; [intros F; by apply N, R|]. by rewrite L, L1, <- app_assoc.
  - apply block_bind; [apply quiet_serverAdminClient|intros c].
    apply block_and_then; [apply patch_provider_ok|apply rotate_credential_ok].
Qed.

End Properties.

Lemma updateProvider_secrets_witness :
  let fd := [(js "name", FText (js " openai ")); (js "type", FText (js "openai"));
             (js "api_key", FText (js "sk-1")); (js "api_key_ref", FText (js "db://***"))] in
  let w := Reference.world0 [Reference.reply 200 None None; Reference.reply 200 None None] in
  (js "api_key_ref" ∉ keys (provider_patch fd)) /\ (updateProvider fd w).1 = Ret FOk.
Proof.
  split; [|reflexivity].
  destruct (updateProvider_secrets
    [(js "name", FText (js " openai ")); (js "type", FText (js "openai"));
     (js "api_key", FText (js "sk-1")); (js "api_key_ref", FText (js "db://***"))]
    (Reference.world0 [Reference.reply 200 None None; Reference.reply 200 None None]) _ _ (surjective_pairing _)) as (_ & K & _).
  apply K. vm_compute. congruence.
Defined.

Lemma config_actions_keep_session_witness :
  Forall (fun pa => keeps_session pa.2)
    (config_form_actions (St:=SessionData) (Bk:=list api_result) [(js "name", FText (js "p"))] (js "p") (js "")).
Proof. apply config_actions_keep_session. Defined.

(** ** Properties: endpoints and prices *)

(** The row at index [i] of the endpoint table. *)
Definition endpoint_row (fd : FormData) (i : nat) : endpoint :=
  let id := trim (nth_field (fields fd "endpoint_id") i) in
  {| ep_id := if str_empty id then None else Some id;
     ep_adapter := trim (nth_field (fields fd "endpoint_adapter") i);
     ep_base_url := trim (nth_field (fields fd "endpoint_base_url") i) |}.

Lemma collectEndpoints_from_spec fd i n :
  collectEndpoints_from (fields fd "endpoint_adapter") (fields fd "endpoint_base_url") (fields fd "endpoint_id") i n =
  List.filter (fun e => negb (str_empty (ep_adapter e) && str_empty (ep_base_url e))) (map (endpoint_row fd) (seq i n)).
Proof.
  revert i. induction n as [|n IH]; intros i; simpl; [done|].
  destruct (str_empty (trim (nth_field (fields fd "endpoint_adapter") i)) &&
            str_empty (trim (nth_field (fields fd "endpoint_base_url") i))); simpl; by rewrite IH.
Qed.

(** The endpoint list sent is the table's rows in display order, less the
    rows whose adapter and base URL are both blank — a row with a base URL is
    sent even when its adapter is empty. *)
Theorem collectEndpoints_rows fd :
  collectEndpoints fd =
    List.filter (fun e => negb (str_empty (ep_adapter e) && str_empty (ep_base_url e)))
      (map (endpoint_row fd) (seq 0 (length (fields fd "endpoint_adapter")))) /\
  (forall i, (i < length (fields fd "endpoint_adapter"))%nat ->
     ep_adapter (endpoint_row fd i) = [] -> ep_base_url (endpoint_row fd i) <> [] ->
     endpoint_row fd i ∈ collectEndpoints fd).
Proof.
  assert (E : collectEndpoints fd = List.filter (fun e => negb (str_empty (ep_adapter e) && str_empty (ep_base_url e)))
      (map (endpoint_row fd) (seq 0 (length (fields fd "endpoint_adapter"))))) by apply collectEndpoints_from_spec.
  split; [done|]. intros i L A B. rewrite E. apply list_elem_of_In, filter_In. split.
  - apply in_map, in_seq. lia.
  - rewrite A. by destruct (ep_base_url (endpoint_row fd i)).
Qed.

(** A price field: blank, or an amount of the money grammar. *)
Definition price_ok (s : jstr) : Prop := s = [] \/ exists neg ip fp, Amount (trim s) neg ip fp.

Definition price_field (fd : FormData) (k : jstr) (i : nat) : jstr := trim_at (fields fd k) i.

Lemma price_ret s : (exists n, price s = Ret n) <-> price_ok s.
Proof.
  unfold price, price_ok. destruct s as [|c s]; simpl; [split; [by left|eauto]|].
  unfold Money.Web.displayToMicro. destruct (match_amount (trim (c :: s))) as [[[neg ip] fp]|] eqn:E.
  - split; [|eauto]. intros _. right. exists neg, ip, fp. by apply match_amount_sound.
  - split; [by intros [? ?]|]. intros [?|(neg & ip & fp & A)]; [done|].
    by rewrite (match_amount_complete _ _ _ _ A) in E.
Qed.

Lemma parse_upstream_ret fd i p : (exists u, parse_upstream fd i p = Ret u) <->
  price_ok (price_field fd (js "upstream_prompt_price") i) /\ price_ok (price_field fd (js "upstream_completion_price") i).
Proof.
  unfold parse_upstream. fold (price_field fd (js "upstream_prompt_price") i).
  fold (price_field fd (js "upstream_completion_price") i). rewrite <- !price_ret.
  set (a := price_field fd (js "upstream_prompt_price") i). set (b := price_field fd (js "upstream_completion_price") i).
  destruct (negb (str_empty a) || negb (str_empty b)) eqn:E.
  - destruct (price a), (price b); simpl; split; try (intros [? ?]; done); eauto.
    + intros [_ [? ?]]. done.
    + intros [[? ?] _]. done.
    + intros [[? ?] _]. done.
  - bool_to_prop. destruct a; [|done]. destruct b; [|done]. simpl. split; eauto.
Qed.

(** A parsed row carries exactly the amounts typed. *)
Lemma parse_upstream_pricing fd i p u pr : parse_upstream fd i p = Ret u -> pricing u = Some pr ->
  price (price_field fd (js "upstream_prompt_price") i) = Ret (prompt_per_1m pr) /\
  price (price_field fd (js "upstream_completion_price") i) = Ret (completion_per_1m pr) /\
  cache_hit_multiplier pr = cache_multiplier (str_to_num (price_field fd (js "upstream_cache_hit_multiplier") i)).
Proof.
  unfold parse_upstream. fold (price_field fd (js "upstream_prompt_price") i).
  fold (price_field fd (js "upstream_completion_price") i).
  fold (price_field fd (js "upstream_cache_hit_multiplier") i).
  destruct (negb _ || negb _); simpl; [|by intros [= <-]].
  destruct (price (price_field fd (js "upstream_prompt_price") i)) as [pp|]; simpl; [|done].
  destruct (price (price_field fd (js "upstream_completion_price") i)) as [cp|]; simpl; [|done].
  intros [= <-] [= <-]. done.
Qed.

Lemma cache_multiplier_bounds pct m : cache_multiplier pct = Some m ->
  nle (int 0) m = true /\ nle m (int 1000000) = true.
Proof.
  unfold cache_multiplier. destruct pct as [|neg|a k]; try done. simpl is_finite.
  destruct (true && nlt (int 0) (Fin a k)); [|done]. intros [= <-]. apply clamp_bounds; [apply rnd_not_nan|done].
Qed.

(** What the rows of a submitted model form must satisfy to be accepted. *)
Definition prices_ok (fd : FormData) : Prop :=
  forall i, (i < length (fields fd "upstream_provider"))%nat ->
    price_ok (price_field fd (js "upstream_prompt_price") i) /\
    price_ok (price_field fd (js "upstream_completion_price") i).

Lemma parse_upstreams_ret fd : (exists us, parse_upstreams fd = Ret us) <-> prices_ok fd.
Proof.
  unfold parse_upstreams, prices_ok. rewrite map_result_ret_all, Forall_lookup. split.
  - intros Hall i L. apply lookup_lt_is_Some in L as [p Hp]. apply (parse_upstream_ret fd i p).
    apply (Hall i (i, p)). by rewrite list_lookup_imap, Hp.
  - intros Hall i [j p]. rewrite list_lookup_imap. intros (q & Hq & [= <- <-])%fmap_Some_1.
    apply parse_upstream_ret, Hall. by eapply lookup_lt_Some.
Qed.

Lemma imap_pair_snd {A} (l : list A) : map snd (imap pair l) = l.
Proof. apply list_eq. intros i. rewrite list_lookup_fmap, list_lookup_imap. by destruct (l !! i). Qed.

Lemma parse_upstreams_provider fd us :
  Forall2 (fun x y => parse_upstream fd x.1 x.2 = Ret y) (imap pair (fields fd "upstream_provider")) us ->
  map provider us = fields fd "upstream_provider".
Proof.
  rewrite <- (imap_pair_snd (fields fd "upstream_provider")) at 2.
  induction 1 as [|[i p] u l us Hu _ IH]; simpl; [done|]. rewrite IH. f_equal.
  revert Hu. simpl. unfold parse_upstream.
  destruct (negb _ || negb _); [|by intros [= <-]].
  destruct (price (trim_at (fields fd "upstream_prompt_price") i)); [|done].
  destruct (price (trim_at (fields fd "upstream_completion_price") i)); [|done]. by intros [= <-].
Qed.

(** a model form is refused before any request exactly when some price is
    neither blank nor a decimal amount; otherwise there is one upstream per
    row, in row order, whose prices are the exact micro-unit values of the
    amounts typed in that row and whose cache multiplier lies between 0 and
    1,000,000. *)
Theorem model_pricing fd :
  (~ prices_ok fd -> forall (St Bk : Type) (IS : IronSession St) (AA : AdminApi Bk) (w : world St Bk),
     trim (field fd "alias") <> [] ->
     createModel fd w = (Ret invalid_pricing, w) /\ updateModel fd w = (Ret invalid_pricing, w)) /\
  (prices_ok fd -> exists us, parse_upstreams fd = Ret us /\
     map provider us = fields fd "upstream_provider" /\
     forall i u pr, us !! i = Some u -> pricing u = Some pr ->
       price (price_field fd (js "upstream_prompt_price") i) = Ret (prompt_per_1m pr) /\
       price (price_field fd (js "upstream_completion_price") i) = Ret (completion_per_1m pr) /\
       forall m, cache_hit_multiplier pr = Some m -> nle (int 0) m = true /\ nle m (int 1000000) = true).
Proof.
  rewrite <- parse_upstreams_ret. split.
  - intros N St Bk IS AA w A. unfold createModel, updateModel.
    destruct (parse_upstreams fd) as [us|e]; [destruct N; eauto|]. by destruct (trim (field fd "alias")).
  - intros [us E]. exists us. split; [done|]. unfold parse_upstreams in E. apply map_result_ret_inv in E. split.
    + by apply parse_upstreams_provider.
    + intros i u pr Hu Hp. eapply Forall2_lookup_r in E as ([j p] & Hj & Pu); [|done].
      rewrite list_lookup_imap in Hj. apply fmap_Some_1 in Hj as (q & Hq & [= -> ->]). simpl in Pu.
      destruct (parse_upstream_pricing _ _ _ _ _ Pu Hp) as (P1 & P2 & P3). split; [done|]. split; [done|].
      intros m Hm. eapply cache_multiplier_bounds. by rewrite <- P3.
Qed.

(** ** Properties: editing a model *)

(** Stored upstreams as the API documents them: integral prices in the safe
    range in any currency, a cache multiplier between 0 and 1,000,000. *)
Definition stored_upstream (u : ModelUpstream) : Prop :=
  (forall n, default_max_tokens u = Some n -> exists k, n = int k /\ 0 < k <= 2 ^ 53) /\
  (forall p, pricing u = Some p ->
     (exists a, prompt_per_1m p = int a /\ 0 <= a <= 2 ^ 52) /\
     (exists b, completion_per_1m p = int b /\ 0 <= b <= 2 ^ 52) /\
     (forall m, cache_hit_multiplier p = Some m -> exists k, m = int k /\ 0 <= k <= 1000000)).

(** The constraint the browser checks before it submits the form: the
    percentage shown, the multiplier over 10,000, is a multiple of the input's
    [step={1}]. *)
Definition step_ok (u : ModelUpstream) : bool :=
  match m ← (p ← pricing u; cache_hit_multiplier p); Some m with
  | Some (Fin k 0) => k mod 10000 =? 0
  | _ => true
  end.

(** A price rounded to hundredths of the currency unit. *)
Definition round_price (n : num) : num := match n with Fin a 0 => int (cents a * 10000) | _ => n end.

(** An upstream as saving the form unchanged rewrites it: the prices rounded,
    the currency the dollar, a multiplier of zero left out. *)
Definition round_upstream (u : ModelUpstream) : ModelUpstream :=
  {| provider := provider u; upstream_model := upstream_model u; default_max_tokens := default_max_tokens u;
     pricing := match pricing u with
                | Some p => Some {| prompt_per_1m := round_price (prompt_per_1m p);
                                    completion_per_1m := round_price (completion_per_1m p);
                                    currency := js "USD";
                                    cache_hit_multiplier := m ← cache_hit_multiplier p; if nlt (int 0) m then Some m else None |}
                | None => None
                end |}.

Lemma fields_app fd1 fd2 k : fields (fd1 ++ fd2) k = fields fd1 k ++ fields fd2 k.
Proof. unfold fields, fd_getAll. by rewrite List.filter_app, !map_app. Qed.

(** A form made of uniform rows zips back by position. *)
Lemma fields_rows {A} (row : A -> FormData) k (g : A -> jstr) l :
  (forall x, fields (row x) k = [g x]) -> fields (flat_map row l) k = map g l.
Proof. intros H. induction l as [|x l IH]; simpl; [done|]. by rewrite fields_app, H, IH. Qed.

Lemma percent_roundtrip q : 1 <= q <= 100 ->
  cache_multiplier (str_to_num (trim (num_to_string (ndiv (int (10000 * q)) (int 10000))))) = Some (int (10000 * q)).
Proof.
  intros Hq. assert (A : forallb (fun n => bool_decide
    (cache_multiplier (str_to_num (trim (num_to_string (ndiv (int (10000 * Z.of_nat n)) (int 10000))))) =
     Some (int (10000 * Z.of_nat n)))) (seq 1 100) = true) by (vm_compute; reflexivity).
  rewrite forallb_forall in A. specialize (A (Z.to_nat q)). rewrite Z2Nat.id in A by lia.
  eapply bool_decide_eq_true, A, in_seq. lia.
Qed.

Lemma price_display a : 0 <= a <= 2 ^ 52 ->
  price (trim (Money.Web.microToDisplay (int a))) = Ret (round_price (int a)) /\
  str_empty (trim (Money.Web.microToDisplay (int a))) = false.
Proof.
  intros Ha. destruct (display_back a Ha) as (T & N & E). rewrite T. split; [|done]. unfold price. by rewrite N, E.
Qed.

Lemma max_tokens_roundtrip u : stored_upstream u ->
  (if nlt (int 0) (str_to_num (maxTokensVal u)) then Some (str_to_num (maxTokensVal u)) else None) = default_max_tokens u.
Proof.
  intros [Hm _]. unfold maxTokensVal. destruct (default_max_tokens u) as [n|]; [|done].
  destruct (Hm n eq_refl) as (k & -> & Hk).
  assert (num_truthy (int k) = true) as -> by (destruct k; done || lia).
  rewrite str_to_num_int, nlt_int by lia. by rewrite (proj2 (Z.ltb_lt _ _)) by lia.
Qed.

Lemma cache_roundtrip u p : stored_upstream u -> step_ok u = true -> pricing u = Some p ->
  cache_multiplier (str_to_num (trim (cacheHitMulVal u))) = (m ← cache_hit_multiplier p; if nlt (int 0) m then Some m else None).
Proof.
  intros [_ Hp] S E. destruct (Hp p E) as (_ & _ & Hc). unfold step_ok in S. unfold cacheHitMulVal. rewrite E in *.
  cbn [mbind option_bind] in *. destruct (cache_hit_multiplier p) as [m|]; [|done]. destruct (Hc m eq_refl) as (k & -> & Hk).
  cbn [int] in S. apply Z.eqb_eq, Z.div_exact in S; [|lia]. cbn [mbind option_bind]. rewrite nlt_int.
  destruct (Z.ltb_spec 0 k); [|by vm_compute]. rewrite S. apply percent_roundtrip.
  pose proof (Z.div_le_upper_bound k 10000 100). lia.
Qed.

Lemma price_roundtrip u p : stored_upstream u -> pricing u = Some p ->
  str_empty (trim (promptPriceVal u)) = false /\
  price (trim (promptPriceVal u)) = Ret (round_price (prompt_per_1m p)) /\
  price (trim (completionPriceVal u)) = Ret (round_price (completion_per_1m p)).
Proof.
  intros [_ Hp] E. destruct (Hp p E) as ((a & A & Ha) & (b & B & Hb) & _).
  unfold promptPriceVal, completionPriceVal. rewrite E, A, B.
  destruct (price_display a Ha) as [? ?], (price_display b Hb) as [? _]. done.
Qed.

Lemma parse_upstream_values fd i p m mt pv cv xv :
  at_index (fields fd "upstream_model") i = Some m -> at_index (fields fd "upstream_max_tokens") i = Some mt ->
  at_index (fields fd "upstream_prompt_price") i = Some pv ->
  at_index (fields fd "upstream_completion_price") i = Some cv ->
  at_index (fields fd "upstream_cache_hit_multiplier") i = Some xv ->
  parse_upstream fd i p =
    (pr ← (if negb (str_empty (trim pv)) || negb (str_empty (trim cv)) then
             pp ← price (trim pv);
             cp ← price (trim cv);
             Ret (Some {| prompt_per_1m := pp; completion_per_1m := cp; currency := js "USD";
                          cache_hit_multiplier := cache_multiplier (str_to_num (trim xv)) |})
           else Ret None);
     Ret {| provider := p; upstream_model := m;
            default_max_tokens := if nlt (int 0) (str_to_num mt) then Some (str_to_num mt) else None;
            pricing := pr |}).
Proof. intros F1 F2 F3 F4 F5. unfold parse_upstream, nth_field, trim_at. by rewrite F1, F2, F3, F4, F5. Qed.

Lemma parse_priced s1 s2 a b (c : option num) (f : option Pricing -> result ModelUpstream) :
  str_empty s1 = false -> price s1 = Ret a -> price s2 = Ret b ->
  (pr ← (if negb (str_empty s1) || negb (str_empty s2) then
           pp ← price s1; cp ← price s2;
           Ret (Some {| prompt_per_1m := pp; completion_per_1m := cp; currency := js "USD";
                        cache_hit_multiplier := c |})
         else Ret None); f pr) =
  f (Some {| prompt_per_1m := a; completion_per_1m := b; currency := js "USD"; cache_hit_multiplier := c |}).
Proof. intros E1 P1 P2. by rewrite E1, P1, P2. Qed.

Lemma row_at us i u k (g : ModelUpstream -> jstr) : us !! i = Some u ->
  (forall x, fields (UpstreamRow x) k = [g x]) -> at_index (fields (flat_map UpstreamRow us) k) i = Some (g u).
Proof. intros E Hg. rewrite (fields_rows _ _ g _ Hg). unfold at_index. by rewrite list_lookup_fmap, E. Qed.

(** One unchanged row parses back to its upstream as the form rewrites it. *)
Lemma row_roundtrip us i u : us !! i = Some u -> stored_upstream u -> step_ok u = true ->
  parse_upstream (flat_map UpstreamRow us) i (provider u) = Ret (round_upstream u).
Proof.
  intros E Hs Hk.
  rewrite (parse_upstream_values _ i _ (upstream_model u) (maxTokensVal u) (promptPriceVal u)
             (completionPriceVal u) (cacheHitMulVal u)) by (apply (row_at us i u); [done|reflexivity]).
  rewrite (max_tokens_roundtrip u Hs). unfold round_upstream. destruct (pricing u) as [p|] eqn:P.
  - destruct (price_roundtrip u p Hs P) as (N & P1 & P2). rewrite (parse_priced _ _ _ _ _ _ N P1 P2).
    by rewrite (cache_roundtrip u p Hs Hk P).
  - unfold promptPriceVal, completionPriceVal. by rewrite P.
Qed.

(** opening a model for editing and saving it unchanged sends back every
    upstream in order with its provider, model, token limit and cache
    multiplier intact, but with its prices rounded to hundredths and its
    currency replaced by the dollar. *)
Theorem model_edit_roundtrip us : Forall stored_upstream us -> forallb step_ok us = true ->
  parse_upstreams (flat_map UpstreamRow us) = Ret (map round_upstream us).
Proof.
  intros Hs Hk. unfold parse_upstreams. rewrite forallb_forall in Hk.
  rewrite (fields_rows _ _ provider) by reflexivity.
  assert (G : forall i u, us !! i = Some u ->
            parse_upstream (flat_map UpstreamRow us) i (provider u) = Ret (round_upstream u)).
  { intros i u E. apply row_roundtrip; [done|by eapply Forall_lookup_1|].
    apply Hk, list_elem_of_In. by eapply list_elem_of_lookup_2. }
  rewrite (map_result_ret_ext _ (fun ip => default (round_upstream (Build_ModelUpstream [] [] None None))
                                              (round_upstream <$> us !! ip.1))).
  - f_equal. apply list_eq. intros i. rewrite !list_lookup_fmap, list_lookup_imap, list_lookup_fmap.
    destruct (us !! i) eqn:E; simpl; [by rewrite E|done].
  - intros [i p] (j & Hj)%list_elem_of_lookup_1. rewrite list_lookup_imap, list_lookup_fmap in Hj.
    destruct (us !! j) as [u|] eqn:E; [|done]. injection Hj as <- <-. simpl. rewrite E. by apply G.
Qed.

(** The upstreams the edit leaves as they are. *)
Lemma round_upstream_id u : stored_upstream u ->
  round_upstream u = u <->
  (forall p, pricing u = Some p -> currency p = js "USD" /\
     (exists c, prompt_per_1m p = int (10000 * c)) /\ (exists c, completion_per_1m p = int (10000 * c)) /\
     cache_hit_multiplier p <> Some (int 0)).
Proof.
  intros [_ Hs]. assert (R : forall a, 0 <= a -> round_price (int a) = int a <-> exists c, int a = int (10000 * c)).
  { intros a Ha. unfold round_price, cents. cbn [int]. rewrite Z.abs_eq by lia. split.
    - intros E. injection E as E. exists ((a + 5000) / 10000). f_equal. lia.
    - intros [c E]. injection E as ->. f_equal. rewrite (Z.mul_comm 10000 c), Z.div_add_l by lia. change (5000 / 10000) with 0. lia. }
  unfold round_upstream. destruct u as [pv um mt [p|]]; cbn [pricing provider upstream_model default_max_tokens] in *; [|split; [by intros _ p|done]].
  destruct (Hs p eq_refl) as ((a & A & Ha) & (b & B & Hb) & Hc). destruct p as [pp cp cu cm]; cbn in *. subst pp cp. split.
  - intros E. injection E as E1 E2 E3 E4. intros q [= <-]. cbn. split_and!; [done|apply R; [lia|]; cbn; by rewrite E1|apply R; [lia|]; cbn; by rewrite E2|].
    intros ->. by cbn in E4.
  - intros E. destruct (E _ eq_refl) as (E1 & E2 & E3 & E4). cbn in *. apply R in E2, E3; [|lia..]. rewrite E2, E3, E1. do 3 f_equal.
    destruct cm as [m|]; [|done]. destruct (Hc m eq_refl) as (k & -> & Hk). pose proof (nlt_int 0 k) as N.
    cbn in N |- *. rewrite N. destruct (Z.ltb_spec 0 k); [done|]. destruct E4. do 2 f_equal. lia.
Qed.

(** A price of 0.075 per million tokens comes back as 0.08. *)
Definition cheap_upstream : ModelUpstream :=
  {| provider := js "openai"; upstream_model := js "gpt-4o-mini"; default_max_tokens := Some (int 4096);
     pricing := Some {| prompt_per_1m := int 75000; completion_per_1m := int 600000; currency := js "USD";
                        cache_hit_multiplier := Some (int 500000) |} |}.

Lemma model_edit_roundtrip_witness :
  parse_upstreams (flat_map UpstreamRow [cheap_upstream]) = Ret (map round_upstream [cheap_upstream]) /\
  (prompt_per_1m <$> pricing (round_upstream cheap_upstream)) = Some (int 80000).
Proof.
  split; [|reflexivity]. apply (model_edit_roundtrip [cheap_upstream]); [|reflexivity]. constructor; [|constructor]. split.
  - intros n [= <-]. exists 4096. split; [reflexivity|lia].
  - intros p [= <-]. split; [exists 75000; split; [reflexivity|lia]|].
    split; [exists 600000; split; [reflexivity|lia]|].
    intros m [= <-]. exists 500000. split; [reflexivity|lia].
Defined.

(** ** Properties: settings and history *)

Section MoreProperties.
  Context {St Bk : Type} `{IronSession St} `{AdminApi Bk}.

(** Saving the gateway settings looks only at the error body, not at the
    status: a refused PUT whose response has no error body (an empty 5xx from a
    proxy, say) is reported to the operator as saved. *)
Theorem updateSettings_ignores_status fd (w : world St Bk) c r b' :
  serverAdminClient w = (Ret c, w) ->
  api_call c PUT (js "/api/v1/gateway-settings") (with_body (settings_body fd)) (w_backend w) = (Ret r, b') ->
  error r = None -> response_ok r = false ->
  (updateSettings fd w).1 = Ret FOk.
Proof.
  intros C A E _. unfold updateSettings, try_form, try_catch, mbind, M_bind. rewrite C. unfold api. rewrite A, E.
  cbn [truthy]. unfold mret, M_ret. by rewrite revalidate_ok_eq.
Qed.

(** Rolling back sends exactly one request; the history page is refreshed
    only after the API accepted it, an expired session goes to the logout
    route and every other refusal reaches the caller as the [AdminError]. *)
Theorem rollback_outcome v (w : world St Bk) c r b' :
  let o := with_body (JObj [(js "version", JNum v)]) in
  serverAdminClient w = (Ret c, w) ->
  api_call c POST (js "/api/v1/config/rollback") o (w_backend w) = (Ret r, b') ->
  exists w', rollbackAction v w =
      ((if match error r with Some _ => true | None => false end || negb (response_ok r)
        then if status r =? 401 then Throw (ERedirect (js "/logout") None) else Throw (AdminError (status r) (error r))
        else Ret tt), w') /\
    w_store w' = w_store w /\
    w_log w' = w_log w ++ [Sent c POST (js "/api/v1/config/rollback") o]
               ++ (if match error r with Some _ => true | None => false end || negb (response_ok r)
                   then [] else [Revalidated (js "/config/history")]).
Proof.
  intros o C A. subst o. unfold rollbackAction, try_catch. unfold mbind, M_bind. rewrite (call_unwrap_eq _ _ _ _ _ _ _ C A).
  unfold unwrap, mbind, result_bind. destruct (_ || _).
  - unfold onAuthExpired, AdminError. destruct (status r =? 401); eexists; simpl; rewrite ?app_nil_r; done.
  - eexists. split; [reflexivity|]. split; [reflexivity|]. simpl. by rewrite <- app_assoc.
Qed.

End MoreProperties.

Lemma updateSettings_ignores_status_witness :
  (updateSettings [(js "capture_enabled", FText (js "true"))]
     (Reference.world0 [Reference.reply 502 None None])).1 = Ret FOk.
Proof.
  apply (updateSettings_ignores_status _ _
           (createAdminClient (js "http://admin:8090") (Some (js "tok")) None)
           (Reference.reply 502 None None) []); reflexivity.
Defined.

Lemma rollback_outcome_witness :
  exists w', rollbackAction (int 3) (Reference.world0 [Reference.reply 401 None (Reference.envelope "expired")]) =
    (Throw (ERedirect (js "/logout") None), w').
Proof.
  destruct (rollback_outcome (int 3) (Reference.world0 [Reference.reply 401 None (Reference.envelope "expired")])
              (createAdminClient (js "http://admin:8090") (Some (js "tok")) None)
              (Reference.reply 401 None (Reference.envelope "expired")) []) as (w' & E & _);
    [reflexivity|reflexivity|exists w'; exact E].
Defined.
