(* ===== verification/TenantActions.v ===== *)
(** * Tenancy, access and billing actions of the Control Panel

    The server actions of [tenants], [groups], [applications], [operators],
    [roles], [api-keys], [quotas] and [budgets], the operator's own password and
    logout ([web/src/app/[locale]/(dashboard)]), login ([login/actions.ts]) and
    the trace-detail fetch ([trace/.../fetch-detail.ts], [actions.ts]). *)

From S2P Require Import Prelude JsNumber Money JsString Json AdminRuntime FormActions.

Section Tenancy.
  Context {St Bk : Type} `{IronSession St} `{AdminApi Bk}.

(** ** Tenants, groups, applications *)

Definition createTenant (fd : FormData) : M St Bk FormResult :=
  let name := trim (field fd "name") in
  if str_empty name then reject (js "name is required")
  else submit POST (js "/api/v1/tenants") (with_body (JObj [(js "name", JStr name)])) (js "create failed") [js "/tenants"].

Definition setTenantEnabled (name : jstr) (enabled : bool) : M St Bk FormResult :=
  submit PATCH (js "/api/v1/tenants/{name}")
    (path_body (js "name") (JStr name) (JObj [(js "enabled", JBool enabled)])) (js "update failed") [js "/tenants"].

Definition createGroup (fd : FormData) : M St Bk FormResult :=
  let name := trim (field fd "name") in
  if str_empty name then reject (js "name is required")
  else submit POST (js "/api/v1/groups") (with_body (JObj [(js "name", JStr name)])) (js "create failed") [js "/groups"].

Definition setGroupEnabled (name : jstr) (enabled : bool) : M St Bk FormResult :=
  submit PATCH (js "/api/v1/groups/{name}")
    (path_body (js "name") (JStr name) (JObj [(js "enabled", JBool enabled)])) (js "update failed") [js "/groups"].

Definition deleteGroup (name : jstr) : M St Bk FormResult :=
  submit DELETE (js "/api/v1/groups/{name}") (with_path (js "name") (JStr name)) (js "delete failed") [js "/groups"].

Definition createApplication (fd : FormData) : M St Bk FormResult :=
  let name := trim (field fd "name") in
  let ownerGroup := trim (field fd "owner_group") in
  if str_empty name then reject (js "name is required")
  else if str_empty ownerGroup then reject (js "owner group is required")
  else submit POST (js "/api/v1/applications")
         (with_body (JObj [(js "name", JStr name); (js "owner_group", JStr ownerGroup)]))
         (js "create failed") [js "/applications"].

Definition setApplicationEnabled (name : jstr) (enabled : bool) : M St Bk FormResult :=
  submit PATCH (js "/api/v1/applications/{name}")
    (path_body (js "name") (JStr name) (JObj [(js "enabled", JBool enabled)])) (js "update failed") [js "/applications"].

Definition deleteApplication (name : jstr) : M St Bk FormResult :=
  submit DELETE (js "/api/v1/applications/{name}") (with_path (js "name") (JStr name)) (js "delete failed")
    [js "/applications"].

(** ** Operators *)

Definition createOperator (fd : FormData) : M St Bk FormResult :=
  let email := trim (field fd "email") in
  let password := trim (field fd "password") in
  let roleIdRaw := trim (field fd "role_id") in
  let tenantId := trim (field fd "tenant_id") in
  if str_empty email || str_empty password then reject (js "email and password are required")
  else if str_empty roleIdRaw then reject (js "role is required")
  else
    let b := [(js "email", JStr email); (js "password", JStr password); (js "role_id", JNum (str_to_num roleIdRaw))]
             ++ prop_if (negb (str_empty tenantId)) (js "tenant_id") (JNum (str_to_num tenantId)) in
    submit POST (js "/api/v1/operators") (with_body (JObj b)) (js "create failed") [js "/operators"].

Definition updateOperator (fd : FormData) : M St Bk FormResult :=
  let id := field_number fd "id" in
  let email := trim (field fd "email") in
  let password := trim (field fd "password") in
  let tenantId := trim (field fd "tenant_id") in
  if negb (num_truthy id) then mret (FErr (js "operator id is required") None)
  else if str_empty email && str_empty password && str_empty tenantId
  then reject (js "at least one field must be provided")
  else
    let b := prop_if (negb (str_empty email)) (js "email") (JStr email)
             ++ prop_if (negb (str_empty password)) (js "password") (JStr password)
             ++ prop_if (negb (str_empty tenantId)) (js "tenant_id") (JNum (str_to_num tenantId)) in
    submit PUT (js "/api/v1/operators/{id}") (path_body (js "id") (JNum id) (JObj b)) (js "update failed") [js "/operators"].

Definition deleteOperator (id : num) : M St Bk FormResult :=
  submit DELETE (js "/api/v1/operators/{id}") (with_path (js "id") (JNum id)) (js "delete failed") [js "/operators"].

(** ** The operator's own account *)


Definition changePassword (fd : FormData) : M St Bk FormResult :=
  let password := trim (field fd "password") in
  if str_empty password then reject (js "password is required")
  else submit POST (js "/api/v1/operators/me/password") (with_body (JObj [(js "password", JStr password)]))
         (js "password change failed") [].

(** ** Quotas *)

(** [amount * 1_000_000] *)
Definition topup_delta (amount : num) : num := nmul amount (int 1000000).

Definition topupQuota (fd : FormData) : M St Bk FormResult :=
  let scope := trim (field fd "scope") in
  let amount := field_number fd "amount" in
  let currency := let c := trim (field fd "currency") in if str_empty c then js "USD" else c in
  if str_empty scope then reject (js "scope is required")
  else if negb (num_truthy amount) || nle amount (int 0) then reject (js "amount must be positive")
  else submit POST (js "/api/v1/quotas/topup")
         (with_body (JObj [(js "scope", JStr scope); (js "delta", JNum (topup_delta amount)); (js "currency", JStr currency)]))
         (js "top-up failed") [js "/quotas"].

(** ** Roles *)

(** The [catch] of the role actions: [mapBackendError(String(err))]. *)
Definition role_error (err : exn) : M St Bk FormResult := mret (mapped_error (exn_to_string err)).

(** [permsStr ? permsStr.split(",").filter(Boolean) : []] *)
Definition role_permissions (fd : FormData) : list jstr :=
  let permsStr := trim (field fd "permissions") in
  if str_empty permsStr then [] else filter_truthy (split_char 44 permsStr).

Definition createRole (fd : FormData) : M St Bk FormResult :=
  let name := trim (field fd "name") in
  let scopeKind := trim (match fd_get fd "scope_kind" with Some e => entry_string e | None => js "tenant" end) in
  let description := trim (field fd "description") in
  if str_empty name then mret (FErr (js "Name is required") None)
  else try_catch
         (_ ← call_unwrap POST (js "/api/v1/roles")
                (with_body (JObj [(js "name", JStr name); (js "scope_kind", JStr scopeKind);
                                  (js "description", JStr description); (js "permissions", JStrs (role_permissions fd))]));
          revalidate_ok [js "/roles"])
         role_error.

Definition updateRole (fd : FormData) : M St Bk FormResult :=
  let id := field_number fd "role_id" in
  let description := trim (field fd "description") in
  if negb (num_truthy id) then mret (FErr (js "Role ID is required") None)
  else try_catch
         (_ ← call_unwrap PATCH (js "/api/v1/roles/{id}")
                (path_body (js "id") (JNum id)
                   (JObj ([(js "permissions", JStrs (role_permissions fd))]
                          ++ prop_if (negb (str_empty description)) (js "description") (JStr description))));
          revalidate_ok [js "/roles"])
         role_error.

(** The refusal carries no [errorKey]. *)
Definition deleteRole (id : num) : M St Bk FormResult :=
  try_catch
    (_ ← call_unwrap DELETE (js "/api/v1/roles/{id}") (with_path (js "id") (JNum id)); revalidate_ok [js "/roles"])
    (fun err => mret (FErr (fallback (mapBackendError (exn_to_string err))) None)).

(** ** API keys *)

Definition formError (err : exn) : M St Bk FormResult :=
  result ← toFormError err;
  match result, err with
  | FErr _ _, EAdmin _ _ m => mret (mapped_error m)
  | _, _ => mret result
  end.

Definition allowed_models (fd : FormData) : list jstr := filter_truthy (fields fd "allowed_models").

(** [formData.getAll("allowed_models")...length] is truthy. *)
Definition nonempty {A} (l : list A) : bool := match l with [] => false | _ => true end.

(** The plaintext key of the reply, [undefined] when the result is an error. *)
Definition createAPIKey (fd : FormData) : M St Bk (FormResult * unknown) :=
  try_catch
    (client ← serverAdminClient;
     let b := [(js "key_id", JStr (trim (field fd "key_id"))); (js "group_id", JNum (field_number fd "group_id"));
               (js "application_id", JNum (field_number fd "application_id"));
               (js "environment", JStr (field fd "environment"))]
              ++ prop_if (nonempty (allowed_models fd)) (js "allowed_models") (JStrs (allowed_models fd)) in
     r ← api client POST (js "/api/v1/api-keys") (with_body (JObj b));
     d ← lift (unwrap (Ret r));
     _ ← revalidatePath (js "/api-keys");
     k ← lift (match d with
               | Some v => prop v (js "api_key")
               | None => Throw (err_type (js "Cannot read properties of undefined (reading 'api_key')"))
               end);
     mret (FOk, k))
    (fun err => (fun r => (r, None)) <$> formError err).

Definition updateAPIKey (fd : FormData) : M St Bk FormResult :=
  let bind := field_is fd "bind_identity" "true" in
  let b := prop_if (nonempty (allowed_models fd) || field_is fd "had_models" "true" || negb bind)
             (js "allowed_models") (JStrs (allowed_models fd))
           ++ (if bind then [(js "group_id", JNum (field_number fd "group_id"));
                             (js "application_id", JNum (field_number fd "application_id"));
                             (js "environment", JStr (field fd "environment"))] else []) in
  try_catch
    (_ ← call_unwrap PATCH (js "/api/v1/api-keys/{key_id}")
           (path_body (js "key_id") (JStr (trim (field fd "key_id"))) (JObj b));
     revalidate_ok [js "/api-keys"])
    formError.

Definition revokeAPIKey (keyId : jstr) : M St Bk FormResult :=
  try_catch
    (_ ← call_unwrap DELETE (js "/api/v1/api-keys/{key_id}") (with_path (js "key_id") (JStr keyId));
     revalidate_ok [js "/api-keys"])
    formError.

End Tenancy.

(** ** Budgets *)

Definition budget_pages : list jstr := [js "/[locale]/budgets"; js "/[locale]/budgets/[id]"].

Definition amount (form : FormData) (k : jstr) : result num :=
  value ← Money.Web.displayToMicro (field form k);
  if negb (is_safe_integer value) then Throw (err_range (js "unsafe monetary amount")) else Ret value.

Section Budgets.
  Context {St Bk : Type} `{IronSession St} `{AdminApi Bk}.
  (** next-intl's translator for the [budgets] namespace. *)
  Variable t : jstr -> jstr.

Definition writeGuard (tenant permission : jstr) : M St Bk (option FormResult) :=
  session ← getSession;
  mret (if negb (match scopeKind session with Some k => streq k (js "global") | None => false end)
           || negb (has session permission)
        then Some (FErr (t (js "forbiddenWrite")) None)
        else if str_empty (trim tenant) then Some (FErr (t (js "selectTenant")) None)
        else None).

Definition actionError (err : exn) : M St Bk FormResult :=
  if is_range_error err then mret (FErr (t (js "invalidAmount")) None)
  else
    result ← toFormError err;
    match result with
    | FOk => mret FOk
    | FErr e _ => mret (mapped_error e)
    end.

(** A guarded budget write: [send] builds and makes the request. *)
Definition budget_action (tenant permission : jstr) (send : M St Bk unknown) : M St Bk FormResult :=
  denied ← writeGuard tenant permission;
  match denied with
  | Some e => mret e
  | None =>
      early ← try_catch (_ ← send; mret None) (fun err => Some <$> actionError err);
      match early with Some e => mret e | None => revalidate_ok budget_pages end
  end.

Definition tenant_query (tenant : jstr) : list (jstr * unknown) := [(js "tenant", Some (JStr tenant))].

Definition thresholds (form : FormData) : list num :=
  map str_to_num (List.filter (fun item => negb (str_empty (trim item))) (split_char 44 (field form "thresholds"))).

Definition createBudget (tenant : jstr) (form : FormData) : M St Bk FormResult :=
  budget_action tenant (js "budget.write")
    (limit ← lift (amount form (js "limit"));
     let b := JObj [(js "name", JStr (trim (field form "name")));
                    (js "scope_kind", JStr (field_null form "scope_kind"));
                    (js "scope_ref", JStr (trim (field form "scope_ref")));
                    (js "environment", JStr (field form "environment"));
                    (js "period", JStr (field_null form "period"));
                    (js "timezone", JStr (trim (match fd_get form "timezone" with
                                                | Some e => entry_string e | None => js "UTC" end)));
                    (js "currency", JStr (field_null form "currency"));
                    (js "limit", JNum limit);
                    (js "mode", JStr (field_null form "mode"));
                    (js "thresholds", JArr (map JNum (thresholds form)))] in
     call_unwrap POST (js "/api/v1/budgets")
       {| path_params := []; query_params := tenant_query tenant; body := Some b |}).

Definition updateBudget (tenant : jstr) (id version : num) (form : FormData) : M St Bk FormResult :=
  budget_action tenant (js "budget.write")
    (limit ← lift (if field_is form "limitChanged" "true"
                   then (fun v => [(js "limit", JNum v)]) <$> amount form (js "limit") else Ret []);
     call_unwrap PATCH (js "/api/v1/budgets/{id}")
       {| path_params := [(js "id", JNum id)]; query_params := tenant_query tenant;
          body := Some (JObj ([(js "version", JNum version); (js "enabled", JBool (field_is form "enabled" "true"))]
                              ++ limit)) |}).

Definition resolveReservation (tenant id : jstr) (version : num) (form : FormData) : M St Bk FormResult :=
  budget_action tenant (js "budget.resolve")
    (let action := field_null form "action" in
     actual ← lift (if streq action (js "settle")
                    then (fun v => [(js "actual", JNum v)]) <$> amount form (js "actual") else Ret []);
     call_unwrap POST (js "/api/v1/billing-reservations/{id}/resolve")
       {| path_params := [(js "id", JStr id)]; query_params := tenant_query tenant;
          body := Some (JObj ([(js "version", JNum version); (js "action", JStr action);
                               (js "reason", JStr (trim (field form "reason")));
                               (js "evidence", JStr (trim (field form "evidence")))] ++ actual)) |}).

End Budgets.

(** ** Login *)

(** The page the login redirects to. *)
Definition landing (permissions : option (list jstr)) (role : jstr) : jstr :=
  let legacy := if streq role (js "tenant-admin") then js "/api-keys" else js "/providers" in
  match permissions with
  | None | Some [] => legacy
  | Some ps =>
      if array_includes ps (js "provider.read") || array_includes ps (js "*") then js "/providers"
      else if array_includes ps (js "api_key.read") then js "/api-keys"
      else if array_includes ps (js "usage.read") then js "/usage"
      else legacy
  end.

(** The identity document of [/api/v1/me], read at its schema types. *)
Definition me_role (me : unknown) : jstr :=
  default (js "super-admin") (as_string (nullish2 (opt_prop me "role") (Some (JStr (js "super-admin"))))).
Definition me_role_id (me : unknown) : option num :=
  match opt_prop me "role_id" with Some (JNum n) => Some n | _ => None end.
Definition me_permissions (me : unknown) : option (list jstr) :=
  match opt_prop me "permissions" with
  | Some (JArr l) => Some (omap (fun v => as_string (Some v)) l)
  | _ => None
  end.

Definition me_session (tok em : jstr) (me : unknown) : SessionData :=
  {| token := Some tok; email := Some em; role := Some (me_role me); roleID := me_role_id me;
     scopeKind := as_string (opt_prop me "scope_kind"); permissions := me_permissions me;
     tenantName := as_string (opt_prop me "tenant_name") |}.

Section Login.
  Context {St Bk : Type} `{IronSession St} `{AdminApi Bk}.
  (** next-intl's request locale. *)
  Variable locale : jstr.

Definition login_request (em pw : jstr) : api_opts :=
  with_body (JObj [(js "email", JStr em); (js "password", JStr pw)]).

Definition loginAction (fd : FormData) : M St Bk FormResult :=
  let em := field fd "email" in
  let pw := field fd "password" in
  if str_empty em || str_empty pw then reject (js "email and password are required")
  else
    client ← anonAdminClient;
    result ← try_catch (Some <$> api client POST (js "/auth/login") (login_request em pw)) (fun _ => mret None);
    match result with
    | None => mret (FErr (js "invalid credentials") None)
    | Some r =>
        let tok := default [] (as_string (opt_prop (data r) "token")) in
        if failed r || str_empty tok then
          reject (default (if status r =? 429 then js "too many failed logins; try again later"
                           else js "invalid credentials") (error_message (error r)))
        else
          e ← getenv;
          let meClient := createAdminClient (default [] (ADMIN_URL e)) (Some tok) None in
          meResp ← api meClient GET (js "/api/v1/me") no_opts;
          if truthy (error meResp) || negb (truthy (data meResp)) then
            reject (default (js "identity lookup failed; try again") (error_message (error meResp)))
          else
            let d := me_session tok em (data meResp) in
            _ ← setSession d;
            redirect_locale (landing (permissions d) (me_role (data meResp))) locale
    end.

End Login.

(** ** Trace detail *)

Inductive PairResult : Type :=
  | PairOk (current previous : unknown)
  | PairFailed (forbidden : bool).

Section TraceDetail.
  Context {St Bk : Type} `{IronSession St} `{AdminApi Bk}.
  (** Which of two concurrent rejections settles first. *)
  Variable previous_first : bool.

(** [None] is [null]. *)
Definition fetchDetailByRow (rowID : num) : M St Bk unknown :=
  if negb (num_truthy rowID) || nle rowID (int 0) then mret None
  else try_catch
         (res ← call_unwrap GET (js "/api/v1/trace/rows/{id}") (with_path (js "id") (JNum rowID));
          mret (match res with Some JNull => None | _ => res end))
         (fun err => match err with
                     | EAdmin st _ _ => if st =? 404 then mret None else throw err
                     | _ => throw err
                     end).

(** [Promise.all([a, b])]: both run to the end; it rejects with the reason of
    the promise that rejects first. *)
Definition promise_all {A} (a b : M St Bk A) : M St Bk (A * A) := fun w =>
  let '(ra, w1) := a w in
  let '(rb, w2) := b w1 in
  (match ra, rb with
   | Ret x, Ret y => Ret (x, y)
   | Throw e, Ret _ => Throw e
   | Ret _, Throw e => Throw e
   | Throw e, Throw e' => Throw (if previous_first then e' else e)
   end, w2).

Definition fetchDetailPair (rowID previousRowID : num) : M St Bk (unknown * unknown) :=
  promise_all (fetchDetailByRow rowID)
    (if nlt (int 0) previousRowID then fetchDetailByRow previousRowID else mret None).

Definition fetchTraceDetailPair (rowID previousRowID : num) : M St Bk PairResult :=
  try_catch
    (cp ← fetchDetailPair rowID previousRowID; mret (PairOk cp.1 cp.2))
    (fun err =>
       _ ← toFormError err;
       mret (PairFailed (match err with EAdmin st _ _ => st =? 403 | _ => false end))).

End TraceDetail.

(** ** Lemmas: unwrapped writes *)

Section Unwrapped.
  Context {St Bk : Type} `{IronSession St} `{AdminApi Bk}.

(** An error handler that answers inline, or signs the operator out. *)
Definition form_handler (h : exn -> M St Bk FormResult) : Prop := forall e w,
  (exists m k, h e w = (Ret (FErr m k), w)) \/
  (exists st m, e = EAdmin 401 st m /\
     ((exists o, sessionOptions (w_env w) = Ret o /\
        h e w = (Throw (ERedirect (js "/login") None),
          {| w_env := w_env w; w_store := iron_destroy o (w_store w);
             w_backend := w_backend w; w_log := w_log w |})) \/
      (exists x, sessionOptions (w_env w) = Throw x /\ h e w = (Throw x, w)))).

Lemma handler_formError : form_handler formError.
Proof.
  intros e w. unfold formError, mbind, M_bind.
  destruct (toFormError_cases e w) as [(m & k & ->)|(t & m & -> & [(o & O & ->)|(x & X & ->)])].
  - left. destruct e; unfold mret, M_ret, mapped_error; eauto.
  - right. eexists _, _. split; [done|]. left. eauto.
  - right. eexists _, _. split; [done|]. right. eauto.
Qed.

Lemma handler_actionError t : form_handler (actionError t).
Proof.
  intros e w. unfold actionError. destruct (is_range_error e); [left; by eexists _, _|]. unfold mbind, M_bind.
  destruct (toFormError_cases e w) as [(m & k & ->)|(st & m & -> & [(o & O & ->)|(x & X & ->)])].
  - left. unfold mret, M_ret, mapped_error. eauto.
  - right. eexists _, _. split; [done|]. left. eauto.
  - right. eexists _, _. split; [done|]. right. eauto.
Qed.

Lemma handler_role (h : exn -> FormResult) : (forall e, h e <> FOk) -> form_handler (fun e => mret (h e)).
Proof. intros Hh e w. left. specialize (Hh e). unfold mret, M_ret. destruct (h e); [done|eauto]. Qed.

Lemma quiet_call_unwrap m p o : quiet (call_unwrap m p o : M St Bk unknown).
Proof.
  apply quiet_bind; [apply quiet_serverAdminClient|intros c]. apply quiet_bind; [apply quiet_api|intros r].
  apply quiet_lift.
Qed.

(** [try { send; revalidate } catch (err) { return h(err) }] *)
Lemma contract_unwrapped ps (send : M St Bk unknown) h : quiet send -> form_handler h ->
  action_contract ps (try_catch (_ ← send; revalidate_ok ps) h).
Proof.
  intros Q Hh. unfold try_catch, mbind, M_bind. split.
  - intros w w'. specialize (Q w). destruct (send w) as [[d|e] w1]; simpl in Q.
    + rewrite revalidate_ok_eq. intros [= <-]. destruct Q as (? & ? & c & L & F). simpl.
      split; [done|]. split; [done|]. exists c. by rewrite L, app_assoc.
    + destruct (Hh e w1) as [(m & k & ->)|(t & m & -> & [(o & _ & ->)|(x & _ & ->)])]; done.
  - intros w err k w'. specialize (Q w). destruct (send w) as [[d|e] w1]; simpl in Q; [by rewrite revalidate_ok_eq|].
    destruct (Hh e w1) as [(m & k' & ->)|(t & m & -> & [(o & _ & ->)|(x & _ & ->)])]; try done.
    intros [= _ _ <-]. done.
  - intros w err w'. specialize (Q w). destruct (send w) as [[d|e] w1]; simpl in Q; [by rewrite revalidate_ok_eq|].
    pose proof Q as Q'. destruct Q as (Ee & Es & Q).
    destruct (Hh e w1) as [(m & k' & ->)|(t & m & -> & [(o & O & ->)|(x & X & ->)])]; [done| |].
    + intros [= <- <-]. left. exists o, w1. rewrite <- Ee, <- Es. done.
    + intros [= <- <-]. right. rewrite <- Ee. done.
Qed.

(** [try { send } catch (err) { return h(err) } revalidate] behaves the same. *)
Lemma unwrapped_after ps (send : M St Bk unknown) h w :
  (early ← try_catch (_ ← send; mret None) (fun err => Some <$> h err);
   match early with Some e => mret e | None => revalidate_ok ps end) w =
  try_catch (_ ← send; revalidate_ok ps) h w.
Proof.
  unfold try_catch, mbind, M_bind, fmap, M_fmap, mret, M_ret. destruct (send w) as [[d|e] w1].
  - by rewrite revalidate_ok_eq.
  - by destruct (h e w1) as [[r|x] w2].
Qed.

Lemma contract_ext ps (a b : M St Bk FormResult) : (forall w, a w = b w) -> action_contract ps b -> action_contract ps a.
Proof. intros E [H1 H2 H3]. split; intros *; rewrite E; eauto. Qed.

Lemma writeGuard_eq t tenant p (w : world St Bk) : writeGuard t tenant p w =
  match sessionOptions (w_env w) with
  | Ret o =>
      let session := iron_load o (w_store w) in
      (Ret (if negb (match scopeKind session with Some k => streq k (js "global") | None => false end)
               || negb (has session p) then Some (FErr (t (js "forbiddenWrite")) None)
            else if str_empty (trim tenant) then Some (FErr (t (js "selectTenant")) None) else None), w)
  | Throw e => (Throw e, w)
  end.
Proof.
  unfold writeGuard, getSession, getenv, read_store, lift, mbind, M_bind.
  by destruct (sessionOptions (w_env w)).
Qed.

Lemma budget_action_eq t tenant p (send : M St Bk unknown) w : budget_action t tenant p send w =
  match sessionOptions (w_env w) with
  | Ret o =>
      let session := iron_load o (w_store w) in
      if negb (match scopeKind session with Some k => streq k (js "global") | None => false end)
         || negb (has session p) then (Ret (FErr (t (js "forbiddenWrite")) None), w)
      else if str_empty (trim tenant) then (Ret (FErr (t (js "selectTenant")) None), w)
      else try_catch (_ ← send; revalidate_ok budget_pages) (actionError t) w
  | Throw e => (Throw e, w)
  end.
Proof.
  unfold budget_action. unfold mbind at 1, M_bind at 1. rewrite writeGuard_eq.
  destruct (sessionOptions (w_env w)); [|done]. cbv zeta.
  destruct (_ || _); [done|]. destruct (str_empty (trim tenant)); [done|]. apply unwrapped_after.
Qed.

Lemma contract_budget t tenant p (send : M St Bk unknown) :
  quiet send -> action_contract budget_pages (budget_action t tenant p send).
Proof.
  intros Q.
  destruct (contract_unwrapped budget_pages send (actionError t) Q (handler_actionError t)) as [C1 C2 C3].
  split; intros w; rewrite budget_action_eq; destruct (sessionOptions (w_env w)) as [o|x] eqn:O; cbv zeta;
    try (destruct (_ || _); [|destruct (str_empty (trim tenant))]); try done; eauto.
  - intros e k w' E. injection E as <- <- <-. reflexivity.
  - intros e k w' E. injection E as <- <- <-. reflexivity.
  - intros e w' E. specialize (C3 w e w' E). by rewrite O in C3.
  - intros e w' E. injection E as <- <-. right. split; [done|reflexivity].
Qed.

End Unwrapped.

(** ** Properties: contracts *)

Section Properties.
  Context {St Bk : Type} `{IronSession St} `{AdminApi Bk}.
  Variable t : jstr -> jstr.

Definition inline_actions (fd : FormData) (name : jstr) (on : bool) (id : num) : list (list jstr * M St Bk FormResult) :=
  [ ([js "/tenants"], createTenant fd); ([js "/tenants"], setTenantEnabled name on);
    ([js "/groups"], createGroup fd); ([js "/groups"], setGroupEnabled name on); ([js "/groups"], deleteGroup name);
    ([js "/applications"], createApplication fd); ([js "/applications"], setApplicationEnabled name on);
    ([js "/applications"], deleteApplication name);
    ([js "/operators"], createOperator fd); ([js "/operators"], updateOperator fd); ([js "/operators"], deleteOperator id);
    ([], changePassword fd); ([js "/quotas"], topupQuota fd) ].

(** The actions that unwrap the reply, so that an expired session surfaces. *)
Definition unwrapped_actions (fd : FormData) (name tenant : jstr) (id version : num) : list (list jstr * M St Bk FormResult) :=
  [ ([js "/api-keys"], updateAPIKey fd); ([js "/api-keys"], revokeAPIKey name);
    (budget_pages, createBudget t tenant fd); (budget_pages, updateBudget t tenant id version fd);
    (budget_pages, resolveReservation t tenant name version fd) ].

Definition role_actions (fd : FormData) (id : num) : list (list jstr * M St Bk FormResult) :=
  [ ([js "/roles"], createRole fd); ([js "/roles"], updateRole fd); ([js "/roles"], deleteRole id) ].

Lemma inline_contract fd name on id : Forall (fun pa => action_contract pa.1 pa.2) (inline_actions fd name on id).
Proof.
  repeat apply Forall_cons_2; try apply Forall_nil_2; cbn [fst snd];
    unfold createTenant, setTenantEnabled, createGroup, setGroupEnabled, deleteGroup, createApplication,
      setApplicationEnabled, deleteApplication, createOperator, updateOperator, deleteOperator, changePassword,
      topupQuota; cbv zeta; solve_contract.
Qed.

Lemma unwrapped_contract fd name tenant id version :
  Forall (fun pa => action_contract pa.1 pa.2) (unwrapped_actions fd name tenant id version).
Proof.
  repeat apply Forall_cons_2; try apply Forall_nil_2; cbn [fst snd].
  - apply contract_unwrapped; [apply quiet_call_unwrap|apply handler_formError].
  - apply contract_unwrapped; [apply quiet_call_unwrap|apply handler_formError].
  - apply contract_budget, quiet_bind; [apply quiet_lift|intros; apply quiet_call_unwrap].
  - apply contract_budget, quiet_bind; [apply quiet_lift|intros; apply quiet_call_unwrap].
  - apply contract_budget, quiet_bind; [apply quiet_lift|intros; apply quiet_call_unwrap].
Qed.

Lemma role_contract fd id : Forall (fun pa => action_contract pa.1 pa.2) (role_actions fd id).
Proof.
  repeat apply Forall_cons_2; try apply Forall_nil_2; cbn [fst snd]; unfold createRole, updateRole, deleteRole; cbv zeta;
    try (apply contract_if; [apply contract_err|]);
    apply contract_unwrapped; first [apply quiet_call_unwrap|by apply handler_role].
Qed.

(** [null] or [undefined]. *)
Definition no_data (v : unknown) : bool := match v with None | Some JNull => true | _ => false end.

(** What creating a key promises: as the other writes, but for an accepted
    reply that carries no key, which is reported inline after the page was
    revalidated. *)
Record key_contract (act : M St Bk (FormResult * unknown)) : Prop := {
  kc_ok : forall w k w', act w = (Ret (FOk, k), w') ->
    w_env w' = w_env w /\ w_store w' = w_store w /\
    exists c o r b', api_call c POST (js "/api/v1/api-keys") o (w_backend w) = (Ret r, b') /\ response_ok r = true /\
      k = opt_prop (data r) "api_key" /\
      w_log w' = w_log w ++ [Sent c POST (js "/api/v1/api-keys") o; Revalidated (js "/api-keys")];
  kc_err : forall w e k x w', act w = (Ret (FErr e k, x), w') -> x = None /\
    (only_calls w w' \/
     (e = js "unexpected error" /\ k = None /\ w_env w' = w_env w /\ w_store w' = w_store w /\
      exists c o r b', api_call c POST (js "/api/v1/api-keys") o (w_backend w) = (Ret r, b') /\
        response_ok r = true /\ no_data (data r) = true /\
        w_log w' = w_log w ++ [Sent c POST (js "/api/v1/api-keys") o; Revalidated (js "/api-keys")]));
  kc_throw : forall w e w', act w = (Throw e, w') ->
    (exists o w1, e = ERedirect (js "/login") None /\ only_calls w w1 /\
       sessionOptions (w_env w) = Ret o /\ w_store w' = iron_destroy o (w_store w) /\ w_log w' = w_log w1)
    \/ (sessionOptions (w_env w) = Throw e /\ only_calls w w');
}.

(** The handler of the key actions, after calls [w -> w1]. *)
Lemma key_handler e (w w1 w' : world St Bk) r : only_calls w w1 ->
  ((fun r => (r, None : unknown)) <$> formError e) w1 = (r, w') ->
  match r with
  | Ret (FOk, _) => False
  | Ret (FErr _ _, x) => x = None /\ only_calls w w'
  | Throw x =>
      (exists o w2, x = ERedirect (js "/login") None /\ only_calls w w2 /\
         sessionOptions (w_env w) = Ret o /\ w_store w' = iron_destroy o (w_store w) /\ w_log w' = w_log w2)
      \/ (sessionOptions (w_env w) = Throw x /\ only_calls w w')
  end.
Proof.
  intros Q. unfold fmap, M_fmap. pose proof Q as (Ee & Es & _).
  destruct (handler_formError e w1) as [(m & k & ->)|(st & m & -> & [(o & O & ->)|(x & X & ->)])]; intros [= <- <-].
  - done.
  - left. exists o, w1. rewrite <- Ee, <- Es. done.
  - right. rewrite <- Ee. done.
Qed.

Lemma createAPIKey_contract fd : key_contract (createAPIKey fd).
Proof.
  set (o := with_body (JObj ([(js "key_id", JStr (trim (field fd "key_id"))); (js "group_id", JNum (field_number fd "group_id"));
               (js "application_id", JNum (field_number fd "application_id"));
               (js "environment", JStr (field fd "environment"))]
              ++ prop_if (nonempty (allowed_models fd)) (js "allowed_models") (JStrs (allowed_models fd))))).
  assert (K : forall w r w', createAPIKey fd w = (r, w') ->
    (exists e w1, only_calls w w1 /\ ((fun r => (r, None : unknown)) <$> formError e) w1 = (r, w')) \/
    (exists c a b', api_call c POST (js "/api/v1/api-keys") o (w_backend w) = (Ret a, b') /\ response_ok a = true /\
       w_env w' = w_env w /\ w_store w' = w_store w /\
       w_log w' = w_log w ++ [Sent c POST (js "/api/v1/api-keys") o; Revalidated (js "/api-keys")] /\
       if no_data (data a) then r = Ret (FErr (js "unexpected error") None, None) else r = Ret (FOk, opt_prop (data a) "api_key"))).
  { intros w r w'. unfold createAPIKey, try_catch. unfold mbind, M_bind.
    destruct (serverAdminClient_pure w) as [[c|e] ->]; [|intros E; left; exists e, w; split; [reflexivity|done]].
    unfold api. change (with_body _) with o. pose proof (quiet_api c POST (js "/api/v1/api-keys") o w) as Q. unfold api in Q.
    destruct (api_call _ _ _ _ _) as [[a|e] b'] eqn:A; cbn [snd] in Q; [|intros E; left; eexists e, _; split; [exact Q|done]].
    unfold lift, unwrap, mbind, result_bind.
    destruct (match error a with Some _ => true | None => false end || negb (response_ok a)) eqn:F;
      [intros E; left; eexists _, _; split; [exact Q|exact E]|].
    apply orb_false_elim in F as [_ F%negb_false_iff]. unfold revalidatePath. cbn [w_env w_store w_backend w_log].
    rewrite <- app_assoc. cbn [app]. intros E. right. exists c, a, b'.
    split; [exact A|]. split; [exact F|].
    unfold formError, toFormError, fmap, M_fmap, mret, M_ret, mbind, M_bind, prop, err_type in E.
    destruct (data a) as [v|]; [destruct v|]; cbv iota beta in E; injection E as <- <-; cbn [no_data opt_prop w_env w_store w_log];
      (split; [reflexivity|]); (split; [reflexivity|]); (split; reflexivity). }
  split.
  - intros w k w' E. destruct (K w _ w' E) as [(e & w1 & Q & X)|(c & a & b' & A & F & E1 & E2 & L & R)].
    + by apply (key_handler e w w1 w' _ Q) in X.
    + split; [done|]. split; [done|]. exists c, o, a, b'. destruct (no_data (data a)); [done|]. by injection R as ->.
  - intros w e k x w' E. destruct (K w _ w' E) as [(e1 & w1 & Q & X)|(c & a & b' & A & F & E1 & E2 & L & R)].
    + apply (key_handler e1 w w1 w' _ Q) in X as [-> X]. eauto.
    + destruct (no_data (data a)) eqn:D; [|done]. injection R as -> -> ->. split; [done|]. right. eauto 12.
  - intros w e w' E. destruct (K w _ w' E) as [(e1 & w1 & Q & X)|(c & a & b' & A & F & E1 & E2 & L & R)].
    + by apply (key_handler e1 w w1 w' _ Q) in X.
    + by destruct (no_data (data a)).
Qed.

(** C11: the tenancy, access and billing writes keep the same contract as the
    configuration writes: success revalidates exactly its pages after its
    calls, an inline error changes neither session nor caches, and no other
    exit exists but the sign-out redirect and a missing session secret.
    Creating an API key keeps it too, with one exception: an accepted reply
    that carries no data revalidates the page and is then reported as an
    unexpected error. *)
Theorem tenant_actions_contract fd name tenant on id version :
  Forall (fun pa => action_contract pa.1 pa.2)
    (inline_actions fd name on id ++ unwrapped_actions fd name tenant id version ++ role_actions fd id) /\
  key_contract (createAPIKey fd).
Proof.
  split; [|apply createAPIKey_contract].
  rewrite !Forall_app. auto using inline_contract, unwrapped_contract, role_contract.
Qed.

End Properties.

(** ** Properties: expired sessions *)

(** Every call answers 401, as the admin API does once the token expired. *)
Class Expired (Bk : Type) `{AdminApi Bk} : Prop :=
  api_expired : forall c m p o b, exists r b', api_call c m p o b = (Ret r, b') /\ status r = 401.

Section ExpiredSession.
  Context {St Bk : Type} `{IronLaws St} `{Expired Bk}.
  Variable t : jstr -> jstr.

(** Signed out: the redirect is thrown and the cookie holds no session. *)
Definition signs_out (act : M St Bk FormResult) (w : world St Bk) : Prop :=
  exists w' o, act w = (Throw (ERedirect (js "/login") None), w') /\
    sessionOptions (w_env w) = Ret o /\ iron_load o (w_store w') = empty_session.

(** [act] sends nothing, or signs out. *)
Definition sends_or_signs_out (act : M St Bk FormResult) : Prop :=
  forall w r w', act w = (r, w') -> w_log w' = w_log w \/ signs_out act w.

Lemma serverAdminClient_ret (w w' : world St Bk) c : serverAdminClient w = (Ret c, w') ->
  exists o, sessionOptions (w_env w) = Ret o.
Proof.
  unfold serverAdminClient, getToken, getSession, getenv, lift, throw, mbind, M_bind.
  destruct (ADMIN_URL (w_env w)) as [u|]; [destruct (str_empty u)|]; try done.
  destruct (sessionOptions (w_env w)); [eauto|done].
Qed.

Lemma call_unwrap_expired m p o (w : world St Bk) :
  (exists e, call_unwrap m p o w = (Throw e, w)) \/
  (exists st msg w' so, call_unwrap m p o w = (Throw (EAdmin 401 st msg), w') /\
     sessionOptions (w_env w) = Ret so /\ w_env w' = w_env w /\ w_store w' = w_store w).
Proof.
  unfold call_unwrap, mbind, M_bind. destruct (serverAdminClient_pure w) as [[c|e] C]; rewrite C; [right|by left; eexists].
  destruct (serverAdminClient_ret _ _ _ C) as [so O].
  unfold api. destruct (api_expired c m p o (w_backend w)) as (r & b' & -> & S).
  unfold lift, unwrap, mbind, result_bind. unfold response_ok. rewrite S, orb_true_r. unfold AdminError.
  eexists _, _, _, so. split; [reflexivity|done].
Qed.

(** A computation that, when it makes calls, ends in the API's 401. *)
Definition expires {A} (send : M St Bk A) : Prop := forall w,
  (exists e, send w = (Throw e, w)) \/
  (exists st msg w' so, send w = (Throw (EAdmin 401 st msg), w') /\
     sessionOptions (w_env w) = Ret so /\ w_env w' = w_env w /\ w_store w' = w_store w).

Lemma expires_lift {A B} (r : result A) (f : A -> M St Bk B) : (forall a, expires (f a)) -> expires (a ← lift r; f a).
Proof. intros Hf w. unfold lift, mbind, M_bind. destruct r as [a|e]; [apply Hf|left; eauto]. Qed.

Lemma handler_401 h : form_handler h -> (forall st msg w m k, h (EAdmin 401 st msg) w <> (Ret (FErr m k), w)) ->
  forall st msg (w : world St Bk) o, sessionOptions (w_env w) = Ret o ->
  exists w', h (EAdmin 401 st msg) w = (Throw (ERedirect (js "/login") None), w') /\
    w_store w' = iron_destroy o (w_store w).
Proof.
  intros Hh N st msg w o O. destruct (Hh (EAdmin 401 st msg) w) as [(m & k & E)|(? & ? & _ & [(o' & O' & ->)|(x & X & _)])].
  - by apply N in E.
  - rewrite O in O'. injection O' as <-. by eexists.
  - by rewrite O in X.
Qed.

Lemma formError_401 st msg (w : world St Bk) m k : formError (EAdmin 401 st msg) w <> (Ret (FErr m k), w).
Proof.
  unfold formError, toFormError, mbind, M_bind. simpl. destruct (clearSession w) as [[u|x] w']; done.
Qed.

Lemma actionError_401 st msg (w : world St Bk) m k : actionError t (EAdmin 401 st msg) w <> (Ret (FErr m k), w).
Proof.
  unfold actionError, toFormError, mbind, M_bind. simpl. destruct (clearSession w) as [[u|x] w']; done.
Qed.

Lemma expired_try ps (send : M St Bk unknown) h : expires send -> form_handler h ->
  (forall st msg w m k, h (EAdmin 401 st msg) w <> (Ret (FErr m k), w)) ->
  (forall e w, w_log (h e w).2 = w_log w) ->
  sends_or_signs_out (try_catch (_ ← send; revalidate_ok ps) h).
Proof.
  intros Hs Hh N L w r w'. unfold signs_out, try_catch, mbind, M_bind.
  destruct (Hs w) as [(e & E)|(st & msg & w1 & so & E & O & Ee & Es)]; rewrite E.
  - intros X. left. specialize (L e w). by rewrite X in L.
  - intros _. right. destruct (handler_401 h Hh N st msg w1 so) as (w2 & E2 & S2); [by rewrite Ee|].
    exists w2, so. split; [done|]. split; [done|]. by rewrite S2, iron_load_destroy.
Qed.

Lemma handler_log h : form_handler h -> forall e (w : world St Bk), w_log (h e w).2 = w_log w.
Proof. intros Hh e w. by destruct (Hh e w) as [(m & k & ->)|(? & ? & _ & [(o & _ & ->)|(x & _ & ->)])]. Qed.

Lemma expired_budget tenant p (send : M St Bk unknown) : expires send ->
  sends_or_signs_out (budget_action t tenant p send).
Proof.
  intros Hs w r w'. unfold signs_out. rewrite budget_action_eq.
  destruct (sessionOptions (w_env w)) as [o|x] eqn:O; cbv zeta; [|intros [= _ <-]; by left].
  destruct (_ || _); [intros [= _ <-]; by left|]. destruct (str_empty _); [intros [= _ <-]; by left|]. intros E.
  destruct (expired_try budget_pages send (actionError t) Hs (handler_actionError t) actionError_401
              (handler_log _ (handler_actionError t)) w r w' E) as [?|(w2 & o2 & E2 & O2 & L2)]; [by left|].
  right. rewrite O in O2. exists w2, o2. done.
Qed.

(** Once the token has expired (every call answers 401), each API-key and
    budget action either sends nothing or signs the operator out: the cookie
    is destroyed and the browser is sent to the login page. *)
Theorem expired_session_signs_out fd name tenant id version :
  Forall (fun pa => sends_or_signs_out pa.2) (unwrapped_actions t fd name tenant id version).
Proof.
  pose proof call_unwrap_expired as X.
  repeat apply Forall_cons_2; try apply Forall_nil_2; cbn [fst snd].
  - apply expired_try; [exact (X _ _ _)|apply handler_formError|apply formError_401|apply handler_log, handler_formError].
  - apply expired_try; [exact (X _ _ _)|apply handler_formError|apply formError_401|apply handler_log, handler_formError].
  - apply expired_budget, expires_lift. intros a. exact (X _ _ _).
  - apply expired_budget, expires_lift. intros a. exact (X _ _ _).
  - apply expired_budget, expires_lift. intros a. exact (X _ _ _).
Qed.

End ExpiredSession.

(** An API whose token has expired. *)
Definition always_401 : AdminApi unit := fun _ _ _ _ b => (Ret (Reference.reply 401 None (Reference.envelope "expired")), b).

Lemma expired_session_signs_out_witness :
  Forall (fun pa => sends_or_signs_out (St:=SessionData) (Bk:=unit) pa.2)
    (unwrapped_actions (H0:=always_401) (fun k => k) [(js "key_id", FText (js "k1"))] (js "k1") (js "acme") (int 1) (int 1)).
Proof.
  apply (@expired_session_signs_out SessionData unit _ Reference.plain_cookie_laws always_401).
  intros c m p o b. eexists _, _. split; reflexivity.
Defined.

(** ** Properties: budgets *)

(** A monetary field is accepted exactly when it is a decimal amount within
    the safe range, and then at its exact value. *)
Lemma amount_spec form k n : amount form k = Ret n <->
  exists neg ip fp, Amount (trim (field form k)) neg ip fp /\
    Z.abs (amount_value neg ip fp) <= MAX_SAFE /\ n = int (amount_value neg ip fp).
Proof.
  unfold amount. split.
  - unfold Money.Web.displayToMicro. destruct (match_amount (trim (field form k))) as [[[neg ip] fp]|] eqn:E; [|done].
    apply match_amount_sound in E. destruct (E) as [neg' ip' fp' Hn Hi Hf]. rewrite amount_digits by done.
    pose proof (amount_value_nonneg ip' fp' Hi Hf) as P. unfold mbind, result_bind. intros Hret.
    assert (S : is_safe_integer (rnd (amount_value false ip' fp') 1) = true).
    { destruct neg'; rewrite ?safe_nopp in Hret; by destruct (is_safe_integer _). }
    apply rnd_safe in S; [|done]. exists neg', ip', fp'. split; [done|].
    unfold MAX_SAFE in *. rewrite rnd_int in Hret by lia. unfold amount_value in *.
    destruct neg'; destruct (is_safe_integer _); try done; injection Hret as <-; (split; [lia|done]).
  - intros (neg & ip & fp & A & B & ->).
    rewrite (displayToMicro_amount _ neg ip fp A) by (unfold MAX_SAFE in B; lia).
    unfold mbind, result_bind. simpl. by rewrite (proj2 (Z.leb_le _ _) B).
Qed.

Lemma amount_throw form k e : amount form k = Throw e -> is_range_error e = true.
Proof.
  unfold amount, Money.Web.displayToMicro. destruct (match_amount _) as [[[neg ip] fp]|]; simpl.
  - by destruct (negb (is_safe_integer _)); [intros [= <-]|].
  - by intros [= <-].
Qed.

Section BudgetProperties.
  Context {St Bk : Type} `{IronSession St} `{AdminApi Bk}.
  Variable t : jstr -> jstr.

(** The requests of a run. *)
Definition new_events (w w' : world St Bk) : list event := drop (length (w_log w)) (w_log w').

Lemma new_events_app (w w' : world St Bk) l : w_log w' = w_log w ++ l -> new_events w w' = l.
Proof. intros E. unfold new_events. rewrite E. apply drop_app_length. Qed.

Lemma call_unwrap_log m p o (w : world St Bk) :
  w_log (call_unwrap m p o w).2 = w_log w \/ exists c, w_log (call_unwrap m p o w).2 = w_log w ++ [Sent c m p o].
Proof.
  unfold call_unwrap, mbind, M_bind. destruct (serverAdminClient_pure w) as [[c|e] ->]; [|by left].
  unfold api. destruct (api_call c m p o (w_backend w)) as [[r|e] b']; right; by exists c.
Qed.

(** A guarded write sends only what its [send] sends. *)
Lemma budget_action_sent tenant p (send : M St Bk unknown) w r w' ev : quiet send ->
  budget_action t tenant p send w = (r, w') -> ev ∈ new_events w w' -> is_sent ev -> ev ∈ new_events w (send w).2.
Proof.
  intros Q. rewrite budget_action_eq.
  assert (N : forall w0 : world St Bk, new_events w0 w0 = []) by (intros; by apply new_events_app; rewrite app_nil_r).
  destruct (sessionOptions (w_env w)) as [o|x]; cbv zeta; [|intros [= _ <-]; rewrite N; set_solver].
  destruct (_ || _); [intros [= _ <-]; rewrite N; set_solver|].
  destruct (str_empty _); [intros [= _ <-]; rewrite N; set_solver|].
  unfold try_catch, mbind, M_bind. destruct (Q w) as (_ & _ & calls & L & _).
  destruct (send w) as [[d|e] w1]; simpl in L; cbn [snd]; rewrite (new_events_app w w1 calls) by done.
  - rewrite revalidate_ok_eq. intros [= _ <-]. unfold new_events. cbn [w_log]. rewrite L, <- app_assoc, drop_app_length.
    rewrite elem_of_app. intros [?|Hr] S; [done|]. rewrite !elem_of_cons, elem_of_nil in Hr. by destruct Hr as [-> |[-> |[]]].
  - intros E. pose proof (handler_log (actionError t) (handler_actionError t) e w1) as Hl.
    rewrite E in Hl. simpl in Hl. rewrite (new_events_app w w' calls) by congruence. done.
Qed.

(** Budget writes are refused before any request, with nothing changed,
    unless the session is global, holds the permission of the action and a
    tenant is selected. *)
Theorem budget_guard (w : world St Bk) o tenant id rid version form p act :
  sessionOptions (w_env w) = Ret o ->
  (p, act) ∈ [ (js "budget.write", createBudget t tenant form);
               (js "budget.write", updateBudget t tenant id version form);
               (js "budget.resolve", resolveReservation t tenant rid version form) ] ->
  ~ (scopeKind (iron_load o (w_store w)) = Some (js "global") /\ has (iron_load o (w_store w)) p = true /\
     trim tenant <> []) ->
  exists e, act w = (Ret (FErr e None), w).
Proof.
  intros O Hin N.
  assert (G : forall send, exists e, budget_action t tenant p send w = (Ret (FErr e None), w)).
  { intros send. rewrite budget_action_eq, O. cbv zeta. destruct (has _ p) eqn:P; [|rewrite orb_true_r; eauto].
    destruct (scopeKind _) as [k|]; [|simpl; eauto]. destruct (streq k (js "global")) eqn:K; [|simpl; eauto].
    apply streq_true in K as ->. destruct (trim tenant) eqn:T; [simpl; eauto|]. destruct N. done. }
  rewrite !elem_of_cons, elem_of_nil in Hin. destruct Hin as [[= -> ->]|[[= -> ->]|[[= -> ->]|[]]]]; apply G.
Qed.

(** A request whose [k] is the exact value of the amount typed in field [k]. *)
Definition exact_amount (form : FormData) (k : jstr) (o : api_opts) : Prop :=
  exists neg ip fp, Amount (trim (field form k)) neg ip fp /\ Z.abs (amount_value neg ip fp) <= MAX_SAFE /\
    opt_prop (body o) k = Some (JNum (int (amount_value neg ip fp))).

(** every budget request carries its limit as the exact, safe-integer
    micro-unit value of the amount typed; an update sends a limit only when
    the form says it changed, so an untouched limit is never rounded. *)
Theorem budget_limits tenant id version form (w w' : world St Bk) r c m p o :
  (createBudget t tenant form w = (r, w') -> Sent c m p o ∈ new_events w w' -> exact_amount form (js "limit") o) /\
  (updateBudget t tenant id version form w = (r, w') -> Sent c m p o ∈ new_events w w' ->
     if field_is form "limitChanged" "true" then exact_amount form (js "limit") o
     else opt_prop (body o) (js "limit") = None).
Proof.
  assert (Z0 : new_events w w = []) by (apply new_events_app; by rewrite app_nil_r).
  assert (U : forall m' p' o', Sent c m p o ∈ new_events w (call_unwrap m' p' o' w).2 -> o = o').
  { intros m' p' o' Hs. destruct (call_unwrap_log m' p' o' w) as [L|(c' & L)].
    - rewrite (new_events_app _ _ []) in Hs by (by rewrite app_nil_r). by apply not_elem_of_nil in Hs.
    - rewrite (new_events_app _ _ _ L) in Hs. apply list_elem_of_singleton in Hs. by injection Hs. }
  split; intros E Hs.
  - unshelve epose proof (budget_action_sent tenant _ _ w r w' _ _ E Hs I) as Hs'; [|clear Hs; rename Hs' into Hs];
      [apply quiet_bind; [apply quiet_lift|intros; apply quiet_call_unwrap]|].
    unfold lift, mbind, M_bind in Hs. destruct (amount form (js "limit")) as [n|e] eqn:A; simpl in Hs.
    2:{ rewrite Z0 in Hs. by apply not_elem_of_nil in Hs. }
    apply U in Hs as ->. apply amount_spec in A as (neg & ip & fp & A & B & ->). by exists neg, ip, fp.
  - unshelve epose proof (budget_action_sent tenant _ _ w r w' _ _ E Hs I) as Hs'; [|clear Hs; rename Hs' into Hs];
      [apply quiet_bind; [apply quiet_lift|intros; apply quiet_call_unwrap]|].
    unfold lift, mbind, M_bind in Hs. destruct (field_is form "limitChanged" "true").
    + destruct (amount form (js "limit")) as [n|e] eqn:A; simpl in Hs.
      2:{ rewrite Z0 in Hs. by apply not_elem_of_nil in Hs. }
      apply U in Hs as ->. apply amount_spec in A as (neg & ip & fp & A & B & ->). by exists neg, ip, fp.
    + apply U in Hs as ->. done.
Qed.

End BudgetProperties.

Lemma budget_guard_witness :
  exists e, createBudget (fun k => k) (js "  ") [] (Reference.world0 []) = (Ret (FErr e None), Reference.world0 []).
Proof.
  destruct (sessionOptions (w_env (Reference.world0 []))) as [o|] eqn:O; [|vm_compute in O; discriminate].
  apply (budget_guard (fun k => k) (Reference.world0 []) o (js "  ") (int 1) (js "1") (int 1) [] (js "budget.write") _ O).
  - rewrite elem_of_cons. left. reflexivity.
  - intros (_ & _ & N). apply N. reflexivity.
Defined.

(** ** Properties: login and logout *)

Section LoginProperties.
  Context {St Bk : Type} `{IronLaws St} `{PlainFetch Bk}.
  Variable locale : jstr.

Lemma quiet_try_some {A} (m : M St Bk A) : quiet m -> quiet (try_catch (Some <$> m) (fun _ => mret None)).
Proof.
  intros Q w. unfold try_catch, fmap, M_fmap. specialize (Q w). by destruct (m w) as [[a|e] w1].
Qed.

(** The API accepts a login: to the credentials, sent without a token, it
    answers with a token, and to that token with an identity document. *)
Inductive accepts (url em pw : jstr) (b : Bk) (tok : jstr) (me : unknown) : Prop :=
  | accepts_intro r1 b1 r2 b2 :
      api_call {| baseUrl := url; headers := []; credentials := None |} POST (js "/auth/login")
        (with_body (JObj [(js "email", JStr em); (js "password", JStr pw)])) b = (Ret r1, b1) ->
      failed r1 = false -> opt_prop (data r1) "token" = Some (JStr tok) -> tok <> [] ->
      api_call {| baseUrl := url; headers := [(js "Authorization", js "Bearer " ++ tok)]; credentials := None |}
        GET (js "/api/v1/me") no_opts b1 = (Ret r2, b2) ->
      truthy (error r2) = false -> truthy (data r2) = true -> me = data r2 ->
      accepts url em pw b tok me.

(** [d] is the session of whom the identity document [me] describes. *)
Record identifies (tok em : jstr) (me : unknown) (d : SessionData) : Prop := {
  id_token : token d = Some tok;
  id_email : email d = Some em;
  id_role : role d = Some (match opt_prop me "role" with Some (JStr s) => s | _ => js "super-admin" end);
  id_role_id : forall n, opt_prop me "role_id" = Some (JNum n) -> roleID d = Some n;
  id_scope : forall k, opt_prop me "scope_kind" = Some (JStr k) -> scopeKind d = Some k;
  id_permissions : forall ps, opt_prop me "permissions" = Some (JStrs ps) -> permissions d = Some ps;
  id_no_permissions : opt_prop me "permissions" = None -> permissions d = None;
  id_tenant : forall n, opt_prop me "tenant_name" = Some (JStr n) -> tenantName d = Some n;
}.

Lemma strings_of ps : omap (fun v => as_string (Some v)) (map JStr ps) = ps.
Proof. induction ps as [|p ps IH]; [done|]. cbn. f_equal. exact IH. Qed.

Lemma me_session_identifies tok em me : identifies tok em me (me_session tok em me).
Proof.
  split; unfold me_session, me_role, me_role_id, me_permissions;
    cbn [token email role roleID scopeKind permissions tenantName]; try done.
  - destruct (opt_prop me "role") as [[]|]; done.
  - by intros n ->.
  - by intros k ->.
  - intros ps ->. unfold JStrs. by rewrite strings_of.
  - by intros ->.
  - by intros n ->.
Qed.

(** Everything a login takes: a configured server, credentials the API
    accepts, and a cookie that holds the session. *)
Definition login_succeeds (fd : FormData) (w : world St Bk) (tok : jstr) (me : unknown) (o : SessionOptions) (s' : St) : Prop :=
  field fd "email" <> [] /\ field fd "password" <> [] /\
  (exists url, ADMIN_URL (w_env w) = Some url /\ url <> [] /\
     accepts url (field fd "email") (field fd "password") (w_backend w) tok me) /\
  sessionOptions (w_env w) = Ret o /\ iron_save o (me_session tok (field fd "email") me) (w_store w) = Ret s'.

Lemma anonAdminClient_eq url (w : world St Bk) : ADMIN_URL (w_env w) = Some url -> url <> [] ->
  anonAdminClient w = (Ret {| baseUrl := url; headers := []; credentials := None |}, w).
Proof. intros U N. unfold anonAdminClient, getenv, mbind, M_bind. rewrite U. by destruct url. Qed.

Lemma bearer_client url tok : tok <> [] -> createAdminClient url (Some tok) None =
  {| baseUrl := url; headers := [(js "Authorization", js "Bearer " ++ tok)]; credentials := None |}.
Proof. by destruct tok. Qed.

Lemma str_empty_ne (s : jstr) : s <> [] -> str_empty s = false.
Proof. by destruct s. Qed.

Lemma login_signs_in fd (w : world St Bk) tok me o s' : login_succeeds fd w tok me o s' ->
  exists w', loginAction locale fd w = (Throw (ERedirect (landing (me_permissions me) (me_role me)) (Some locale)), w') /\
    w_env w' = w_env w /\ w_store w' = s'.
Proof.
  intros (Ne & Np & (url & U & Nu & A) & O & S). destruct A as [r1 b1 r2 b2 C1 F T Nt C2 E2 D ->].
  unfold loginAction. cbv zeta. rewrite !str_empty_ne by done. cbn [orb]. unfold mbind, M_bind.
  rewrite (anonAdminClient_eq url w U Nu). unfold try_catch, fmap, M_fmap, api.
  unfold login_request. rewrite C1, F, T. cbn [as_string from_option id]. rewrite (str_empty_ne tok Nt). cbn [orb].
  unfold getenv. cbn [w_env w_store w_backend w_log]. rewrite U. cbn [from_option id]. rewrite bearer_client by done.
  rewrite C2, E2, D. cbn [orb negb]. rewrite (setSession_eq _ o) by done. cbn [w_store w_env w_backend w_log].
  rewrite S. by eexists.
Qed.

(** What a login that does not succeed comes to: an error shown on the form or
    a plain exception, with the cookie untouched. *)
Definition refused (w : world St Bk) (r : result FormResult) (w' : world St Bk) : Prop :=
  w_store w' = w_store w /\
  match r with Ret FOk => False | Ret (FErr _ _) => True | Throw e => exists n t, e = EError n t end.

Lemma sessionOptions_plain e x : sessionOptions e = Throw x -> exists n t, x = EError n t.
Proof.
  unfold sessionOptions, requireSessionSecret, mbind, result_bind.
  destruct (SESSION_SECRET e) as [s|]; [destruct (_ || _)|]; intros [= <-] || intros [=]; by eexists _, _.
Qed.

Lemma as_string_some v s : as_string v = Some s -> v = Some (JStr s).
Proof. by destruct v as [[]|]; intros [= ->]. Qed.

(** After the API handed out [tok]. *)
Lemma login_identity fd (w w1 : world St Bk) url tok r1 r w' :
  field fd "email" <> [] -> field fd "password" <> [] -> ADMIN_URL (w_env w) = Some url -> url <> [] ->
  api_call {| baseUrl := url; headers := []; credentials := None |} POST (js "/auth/login")
    (login_request (field fd "email") (field fd "password")) (w_backend w) = (Ret r1, w_backend w1) ->
  failed r1 = false -> opt_prop (data r1) "token" = Some (JStr tok) -> tok <> [] ->
  w_env w1 = w_env w -> w_store w1 = w_store w ->
  (meResp ← api (createAdminClient url (Some tok) None) GET (js "/api/v1/me") no_opts;
   if truthy (error meResp) || negb (truthy (data meResp)) then
     reject (default (js "identity lookup failed; try again") (error_message (error meResp)))
   else
     _ ← setSession (me_session tok (field fd "email") (data meResp));
     redirect_locale (landing (permissions (me_session tok (field fd "email") (data meResp))) (me_role (data meResp)))
       locale) w1 = (r, w') ->
  (exists me o s', login_succeeds fd w tok me o s') \/ refused w r w'.
Proof.
  intros Ne Np U Nu C1 F T Nt Ee Es. rewrite bearer_client by done. unfold mbind, M_bind, api.
  destruct (api_call _ _ _ _ (w_backend w1)) as [[me|e] b'] eqn:C2.
  2:{ intros [= <- <-]. right. split; [done|]. by eapply api_throws_plain. }
  destruct (truthy (error me)) eqn:X; [intros [= <- <-]; by right|].
  destruct (truthy (data me)) eqn:D; [|intros [= <- <-]; by right]. cbn [orb negb].
  destruct (sessionOptions (w_env w)) as [o|x] eqn:O.
  - rewrite (setSession_eq _ o) by (cbn [w_env]; congruence). cbn [w_store w_env w_backend w_log]. rewrite Es.
    destruct (iron_save o _ (w_store w)) as [s'|e] eqn:S; intros [= <- <-].
    + left. exists (data me), o, s'. split_and!; try done. exists url. split_and!; try done.
      by apply (accepts_intro _ _ _ _ _ _ r1 (w_backend w1) me b').
    + right. split; [done|]. by eapply iron_save_plain.
  - unfold setSession, getSession, getenv, lift, mbind, M_bind. cbn [w_env]. rewrite Ee, O. intros [= <- <-].
    right. split; [done|]. by eapply sessionOptions_plain.
Qed.

(** C8: login is all or nothing.  When the API accepts the credentials — a
    token from [POST /auth/login], an identity document from [GET /api/v1/me]
    called with that token — and the session fits the cookie, the session
    stored is exactly that token, the submitted e-mail and the identity of
    the document, it is in force from then on, and the browser goes to the
    landing page of those permissions.  In every other case the cookie stays
    as it was and the outcome is an error on the form or a plain exception:
    never a success, never a redirect. *)
Theorem login_all_or_nothing fd (w : world St Bk) r w' : loginAction locale fd w = (r, w') ->
  (forall tok me o s', login_succeeds fd w tok me o s' ->
     exists d rl, identifies tok (field fd "email") me d /\ role d = Some rl /\ in_force d w' /\
       r = Throw (ERedirect (landing (permissions d) rl) (Some locale))) /\
  ((forall tok me o s', ~ login_succeeds fd w tok me o s') -> refused w r w').
Proof.
  intros E. split.
  - intros tok me o s' L. pose proof L as (_ & _ & _ & O & S).
    destruct (login_signs_in fd w tok me o s' L) as (w2 & E2 & Ee & Es). rewrite E in E2. injection E2 as -> <-.
    exists (me_session tok (field fd "email") me), (me_role me). split_and!; [apply me_session_identifies|done| |done].
    apply (load_in_force _ o); [by rewrite Ee|]. rewrite Es. by eapply iron_load_save.
  - intros N. revert E. unfold loginAction. cbv zeta.
    destruct (str_empty (field fd "email")) eqn:Ne; [by intros [= <- <-]|].
    destruct (str_empty (field fd "password")) eqn:Np; [by intros [= <- <-]|]. cbn [orb].
    unfold mbind at 1, M_bind at 1.
    destruct (ADMIN_URL (w_env w)) as [[|c url]|] eqn:U.
    1,3: unfold anonAdminClient, getenv, mbind, M_bind; rewrite U; intros [= <- <-]; split; [done|]; by eexists _, _.
    rewrite (anonAdminClient_eq _ w U) by done. unfold mbind at 1, M_bind at 1, try_catch, fmap, M_fmap, api at 1.
    destruct (api_call _ _ _ _ _) as [[r1|e] b1] eqn:C1; [|by intros [= <- <-]].
    destruct (failed r1) eqn:F; [by intros [= <- <-]|]. cbn [orb].
    destruct (as_string (opt_prop (data r1) "token")) as [tok|] eqn:T; [|by intros [= <- <-]]. cbn [from_option id].
    destruct (str_empty tok) eqn:Et; [by intros [= <- <-]|]. apply as_string_some in T.
    unfold getenv, mbind at 1, M_bind at 1. cbn [w_env]. rewrite U. cbn [from_option id]. intros E.
    apply (login_identity fd w _ (c :: url) tok r1) in E; try done; try by intros X; rewrite X in *.
    destruct E as [(me & o & s' & L)|R]; [by apply N in L|done].
Qed.


End LoginProperties.

Definition login_form : FormData := [(js "email", FText (js "a@b.c")); (js "password", FText (js "pw"))].
Definition login_replies : list api_result :=
  [ Reference.reply 200 (Some (JObj [(js "token", JStr (js "tok2"))])) None;
    Reference.reply 200 (Some (JObj [(js "role", JStr (js "tenant-admin")); (js "scope_kind", JStr (js "tenant"));
                                     (js "permissions", JStrs [js "usage.read"])])) None ].

(** A login the API accepts, and one it does not answer. *)
Lemma login_all_or_nothing_witness :
  (let rw := loginAction (js "en") login_form (Reference.world0 login_replies) in
   rw.1 = Throw (ERedirect (js "/usage") (Some (js "en"))) /\
   exists d, identifies (js "tok2") (js "a@b.c") (data (nth 1 login_replies (Reference.reply 0 None None))) d /\
     in_force d rw.2) /\
  (let rw := loginAction (js "en") login_form (Reference.world0 []) in refused (Reference.world0 []) rw.1 rw.2).
Proof.
  split.
  - split; [reflexivity|].
    destruct (login_all_or_nothing (js "en") login_form (Reference.world0 login_replies) _ _ (surjective_pairing _)) as [S _].
    edestruct S as (d & rl & I & _ & F & _); [|exists d; split; [exact I|exact F]].
    split; [discriminate|]. split; [discriminate|]. split; [|split; reflexivity].
    eexists. split; [reflexivity|]. split; [discriminate|].
    eapply accepts_intro; reflexivity || discriminate.
  - apply (login_all_or_nothing (js "en") login_form (Reference.world0 []) _ _ (surjective_pairing _)).
    intros tok me o s' (_ & _ & (url & _ & _ & [r1 b1 r2 b2 C _ _ _ _ _ _ _]) & _). discriminate C.
Defined.


(** the landing page is not always one the operator may see: whoever
    holds none of [provider.read], [api_key.read], [usage.read] and [*] lands on
    the providers page (API keys for the legacy tenant-admin role), whatever
    else they were granted — an auditor, for one, whose own sidebar offers
    only the audit page. *)
Theorem landing_fallback :
  (forall ps rl, js "provider.read" ∉ ps -> js "*" ∉ ps -> js "api_key.read" ∉ ps -> js "usage.read" ∉ ps ->
     landing (Some ps) rl = if streq rl (js "tenant-admin") then js "/api-keys" else js "/providers") /\
  (let auditor := me_session (js "t") (js "a@b.c")
         (Some (JObj [(js "role", JStr (js "auditor")); (js "scope_kind", JStr (js "global"));
                      (js "permissions", JStrs [js "audit.read"])])) in
   landing (permissions auditor) (js "auditor") = js "/providers" /\ nav_links auditor = [js "/audit"]).
Proof.
  split; [|split; reflexivity]. intros ps rl H1 H2 H3 H4. unfold landing. destruct ps as [|p ps]; [done|].
  assert (N : forall x, x ∉ p :: ps -> array_includes (p :: ps) x = false).
  { intros x Hx. destruct (array_includes (p :: ps) x) eqn:E; [|done]. by apply array_includes_spec in E. }
  by rewrite !N.
Qed.

(** ** Properties: roles *)

Section RoleProperties.
  Context {St Bk : Type} `{IronSession St} `{AdminApi Bk}.

(** The role actions turn an API refusal into its [String()], so the
    translation key the back end encodes in the message is always lost, and an
    expired session (401) is shown as text instead of signing out. *)
Theorem role_errors_untranslated fd (w : world St Bk) c r b' o :
  o = with_body (JObj [(js "name", JStr (trim (field fd "name")));
        (js "scope_kind", JStr (trim (match fd_get fd "scope_kind" with Some e => entry_string e | None => js "tenant" end)));
        (js "description", JStr (trim (field fd "description"))); (js "permissions", JStrs (role_permissions fd))]) ->
  trim (field fd "name") <> [] -> serverAdminClient w = (Ret c, w) ->
  api_call c POST (js "/api/v1/roles") o (w_backend w) = (Ret r, b') -> response_ok r = false ->
  exists m w', createRole fd w = (Ret (FErr m None), w') /\ startsWith (js "AdminError") m = true /\
    w_store w' = w_store w.
Proof.
  intros -> N C A R. unfold createRole. cbv zeta. destruct (str_empty (trim (field fd "name"))) eqn:E;
    [by apply str_empty_true in E|].
  unfold try_catch. unfold mbind, M_bind. rewrite (call_unwrap_eq _ _ _ _ _ _ _ C A).
  unfold unwrap, mbind, result_bind. rewrite R, orb_true_r.
  unfold role_error, mapped_error, AdminError, exn_to_string, mret, M_ret.
  match goal with |- context [default ?d (error_message (error r))] => generalize (default d (error_message (error r))) end.
  intros m.
  destruct (str_empty m); eexists _, _; (split; [reflexivity|]); split; try done; by apply startsWith_app.
Qed.

End RoleProperties.

Definition role_form : FormData := [(js "name", FText (js "ops"))].

Lemma role_errors_untranslated_witness :
  let w := Reference.world0 [Reference.reply 401 None (Reference.envelope "errors.auth.expired: token expired")] in
  exists m w', createRole role_form w = (Ret (FErr m None), w') /\ startsWith (js "AdminError") m = true /\
    w_store w' = w_store w.
Proof.
  eapply (role_errors_untranslated role_form); [reflexivity|vm_compute; congruence|reflexivity|reflexivity|reflexivity].
Defined.

(** ** Properties: quotas *)

(** A top-up multiplies in floating point instead of going through the
    money parser.  Whole amounts in the safe range are exact, but 8.2 is sent
    as 8199999.999999999 micro-units where the parser yields 8,200,000. *)
Theorem topup_delta_inexact :
  (forall n, 0 <= n * 1000000 <= 2 ^ 53 -> topup_delta (int n) = int (n * 1000000)) /\
  is_integer (topup_delta (str_to_num (js "8.2"))) = false /\
  nlt (topup_delta (str_to_num (js "8.2"))) (int 8200000) = true /\
  Money.Web.displayToMicro (js "8.2") = Ret (int 8200000).
Proof.
  split; [intros n Hn; apply nmul_int; lia|]. split; [|split]; vm_compute; reflexivity.
Qed.

(** ** Properties: trace detail *)

Section TraceProperties.
  Context {St Bk : Type} `{IronSession St} `{AdminApi Bk}.

(** One row: not fetched for a non-positive id, absent on 404. *)
Lemma fetchDetailByRow_eq n (w : world St Bk) c r b' : 0 < n -> serverAdminClient w = (Ret c, w) ->
  api_call c GET (js "/api/v1/trace/rows/{id}") (with_path (js "id") (JNum (int n))) (w_backend w) = (Ret r, b') ->
  fetchDetailByRow (int n) w =
  ((if match error r with Some _ => true | None => false end || negb (response_ok r)
    then if status r =? 404 then Ret None else Throw (AdminError (status r) (error r))
    else Ret (match data r with Some JNull => None | _ => data r end)),
   {| w_env := w_env w; w_store := w_store w; w_backend := b';
      w_log := w_log w ++ [Sent c GET (js "/api/v1/trace/rows/{id}") (with_path (js "id") (JNum (int n)))] |}).
Proof.
  intros Hn C A. unfold fetchDetailByRow.
  assert (num_truthy (int n) = true) as -> by (destruct n; done || lia).
  rewrite nle_int, (proj2 (Z.leb_gt n 0)) by lia. change (negb true || false) with false. unfold try_catch. unfold mbind, M_bind.
  rewrite (call_unwrap_eq _ _ _ _ _ _ _ C A). unfold unwrap, mbind, result_bind.
  destruct (match error r with Some _ => true | None => false end || _); [|done].
  unfold AdminError. by destruct (status r =? 404).
Qed.

(** fetching a request with its predecessor: the first request of a
    session (no predecessor) makes one call and reports no previous payload; a
    payload that is gone (404) is reported as absent, not as a failure. *)
Theorem trace_pair_first pf n (w : world St Bk) c r b' : 0 < n -> serverAdminClient w = (Ret c, w) ->
  api_call c GET (js "/api/v1/trace/rows/{id}") (with_path (js "id") (JNum (int n))) (w_backend w) = (Ret r, b') ->
  status r = 404 \/ (error r = None /\ response_ok r = true) ->
  exists w', fetchTraceDetailPair pf (int n) (int 0) w =
    (Ret (PairOk (if status r =? 404 then None else match data r with Some JNull => None | _ => data r end) None), w') /\
    w_log w' = w_log w ++ [Sent c GET (js "/api/v1/trace/rows/{id}") (with_path (js "id") (JNum (int n)))].
Proof.
  intros Hn C A S. unfold fetchTraceDetailPair, fetchDetailPair, try_catch, promise_all. unfold mbind, M_bind.
  rewrite (fetchDetailByRow_eq n w c r b' Hn C A).
  change (nlt (int 0) (int 0)) with false. destruct S as [S|[E O]].
  - rewrite S. unfold response_ok. rewrite S, orb_true_r. by eexists.
  - rewrite E, O. assert ((status r =? 404) = false) as ->.
    { apply Z.eqb_neq. intros S. unfold response_ok in O. by rewrite S in O. }
    by eexists.
Qed.

End TraceProperties.

Lemma trace_pair_first_witness :
  exists w', fetchTraceDetailPair false (int 7) (int 0) (Reference.world0 [Reference.reply 404 None None]) =
    (Ret (PairOk None None), w').
Proof.
  destruct (trace_pair_first false 7 (Reference.world0 [Reference.reply 404 None None])
              (createAdminClient (js "http://admin:8090") (Some (js "tok")) None) (Reference.reply 404 None None) [])
    as (w' & E & _); [lia|reflexivity|reflexivity|left; reflexivity|exists w'; exact E].
Defined.
