(* ===== verification/Trace.v ===== *)
(** * Trace inspection

    The pure analysis behind the trace view, shared by the admin UI
    ([web/src/components/trace/trace-categories.tsx]) and its desktop port
    ([desktop-ui/src/components/trace/trace-categories.tsx],
    [trace-baseline.ts]): splitting a request's messages into system, carried
    over and new ones, re-assembling streamed replies, the display blocks and
    the section tree.  Payloads are arbitrary decoded JSON, so every access may
    raise a TypeError. *)

From S2P Require Import Prelude JsNumber JsString Json.

Record TraceDetailLike : Type := {
  messages : unknown;
  request_raw : unknown;
  response_raw : unknown;
}.

Record OutputItem : Type := { out_text : jstr; out_toolCalls : option (list json); out_raw : jstr }.

Definition EMPTY : json := JStr [].

(** [l.filter(f)] with a predicate that may throw. *)
Fixpoint filter_result {A} (f : A -> result bool) (l : list A) : result (list A) :=
  match l with
  | [] => Ret []
  | x :: t => b ← f x; ys ← filter_result f t; Ret (if b : bool then x :: ys else ys)
  end.

(** ** Messages *)

Definition messagesOf (detail : option TraceDetailLike) : list json :=
  match detail with
  | None => []
  | Some d => match messages d with Some (JArr l) => l | _ => [] end
  end.

Definition signature (m : json) : result jstr :=
  role ← prop m "role";
  content ← prop m "content";
  call ← prop m "tool_call_id";
  Ret (to_string (nullish role EMPTY) ++ js "|" ++ stringify (nullish content EMPTY) ++ js "|"
       ++ to_string (nullish call EMPTY)).

Fixpoint commonPrefixLength (a b : list json) : result nat :=
  match a, b with
  | x :: a', y :: b' =>
      sx ← signature x;
      sy ← signature y;
      if streq sx sy then S <$> commonPrefixLength a' b' else Ret 0%nat
  | _, _ => Ret 0%nat
  end.

(** [String(m.role ?? "")] *)
Definition role_of (m : json) : result jstr := r ← prop m "role"; Ret (to_string (nullish r EMPTY)).

Definition isSystem (m : json) : result bool := r ← role_of m; Ret (streq r (js "system")).
Definition notSystem (m : json) : result bool := b ← isSystem m; Ret (negb b).

(** ** Tools and output *)

Definition extractTools (requestRaw : unknown) : list json :=
  match opt_prop requestRaw "tools" with Some (JArr l) => l | _ => [] end.

Definition flatten_part (part : json) : result jstr :=
  ty ← prop part "type";
  tx ← prop part "text";
  Ret (match ty, tx with
       | Some (JStr t), Some (JStr s) =>
           if streq t (js "text") then s else if streq t (js "image_url") then js "[image]" else stringify part
       | Some (JStr t), _ => if streq t (js "image_url") then js "[image]" else stringify part
       | _, _ => stringify part
       end).

Definition flattenContent (content : unknown) : result jstr :=
  match content with
  | None | Some JNull => Ret []
  | Some (JStr s) => Ret s
  | Some (JArr l) => parts ← map_result flatten_part l; Ret (join [10] parts)
  | Some v => Ret (stringify_pretty 0 v)
  end.

(** A tool call under re-assembly:
    [{ id, type: "function", function: { name, arguments } }]. *)
Record ToolCall : Type := { tc_id : jstr; tc_name : jstr; tc_arguments : jstr }.

Definition empty_call : ToolCall := {| tc_id := []; tc_name := []; tc_arguments := [] |}.

Definition tool_call_json (c : ToolCall) : json :=
  JObj [ (js "id", JStr (tc_id c)); (js "type", JStr (js "function"));
         (js "function", JObj [(js "name", JStr (tc_name c)); (js "arguments", JStr (tc_arguments c))]) ].

(** [Map<number, ...>] in insertion order. *)
Fixpoint call_get (idx : num) (m : list (num * ToolCall)) : option ToolCall :=
  match m with
  | [] => None
  | (k, c) :: t => if decide (k = idx) then Some c else call_get idx t
  end.

Fixpoint call_set (idx : num) (c : ToolCall) (m : list (num * ToolCall)) : list (num * ToolCall) :=
  match m with
  | [] => [(idx, c)]
  | (k, c') :: t => if decide (k = idx) then (k, c) :: t else (k, c') :: call_set idx c t
  end.

Record SSEState : Type := { sse_content : jstr; sse_calls : list (num * ToolCall); sse_sawAny : bool }.

(** One element of [delta.tool_calls]. *)
Definition merge_call (m : list (num * ToolCall)) (tc : json) : result (list (num * ToolCall)) :=
  index ← prop tc "index";
  let idx := match index with Some (JNum n) => n | _ => int 0 end in
  let existing := default empty_call (call_get idx m) in
  f ← prop tc "function";
  id ← prop tc "id";
  let name := match opt_prop f "name" with Some (JStr s) => tc_name existing ++ s | _ => tc_name existing end in
  let args := match opt_prop f "arguments" with
              | Some (JStr s) => tc_arguments existing ++ s | _ => tc_arguments existing end in
  let id' := match id with Some (JStr s) => if str_empty s then tc_id existing else s | _ => tc_id existing end in
  Ret (call_set idx {| tc_id := id'; tc_name := name; tc_arguments := args |} m).

Fixpoint merge_calls (m : list (num * ToolCall)) (tcs : list json) : result (list (num * ToolCall)) :=
  match tcs with
  | [] => Ret m
  | tc :: t => m' ← merge_call m tc; merge_calls m' t
  end.

(** The loop body after a payload parsed. *)
Definition apply_chunk (s : SSEState) (chunk : json) : result SSEState :=
  choices ← prop chunk "choices";
  let first := match choices with Some (JArr (c :: _)) => Some c | _ => None end in
  let delta := opt_prop first "delta" in
  if negb (truthy delta) then Ret {| sse_content := sse_content s; sse_calls := sse_calls s; sse_sawAny := true |}
  else
    let content := match opt_prop delta "content" with
                   | Some (JStr t) => sse_content s ++ t | _ => sse_content s end in
    calls ← (match opt_prop delta "tool_calls" with
             | Some (JArr l) => merge_calls (sse_calls s) l
             | _ => Ret (sse_calls s)
             end);
    Ret {| sse_content := content; sse_calls := calls; sse_sawAny := true |}.

Definition sse_line (s : SSEState) (line : jstr) : result SSEState :=
  let trimmed := trimStart line in
  if negb (startsWith (js "data:") trimmed) then Ret s
  else
    let payload := trim (drop 5 trimmed) in
    if streq payload (js "[DONE]") || str_empty payload then Ret s
    else match json_parse payload with
         | Throw _ => Ret s
         | Ret chunk => apply_chunk s chunk
         end.

Fixpoint sse_lines (s : SSEState) (lines : list jstr) : result SSEState :=
  match lines with
  | [] => Ret s
  | l :: t => s' ← sse_line s l; sse_lines s' t
  end.

(** [.sort((a, b) => a[0] - b[0])] on distinct keys. *)
Fixpoint insert_call (x : num * ToolCall) (l : list (num * ToolCall)) : list (num * ToolCall) :=
  match l with
  | [] => [x]
  | y :: t => if nlt y.1 x.1 then y :: insert_call x t else x :: l
  end.
Definition sort_calls (l : list (num * ToolCall)) : list (num * ToolCall) := foldr insert_call [] l.

Definition sse_init : SSEState := {| sse_content := []; sse_calls := []; sse_sawAny := false |}.

Definition reassembleSSE (transcript : jstr) : result (option (jstr * list json)) :=
  s ← sse_lines sse_init (split_char 10 transcript);
  Ret (if sse_sawAny s
       then Some (sse_content s, map (fun kc => tool_call_json kc.2) (sort_calls (sse_calls s)))
       else None).

Definition parseOutput (responseRaw : unknown) : result (option OutputItem) :=
  match responseRaw with
  | None | Some JNull | Some (JStr []) => Ret None
  | Some v =>
      let obj := match v with
                 | JObj _ | JArr _ => Some v
                 | JStr s => match json_parse s with Ret o => Some o | Throw _ => None end
                 | _ => None
                 end in
      let raw := match v with JStr s => s | _ => stringify v end in
      let msg := match opt_prop obj "choices" with
                 | Some (JArr (c :: _)) => opt_prop (Some c) "message"
                 | _ => None
                 end in
      if truthy msg then
        text ← flattenContent (opt_prop msg "content");
        Ret (Some {| out_text := text; out_toolCalls := as_array (opt_prop msg "tool_calls"); out_raw := raw |})
      else
        let plain := Ret (Some {| out_text := raw; out_toolCalls := None; out_raw := raw |}) in
        match v with
        | JStr s =>
            match reassembleSSE s with
            | Ret (Some (content, calls)) =>
                Ret (Some {| out_text := content;
                             out_toolCalls := match calls with [] => None | _ => Some calls end; out_raw := raw |})
            | _ => plain
            end
        | _ => plain
        end
  end.

(** ** Analysis *)

Record Analysis : Type := {
  systemMsgs : list json; tools : list json; carried : list json; turnMsgs : list json; output : option OutputItem;
}.

Module Desktop.

(** [for (const m of curMsgs) if (...) systemMsgs.push(m)] *)
Fixpoint collect_system (acc : list json) (l : list json) : result (list json) :=
  match l with
  | [] => Ret acc
  | m :: t => b ← isSystem m; collect_system (if b : bool then acc ++ [m] else acc) t
  end.

Definition analyze (current : TraceDetailLike) (previous : option TraceDetailLike) : result Analysis :=
  let curMsgs := messagesOf (Some current) in
  let prevMsgs := messagesOf previous in
  prefixLen ← commonPrefixLength curMsgs prevMsgs;
  car ← filter_result notSystem (take prefixLen curMsgs);
  turn ← filter_result notSystem (drop prefixLen curMsgs);
  sys ← collect_system [] curMsgs;
  out ← parseOutput (response_raw current);
  Ret {| systemMsgs := sys; tools := extractTools (request_raw current); carried := car; turnMsgs := turn;
         output := out |}.

End Desktop.

Module Web.

Definition analyze (current : TraceDetailLike) (previous : option TraceDetailLike) : result Analysis :=
  let curMsgs := match messages current with Some (JArr l) => l | _ => [] end in
  let prevMsgs := match previous with
                  | Some p => match messages p with Some (JArr l) => l | _ => [] end
                  | None => []
                  end in
  prefixLen ← commonPrefixLength curMsgs prevMsgs;
  let turn := drop prefixLen curMsgs in
  car ← filter_result notSystem (take prefixLen curMsgs);
  newMsgs ← filter_result notSystem turn;
  sys ← filter_result isSystem curMsgs;
  out ← parseOutput (response_raw current);
  Ret {| systemMsgs := sys; tools := extractTools (request_raw current); carried := car; turnMsgs := newMsgs;
         output := out |}.

End Web.

(** ** Baseline selection *)

(** The loop of [pickBaseline] with its two accumulators. *)
Fixpoint pick_from (curMsgs : list json) (best : option TraceDetailLike) (bestLen : nat)
  (candidates : list TraceDetailLike) : result (option TraceDetailLike) :=
  match candidates with
  | [] => Ret best
  | c :: t =>
      len ← commonPrefixLength curMsgs (messagesOf (Some c));
      if (bestLen <? len)%nat then pick_from curMsgs (Some c) len t else pick_from curMsgs best bestLen t
  end.

Definition pickBaseline (current : TraceDetailLike) (candidates : list TraceDetailLike) : result (option TraceDetailLike) :=
  let curMsgs := messagesOf (Some current) in
  match curMsgs with
  | [] => Ret None
  | _ => pick_from curMsgs None 0 candidates
  end.

(** ** Blocks *)

Inductive Block : Type :=
  | BText (text : jstr)
  | BImage
  | BThinking (text : jstr)
  | BToolUse (toolName : jstr) (raw : json)
  | BToolResult (callId text : jstr)
  | BUnknown (raw : json).

Definition content_block (part : json) : result Block :=
  ty ← prop part "type";
  let type := to_string (nullish ty EMPTY) in
  text ← prop part "text";
  thinking ← prop part "thinking";
  Ret (match streq type (js "text"), text with
       | true, Some (JStr s) => BText s
       | _, _ =>
           if streq type (js "image_url") then BImage
           else if streq type (js "thinking") || streq type (js "reasoning")
                then BThinking (to_string (nullish (nullish2 thinking text) EMPTY))
           else BUnknown part
       end).

(** [String(fn.name ?? d)] of a tool or tool call's [function]. *)
Definition function_name (f : unknown) (d : jstr) : jstr := to_string (nullish (opt_prop f "name") (JStr d)).

Definition tool_use_block (tc : json) : result Block :=
  f ← prop tc "function";
  Ret (BToolUse (function_name f (js "(tool)")) tc).

Definition blocksOf (msg : json) : result (list Block) :=
  role ← role_of msg;
  content ← prop msg "content";
  base ← (match content with
          | Some (JStr []) => Ret []
          | Some (JStr s) => Ret [BText s]
          | Some (JArr l) => map_result content_block l
          | None | Some JNull => Ret []
          | Some v => Ret [BUnknown v]
          end);
  calls ← prop msg "tool_calls";
  uses ← (match calls with Some (JArr l) => map_result tool_use_block l | _ => Ret [] end);
  callId ← prop msg "tool_call_id";
  let blocks := base ++ uses in
  let isResult := streq role (js "tool") ||
                  match callId with Some (JStr s) => negb (str_empty s) | _ => false end in
  Ret (if isResult
       then BToolResult (to_string (nullish callId EMPTY))
              (match content with Some (JStr s) => s | _ => stringify (nullish content EMPTY) end) :: blocks
       else blocks).

Definition countLines (text : jstr) : nat := if str_empty text then 0%nat else length (split_char 10 text).

Definition shortenId (id : jstr) : jstr := if (8 <? length id)%nat then take 6 id ++ js "…" else id.

Definition blockChipStyle (b : Block) : jstr * jstr :=
  match b with
  | BText _ => (js "text", js "bg-blue-100 text-blue-700")
  | BImage => (js "img", js "bg-orange-100 text-orange-700")
  | BThinking _ => (js "thinking", js "bg-purple-100 text-purple-700")
  | BToolUse _ _ => (js "", js "bg-cyan-100 text-cyan-700")
  | BToolResult _ _ => (js "tool_result", js "bg-emerald-100 text-emerald-700")
  | BUnknown _ => (js "?", js "bg-muted text-muted-foreground")
  end.

Definition blockChipDetail (b : Block) : jstr :=
  match b with
  | BText t => zstr (Z.of_nat (countLines t)) ++ js "行"
  | BThinking t => zstr (Z.of_nat (countLines t)) ++ js "行"
  | BToolUse n _ => n
  | BToolResult id _ => if str_empty id then [] else js "id:" ++ shortenId id
  | BImage | BUnknown _ => []
  end.

(** ** Colours *)

Definition roleBadgeColor (role : jstr) : jstr :=
  if streq role (js "user") then js "bg-blue-100 text-blue-700"
  else if streq role (js "assistant") then js "bg-emerald-100 text-emerald-700"
  else if streq role (js "system") then js "bg-amber-100 text-amber-700"
  else if streq role (js "tool") then js "bg-purple-100 text-purple-700"
  else js "bg-muted text-muted-foreground".

Definition sectionColor (label : jstr) : jstr :=
  if streq label (js "system") then js "border-amber-200 bg-amber-50/50"
  else if streq label (js "tools") then js "border-cyan-200 bg-cyan-50/50"
  else if streq label (js "messages") then js "border-slate-200 bg-slate-50/50"
  else if streq label (js "output") then js "border-indigo-200 bg-indigo-50/50"
  else js "border-border bg-muted/30".

Definition palette : list jstr :=
  map js ["bg-rose-100 text-rose-700"; "bg-sky-100 text-sky-700"; "bg-violet-100 text-violet-700";
          "bg-teal-100 text-teal-700"; "bg-amber-100 text-amber-700"; "bg-fuchsia-100 text-fuchsia-700"]%string.

(** [x >>> 0] on a double. *)
Definition to_uint32 (x : num) : num :=
  match x with Fin m k => int (Z.quot m (pow2 k) mod 2 ^ 32) | _ => int 0 end.

(** The hash loop, on doubles. *)
Definition tool_hash (name : jstr) : num :=
  foldl (fun h c => to_uint32 (nadd (nmul h (int 31)) (int c))) (int 0) name.

(** [palette[h % palette.length]], [None] for [undefined]. *)
Definition toolLabelColor (name : jstr) : option jstr :=
  match nmod (tool_hash name) (int (Z.of_nat (length palette))) with
  | Fin i 0 => if i <? 0 then None else palette !! Z.to_nat i
  | _ => None
  end.

(** ** The rendered tree *)

(** What an expanded block shows. *)
Inductive RawView : Type :=
  | VMarkdown (text : jstr)
  | VPre (text : jstr)
  | VImage
  | VCall (name id args : jstr).

(** Pretty-printed arguments, or the raw text when they are not JSON. *)
Definition pretty_args (f : unknown) : jstr :=
  let argsRaw := match opt_prop f "arguments" with
                 | Some (JStr s) => s
                 | a => stringify (nullish a (JObj []))
                 end in
  match json_parse argsRaw with Ret v => stringify_pretty 0 v | Throw _ => argsRaw end.

Definition ToolCallRaw (tc : json) : result RawView :=
  f ← prop tc "function";
  id ← prop tc "id";
  Ret (VCall (function_name f (js "(tool)")) (default [] (as_string id)) (pretty_args f)).

(** [text || t("raw.empty")] *)
Definition or_empty (empty text : jstr) : jstr := if str_empty text then empty else text.

Section View.
  (** The label lookup [t]. *)
  Variable t : jstr -> jstr.

Definition BlockRaw (b : Block) (role : jstr) : result RawView :=
  let e := t (js "raw.empty") in
  match b with
  | BText s => if streq role (js "assistant") && negb (str_empty s) then Ret (VMarkdown s) else Ret (VPre (or_empty e s))
  | BThinking s => Ret (VPre (or_empty e s))
  | BToolResult _ s => Ret (VPre (or_empty e s))
  | BImage => Ret VImage
  | BToolUse n tc =>
      f ← prop tc "function";
      id ← prop tc "id";
      Ret (VCall (to_string (nullish (opt_prop f "name") (JStr n))) (default [] (as_string id)) (pretty_args f))
  | BUnknown v => Ret (VPre (stringify_pretty 0 v))
  end.

Record MessageView : Type := {
  mv_number : nat; mv_role : jstr; mv_badge : jstr; mv_chips : list (jstr * jstr * jstr); mv_raw : list RawView;
}.

(** A message row: number, role badge, one chip per block, the raw blocks. *)
Definition MessageNode (index : nat) (msg : json) : result MessageView :=
  blocks ← blocksOf msg;
  role ← role_of msg;
  raws ← map_result (fun b => BlockRaw b role) blocks;
  Ret {| mv_number := S index; mv_role := or_empty (js "unknown") role; mv_badge := roleBadgeColor role;
         mv_chips := map (fun b => (blockChipStyle b, blockChipDetail b)) blocks; mv_raw := raws |}.

Record ToolView : Type := { tv_name : jstr; tv_color : option jstr; tv_desc : jstr; tv_params : option jstr }.

Definition ToolLabel (tool : json) : result ToolView :=
  f ← prop tool "function";
  let name := function_name f (js "(unnamed)") in
  let desc := default [] (as_string (opt_prop f "description")) in
  Ret {| tv_name := name; tv_color := toolLabelColor name; tv_desc := or_empty (t (js "raw.empty")) desc;
         tv_params := match opt_prop f "parameters" with
                      | Some (JObj l) => Some (stringify_pretty 0 (JObj l))
                      | Some (JArr l) => Some (stringify_pretty 0 (JArr l))
                      | _ => None
                      end |}.

Record OutputView : Type := { ov_text : jstr; ov_calls : list RawView }.

Definition OutputNode (item : OutputItem) : result OutputView :=
  calls ← map_result ToolCallRaw (default [] (out_toolCalls item));
  Ret {| ov_text := or_empty (t (js "raw.empty")) (out_text item); ov_calls := calls |}.

Record GroupView : Type := { gv_label : jstr; gv_title : jstr; gv_count : nat; gv_open : bool; gv_items : list MessageView }.

Inductive SectionBody : Type :=
  | SMessages (l : list MessageView)
  | STools (l : list ToolView)
  | SGroups (l : list GroupView)
  | SOutput (o : option OutputView)
  | SHint (text : jstr).

Record SectionView : Type := { sv_label : jstr; sv_title : jstr; sv_color : jstr; sv_count : nat; sv_open : bool; sv_body : SectionBody }.

(** [xs.map((m, i) => <MessageNode index={base + i} ... />)] *)
Definition message_nodes (base : nat) (l : list json) : result (list MessageView) :=
  map_result (fun im => MessageNode im.1 im.2) (imap (fun i m => ((base + i)%nat, m)) l).

(** [Group]: the announced [count] and the children are separate arguments;
    open at first only for new messages. *)
Definition Group (label : jstr) (count : nat) (children : list MessageView) : GroupView :=
  {| gv_label := label;
     gv_title := if streq label (js "carried-over") then t (js "messages.categories.carriedOver") else t (js "messages.categories.new");
     gv_count := count; gv_open := streq label (js "new"); gv_items := children |}.

Definition labelTitle (label : jstr) : jstr :=
  if streq label (js "system") then t (js "messages.categories.system")
  else if streq label (js "tools") then t (js "messages.categories.tools")
  else if streq label (js "messages") then t (js "messages.categories.messages")
  else if streq label (js "output") then t (js "messages.categories.output")
  else label.

(** [Section]: open at first; a hint replaces the children of an empty one. *)
Definition SectionNode (label : jstr) (count : nat) (emptyHint : option jstr) (children : SectionBody) : SectionView :=
  {| sv_label := label; sv_title := labelTitle label; sv_color := sectionColor label; sv_count := count; sv_open := true;
     sv_body := match emptyHint with
                | Some h => if (count =? 0)%nat && negb (str_empty h) then SHint h else children
                | None => children
                end |}.

Definition when {A} (b : bool) (x : A) : list A := if b then [x] else [].

(** The tree with every node expanded; [None] is the "no messages"
    placeholder. *)
Definition TraceCategories (current : TraceDetailLike) (previous : option TraceDetailLike) :
  result (option (list SectionView)) :=
  a ← Desktop.analyze current previous;
  let totalMsgs := (length (carried a) + length (turnMsgs a))%nat in
  if (length (systemMsgs a) =? 0)%nat && (length (tools a) =? 0)%nat && (totalMsgs =? 0)%nat
     && match output a with Some _ => false | None => true end
  then Ret None
  else
    sys ← message_nodes 0 (systemMsgs a);
    tls ← map_result ToolLabel (tools a);
    car ← message_nodes 0 (carried a);
    new ← message_nodes (length (carried a)) (turnMsgs a);
    out ← (match output a with Some item => o ← OutputNode item; Ret (Some o) | None => Ret None end);
    Ret (Some (
      when (0 <? length (systemMsgs a))%nat
        (SectionNode (js "system") (length (systemMsgs a)) None (SMessages sys))
      ++ when (0 <? length (tools a))%nat
        (SectionNode (js "tools") (length (tools a)) None (STools tls))
      ++ when (0 <? totalMsgs)%nat
        (SectionNode (js "messages") totalMsgs None
           (SGroups (when (0 <? length (carried a))%nat (Group (js "carried-over") (length (carried a)) car)
                     ++ when (0 <? length (turnMsgs a))%nat (Group (js "new") (length (turnMsgs a)) new))))
      ++ [SectionNode (js "output") (match output a with Some _ => 1%nat | None => 0%nat end) (Some (t (js "raw.empty"))) (SOutput out)])).

End View.

(** ** Lemmas: total functions on non-null messages *)

Lemma prop_nonnull v k : v <> JNull -> prop v k = Ret (opt_prop (Some v) k).
Proof. by destruct v. Qed.

(** The signature of a non-null message. *)
Definition sig (m : json) : jstr :=
  to_string (nullish (opt_prop (Some m) "role") EMPTY) ++ js "|" ++ stringify (nullish (opt_prop (Some m) "content") EMPTY)
  ++ js "|" ++ to_string (nullish (opt_prop (Some m) "tool_call_id") EMPTY).

Lemma signature_nonnull m : m <> JNull -> signature m = Ret (sig m).
Proof. intros H. unfold signature. by rewrite !prop_nonnull by done. Qed.

(** Longest common prefix by signature. *)
Fixpoint lcp (a b : list json) : nat :=
  match a, b with
  | x :: a', y :: b' => if streq (sig x) (sig y) then S (lcp a' b') else 0%nat
  | _, _ => 0%nat
  end.

Definition nonnull (l : list json) : Prop := Forall (fun m => m <> JNull) l.

Lemma commonPrefixLength_lcp a b : nonnull a -> nonnull b -> commonPrefixLength a b = Ret (lcp a b).
Proof.
  intros Ha. revert b. induction Ha as [|x a Hx _ IH]; intros b Hb; [done|].
  destruct Hb as [|y b Hy Hb]; [done|]. cbn [commonPrefixLength lcp].
  rewrite !signature_nonnull by done. cbn [mbind result_bind].
  destruct (streq (sig x) (sig y)); [|done]. by rewrite IH.
Qed.

Lemma lcp_le a b : (lcp a b <= length a)%nat /\ (lcp a b <= length b)%nat.
Proof.
  revert b. induction a as [|x a IH]; intros [|y b]; simpl; try lia.
  destruct (streq _ _); [|lia]. specialize (IH b). lia.
Qed.

Lemma lcp_prefix a b : map sig (take (lcp a b) a) = map sig (take (lcp a b) b).
Proof.
  revert b. induction a as [|x a IH]; intros [|y b]; simpl; try done.
  destruct (streq (sig x) (sig y)) eqn:E; [|done]. apply streq_true in E. simpl. by rewrite E, IH.
Qed.

Lemma lcp_max a b n : (n <= length a)%nat -> (n <= length b)%nat ->
  map sig (take n a) = map sig (take n b) -> (n <= lcp a b)%nat.
Proof.
  revert b n. induction a as [|x a IH]; intros [|y b] [|n]; simpl; try lia.
  intros La Lb [= E H]. rewrite (proj2 (streq_true _ _) E). specialize (IH b n ltac:(lia) ltac:(lia) H). lia.
Qed.

Definition is_system (m : json) : bool := streq (to_string (nullish (opt_prop (Some m) "role") EMPTY)) (js "system").

Lemma isSystem_nonnull m : m <> JNull -> isSystem m = Ret (is_system m).
Proof. intros H. unfold isSystem, role_of. by rewrite prop_nonnull by done. Qed.

Lemma filter_result_total {A} (f : A -> result bool) (g : A -> bool) l :
  Forall (fun x => f x = Ret (g x)) l -> filter_result f l = Ret (List.filter g l).
Proof. induction 1 as [|x l Hx _ IH]; simpl; [done|]. by rewrite Hx, IH. Qed.

Lemma filter_isSystem l : nonnull l -> filter_result isSystem l = Ret (List.filter is_system l).
Proof. intros H. apply filter_result_total. eapply Forall_impl; [exact H|]. apply isSystem_nonnull. Qed.

Lemma filter_notSystem l : nonnull l -> filter_result notSystem l = Ret (List.filter (fun m => negb (is_system m)) l).
Proof.
  intros H. apply filter_result_total. eapply Forall_impl; [exact H|]. intros m Hm. unfold notSystem.
  by rewrite isSystem_nonnull.
Qed.

Lemma collect_system_filter l acc :
  Desktop.collect_system acc l = (fun r => acc ++ r) <$> filter_result isSystem l.
Proof.
  revert acc. induction l as [|m l IH]; intros acc; simpl; [by rewrite app_nil_r|].
  destruct (isSystem m) as [b|e]; simpl; [|done]. rewrite IH. destruct (filter_result isSystem l); simpl; [|done].
  destruct b; simpl; [by rewrite <- app_assoc|done].
Qed.

Lemma analyze_agree cur prev : Web.analyze cur prev = Desktop.analyze cur prev.
Proof.
  unfold Web.analyze, Desktop.analyze. fold (messagesOf (Some cur)). fold (messagesOf prev).
  destruct (commonPrefixLength _ _) as [n|]; simpl; [|done].
  destruct (filter_result notSystem _); simpl; [|done]. destruct (filter_result notSystem _); simpl; [|done].
  rewrite collect_system_filter. by destruct (filter_result isSystem _).
Qed.

(** ** Properties: message analysis *)

(** C6: the admin UI and the desktop port analyse every payload identically
    (raising the same exceptions), and on a payload without null messages the
    three lists are a split of the request: the system messages, and the
    others in their original order cut at the longest prefix (by signature)
    shared with the previous request. *)
Theorem analyze_splits cur prev :
  Web.analyze cur prev = Desktop.analyze cur prev /\
  forall a, nonnull (messagesOf (Some cur)) -> nonnull (messagesOf prev) -> Desktop.analyze cur prev = Ret a ->
    let n := lcp (messagesOf (Some cur)) (messagesOf prev) in
    systemMsgs a ++ carried a ++ turnMsgs a ≡ₚ messagesOf (Some cur) /\
    carried a ++ turnMsgs a = List.filter (fun m => negb (is_system m)) (messagesOf (Some cur)) /\
    carried a = List.filter (fun m => negb (is_system m)) (take n (messagesOf (Some cur))) /\
    map sig (take n (messagesOf (Some cur))) = map sig (take n (messagesOf prev)) /\
    (forall k, (k <= length (messagesOf (Some cur)))%nat -> (k <= length (messagesOf prev))%nat ->
       map sig (take k (messagesOf (Some cur))) = map sig (take k (messagesOf prev)) -> (k <= n)%nat).
Proof.
  split; [apply analyze_agree|].
  intros a Hc Hp. unfold Desktop.analyze. rewrite commonPrefixLength_lcp by done. cbn [mbind result_bind].
  set (cm := messagesOf (Some cur)) in *. set (pm := messagesOf prev) in *. set (n := lcp cm pm).
  rewrite !filter_notSystem by (by apply Forall_take || by apply Forall_drop). cbn [mbind result_bind].
  rewrite collect_system_filter, filter_isSystem by done. cbn [mbind result_bind fmap result_fmap app].
  destruct (parseOutput _) as [out|]; [|done]. intros [= <-]. cbn [systemMsgs carried turnMsgs].
  rewrite <- List.filter_app, take_drop. split; [symmetry; apply filter_split|].
  split; [done|]. split; [done|]. split; [apply lcp_prefix|]. intros k. apply lcp_max.
Qed.

(** ** Properties: baseline selection *)

Definition prefix_with (cm : list json) (c : TraceDetailLike) : nat := lcp cm (messagesOf (Some c)).

Definition well_formed (c : TraceDetailLike) : Prop := nonnull (messagesOf (Some c)).

(** The chosen candidate scores at least every later candidate and more than
    every earlier one. *)
Definition best_of (cm : list json) (l : list TraceDetailLike) (r : option TraceDetailLike) : Prop :=
  match r with
  | None => Forall (fun c => prefix_with cm c = 0%nat) l
  | Some b => exists l1 l2, l = l1 ++ b :: l2 /\ (0 < prefix_with cm b)%nat /\
      Forall (fun c => prefix_with cm c < prefix_with cm b)%nat l1 /\
      Forall (fun c => prefix_with cm c <= prefix_with cm b)%nat l2
  end.

Lemma pick_from_best cm l : nonnull cm -> Forall well_formed l ->
  forall done_ best len, best_of cm done_ best ->
    len = match best with Some b => prefix_with cm b | None => 0%nat end ->
    exists r, pick_from cm best len l = Ret r /\ best_of cm (done_ ++ l) r.
Proof.
  intros Hc Hl. induction Hl as [|c l Hw _ IH]; intros done_ best len B L.
  - exists best. by rewrite app_nil_r.
  - cbn [pick_from]. rewrite commonPrefixLength_lcp by done. cbn [mbind result_bind].
    fold (prefix_with cm c). replace (done_ ++ c :: l) with ((done_ ++ [c]) ++ l) by (by rewrite <- app_assoc).
    destruct (Nat.ltb_spec len (prefix_with cm c)).
    + apply IH; [|done]. exists done_, []. split; [done|]. split; [lia|]. split; [|done].
      destruct best as [b|]; simpl in B.
      * destruct B as (l1 & l2 & -> & _ & F1 & F2). apply Forall_app. split.
        -- eapply Forall_impl; [exact F1|]. simpl. lia.
        -- constructor; [lia|]. eapply Forall_impl; [exact F2|]. simpl. lia.
      * eapply Forall_impl; [exact B|]. simpl. lia.
    + apply IH; [|done]. destruct best as [b|]; simpl in B |- *.
      * destruct B as (l1 & l2 & -> & ? & F1 & F2). exists l1, (l2 ++ [c]). rewrite <- app_assoc. split; [done|].
        split; [done|]. split; [done|]. apply Forall_app. split; [done|]. constructor; [lia|done].
      * apply Forall_app. split; [done|]. constructor; [lia|done].
Qed.

(** C5: the baseline chosen among the candidate rows is total on well-formed
    payloads and optimal: it shares the longest non-empty message prefix with
    the current request, ties going to the row listed first (the closest);
    nothing is chosen exactly when no candidate shares a first message. *)
Theorem pickBaseline_best cur cands : well_formed cur -> Forall well_formed cands ->
  exists r, pickBaseline cur cands = Ret r /\ best_of (messagesOf (Some cur)) cands r.
Proof.
  intros Hc Hl. unfold pickBaseline. destruct (messagesOf (Some cur)) as [|m cm] eqn:E.
  - exists None. split; [done|]. apply Forall_true. intros c. by unfold prefix_with.
  - rewrite <- E. unfold well_formed in Hc.
    destruct (pick_from_best (messagesOf (Some cur)) cands Hc Hl [] None 0%nat) as (r & P & B); [constructor|done|eauto].
Qed.
