(* ===== verification/TraceProps.v ===== *)
(** * Properties of the trace view

    Message signatures, tool colours, message numbering and the re-assembly of
    streamed replies (definitions in [Trace]). *)

From Stdlib Require Import Sorted.
From S2P Require Import Prelude JsNumber JsString Json Trace.

Lemma wf_str_check s : forallb (fun c => (0 <=? c) && (c <? 65536)) s = true -> wf_str s.
Proof. intros H. apply Forall_forall. intros c Hc. rewrite forallb_forall in H. apply list_elem_of_In, H in Hc. unfold unit_ok. lia. Qed.

(** ** Message signatures *)

(** The fields a signature is made of, with their defaults. *)
Definition sig_role (m : json) : jstr := to_string (nullish (opt_prop (Some m) "role") EMPTY).
Definition sig_content (m : json) : json := nullish (opt_prop (Some m) "content") EMPTY.
Definition sig_call (m : json) : jstr := to_string (nullish (opt_prop (Some m) "tool_call_id") EMPTY).

Lemma split_at_bar (a b r1 r2 : jstr) : 124 ∉ a -> 124 ∉ b -> a ++ 124 :: r1 = b ++ 124 :: r2 -> a = b /\ r1 = r2.
Proof.
  revert b. induction a as [|x a IH]; intros [|y b] Ha Hb; simpl.
  - by intros [= ->].
  - intros [= <- _]. destruct Hb. by left.
  - intros [= -> _]. destruct Ha. by left.
  - intros [= -> E]. destruct (IH b) as [-> ->]; [intros ?; apply Ha; by right|intros ?; apply Hb; by right|done|done].
Qed.

(** A signature identifies role, content and tool-call id (for roles
    without a vertical bar and representable contents) and nothing else: two
    assistant turns that call different tools with the same (empty) content
    have one signature, so a changed tool call is listed as carried over. *)
Theorem signature_identifies :
  (forall m m', wf_json (sig_content m) -> wf_json (sig_content m') -> 124 ∉ sig_role m -> 124 ∉ sig_role m' ->
     (sig m = sig m' <-> sig_role m = sig_role m' /\ sig_content m = sig_content m' /\ sig_call m = sig_call m')) /\
  (forall calls calls',
     let turn c := JObj [(js "role", JStr (js "assistant")); (js "content", JNull); (js "tool_calls", c)] in
     let req c := {| messages := Some (JArr [turn c]); request_raw := None; response_raw := None |} in
     exists a, Desktop.analyze (req calls) (Some (req calls')) = Ret a /\ carried a = [turn calls] /\ turnMsgs a = []).
Proof.
  split.
  - intros m m' W W' N N'. unfold sig. fold (sig_role m) (sig_role m') (sig_content m) (sig_content m') (sig_call m) (sig_call m').
    change (js "|") with [124]. split; [|by intros (-> & -> & ->)]. intros E.
    apply split_at_bar in E as [R E]; [|done|done]. change ([124] ++ sig_call m) with (124 :: sig_call m) in E.
    change ([124] ++ sig_call m') with (124 :: sig_call m') in E.
    apply stringify_inj in E as [C E]; [|done|done|by vm_compute|by vm_compute]. by injection E as E.
  - intros calls calls' turn req. eexists. split; [reflexivity|]. split; reflexivity.
Qed.

(** ** Tool colours *)

Fixpoint hash_spec (h : Z) (name : jstr) : Z :=
  match name with [] => h | c :: t => hash_spec ((h * 31 + c) mod 2 ^ 32) t end.

Lemma hash_step h c : 0 <= h < 2 ^ 32 -> unit_ok c ->
  to_uint32 (nadd (nmul (int h) (int 31)) (int c)) = int ((h * 31 + c) mod 2 ^ 32).
Proof.
  intros Hh Hc. unfold unit_ok in Hc. rewrite nmul_int, nadd_int by lia. unfold to_uint32, int.
  change (pow2 0) with 1. by rewrite Z.quot_1_r.
Qed.

Lemma tool_hash_from h name : 0 <= h < 2 ^ 32 -> wf_str name ->
  foldl (fun h c => to_uint32 (nadd (nmul h (int 31)) (int c))) (int h) name = int (hash_spec h name) /\
  0 <= hash_spec h name < 2 ^ 32.
Proof.
  intros Hh W. revert h Hh. induction W as [|c t Hc _ IH]; intros h Hh; [done|]. cbn [foldl hash_spec].
  rewrite hash_step by done. apply IH. apply Z.mod_pos_bound. lia.
Qed.

(** The colour hash loses no precision — on doubles it is exactly the
    32-bit polynomial hash — and the palette lookup is always defined. *)
Theorem toolLabelColor_defined name : wf_str name ->
  tool_hash name = int (hash_spec 0 name) /\ 0 <= hash_spec 0 name < 2 ^ 32 /\
  exists c, toolLabelColor name = Some c /\ c ∈ palette.
Proof.
  intros W. destruct (tool_hash_from 0 name ltac:(lia) W) as [E B]. split; [done|]. split; [done|].
  unfold toolLabelColor, tool_hash. rewrite E. change (Z.of_nat (length palette)) with 6.
  rewrite nmod_int by lia. unfold int. pose proof (Z.mod_pos_bound (hash_spec 0 name) 6 ltac:(lia)) as M.
  rewrite (proj2 (Z.ltb_ge _ _)) by lia.
  destruct (palette !! Z.to_nat (hash_spec 0 name mod 6)) as [c|] eqn:L.
  - exists c. split; [done|]. by eapply list_elem_of_lookup_2.
  - apply lookup_ge_None in L. change (length palette) with 6%nat in L. lia.
Qed.

Lemma toolLabelColor_defined_witness :
  tool_hash (js "read_file") = int (hash_spec 0 (js "read_file")) /\ 0 <= hash_spec 0 (js "read_file") < 2 ^ 32 /\
  exists c, toolLabelColor (js "read_file") = Some c /\ c ∈ palette.
Proof. apply toolLabelColor_defined, wf_str_check. reflexivity. Defined.

(** ** The rendered tree *)

Lemma MessageNode_number t i m v : MessageNode t i m = Ret v -> mv_number v = S i.
Proof.
  unfold MessageNode. destruct (blocksOf m) as [bs|]; simpl; [|done]. destruct (role_of m) as [r|]; simpl; [|done].
  destruct (map_result _ bs); simpl; [|done]. by intros [= <-].
Qed.

Lemma message_nodes_numbers t base l vs : message_nodes t base l = Ret vs ->
  map mv_number vs = map (fun i => S (base + i)) (seq 0 (length l)).
Proof.
  unfold message_nodes. revert base vs. induction l as [|m l IH]; intros base vs; simpl; [by intros [= <-]|].
  destruct (MessageNode t (base + 0) m) as [v|] eqn:E; simpl; [|done].
  specialize (IH (S base)).
  rewrite (imap_ext _ ((fun (i : nat) (x : json) => ((base + S i)%nat, x))) l) by done.
  rewrite (imap_ext (fun (i : nat) (x : json) => ((base + S i)%nat, x)) (fun (i : nat) x => ((S base + i)%nat, x)) l)
    by (intros; f_equal; lia).
  destruct (map_result _ _) as [vs'|]; simpl; [|done]. intros [= <-]. simpl. rewrite (IH vs' eq_refl).
  apply MessageNode_number in E. rewrite E. f_equal. rewrite <- seq_shift, map_map. apply map_ext. intros; f_equal; lia.
Qed.

Lemma message_nodes_length t base l vs : message_nodes t base l = Ret vs -> length vs = length l.
Proof. intros E%map_result_length. by rewrite E, length_imap. Qed.

Lemma map_result_app {A B} (f : A -> result B) l1 l2 v1 v2 : map_result f l1 = Ret v1 -> map_result f l2 = Ret v2 ->
  map_result f (l1 ++ l2) = Ret (v1 ++ v2).
Proof.
  revert v1. induction l1 as [|x l1 IH]; intros v1; simpl; [intros [= <-] ->; done|].
  destruct (f x) as [y|]; simpl; [|done]. destruct (map_result f l1) as [v|]; simpl; [|done]. intros [= <-] E.
  by rewrite (IH v eq_refl E).
Qed.

Lemma message_nodes_app t base l1 l2 v1 v2 : message_nodes t base l1 = Ret v1 -> message_nodes t (base + length l1) l2 = Ret v2 ->
  message_nodes t base (l1 ++ l2) = Ret (v1 ++ v2).
Proof.
  intros E1 E2. unfold message_nodes in *. rewrite imap_app. apply map_result_app; [exact E1|]. rewrite <- E2. f_equal.
  apply imap_ext. intros i x _. unfold compose. f_equal. lia.
Qed.

Lemma numbers_from0 n : map (fun i => S (0 + i)) (seq 0 n) = seq 1 n.
Proof. by rewrite <- seq_shift. Qed.

(** The categories of a request with the size of each: the empty ones are left
    out, the output is always there. *)
Definition categories (a : Analysis) : list (jstr * nat) :=
  List.filter (fun c => (0 <? c.2)%nat)
    [(js "system", length (systemMsgs a)); (js "tools", length (tools a)); (js "messages", (length (carried a) + length (turnMsgs a))%nat)]
  ++ [(js "output", match output a with Some _ => 1%nat | None => 0%nat end)].

Definition message_groups (a : Analysis) : list (jstr * nat) :=
  List.filter (fun c => (0 <? c.2)%nat) [(js "carried-over", length (carried a)); (js "new", length (turnMsgs a))].

(** A section lists exactly the entries of its category, as many as it
    announces, messages numbered from 1 across the groups. *)
Definition section_ok (t : jstr -> jstr) (a : Analysis) (s : SectionView) : Prop :=
  sv_title s = labelTitle t (sv_label s) /\
  match sv_body s with
  | SMessages l => sv_label s = js "system" /\ message_nodes t 0 (systemMsgs a) = Ret l /\ map mv_number l = seq 1 (sv_count s)
  | STools l => sv_label s = js "tools" /\ map_result (ToolLabel t) (tools a) = Ret l /\ length l = sv_count s
  | SGroups gs => sv_label s = js "messages" /\ map (fun g => (gv_label g, gv_count g)) gs = message_groups a /\
                  Forall (fun g => gv_count g = length (gv_items g)) gs /\
                  message_nodes t 0 (carried a ++ turnMsgs a) = Ret (flat_map gv_items gs) /\
                  map mv_number (flat_map gv_items gs) = seq 1 (sv_count s)
  | SOutput o => sv_label s = js "output" /\
                 match output a, o with
                 | Some item, Some v => OutputNode t item = Ret v
                 | None, None => t (js "raw.empty") = []
                 | _, _ => False
                 end
  | SHint h => sv_label s = js "output" /\ h = t (js "raw.empty") /\ output a = None
  end.

Lemma when_items (n : nat) g : (n = 0%nat -> gv_items g = []) -> flat_map gv_items (when (0 <? n)%nat g) = gv_items g.
Proof.
  intros H. unfold when. destruct (Nat.ltb_spec 0 n); simpl; [apply app_nil_r|]. rewrite H by lia. done.
Qed.

Lemma groups_ok t a car new : message_nodes t 0 (carried a) = Ret car -> message_nodes t (length (carried a)) (turnMsgs a) = Ret new ->
  section_ok t a (SectionNode t (js "messages") (length (carried a) + length (turnMsgs a)) None
    (SGroups (when (0 <? length (carried a))%nat (Group t (js "carried-over") (length (carried a)) car)
              ++ when (0 <? length (turnMsgs a))%nat (Group t (js "new") (length (turnMsgs a)) new)))).
Proof.
  intros E3 E4. pose proof (message_nodes_length _ _ _ _ E3) as L3. pose proof (message_nodes_length _ _ _ _ E4) as L4.
  pose proof (message_nodes_app t 0 _ _ _ _ E3 E4) as E.
  assert (F : flat_map gv_items (when (0 <? length (carried a))%nat (Group t (js "carried-over") (length (carried a)) car)
              ++ when (0 <? length (turnMsgs a))%nat (Group t (js "new") (length (turnMsgs a)) new)) = car ++ new).
  { by rewrite flat_map_app, !when_items by (intros N; apply nil_length_inv; simpl; lia). }
  split; [done|]. cbn [sv_body sv_label sv_count SectionNode]. rewrite F. split_and!; [done| | |exact E|].
  - unfold message_groups, when. cbn [List.filter snd]. by destruct (0 <? length (carried a))%nat, (0 <? length (turnMsgs a))%nat.
  - apply Forall_app. unfold when. split; case_match; repeat constructor; cbn; lia.
  - apply message_nodes_numbers in E. by rewrite E, length_app, numbers_from0.
Qed.

Lemma Forall_when {A} (P : A -> Prop) (b : bool) x : P x -> Forall P (when b x).
Proof. intros H. unfold when. destruct b; by repeat constructor. Qed.

Lemma output_ok t a out : (match output a with Some item => o ← OutputNode t item; Ret (Some o) | None => Ret None end) = Ret out ->
  section_ok t a (SectionNode t (js "output") (match output a with Some _ => 1%nat | None => 0%nat end) (Some (t (js "raw.empty"))) (SOutput out)).
Proof.
  intros E. split; [done|]. cbn [sv_body sv_label SectionNode]. destruct (output a) as [item|].
  - cbn [Nat.eqb andb]. destruct (OutputNode t item) eqn:N; [|done]. by injection E as <-.
  - injection E as <-. destruct (t (js "raw.empty")) eqn:T; cbn [Nat.eqb str_empty negb andb]; done.
Qed.

(** An entry of the analysis that cannot be rendered. *)
Definition unrenderable (t : jstr -> jstr) (a : Analysis) (e : exn) : Prop :=
  (exists m i, m ∈ systemMsgs a ++ carried a ++ turnMsgs a /\ MessageNode t i m = Throw e) \/
  (exists x, x ∈ tools a /\ ToolLabel t x = Throw e) \/
  (exists item, output a = Some item /\ OutputNode t item = Throw e).

Lemma message_nodes_throw t base l e : message_nodes t base l = Throw e -> exists m i, m ∈ l /\ MessageNode t i m = Throw e.
Proof.
  intros ((i & m) & I & E)%map_result_throw. exists m, i. split; [|done].
  apply elem_of_lookup_imap_1 in I as (j & x & [= -> ->] & L). by eapply list_elem_of_lookup_2.
Qed.

(** C33: The rendered tree shows the analysis: there is a section for each
    non-empty category and one for the output, in a fixed order, each with its
    title and the size of its category; a section lists exactly the entries of
    its category, empty groups are never shown, and carried-over and new
    messages are numbered consecutively from 1 across the two groups.  The
    placeholder stands for a request with nothing to show, and rendering only
    fails on an entry that cannot be rendered. *)
Theorem tree_consistent t cur prev a : Desktop.analyze cur prev = Ret a ->
  match TraceCategories t cur prev with
  | Ret (Some secs) => map (fun s => (sv_label s, sv_count s)) secs = categories a /\ Forall (section_ok t a) secs
  | Ret None => systemMsgs a = [] /\ tools a = [] /\ carried a = [] /\ turnMsgs a = [] /\ output a = None
  | Throw e => unrenderable t a e
  end.
Proof.
  intros A. unfold TraceCategories. rewrite A. cbn [mbind result_bind].
  destruct (_ && _ && _ && _) eqn:Z.
  { rewrite !andb_true_iff, !Nat.eqb_eq in Z. destruct Z as [[[Z1 Z2] Z3] Z4]. destruct (output a); [done|].
    split_and!; try done; apply nil_length_inv; lia. }
  assert (M : forall base l e, message_nodes t base l = Throw e -> l ⊆ systemMsgs a ++ carried a ++ turnMsgs a -> unrenderable t a e).
  { intros base l e (m & i & I & E)%message_nodes_throw S. left. exists m, i. split; [by apply S|done]. }
  destruct (message_nodes t 0 (systemMsgs a)) as [sys|] eqn:E1; [|apply M in E1; [done|set_solver]]. cbn [mbind result_bind].
  destruct (map_result (ToolLabel t) (tools a)) as [tls|] eqn:E2; [|apply map_result_throw in E2; right; by left]. cbn [mbind result_bind].
  destruct (message_nodes t 0 (carried a)) as [car|] eqn:E3; [|apply M in E3; [done|set_solver]]. cbn [mbind result_bind].
  destruct (message_nodes t (length (carried a)) (turnMsgs a)) as [new|] eqn:E4; [|apply M in E4; [done|set_solver]]. cbn [mbind result_bind].
  destruct (match output a with Some item => _ | None => Ret None end) as [out|] eqn:E5.
  2:{ right. right. destruct (output a) as [item|]; [|done]. exists item. split; [done|]. destruct (OutputNode t item); [done|]. by injection E5 as ->. }
  cbn [mbind result_bind]. split.
  - unfold categories, when. cbn [List.filter snd].
    by destruct (0 <? length (systemMsgs a))%nat, (0 <? length (tools a))%nat, (0 <? length (carried a) + length (turnMsgs a))%nat.
  - rewrite !Forall_app. split_and!; try apply Forall_when; [..|by apply groups_ok|constructor; [by apply output_ok|constructor]].
    + split; [done|]. cbn. split_and!; try done. apply message_nodes_numbers in E1. by rewrite numbers_from0 in E1.
    + split; [done|]. cbn. split_and!; try done. by apply map_result_length in E2.
Qed.

(** ** Streamed replies *)

(** No control character survives stringification. *)
Definition printable (s : jstr) : Prop := Forall (fun c => 32 <= c) s.

Lemma Forall_join (P : Z -> Prop) sep l : Forall P sep -> Forall (Forall P) l -> Forall P (join sep l).
Proof.
  intros Hs. induction 1 as [|w ws Hw Hws IH]; [constructor|].
  destruct ws as [|w' ws]; [done|]. rewrite join_cons by done. rewrite !Forall_app. done.
Qed.

Lemma hex_digit_printable d : 0 <= d -> 32 <= hex_digit d.
Proof. intros. unfold hex_digit. destruct (d <? 10); lia. Qed.

Lemma quote_unit_printable c : unit_ok c -> printable (quote_unit c).
Proof.
  intros [H0 _]. unfold printable, quote_unit.
  repeat match goal with |- context [if ?c =? ?k then _ else _] => destruct (Z.eqb_spec c k); [by repeat constructor|] end.
  destruct (c <? 32) eqn:E; simpl.
  - unfold u_escape, hex4. pose proof (Z.div_pos c 4096). repeat constructor; try lia; apply hex_digit_printable;
      first [apply Z.div_pos; lia|apply Z.mod_pos_bound; lia].
  - bool_to_prop. destruct (_ || _); [|by constructor; [|constructor]].
    unfold u_escape, hex4. repeat constructor; try lia; apply hex_digit_printable;
      first [apply Z.div_pos; lia|apply Z.mod_pos_bound; lia].
Qed.

Lemma quote_body_printable s : wf_str s -> printable (quote_body s).
Proof.
  induction s as [s IH] using (induction_ltof1 _ (@length Z)). unfold ltof in IH. intros W.
  destruct s as [|c [|d t]]; [constructor| |].
  - apply Forall_inv in W. simpl. rewrite <- (app_nil_r (quote_unit c)).
    apply Forall_app. split; [by apply quote_unit_printable|constructor].
  - apply Forall_cons in W as [Hc W]. rewrite quote_body_two.
    destruct (is_high c && is_low d) eqn:E.
    + unfold is_high, is_low in E. bool_to_prop. apply Forall_cons in W as [Hd W].
      constructor; [lia|]. constructor; [lia|]. apply IH; [simpl; lia|done].
    + apply Forall_app. split; [by apply quote_unit_printable|]. apply IH; [simpl; lia|done].
Qed.

Lemma quote_printable s : wf_str s -> printable (quote s).
Proof. intros W. unfold quote. apply Forall_app. split; [by repeat constructor|]. apply Forall_app. split; [by apply quote_body_printable|by repeat constructor]. Qed.

Lemma digits_printable n : 0 <= n -> printable (digits n).
Proof.
  intros H. destruct (digits_spec n H) as [_ D]. eapply Forall_impl; [exact D|].
  intros c Hc. unfold is_digit in Hc. bool_to_prop. lia.
Qed.

Lemma num_to_json_printable n : Z.abs n <= 2 ^ 53 -> printable (num_to_json (int n)).
Proof.
  intros H. unfold num_to_json, num_to_string, int. simpl. destruct (Z.eqb_spec n 0) as [-> |]; [by repeat constructor|].
  unfold pos_to_string. simpl. destruct (Z.ltb_spec n 0).
  - rewrite (proj2 (Z.leb_le (- n) (2 ^ 53))) by lia. constructor; [lia|].
    apply digits_printable. lia.
  - rewrite (proj2 (Z.leb_le n (2 ^ 53))) by lia. apply digits_printable. lia.
Qed.

Lemma stringify_printable v : wf_json v -> printable (stringify v).
Proof.
  induction v as [|[]|[| |m [|]]|s|l IH|l IH] using json_ind_nested; intros W;
    [by repeat constructor|by repeat constructor|by repeat constructor|done|done| |done| | |].
  - by apply num_to_json_printable.
  - by apply quote_printable.
  - apply wf_json_arr in W. unfold printable. simpl. constructor; [lia|]. apply Forall_app. split; [|by repeat constructor].
    apply Forall_join; [by repeat constructor|]. apply Forall_map.
    rewrite Forall_forall in *. intros x Hx. apply IH; auto.
  - apply wf_json_obj in W as [_ W]. unfold printable. simpl. constructor; [lia|]. apply Forall_app. split; [|by repeat constructor].
    apply Forall_join; [by repeat constructor|]. apply Forall_map.
    rewrite Forall_forall in *. intros [k x] Hx. change (printable (quote k ++ [58] ++ stringify x)). unfold printable. rewrite !Forall_app. split; [apply quote_printable, (W _ Hx)|].
    split; [by repeat constructor|]. apply (IH _ Hx), (W _ Hx).
Qed.

(** The streamed fragments of an OpenAI reply. *)
Inductive fragment : Type :=
  | FragText (s : jstr)
  | FragCall (idx : Z) (id name args : jstr).

Definition fragment_json (f : fragment) : json :=
  let delta := match f with
               | FragText s => JObj [(js "content", JStr s)]
               | FragCall idx id name args =>
                   JObj [(js "tool_calls", JArr [JObj [(js "index", JNum (int idx)); (js "id", JStr id);
                      (js "function", JObj [(js "name", JStr name); (js "arguments", JStr args)])]])]
               end in
  JObj [(js "choices", JArr [JObj [(js "delta", delta)]])].

Definition fragment_ok (f : fragment) : Prop :=
  match f with
  | FragText s => wf_str s
  | FragCall idx id name args => Z.abs idx <= 2 ^ 53 /\ wf_str id /\ wf_str name /\ wf_str args
  end.

(** One server-sent event per fragment, closed by the end marker. *)
Definition sse_encode (fs : list fragment) : jstr :=
  flat_map (fun f => js "data: " ++ stringify (fragment_json f) ++ [10; 10]) fs ++ js "data: [DONE]" ++ [10; 10].

Lemma wf_obj1 k v : wf_str k -> wf_json v -> wf_json (JObj [(k, v)]).
Proof.
  intros Hk Hv. apply wf_json_obj. split; [|by repeat constructor]. unfold obj_of_list. simpl. unfold obj_set, obj_insert.
  by destruct (index_key k).
Qed.

Lemma wf_arr1 v : wf_json v -> wf_json (JArr [v]).
Proof. intros H. apply wf_json_arr. by repeat constructor. Qed.

Lemma fragment_wf f : fragment_ok f -> wf_json (fragment_json f).
Proof.
  intros W. unfold fragment_json. apply wf_obj1; [by apply wf_str_check|]. apply wf_arr1, wf_obj1; [by apply wf_str_check|].
  destruct f as [s|idx id name args]; [by apply wf_obj1; [apply wf_str_check|]|].
  destruct W as (W1 & W2 & W3 & W4). apply wf_obj1; [by apply wf_str_check|]. apply wf_arr1.
  apply wf_json_obj. split; [reflexivity|].
  constructor; [split; [by apply wf_str_check|exact W1]|]. constructor; [split; [by apply wf_str_check|exact W2]|].
  constructor; [|constructor]. split; [by apply wf_str_check|]. apply wf_json_obj. split; [reflexivity|].
  constructor; [split; [by apply wf_str_check|exact W3]|]. constructor; [split; [by apply wf_str_check|exact W4]|constructor].
Qed.

Lemma split_line l r : 10 ∉ l -> split_char 10 (l ++ 10 :: r) = l :: split_char 10 r.
Proof.
  induction l as [|c l IH]; intros N; [done|]. cbn [app split_char].
  destruct (Z.eqb_spec c 10) as [-> |]; [destruct N; by left|].
  rewrite IH; [done|]. intros H. apply N. by right.
Qed.

Lemma printable_no_newline s : printable s -> 10 ∉ s.
Proof. intros P H. unfold printable in P. rewrite Forall_forall in P. specialize (P _ H). lia. Qed.

Lemma trim_braces mid : trim (32 :: 123 :: mid ++ [125]) = 123 :: mid ++ [125].
Proof.
  unfold trim. change (trimStart (32 :: 123 :: mid ++ [125])) with (123 :: mid ++ [125]).
  apply (trimEnd_snoc (123 :: mid) 125). reflexivity.
Qed.

Lemma fragment_braces f : exists mid, stringify (fragment_json f) = 123 :: mid ++ [125].
Proof. by eexists. Qed.

Lemma event_line_clean f : fragment_ok f -> 10 ∉ js "data: " ++ stringify (fragment_json f).
Proof.
  intros W. apply printable_no_newline, Forall_app. split; [by repeat constructor|].
  by apply stringify_printable, fragment_wf.
Qed.

Lemma sse_line_event s f : fragment_ok f ->
  sse_line s (js "data: " ++ stringify (fragment_json f)) = apply_chunk s (fragment_json f).
Proof.
  intros W. pose proof (json_parse_stringify _ (fragment_wf f W)) as P. destruct (fragment_braces f) as [mid E].
  rewrite E in *. unfold sse_line.
  change (trimStart (js "data: " ++ 123 :: mid ++ [125])) with (js "data: " ++ 123 :: mid ++ [125]).
  change (startsWith (js "data:") (js "data: " ++ 123 :: mid ++ [125])) with true. cbn [negb].
  change (drop 5 (js "data: " ++ 123 :: mid ++ [125])) with (32 :: 123 :: mid ++ [125]).
  rewrite trim_braces, P. cbn [str_empty orb].
  destruct (streq (123 :: mid ++ [125]) (js "[DONE]")) eqn:D; [|done].
  apply streq_true in D. by apply (f_equal head) in D.
Qed.

Lemma sse_lines_app s l1 l2 : sse_lines s (l1 ++ l2) = (s' ← sse_lines s l1; sse_lines s' l2).
Proof. revert s. induction l1 as [|l l1 IH]; intros s; [done|]. simpl. by destruct (sse_line s l); simpl. Qed.

(** Folding the fragments' chunks into the accumulator. *)
Fixpoint apply_fragments (s : SSEState) (fs : list fragment) : result SSEState :=
  match fs with
  | [] => Ret s
  | f :: t => s' ← apply_chunk s (fragment_json f); apply_fragments s' t
  end.

Lemma sse_lines_encode s fs : Forall fragment_ok fs ->
  sse_lines s (split_char 10 (sse_encode fs)) = apply_fragments s fs.
Proof.
  intros W. revert s. induction W as [|f fs Wf _ IH]; intros s.
  - unfold sse_encode. cbn [flat_map app]. change (js "data: [DONE]" ++ [10; 10]) with (js "data: [DONE]" ++ 10 :: [10]).
    by rewrite split_line by (apply printable_no_newline; by repeat constructor).
  - unfold sse_encode. cbn [flat_map]. rewrite <- !app_assoc. cbn [app]. rewrite app_assoc.
    rewrite split_line by (by apply event_line_clean). cbn [split_char Z.eqb Pos.eqb].
    cbn [sse_lines]. rewrite sse_line_event by done. cbn [apply_fragments].
    destruct (apply_chunk s (fragment_json f)) as [s'|]; [|done]. cbn [mbind result_bind].
    change (sse_line s' []) with (Ret s'). cbn [mbind result_bind]. apply IH.
Qed.

(** What the fragments add up to. *)
Definition texts (fs : list fragment) : jstr :=
  flat_map (fun f => match f with FragText s => s | _ => [] end) fs.

(** Call indices in order of first appearance. *)
Definition indices (fs : list fragment) : list Z :=
  foldl (fun acc f => match f with
                      | FragCall i _ _ _ => if decide (i ∈ acc) then acc else acc ++ [i]
                      | _ => acc
                      end) [] fs.

(** The call with index [i]: names and arguments concatenated, the last
    non-empty id. *)
Definition call_of (fs : list fragment) (i : Z) : ToolCall :=
  foldl (fun c f => match f with
                    | FragCall j id name args =>
                        if decide (j = i)
                        then {| tc_id := if str_empty id then tc_id c else id;
                                tc_name := tc_name c ++ name; tc_arguments := tc_arguments c ++ args |}
                        else c
                    | _ => c
                    end) empty_call fs.

Definition call_map (fs : list fragment) : list (num * ToolCall) := map (fun i => (int i, call_of fs i)) (indices fs).

Lemma call_get_map l (g : Z -> ToolCall) i : call_get (int i) (map (fun j => (int j, g j)) l) =
  if decide (i ∈ l) then Some (g i) else None.
Proof.
  induction l as [|j l IH]; simpl; [done|].
  destruct (decide (int j = int i)) as [E|E].
  - injection E as ->. by rewrite decide_True by (by left).
  - rewrite IH. destruct (decide (i ∈ l)); [by rewrite decide_True by (by right)|].
    rewrite decide_False; [done|]. rewrite elem_of_cons. intros [-> |]; done.
Qed.

Lemma call_set_map l (g : Z -> ToolCall) i c : NoDup l ->
  call_set (int i) c (map (fun j => (int j, g j)) l) =
  map (fun j => (int j, if decide (j = i) then c else g j)) (if decide (i ∈ l) then l else l ++ [i]).
Proof.
  induction 1 as [|j l Hj _ IH]; simpl; [by rewrite decide_True|].
  destruct (decide (int j = int i)) as [E|E].
  - injection E as ->. rewrite decide_True by (by left). simpl. rewrite decide_True by done. f_equal.
    apply map_ext_in. intros k Hk%list_elem_of_In. rewrite decide_False; [done|]. intros ->. done.
  - assert (j <> i) by (intros ->; done). rewrite IH. destruct (decide (i ∈ l)).
    + rewrite decide_True by (by right). simpl. by rewrite decide_False.
    + rewrite decide_False by (rewrite elem_of_cons; intros [-> |]; done). simpl. by rewrite decide_False.
Qed.

Lemma indices_snoc fs f : indices (fs ++ [f]) =
  match f with
  | FragCall i _ _ _ => if decide (i ∈ indices fs) then indices fs else indices fs ++ [i]
  | _ => indices fs
  end.
Proof. unfold indices. by rewrite foldl_app. Qed.

Lemma indices_NoDup fs : NoDup (indices fs).
Proof.
  induction fs as [|f fs IH] using rev_ind; [constructor|]. rewrite indices_snoc.
  destruct f as [|i]; [done|]. destruct (decide (i ∈ indices fs)); [done|].
  apply NoDup_app. split; [done|]. split; [|apply NoDup_singleton].
  intros x Hx ->%list_elem_of_singleton. done.
Qed.

Lemma call_of_snoc fs f i : call_of (fs ++ [f]) i =
  match f with
  | FragCall j id name args =>
      if decide (j = i)
      then {| tc_id := if str_empty id then tc_id (call_of fs i) else id;
              tc_name := tc_name (call_of fs i) ++ name; tc_arguments := tc_arguments (call_of fs i) ++ args |}
      else call_of fs i
  | _ => call_of fs i
  end.
Proof. unfold call_of. by rewrite foldl_app. Qed.

Lemma call_of_absent fs i : i ∉ indices fs -> call_of fs i = empty_call.
Proof.
  induction fs as [|f fs IH] using rev_ind; [done|]. rewrite indices_snoc, call_of_snoc.
  destruct f as [s|j id name args]; [done|].
  destruct (decide (j ∈ indices fs)) as [D|D]; intros N.
  - rewrite decide_False by (intros ->; done). by apply IH.
  - rewrite decide_False by (intros ->; apply N, elem_of_app; right; by left).
    apply IH. intros H. apply N, elem_of_app. by left.
Qed.

Lemma apply_fragments_snoc s fs f :
  apply_fragments s (fs ++ [f]) = (s' ← apply_fragments s fs; apply_chunk s' (fragment_json f)).
Proof.
  revert s. induction fs as [|g fs IH]; intros s; simpl.
  - by destruct (apply_chunk s (fragment_json f)).
  - destruct (apply_chunk s (fragment_json g)); simpl; [apply IH|done].
Qed.

Lemma apply_text s t : apply_chunk s (fragment_json (FragText t)) =
  Ret {| sse_content := sse_content s ++ t; sse_calls := sse_calls s; sse_sawAny := true |}.
Proof. reflexivity. Qed.

Lemma apply_call s i id name args : apply_chunk s (fragment_json (FragCall i id name args)) =
  let c := default empty_call (call_get (int i) (sse_calls s)) in
  Ret {| sse_content := sse_content s;
         sse_calls := call_set (int i) {| tc_id := if str_empty id then tc_id c else id;
                                          tc_name := tc_name c ++ name; tc_arguments := tc_arguments c ++ args |}
                        (sse_calls s);
         sse_sawAny := true |}.
Proof. reflexivity. Qed.

Lemma call_map_snoc fs i id name args :
  call_set (int i) {| tc_id := if str_empty id then tc_id (call_of fs i) else id;
                      tc_name := tc_name (call_of fs i) ++ name;
                      tc_arguments := tc_arguments (call_of fs i) ++ args |} (call_map fs) =
  call_map (fs ++ [FragCall i id name args]).
Proof.
  unfold call_map at 1. rewrite call_set_map by apply indices_NoDup. unfold call_map. rewrite indices_snoc.
  apply map_ext. intros j. f_equal. rewrite call_of_snoc.
  destruct (decide (j = i)) as [-> |]; [by rewrite decide_True|by rewrite decide_False by congruence].
Qed.

Lemma call_map_get fs i : default empty_call (call_get (int i) (call_map fs)) = call_of fs i.
Proof.
  unfold call_map. rewrite call_get_map. destruct (decide (i ∈ indices fs)); [done|]. by rewrite call_of_absent.
Qed.

(** The accumulator after any fragments. *)
Lemma apply_fragments_spec fs : apply_fragments sse_init fs =
  Ret {| sse_content := texts fs; sse_calls := call_map fs;
         sse_sawAny := match fs with [] => false | _ => true end |}.
Proof.
  induction fs as [|f fs IH] using rev_ind; [done|].
  rewrite apply_fragments_snoc, IH. cbn [mbind result_bind].
  assert (match fs ++ [f] with [] => false | _ => true end = true) as -> by (by destruct fs).
  unfold texts. rewrite flat_map_app. fold (texts fs). destruct f as [t|i id name args].
  - rewrite apply_text. cbn [sse_content sse_calls flat_map]. rewrite app_nil_r. f_equal. f_equal.
    unfold call_map. rewrite indices_snoc. apply map_ext. intros j. by rewrite call_of_snoc.
  - rewrite apply_call. cbn [sse_content sse_calls flat_map]. cbv zeta. rewrite call_map_get, call_map_snoc, !app_nil_r. done.
Qed.

Lemma insert_call_sorted x l (g : Z -> ToolCall) : StronglySorted Z.lt l -> x ∉ l ->
  exists l', insert_call (int x, g x) (map (fun j => (int j, g j)) l) = map (fun j => (int j, g j)) l' /\
    StronglySorted Z.lt l' /\ l' ≡ₚ x :: l.
Proof.
  induction l as [|y l IH]; intros S N; cbn [map insert_call fst].
  - exists [x]. split; [done|]. split; [by repeat constructor|done].
  - apply StronglySorted_inv in S as [S F].
    destruct (nlt (int y) (int x)) eqn:L; rewrite nlt_int in L; bool_to_prop.
    + destruct IH as (l' & E & S' & P); [done|intros H; apply N; by right|].
      exists (y :: l'). rewrite E. split; [done|]. split.
      * constructor; [done|]. rewrite P. constructor; [lia|done].
      * rewrite P. constructor.
    + exists (x :: y :: l). split; [done|]. split; [|done].
      assert (x < y) by (assert (x <> y) by (intros ->; apply N; by left); lia).
      constructor; [by constructor|]. constructor; [done|]. eapply Forall_impl; [exact F|]. simpl. lia.
Qed.

Lemma sort_calls_sorted l (g : Z -> ToolCall) : NoDup l -> exists l',
  sort_calls (map (fun j => (int j, g j)) l) = map (fun j => (int j, g j)) l' /\ StronglySorted Z.lt l' /\ l' ≡ₚ l.
Proof.
  induction 1 as [|x l Hx _ (l' & E & S & P)]; [exists []; split; [done|split; [constructor|done]]|].
  unfold sort_calls in *. cbn [map foldr]. rewrite E.
  destruct (insert_call_sorted x l' g S) as (l2 & E2 & S2 & P2); [by rewrite P|].
  exists l2. split; [done|]. split; [done|]. by rewrite P2, P.
Qed.

(** C1: a streamed reply is re-assembled exactly: from the event stream of any
    sequence of fragments, however interleaved, the text is the concatenation
    of the text fragments and there is one call per index, in increasing
    index order, with its name and argument fragments concatenated in order
    and its last non-empty id. *)
Theorem reassembleSSE_correct fs : Forall fragment_ok fs -> fs <> [] ->
  exists ixs, StronglySorted Z.lt ixs /\ ixs ≡ₚ indices fs /\
    reassembleSSE (sse_encode fs) = Ret (Some (texts fs, map (fun i => tool_call_json (call_of fs i)) ixs)).
Proof.
  intros W N. destruct (sort_calls_sorted (indices fs) (call_of fs) (indices_NoDup fs)) as (ixs & E & S & P).
  exists ixs. split; [done|]. split; [done|]. unfold reassembleSSE. rewrite sse_lines_encode, apply_fragments_spec by done.
  cbn [mbind result_bind sse_sawAny sse_content sse_calls]. destruct fs as [|f fs]; [done|].
  unfold call_map. rewrite E, map_map. done.
Qed.

Definition weather_stream : list fragment :=
  [ FragText (js "Let me "); FragCall 1 (js "c1") (js "time") []; FragCall 0 (js "c0") (js "wea") (js "{");
    FragText (js "check"); FragCall 0 [] (js "ther") (js "}") ].

Lemma reassembleSSE_correct_witness :
  (exists ixs, StronglySorted Z.lt ixs /\ ixs ≡ₚ indices weather_stream /\
    reassembleSSE (sse_encode weather_stream) =
      Ret (Some (texts weather_stream, map (fun i => tool_call_json (call_of weather_stream i)) ixs))) /\
  texts weather_stream = js "Let me check" /\
  call_of weather_stream 0 = {| tc_id := js "c0"; tc_name := js "weather"; tc_arguments := js "{}" |}.
Proof.
  split; [|split; reflexivity]. apply reassembleSSE_correct; [|discriminate].
  repeat constructor; try lia; apply wf_str_check; reflexivity.
Defined.

(** ** Examples *)

Definition chat (l : list (string * string)) : TraceDetailLike :=
  {| messages := Some (JArr (map (fun rc => JObj [(js "role", JStr (js rc.1)); (js "content", JStr (js rc.2))]) l));
     request_raw := None; response_raw := Some (JStr (js "pong")) |}.

Definition turn1 : TraceDetailLike := chat [("system", "be brief"); ("user", "ping")]%string.
Definition subagent : TraceDetailLike := chat [("system", "explore"); ("user", "ping")]%string.
Definition turn2 : TraceDetailLike :=
  chat [("system", "be brief"); ("user", "ping"); ("assistant", "pong"); ("user", "again")]%string.

Lemma pickBaseline_best_witness :
  exists r, pickBaseline turn2 [subagent; turn1] = Ret r /\ best_of (messagesOf (Some turn2)) [subagent; turn1] r /\
    r = Some turn1.
Proof.
  destruct (pickBaseline_best turn2 [subagent; turn1]) as (r & E & B).
  - repeat constructor; discriminate.
  - repeat constructor; discriminate.
  - exists r. split; [exact E|]. split; [exact B|].
    assert (E' : pickBaseline turn2 [subagent; turn1] = Ret (Some turn1)) by (vm_compute; reflexivity).
    rewrite E' in E. by injection E as <-.
Defined.

Lemma tree_consistent_witness : exists a secs,
  TraceCategories (fun k => k) turn2 (Some turn1) = Ret (Some secs) /\ map (fun s => (sv_label s, sv_count s)) secs = categories a /\
  Forall (section_ok (fun k => k) a) secs /\ length secs = 3%nat.
Proof.
  destruct (Desktop.analyze turn2 (Some turn1)) as [a|] eqn:A; [|vm_compute in A; discriminate].
  pose proof (tree_consistent (fun k => k) turn2 (Some turn1) a A) as T.
  destruct (TraceCategories (fun k => k) turn2 (Some turn1)) as [[secs|]|e] eqn:E; [|vm_compute in E; discriminate..].
  exists a, secs. destruct T as [T1 T2]. split; [reflexivity|]. split; [exact T1|]. split; [exact T2|].
  vm_compute in E. injection E as <-. reflexivity.
Defined.
