(* ===== verification/Widgets.v ===== *)
(** * Shared widgets

    The pagination toolbar of both front ends
    ([web/src/components/ui/pagination.tsx],
    [desktop-ui/src/components/ui/pagination.tsx]) and the admin UI's multi-select
    ([web/src/components/multi-select.tsx]). *)

From S2P Require Import Prelude JsNumber JsString.

(** ** Pagination *)

Module Pagination.

Definition PAGE_SIZE_OPTIONS : list Z := [10; 20; 50; 100].

Inductive item : Type := Page (p : Z) | Gap.

(** [for (let p = from; ...; p++)], [n] times. *)
Fixpoint pages_from (from : Z) (n : nat) : list item :=
  match n with O => [] | S n' => Page from :: pages_from (from + 1) n' end.

Definition buildPageWindow (current total : Z) : list item :=
  if total <=? 7 then pages_from 1 (Z.to_nat total)
  else
    let radius := 2 in
    let start := Z.max 2 (current - radius) in
    let stop := Z.min (total - 1) (current + radius) in
    [Page 1] ++ (if 2 <? start then [Gap] else [])
    ++ pages_from start (Z.to_nat (stop - start + 1))
    ++ (if stop <? total - 1 then [Gap] else []) ++ [Page total].

(** [Math.max(1, Math.min(Math.ceil(total / pageSize), maxPage))] *)
Definition totalPages_num (total pageSize maxPage : Z) : num :=
  nmax (int 1) (nmin (nceil (ndiv (int total) (int pageSize))) (int maxPage)).

(** The page count, an integer for the positive page sizes the toolbar offers. *)
Definition totalPages (total pageSize maxPage : Z) : Z :=
  match totalPages_num total pageSize maxPage with Fin n 0 => n | _ => 0 end.

Record toolbar : Type := {
  tb_page : Z; tb_total : Z; tb_items : list item;
  tb_first : option Z; tb_prev : option Z; tb_next : option Z; tb_last : option Z;
}.

(** The admin UI: a handler is [undefined] when the button is disabled. *)
Definition Web_toolbar (page pageSize total maxPage : Z) : toolbar :=
  let totalPages := totalPages total pageSize maxPage in
  let safePage := Z.min (Z.max page 1) totalPages in
  {| tb_page := safePage; tb_total := totalPages; tb_items := buildPageWindow safePage totalPages;
     tb_first := if 1 <? safePage then Some 1 else None;
     tb_prev := if 1 <? safePage then Some (safePage - 1) else None;
     tb_next := if safePage <? totalPages then Some (safePage + 1) else None;
     tb_last := if safePage <? totalPages then Some totalPages else None |}.

(** The desktop UI: the handler is always there, the button is disabled. *)
Definition Desktop_toolbar (page pageSize total maxPage : Z) : toolbar :=
  let totalPages := totalPages total pageSize maxPage in
  let safePage := Z.min (Z.max page 1) totalPages in
  let button (disabled : bool) (p : Z) := if disabled then None else Some p in
  {| tb_page := safePage; tb_total := totalPages; tb_items := buildPageWindow safePage totalPages;
     tb_first := button (safePage <=? 1) 1;
     tb_prev := button (safePage <=? 1) (safePage - 1);
     tb_next := button (totalPages <=? safePage) (safePage + 1);
     tb_last := button (totalPages <=? safePage) totalPages |}.

(** ** Lemmas *)

Lemma totalPages_exact total pageSize maxPage :
  0 <= total < 2 ^ 46 -> 0 < pageSize < 256 ->
  totalPages total pageSize maxPage = Z.max 1 (Z.min ((total + pageSize - 1) / pageSize) maxPage).
Proof.
  intros Ht Hp. unfold totalPages, totalPages_num. rewrite ndiv_int by lia.
  assert (B : total < pageSize * 2 ^ (45 + 1)) by (change (2 ^ (45 + 1)) with (2 ^ 46); nia).
  rewrite (nceil_rnd total pageSize 45) by (done || lia). by rewrite nmin_int, nmax_int.
Qed.

Lemma pages_from_spec from n p : Page p ∈ pages_from from n <-> from <= p < from + Z.of_nat n.
Proof.
  revert from. induction n as [|n IH]; intros from; cbn [pages_from].
  - rewrite elem_of_nil. lia.
  - rewrite elem_of_cons, IH. split; [intros [[= ->]|]; lia|]. intros. destruct (Z.eq_dec p from) as [-> |]; [by left|right; lia].
Qed.

Lemma pages_from_length from n : length (pages_from from n) = n.
Proof. revert from. induction n as [|n IH]; intros from; simpl; [done|]. by rewrite IH. Qed.

Lemma pages_from_no_gap from n : Gap ∉ pages_from from n.
Proof.
  revert from. induction n as [|n IH]; intros from; cbn [pages_from]; [apply not_elem_of_nil|].
  rewrite elem_of_cons. intros [?|?]; [done|]. by apply (IH (from + 1)).
Qed.

(** Page numbers rise by one, or skip at least one page over an ellipsis. *)
Fixpoint contiguous (prev : Z) (l : list item) : Prop :=
  match l with
  | [] => True
  | Page p :: t => p = prev + 1 /\ contiguous p t
  | Gap :: Page p :: t => prev + 2 <= p /\ contiguous p t
  | Gap :: _ => False
  end.

Lemma contiguous_run from n tail : contiguous (from + Z.of_nat n - 1) tail ->
  contiguous (from - 1) (pages_from from n ++ tail).
Proof.
  revert from. induction n as [|n IH]; intros from H; cbn [pages_from app].
  - by replace (from - 1) with (from + Z.of_nat 0 - 1) by lia.
  - split; [lia|]. replace from with (from + 1 - 1) at 1 by lia. apply IH.
    by replace (from + 1 + Z.of_nat n - 1) with (from + Z.of_nat (S n) - 1) by lia.
Qed.

(** The page row always shows the first and last page, the current page
    and its neighbours up to two away, nothing outside the range, in at most
    nine items; the numbers rise one by one with an ellipsis exactly where
    pages are left out. *)
Theorem page_window current total : 1 <= current <= total ->
  (forall p, Page p ∈ buildPageWindow current total <->
     1 <= p <= total /\ (total <= 7 \/ p = 1 \/ p = total \/ Z.abs (p - current) <= 2)) /\
  (length (buildPageWindow current total) <= 9)%nat /\ contiguous 0 (buildPageWindow current total).
Proof.
  intros H. unfold buildPageWindow. destruct (Z.leb_spec total 7).
  - split; [|split].
    + intros p. rewrite pages_from_spec. lia.
    + rewrite pages_from_length. lia.
    + rewrite <- (app_nil_r (pages_from _ _)). by apply (contiguous_run 1).
  - set (start := Z.max 2 (current - 2)). set (stop := Z.min (total - 1) (current + 2)). split; [|split].
    + intros p. rewrite !elem_of_app, pages_from_spec, !list_elem_of_singleton.
      assert (G : forall b : bool, Page p ∈ (if b then [Gap] else []) <-> False).
      { intros []; [rewrite list_elem_of_singleton; done|rewrite elem_of_nil; done]. }
      rewrite !G. split.
      * intros [[= ->]|[[]|[?|[[]|[= ->]]]]]; lia.
      * intros (? & D). destruct (Z.eq_dec p 1) as [-> |]; [by left|]. destruct (Z.eq_dec p total) as [-> |]; [by do 4 right|].
        do 2 right. left. lia.
    + rewrite !length_app, pages_from_length. simpl. repeat case_match; simpl; lia.
    + cbn [app contiguous]. split; [done|].
      assert (T : contiguous stop ((if stop <? total - 1 then [Gap] else []) ++ [Page total])).
      { destruct (Z.ltb_spec stop (total - 1)); cbn [app contiguous]; split; done || lia. }
      destruct (Z.to_nat (stop - start + 1)) as [|n] eqn:En; [lia|].
      destruct (Z.ltb_spec 2 start); cbn [app contiguous pages_from].
      * split; [lia|]. replace start with (start + 1 - 1) at 1 by lia. apply contiguous_run.
        by replace (start + 1 + Z.of_nat n - 1) with stop by lia.
      * split; [lia|]. replace start with (start + 1 - 1) at 1 by lia. apply contiguous_run.
        by replace (start + 1 + Z.of_nat n - 1) with stop by lia.
Qed.

Lemma page_window_witness :
  (forall p, Page p ∈ buildPageWindow 7 20 <->
     1 <= p <= 20 /\ (20 <= 7 \/ p = 1 \/ p = 20 \/ Z.abs (p - 7) <= 2)) /\
  (length (buildPageWindow 7 20) <= 9)%nat /\ contiguous 0 (buildPageWindow 7 20).
Proof. apply page_window. lia. Defined.

(** What a click on the toolbar can request. *)
Definition requested (tb : toolbar) (p : Z) : Prop :=
  Page p ∈ tb_items tb \/ tb_first tb = Some p \/ tb_prev tb = Some p \/ tb_next tb = Some p \/ tb_last tb = Some p.

(** C40: both front ends render the same toolbar, and no click ever asks for a
    page outside 1..last, where last is the exact number of pages (computed by
    a floating-point division) capped at the back end's limit. *)
Theorem toolbar_in_range page pageSize total maxPage :
  0 <= total < 2 ^ 46 -> pageSize ∈ PAGE_SIZE_OPTIONS -> 1 <= maxPage ->
  Web_toolbar page pageSize total maxPage = Desktop_toolbar page pageSize total maxPage /\
  let last := Z.max 1 (Z.min ((total + pageSize - 1) / pageSize) maxPage) in
  forall p, requested (Web_toolbar page pageSize total maxPage) p -> 1 <= p <= last.
Proof.
  intros Ht Hp Hm. assert (Hs : 0 < pageSize < 256).
  { unfold PAGE_SIZE_OPTIONS in Hp. rewrite !elem_of_cons, elem_of_nil in Hp. lia. }
  pose proof (totalPages_exact total pageSize maxPage Ht Hs) as E. split.
  - unfold Web_toolbar, Desktop_toolbar. cbv zeta. rewrite E. f_equal; repeat case_match; bool_to_prop; done || lia.
  - cbv zeta. unfold requested, Web_toolbar. cbn [tb_items tb_first tb_prev tb_next tb_last]. rewrite E.
    set (last := Z.max 1 _). set (cur := Z.min (Z.max page 1) last).
    assert (C : 1 <= cur <= last) by (subst cur last; lia). intros p [W|R].
    + unfold buildPageWindow in W. destruct (Z.leb_spec last 7); [apply pages_from_spec in W; lia|].
      rewrite !elem_of_app, pages_from_spec, !list_elem_of_singleton in W.
      destruct W as [[= ->]|[W|[W|[W|[= ->]]]]]; try lia; case_match; rewrite ?list_elem_of_singleton, ?elem_of_nil in W; done.
    + destruct (Z.ltb_spec 1 cur), (Z.ltb_spec cur last); destruct R as [R|[R|[R|R]]]; simplify_eq; lia.
Qed.

Lemma toolbar_in_range_witness :
  let tb := Web_toolbar 9 20 100000 500 in
  tb_total tb = 500 /\ forall p, requested tb p -> 1 <= p <= 500.
Proof.
  split; [vm_compute; reflexivity|].
  destruct (toolbar_in_range 9 20 100000 500) as [_ R];
    [lia|unfold PAGE_SIZE_OPTIONS; rewrite !elem_of_cons; tauto|lia|exact R].
Defined.

End Pagination.

(** ** Multi-select *)

Module MultiSelect.

Record Option : Type := { opt_value : jstr; opt_label : jstr }.

Definition allSelected (options : list Option) (value : list jstr) : bool :=
  (0 <? length options)%nat && (length value =? length options)%nat.

Definition indeterminate (options : list Option) (value : list jstr) : bool :=
  (0 <? length value)%nat && negb (allSelected options value).

(** The handlers, as the value passed to [onChange]. *)
Definition remove (value : list jstr) (v : jstr) : list jstr := List.filter (fun x => negb (streq x v)) value.

Definition toggle (value : list jstr) (v : jstr) : list jstr :=
  if array_includes value v then List.filter (fun x => negb (streq x v)) value else value ++ [v].

Definition toggleAll (options : list Option) (value : list jstr) : list jstr :=
  if allSelected options value then [] else map opt_value options.

(** The text of the closed control. *)
Definition summary (options : list Option) (value : list jstr) (placeholder selectAllLabel : jstr) : jstr :=
  match value with
  | [] => placeholder
  | _ => if (length value =? length options)%nat then selectAllLabel
         else zstr (Z.of_nat (length value)) ++ js " selected"
  end.

(** [String.prototype.toLowerCase] is the parameter [lower]. *)
Definition filter (lower : jstr -> jstr) (options : list Option) (val search : jstr) : Z :=
  let label := match List.find (fun o => streq (lower (opt_value o)) (lower val)) options with
               | Some o => lower (opt_label o)
               | None => lower val
               end in
  if includes (lower search) label then 1 else 0.

(** [options.find((o) => o.value === v)?.label ?? v] *)
Definition badge (options : list Option) (v : jstr) : jstr :=
  match List.find (fun o => streq (opt_value o) v) options with Some o => opt_label o | None => v end.

(** Lemmas *)

Lemma elem_of_remove value v x : x ∈ remove value v <-> x ∈ value /\ x <> v.
Proof.
  unfold remove. rewrite !list_elem_of_In, filter_In, negb_true_iff, streq_false. done.
Qed.

Lemma remove_absent value v : v ∉ value -> remove value v = value.
Proof.
  intros N. unfold remove. induction value as [|x l IH]; simpl; [done|].
  destruct (streq x v) eqn:E; [apply streq_true in E as ->; destruct N; by left|]. simpl.
  rewrite IH; [done|]. intros H. apply N. by right.
Qed.

Lemma remove_NoDup value v : NoDup value -> NoDup (remove value v).
Proof. intros H. apply NoDup_ListNoDup, List.NoDup_filter, NoDup_ListNoDup, H. Qed.

Lemma remove_perm value v : NoDup value -> v ∈ value -> remove value v ++ [v] ≡ₚ value.
Proof.
  intros H Hv. apply NoDup_Permutation; [|done|].
  - apply NoDup_app. split; [by apply remove_NoDup|]. split; [|apply NoDup_singleton].
    intros x [_ N]%elem_of_remove ->%list_elem_of_singleton. done.
  - intros x. rewrite elem_of_app, elem_of_remove, list_elem_of_singleton. destruct (decide (x = v)) as [-> |]; tauto.
Qed.

(** Toggling an option flips exactly that option, never duplicates a
    value, and toggling it again restores the selection (up to order); removing
    a badge deselects just that value. *)
Theorem toggle_correct value v : NoDup value ->
  NoDup (toggle value v) /\ (forall x, x ∈ toggle value v <-> (x ∈ value /\ x <> v) \/ (x = v /\ v ∉ value)) /\
  toggle (toggle value v) v ≡ₚ value /\ (forall x, x ∈ remove value v <-> x ∈ value /\ x <> v).
Proof.
  intros H. split; [|split; [|split; [|apply elem_of_remove]]].
  - unfold toggle. destruct (array_includes value v) eqn:E; [by apply remove_NoDup|].
    apply NoDup_app. split; [done|]. split; [|apply NoDup_singleton].
    intros x Hx ->%list_elem_of_singleton. apply array_includes_spec in Hx. congruence.
  - intros x. unfold toggle. destruct (array_includes value v) eqn:E.
    + fold (remove value v). rewrite elem_of_remove. apply array_includes_spec in E. tauto.
    + assert (v ∉ value) by (intros Hv%array_includes_spec; congruence).
      rewrite elem_of_app, list_elem_of_singleton. destruct (decide (x = v)) as [-> |]; tauto.
  - unfold toggle at 2. destruct (array_includes value v) eqn:E.
    + fold (remove value v). unfold toggle.
      assert (array_includes (remove value v) v = false) as ->.
      { destruct (array_includes (remove value v) v) eqn:F; [|done].
        by apply array_includes_spec, elem_of_remove in F as [_ ?]. }
      apply remove_perm; [done|]. by apply array_includes_spec.
    + assert (N : v ∉ value) by (intros Hv%array_includes_spec; congruence). unfold toggle.
      assert (array_includes (value ++ [v]) v = true) as ->.
      { apply array_includes_spec, elem_of_app. right. by left. }
      rewrite List.filter_app. fold (remove value v). rewrite remove_absent by done. simpl. rewrite streq_refl. simpl.
      by rewrite app_nil_r.
Qed.

Lemma toggle_correct_witness :
  toggle [js "a"; js "b"] (js "a") = [js "b"] /\ toggle (toggle [js "a"; js "b"] (js "a")) (js "a") ≡ₚ [js "a"; js "b"].
Proof.
  split; [reflexivity|]. apply (toggle_correct [js "a"; js "b"] (js "a")).
  apply NoDup_cons. split; [|apply NoDup_singleton]. by apply (bool_decide_unpack _).
Defined.

(** "all selected" compares counts only.  It is right while every selected
    value is an option, but a selected value that is no longer offered makes
    the control claim that everything is selected, and its select-all entry
    then clears the selection instead of completing it. *)
Theorem allSelected_counts :
  (forall options value, NoDup value -> NoDup (map opt_value options) -> (forall v, v ∈ value -> v ∈ map opt_value options) ->
     options <> [] -> (allSelected options value = true <-> forall o, o ∈ options -> opt_value o ∈ value)) /\
  (let options := [ {| opt_value := js "gpt-4o"; opt_label := js "gpt-4o" |} ] in
   let value := [js "retired-model"] in
   allSelected options value = true /\ (js "gpt-4o" ∉ value) /\ toggleAll options value = []).
Proof.
  split; [|split; [reflexivity|split; [by apply (bool_decide_unpack _)|reflexivity]]].
  intros options value Nv No Sub Ne. unfold allSelected.
  assert (P : (0 <? length options)%nat = true) by (destruct options; done). rewrite P. cbn [andb]. rewrite Nat.eqb_eq.
  assert (S : value ⊆+ map opt_value options) by (by apply NoDup_submseteq).
  split.
  - intros L o Ho. assert (E : value ≡ₚ map opt_value options).
    { apply submseteq_length_Permutation; [done|]. rewrite length_map. lia. }
    rewrite E. by apply list_elem_of_fmap_2.
  - intros All. assert (map opt_value options ⊆+ value).
    { apply NoDup_submseteq; [done|]. intros v (o & -> & Ho)%list_elem_of_fmap. by apply All. }
    apply submseteq_length in S. apply submseteq_length in H. rewrite length_map in *. lia.
Qed.

End MultiSelect.
