(* ===== verification/JsonTree.v ===== *)
(** * JSON tree viewer of the desktop UI

    [desktop-ui/src/lib/json-tree.ts] and the component over it,
    [desktop-ui/src/components/trace/json-tree.tsx]. *)

From S2P Require Import Prelude JsNumber JsString Json.

Inductive JsonNodeType : Type := TObject | TArray | TString | TNumber | TBoolean | TNull.

#[global] Instance node_type_eq_dec : EqDecision JsonNodeType.
Proof. solve_decision. Defined.

#[warnings="-register-all"]
Inductive JsonNode : Type :=
  | Node (path key : jstr) (type : JsonNodeType) (primitiveValue : option json)
         (children : option (list JsonNode)) (size : nat).

Definition n_path (n : JsonNode) : jstr := let '(Node p _ _ _ _ _) := n in p.
Definition n_key (n : JsonNode) : jstr := let '(Node _ k _ _ _ _) := n in k.
Definition n_type (n : JsonNode) : JsonNodeType := let '(Node _ _ t _ _ _) := n in t.
Definition n_prim (n : JsonNode) : option json := let '(Node _ _ _ v _ _) := n in v.
Definition n_children (n : JsonNode) : list JsonNode := let '(Node _ _ _ _ c _) := n in default [] c.
Definition n_size (n : JsonNode) : nat := let '(Node _ _ _ _ _ s) := n in s.

Definition typeOf (v : json) : JsonNodeType :=
  match v with
  | JNull => TNull | JArr _ => TArray | JStr _ => TString | JNum _ => TNumber | JBool _ => TBoolean | JObj _ => TObject
  end.

Definition childPath (parentPath key : jstr) (isIndex : bool) : jstr :=
  if isIndex then parentPath ++ js "[" ++ key ++ js "]" else parentPath ++ js "." ++ key.

(** [String(i)] of an array index. *)
Definition index_string (i : nat) : jstr := digits (Z.of_nat i).

Fixpoint buildTree (value : json) (key path : jstr) : JsonNode :=
  match value with
  | JObj l =>
      Node path key TObject None
        (Some (map (fun kv => buildTree kv.2 kv.1 (childPath path kv.1 false)) l)) (length l)
  | JArr l =>
      Node path key TArray None
        (Some ((fix go i l := match l with
                              | [] => []
                              | v :: t => buildTree v (index_string i) (childPath path (index_string i) true) :: go (S i) t
                              end) 0%nat l)) (length l)
  | v => Node path key (typeOf v) (Some v) None 0
  end.

Definition build_root (v : json) : JsonNode := buildTree v (js "root") (js "root").

Inductive ParseResult : Type := POk (root : JsonNode) | PFail (raw : jstr).

Definition parseJsonValue (input : unknown) : ParseResult :=
  match input with
  | Some (JStr s) => match json_parse s with Ret v => POk (build_root v) | Throw _ => PFail s end
  | Some v => POk (build_root v)
  | None => PFail (js "undefined")
  end.

Definition collapsedPreview (n : JsonNode) : jstr :=
  let count := zstr (Z.of_nat (n_size n)) in
  match n_type n with
  | TObject => js "{…} " ++ count ++ js " " ++ (if (n_size n =? 1)%nat then js "key" else js "keys")
  | TArray => js "[…] " ++ count ++ js " " ++ (if (n_size n =? 1)%nat then js "item" else js "items")
  | _ => []
  end.

Definition primitiveDisplay (n : JsonNode) : jstr :=
  match n_type n, n_prim n with
  | TString, Some v => stringify v
  | TNull, _ => js "null"
  | _, Some v => to_string v
  | _, None => js "undefined"
  end.

(** ** The component *)

(** [/\[\d+\]$/.test(path)] *)
Definition ends_with_index (path : jstr) : bool :=
  match reverse path with
  | c :: r =>
      let '(ds, r') := span is_digit r in
      (c =? 93) && negb (str_empty ds) && match r' with c' :: _ => c' =? 91 | [] => false end
  | [] => false
  end.

(** The key shown before a value; nothing for the synthetic root. *)
Definition KeyLabel (n : JsonNode) : option jstr :=
  if streq (n_path n) (js "root") then None
  else Some ((if ends_with_index (n_path n) then js "[" ++ n_key n ++ js "]" else n_key n) ++ js ":").

(** [useState(depth >= defaultCollapsedDepth && node.size > 0)] *)
Definition initially_collapsed (depth limit : nat) (n : JsonNode) : bool := (limit <=? depth)%nat && (0 <? n_size n)%nat.

(** What is on screen before any click. *)
#[warnings="-register-all"]
Inductive view : Type :=
  | VLeaf (label : option jstr) (text : jstr)
  | VCollapsed (label : option jstr) (preview : jstr)
  | VOpen (label : option jstr) (children : list view).

Fixpoint JsonNodeView (depth limit : nat) (n : JsonNode) : view :=
  match n with
  | Node _ _ (TObject | TArray) _ c _ =>
      if initially_collapsed depth limit n then VCollapsed (KeyLabel n) (collapsedPreview n)
      else VOpen (KeyLabel n)
             (match c with
              | Some l => (fix go l := match l with [] => [] | x :: t => JsonNodeView (S depth) limit x :: go t end) l
              | None => []
              end)
  | _ => VLeaf (KeyLabel n) (primitiveDisplay n)
  end.

(** [<JsonTree value={input} />]: the tree, or the raw text in a [<pre>]. *)
Definition JsonTree (input : unknown) (limit : nat) : view + jstr :=
  match parseJsonValue input with
  | POk root => inl (JsonNodeView 0 limit root)
  | PFail raw => inr raw
  end.

(** ** Properties: faithfulness *)

(** The value a tree was built from. *)
Fixpoint node_value (n : JsonNode) : json :=
  match n with
  | Node _ _ TObject _ c _ =>
      JObj (match c with
            | Some l => (fix go l := match l with [] => [] | x :: t => (n_key x, node_value x) :: go t end) l
            | None => []
            end)
  | Node _ _ TArray _ c _ =>
      JArr (match c with
            | Some l => (fix go l := match l with [] => [] | x :: t => node_value x :: go t end) l
            | None => []
            end)
  | Node _ _ _ p _ _ => default JNull p
  end.

(** The children built for an array, from index [i]. *)
Fixpoint array_children (path : jstr) (i : nat) (l : list json) : list JsonNode :=
  match l with
  | [] => []
  | v :: t => buildTree v (index_string i) (childPath path (index_string i) true) :: array_children path (S i) t
  end.

Lemma buildTree_arr l key path :
  buildTree (JArr l) key path = Node path key TArray None (Some (array_children path 0 l)) (length l).
Proof.
  simpl. do 2 f_equal. generalize 0%nat. induction l as [|v l IH]; intros i; simpl; [done|]. by rewrite IH.
Qed.

Lemma buildTree_key v key path : n_key (buildTree v key path) = key.
Proof. by destruct v. Qed.

Lemma buildTree_path v key path : n_path (buildTree v key path) = path.
Proof. by destruct v. Qed.

(** the tree holds the whole value: whatever the key and path it is built
    with, its types, keys and primitive values determine the value again, and
    every container announces the number of its children. *)
Theorem buildTree_faithful v key path :
  node_value (buildTree v key path) = v /\
  n_size (buildTree v key path) = length (n_children (buildTree v key path)).
Proof.
  split.
  - revert key path. induction v as [|b|n|s|l IH|l IH] using json_ind_nested; intros key path; try done.
    + rewrite buildTree_arr. cbn [node_value]. f_equal. generalize 0%nat.
      induction IH as [|v l Hv _ IHl]; intros i; simpl; [done|]. by rewrite Hv, IHl.
    + cbn [buildTree node_value]. f_equal. induction IH as [|[k v] l Hv _ IHl]; [done|].
      cbn [map fst snd] in *. f_equal; [|exact IHl]. by rewrite Hv, buildTree_key.
  - destruct v as [|b|n|s|l|l]; try done.
    + rewrite buildTree_arr. simpl. generalize 0%nat. induction l as [|v l IH]; intros i; simpl; [done|]. by rewrite <- IH.
    + simpl. by rewrite length_map.
Qed.

(** ** Properties: paths *)

Fixpoint paths (n : JsonNode) : list jstr :=
  match n with
  | Node p _ _ _ c _ =>
      p :: match c with
           | Some l => (fix go l := match l with [] => [] | x :: t => paths x ++ go t end) l
           | None => []
           end
  end.

Definition child_paths (l : list JsonNode) : list jstr := flat_map paths l.

Lemma paths_node p k t v l s : paths (Node p k t v (Some l) s) = p :: child_paths l.
Proof. reflexivity. Qed.

(** The units that separate path segments. *)
Definition is_delim (c : Z) : bool := (c =? 46) || (c =? 91).

(** An object key that cannot be confused with path syntax. *)
Definition plain_key (k : jstr) : Prop := Forall (fun c => is_delim c = false) k.

Fixpoint plain_keys (v : json) : Prop :=
  match v with
  | JArr l => (fix go l := match l with [] => True | x :: t => plain_keys x /\ go t end) l
  | JObj l => NoDup (map fst l) /\
      (fix go l := match l with [] => True | kv :: t => (plain_key kv.1 /\ plain_keys kv.2) /\ go t end) l
  | _ => True
  end.

Lemma plain_keys_arr l : plain_keys (JArr l) <-> Forall plain_keys l.
Proof. simpl. induction l as [|x t IH]; [split; [constructor|done]|]. rewrite IH, Forall_cons. done. Qed.

Lemma plain_keys_obj l : plain_keys (JObj l) <->
  NoDup (map fst l) /\ Forall (fun kv => plain_key kv.1 /\ plain_keys kv.2) l.
Proof. simpl. f_equiv. induction l as [|x t IH]; [split; [constructor|done]|]. rewrite IH, Forall_cons. done. Qed.

(** A path extension: empty, or starting a new segment. *)
Definition extension (r : jstr) : Prop := match r with [] => True | c :: _ => is_delim c = true end.

(** Every path below a node extends the node's own. *)
Lemma paths_extend v key path q : q ∈ paths (buildTree v key path) -> exists r, q = path ++ r /\ extension r.
Proof.
  revert key path q. induction v as [|b|n|s|l IH|l IH] using json_ind_nested; intros key path q;
    try (intros ->%list_elem_of_singleton; exists []; by rewrite app_nil_r).
  - rewrite buildTree_arr, paths_node, elem_of_cons. intros [->|H]; [exists []; by rewrite app_nil_r|].
    revert H. generalize 0%nat. induction IH as [|v l Hv _ IHl]; intros i; cbn [array_children child_paths flat_map].
    + intros []%elem_of_nil.
    + rewrite elem_of_app. intros [H|H]; [|by apply (IHl (S i))].
      apply Hv in H as (r & -> & _). unfold childPath. rewrite <- app_assoc. by eexists.
  - cbn [buildTree]. rewrite paths_node, elem_of_cons. intros [->|H]; [exists []; by rewrite app_nil_r|].
    induction IH as [|[k v] l Hv _ IHl]; cbn [map child_paths flat_map] in H; [by apply elem_of_nil in H|].
    rewrite elem_of_app in H. destruct H as [H|H]; [|by apply IHl].
    apply Hv in H as (r & -> & _). unfold childPath. rewrite <- app_assoc. by eexists.
Qed.

(** A key followed by an extension is determined. *)
Lemma key_determined k k' r r' : plain_key k -> plain_key k' -> extension r -> extension r' ->
  k ++ r = k' ++ r' -> k = k'.
Proof.
  intros Hk. revert k'. induction Hk as [|c k Hc _ IH]; intros k' Hk' Hr Hr'.
  - destruct Hk' as [|c' k' Hc' _]; [done|]. simpl. intros ->. simpl in Hr. congruence.
  - destruct Hk' as [|c' k' Hc' Hk'].
    + simpl. intros <-. simpl in Hr'. congruence.
    + simpl. intros [= -> E]. f_equal. by apply IH.
Qed.

Lemma digits_inj a b : 0 <= a -> 0 <= b -> digits a = digits b -> a = b.
Proof. intros Ha Hb E. destruct (digits_spec a Ha) as [<- _], (digits_spec b Hb) as [<- _]. by rewrite E. Qed.

Lemma index_determined i j r r' : index_string i ++ 93 :: r = index_string j ++ 93 :: r' -> i = j.
Proof.
  unfold index_string. intros E.
  assert (D : forall n, Forall (fun c => c <> 93) (digits (Z.of_nat n))).
  { intros n. destruct (digits_spec (Z.of_nat n) ltac:(lia)) as [_ D]. eapply Forall_impl; [exact D|].
    intros c Hc. unfold is_digit in Hc. bool_to_prop. lia. }
  assert (G : forall k k', Forall (fun c => c <> 93) k -> Forall (fun c => c <> 93) k' ->
             forall s s', k ++ 93 :: s = k' ++ 93 :: s' -> k = k').
  { intros k k' Hk. revert k'. induction Hk as [|c k Hc _ IH]; intros k' Hk' s s'.
    - destruct Hk'; [done|]. simpl. intros [= <- _]. done.
    - destruct Hk'; simpl; intros [= -> E']; [done|]. f_equal. by eapply IH. }
  apply G in E; [|apply D|apply D]. apply digits_inj in E; lia.
Qed.

(** Paths of the children of an array: each extends some indexed child. *)
Lemma array_child_path path i l q : q ∈ child_paths (array_children path i l) ->
  exists j r, (i <= j)%nat /\ q = path ++ js "[" ++ index_string j ++ js "]" ++ r.
Proof.
  revert i. induction l as [|v l IH]; intros i; cbn [array_children child_paths flat_map]; [intros []%elem_of_nil|].
  rewrite elem_of_app. intros [H|H].
  - apply paths_extend in H as (r & -> & _). exists i, r. split; [lia|]. unfold childPath. by rewrite <- !app_assoc.
  - apply IH in H as (j & r & ? & ->). exists j, r. split; [lia|done].
Qed.

Lemma object_child_path path (l : list (jstr * json)) q :
  q ∈ child_paths (map (fun kv => buildTree kv.2 kv.1 (childPath path kv.1 false)) l) ->
  exists k r, k ∈ map fst l /\ extension r /\ q = path ++ js "." ++ k ++ r.
Proof.
  induction l as [|[k v] l IH]; cbn [map child_paths flat_map]; [intros []%elem_of_nil|].
  rewrite elem_of_app. intros [H|H].
  - apply paths_extend in H as (r & -> & Hr). exists k, r. split; [by left|]. split; [done|].
    unfold childPath. by rewrite <- !app_assoc.
  - apply IH in H as (k' & r & ? & ? & ->). exists k', r. split; [by right|done].
Qed.

Lemma own_path_fresh path (q s : jstr) : s <> [] -> q = path ++ s -> q <> path.
Proof. intros N -> E. apply N. by apply (app_inv_head path); rewrite app_nil_r. Qed.

Lemma array_paths_NoDup path i l :
  Forall (fun v => forall key p, NoDup (paths (buildTree v key p))) l -> NoDup (child_paths (array_children path i l)).
Proof.
  intros H. revert i. induction H as [|v l Hv _ IH]; intros i; cbn [array_children child_paths flat_map]; [constructor|].
  apply NoDup_app. split; [apply Hv|]. split; [|apply IH].
  intros q H1 H2. apply paths_extend in H1 as (r & -> & _). apply array_child_path in H2 as (j & r' & ? & E).
  unfold childPath in E. rewrite <- !app_assoc in E. apply app_inv_head, app_inv_head in E.
  apply index_determined in E. lia.
Qed.

Lemma object_paths_NoDup path (l : list (jstr * json)) : NoDup (map fst l) -> Forall (fun kv => plain_key kv.1) l ->
  Forall (fun kv => forall key p, NoDup (paths (buildTree kv.2 key p))) l ->
  NoDup (child_paths (map (fun kv => buildTree kv.2 kv.1 (childPath path kv.1 false)) l)).
Proof.
  induction l as [|[k v] l IH]; intros N Hk H; cbn [map child_paths flat_map]; [constructor|].
  apply NoDup_cons in N as [Nk N]. apply Forall_cons in Hk as [Pk Hk]. apply Forall_cons in H as [Hv H].
  apply NoDup_app. split; [apply Hv|]. split; [|by apply IH].
  intros q H1 H2. apply paths_extend in H1 as (r & -> & Hr). apply object_child_path in H2 as (k' & r' & Hk' & Hr' & E).
  unfold childPath in E. rewrite <- !app_assoc in E. apply app_inv_head, app_inv_head in E.
  assert (plain_key k').
  { apply list_elem_of_fmap in Hk' as ([k2 v2] & -> & Hin). rewrite Forall_forall in Hk. by apply (Hk (k2, v2)). }
  apply key_determined in E; [|done..]. subst k'. done.
Qed.

Lemma paths_NoDup v : plain_keys v -> forall key path, NoDup (paths (buildTree v key path)).
Proof.
  induction v as [|b|n|s|l IH|l IH] using json_ind_nested; intros P key path; try apply NoDup_singleton.
  - apply plain_keys_arr in P. rewrite buildTree_arr, paths_node. apply NoDup_cons. split.
    + intros (j & r & _ & E)%array_child_path. by eapply own_path_fresh in E.
    + apply array_paths_NoDup. rewrite Forall_forall in *. intros v Hv key' p. apply IH; auto.
  - apply plain_keys_obj in P as [N P]. cbn [buildTree]. rewrite paths_node. apply NoDup_cons. split.
    + intros (k & r & _ & _ & E)%object_child_path. by eapply own_path_fresh in E.
    + apply object_paths_NoDup; [done| |]; rewrite Forall_forall in *.
      * intros kv Hkv. apply (P kv Hkv).
      * intros kv Hkv key' p. apply (IH kv Hkv), (P kv Hkv).
Qed.

(** Node paths are unique when no object key contains a dot or an opening
    bracket; keys are not escaped, so the documented uniqueness fails in
    general: in an object with a key "a.b" beside a nested a / b both leaves
    have the path root.a.b, and a key ending in [[3]] is labelled as an index. *)
Theorem tree_paths v :
  (plain_keys v -> NoDup (paths (build_root v))) /\
  paths (build_root (JObj [(js "a.b", JNull); (js "a", JObj [(js "b", JNull)])])) =
    [js "root"; js "root.a.b"; js "root.a"; js "root.a.b"] /\
  KeyLabel (buildTree JNull (js "x[3]") (childPath (js "root") (js "x[3]") false)) = Some (js "[x[3]]:").
Proof. split; [intros P; by apply paths_NoDup|]. split; reflexivity. Qed.

(** Nothing at depth below the limit is hidden before the first click. *)
Fixpoint hidden (w : view) : bool :=
  match w with VLeaf _ _ => false | VCollapsed _ _ => true | VOpen _ l => existsb hidden l end.

Fixpoint height (v : json) : nat :=
  match v with
  | JArr l => S (list_max (map height l))
  | JObj l => S (list_max (map (fun kv => height kv.2) l))
  | _ => 0%nat
  end.

Lemma view_open d limit p k t v l s : (t = TObject \/ t = TArray) -> (d < limit)%nat ->
  JsonNodeView d limit (Node p k t v (Some l) s) =
  VOpen (KeyLabel (Node p k t v (Some l) s)) (map (JsonNodeView (S d) limit) l).
Proof.
  intros T L. assert (E : initially_collapsed d limit (Node p k t v (Some l) s) = false).
  { unfold initially_collapsed. by rewrite (proj2 (Nat.leb_gt _ _)) by lia. }
  cbn [JsonNodeView]. rewrite E. by destruct T as [-> | ->].
Qed.

(** a payload nested less deeply than the collapse limit is shown
    completely, and an input that is not JSON is shown verbatim. *)
Theorem view_complete limit :
  (forall v, match v with JStr _ => False | _ => True end -> (height v <= limit)%nat ->
     exists w, JsonTree (Some v) limit = inl w /\ hidden w = false) /\
  (forall s e, json_parse s = Throw e -> JsonTree (Some (JStr s)) limit = inr s).
Proof.
  split; [|intros s e E; unfold JsonTree, parseJsonValue; by rewrite E].
  assert (G : forall v key path d, (d + height v <= limit)%nat -> hidden (JsonNodeView d limit (buildTree v key path)) = false).
  { intros v. induction v as [|b|n|s|l IH|l IH] using json_ind_nested; intros key path d L; try done; cbn [height] in L.
    - rewrite buildTree_arr, view_open by (auto || lia). cbn [hidden]. apply not_true_is_false. rewrite existsb_exists.
      intros (w & Hw & T). apply in_map_iff in Hw as (n & <- & Hn). revert Hn. generalize 0%nat.
      induction IH as [|v l Hv _ IHl]; intros i; [done|]. cbn [array_children map] in *. intros [<-|Hn].
      + rewrite Hv in T; [done|]. cbn [list_max foldr] in L. lia.
      + apply (IHl ltac:(unfold list_max in *; simpl in L; lia) (S i) Hn).
    - cbn [buildTree]. rewrite view_open by (auto || lia). cbn [hidden]. apply not_true_is_false. rewrite existsb_exists.
      intros (w & Hw & T). apply in_map_iff in Hw as (n & <- & Hn).
      induction IH as [|[k v] l Hv _ IHl]; [done|]. cbn [map] in *. destruct Hn as [<-|Hn].
      + cbn [fst snd] in *. rewrite Hv in T; [done|]. unfold list_max in *. simpl in L. lia.
      + apply IHl; [|done]. unfold list_max in *. simpl in L. lia. }
  intros v S H. exists (JsonNodeView 0 limit (build_root v)). split; [by destruct v|]. apply G. lia.
Qed.
