(* ===== verification/DesktopApi.v ===== *)
(** * The desktop UI's API client

    [desktop-ui/src/lib/api.ts]: JSON over [fetch] on the gateway's own origin,
    with one wrapper per endpoint, and the toast actions of
    [desktop-ui/src/lib/app-actions.ts].  The network is the interface [Fetch]. *)

From S2P Require Import Prelude JsNumber JsString Json.

(** ** Requests and effects *)

Record request : Type := {
  rq_method : jstr;
  rq_target : jstr;                       (* path as passed to [fetch] / [new URL] *)
  rq_params : list (jstr * jstr);         (* [url.searchParams] *)
  rq_body : option jstr;
}.

Record response : Type := { rs_status : Z; rs_text : jstr }.

Definition resp_ok (r : response) : bool := (200 <=? rs_status r) && (rs_status r <=? 299).

(** What [fetch] does to the network; rejections are exceptions. *)
Class Fetch (Net : Type) : Type := fetch : request -> Net -> result response * Net.

Inductive effect : Type :=
  | Requested (r : request)
  | ToastSuccess (msg : jstr)
  | ToastWarning (msg : jstr)
  | ToastError (msg : jstr).

Definition D (Net A : Type) : Type := Net * list effect -> result A * (Net * list effect).

#[global] Instance D_ret {Net} : MRet (D Net) := fun A a w => (Ret a, w).
#[global] Instance D_bind {Net} : MBind (D Net) := fun A B f m w =>
  match m w with (Ret a, w') => f a w' | (Throw e, w') => (Throw e, w') end.

Definition d_throw {Net A} (e : exn) : D Net A := fun w => (Throw e, w).
Definition d_lift {Net A} (r : result A) : D Net A := fun w => (r, w).
Definition d_try {Net A} (m : D Net A) (h : exn -> D Net A) : D Net A := fun w =>
  match m w with (Ret a, w') => (Ret a, w') | (Throw e, w') => h e w' end.
Definition emit {Net} (ev : effect) : D Net unit := fun '(n, log) => (Ret tt, (n, log ++ [ev])).

(** ** [encodeURIComponent] *)

Definition is_unreserved (c : Z) : bool :=
  ((65 <=? c) && (c <=? 90)) || ((97 <=? c) && (c <=? 122)) || ((48 <=? c) && (c <=? 57))
  || (c =? 45) || (c =? 95) || (c =? 46) || (c =? 33) || (c =? 126) || (c =? 42) || (c =? 39) || (c =? 40) || (c =? 41).

Definition upper_hex (n : Z) : Z := if n <? 10 then 48 + n else 55 + n.
Definition pct (b : Z) : jstr := [37; upper_hex (b / 16); upper_hex (b mod 16)].

(** The UTF-8 octets of a code point. *)
Definition utf8 (cp : Z) : list Z :=
  if cp <? 128 then [cp]
  else if cp <? 2048 then [192 + cp / 64; 128 + cp mod 64]
  else if cp <? 65536 then [224 + cp / 4096; 128 + cp / 64 mod 64; 128 + cp mod 64]
  else [240 + cp / 262144; 128 + cp / 4096 mod 64; 128 + cp / 64 mod 64; 128 + cp mod 64].

Definition encode_cp (cp : Z) : jstr := if is_unreserved cp then [cp] else flat_map pct (utf8 cp).

(** A lone surrogate is a URIError. *)
Fixpoint encodeURIComponent (s : jstr) : result jstr :=
  match s with
  | [] => Ret []
  | c :: t =>
      if is_low c then Throw (EError (js "URIError") (js "URI malformed"))
      else if is_high c then
        match t with
        | d :: t' =>
            if is_low d then
              r ← encodeURIComponent t';
              Ret (encode_cp ((c - 55296) * 1024 + (d - 56320) + 65536) ++ r)
            else Throw (EError (js "URIError") (js "URI malformed"))
        | [] => Throw (EError (js "URIError") (js "URI malformed"))
        end
      else r ← encodeURIComponent t; Ret (encode_cp c ++ r)
  end.

(** ** The two transports *)

Definition BASE : jstr := "/api/v1".

Definition staleBackendError : exn := err_error (js "接口不存在 (404)：网关后端版本过旧，请重启或重新构建桌面应用").

Definition failed_message (st : Z) : jstr := js "请求失败 (" ++ zstr st ++ js ")".

(** A query parameter: text, number or [undefined]. *)
Inductive param : Type := PText (s : jstr) | PNum (n : num) | PUndef.

(** [if (v !== undefined && v !== "") url.searchParams.set(k, String(v))] *)
Definition search_params (ps : list (jstr * param)) : list (jstr * jstr) :=
  omap (fun kp => match kp.2 with
                  | PText s => if str_empty s then None else Some (kp.1, s)
                  | PNum n => Some (kp.1, num_to_string n)
                  | PUndef => None
                  end) ps.

Section Transport.
  Context {Net : Type} `{Fetch Net}.

Definition send (r : request) : D Net response := fun '(n, log) =>
  let '(res, n') := fetch r n in (res, (n', log ++ [Requested r])).

Definition getJSON (path : jstr) (params : list (jstr * param)) : D Net json :=
  resp ← send {| rq_method := js "GET"; rq_target := BASE ++ path; rq_params := search_params params; rq_body := None |};
  if negb (resp_ok resp) then
    let apiError := match json_parse (rs_text resp) with
                    | Ret b => let e := opt_prop (Some b) "error" in if truthy e then e else None
                    | Throw _ => None
                    end in
    match apiError with
    | Some e => d_throw (err_error (to_string e))
    | None => if rs_status resp =? 404 then d_throw staleBackendError
              else d_throw (err_error (failed_message (rs_status resp)))
    end
  else d_lift (json_parse (rs_text resp)).

Definition sendJSON (method path : jstr) (body : option json) : D Net json :=
  resp ← send {| rq_method := method; rq_target := BASE ++ path; rq_params := []; rq_body := stringify <$> body |};
  let text := rs_text resp in
  let parsed := if str_empty text then JNull
                else match json_parse text with Ret v => v | Throw _ => JNull end in
  if negb (resp_ok resp) then
    let errMsg := opt_prop (Some parsed) "error" in
    if (rs_status resp =? 404) && negb (truthy errMsg) then d_throw staleBackendError
    else d_throw (err_error (to_string (nullish errMsg (JStr (failed_message (rs_status resp))))))
  else mret parsed.

(** [`${prefix}${encodeURIComponent(x)}`] *)
Definition with_segment (prefix x : jstr) : D Net jstr := s ← d_lift (encodeURIComponent x); mret (prefix ++ s).

(** ** Endpoints *)

Definition opt_text (k : string) (v : option jstr) : jstr * param := (js k, match v with Some s => PText s | None => PUndef end).
Definition opt_num (k : string) (v : option num) : jstr * param := (js k, match v with Some n => PNum n | None => PUndef end).

Definition getOverview (from to : option jstr) : D Net json :=
  getJSON (js "/overview") [opt_text "from" from; opt_text "to" to].

Record SessionQuery : Type := {
  sq_agent_type : option jstr; sq_from : option jstr; sq_to : option jstr; sq_page : option num; sq_page_size : option num;
}.
Definition listSessions (o : SessionQuery) : D Net json :=
  getJSON (js "/sessions") [opt_text "agent_type" (sq_agent_type o); opt_text "from" (sq_from o); opt_text "to" (sq_to o);
                            opt_num "page" (sq_page o); opt_num "page_size" (sq_page_size o)].

Record LogQuery : Type := {
  lq_provider : option jstr; lq_model_requested : option jstr; lq_error_type : option jstr; lq_session_id : option jstr;
  lq_request_id : option jstr; lq_agent_type : option jstr; lq_from : option jstr; lq_to : option jstr;
  lq_page : option num; lq_page_size : option num;
}.
Definition listRequestLogs (o : LogQuery) : D Net json :=
  getJSON (js "/request-logs")
    [opt_text "provider" (lq_provider o); opt_text "model_requested" (lq_model_requested o);
     opt_text "error_type" (lq_error_type o); opt_text "session_id" (lq_session_id o);
     opt_text "request_id" (lq_request_id o); opt_text "agent_type" (lq_agent_type o); opt_text "from" (lq_from o);
     opt_text "to" (lq_to o); opt_num "page" (lq_page o); opt_num "page_size" (lq_page_size o)].

Definition listTraceBySession (sessionId : jstr) (limit : option num) : D Net json :=
  path ← with_segment (js "/trace/sessions/") sessionId;
  getJSON path [(js "limit", PNum (default (int 200) limit))].
Definition getTraceByRowID (id : num) : D Net json := getJSON (js "/trace/rows/" ++ num_to_string id) [].
Definition getTraceByRequestID (requestId : jstr) : D Net json :=
  path ← with_segment (js "/trace/requests/") requestId; getJSON path [].
Definition getLogs (tail : option num) : D Net json := getJSON (js "/logs") [(js "tail", PNum (default (int 500) tail))].

Definition listProviders : D Net json := getJSON (js "/providers") [].
Definition createProvider (p : json) : D Net json := sendJSON (js "POST") (js "/providers") (Some p).
Definition updateProvider (name : jstr) (p : json) : D Net json :=
  path ← with_segment (js "/providers/") name; sendJSON (js "PUT") path (Some p).
Definition deleteProvider (name : jstr) : D Net json :=
  path ← with_segment (js "/providers/") name; sendJSON (js "DELETE") path None.

Definition listModels : D Net json := getJSON (js "/models") [].
Definition createModel (m : json) : D Net json := sendJSON (js "POST") (js "/models") (Some m).
Definition updateModel (alias : jstr) (m : json) : D Net json :=
  path ← with_segment (js "/models/") alias; sendJSON (js "PUT") path (Some m).
Definition deleteModel (alias : jstr) : D Net json :=
  path ← with_segment (js "/models/") alias; sendJSON (js "DELETE") path None.

Definition listRoutes : D Net json := getJSON (js "/routes") [].
Definition createRoute (r : json) : D Net json := sendJSON (js "POST") (js "/routes") (Some r).
Definition updateRoute (alias : jstr) (r : json) : D Net json :=
  path ← with_segment (js "/routes/") alias; sendJSON (js "PUT") path (Some r).
Definition deleteRoute (alias : jstr) : D Net json :=
  path ← with_segment (js "/routes/") alias; sendJSON (js "DELETE") path None.

Definition reloadConfig : D Net json := sendJSON (js "POST") (js "/config/reload") None.
Definition revealConfigFolder : D Net json := sendJSON (js "POST") (js "/config/reveal") None.
Definition quitApp : D Net json := sendJSON (js "POST") (js "/app/quit") None.

Definition getSettings : D Net json := getJSON (js "/settings") [].
Definition updateSettings (s : json) : D Net json := sendJSON (js "PUT") (js "/settings") (Some s).
Definition getAPIKey : D Net json := getJSON (js "/apikey") [].
Definition rotateAPIKey : D Net json := sendJSON (js "POST") (js "/apikey/rotate") None.
Definition playgroundChat (model prompt : jstr) : D Net json :=
  sendJSON (js "POST") (js "/playground/chat") (Some (JObj [(js "model", JStr model); (js "prompt", JStr prompt)])).

Record PromptQuery : Type := { pq_q : option jstr; pq_tag : option jstr; pq_page : option num; pq_page_size : option num }.
Definition listPrompts (o : PromptQuery) : D Net json :=
  getJSON (js "/prompts") [opt_text "q" (pq_q o); opt_text "tag" (pq_tag o); opt_num "page" (pq_page o);
                           opt_num "page_size" (pq_page_size o)].
Definition createPrompt (p : json) : D Net json := sendJSON (js "POST") (js "/prompts") (Some p).
Definition updatePrompt (id : num) (p : json) : D Net json :=
  sendJSON (js "PUT") (js "/prompts/" ++ num_to_string id) (Some p).
Definition deletePrompt (id : num) : D Net json := sendJSON (js "DELETE") (js "/prompts/" ++ num_to_string id) None.

Definition getDispatchSteps (requestId : jstr) : D Net json := getJSON (js "/dispatch-steps/" ++ requestId) [].
Definition getProviderHealth : D Net json := getJSON (js "/provider-health") [].

Definition favoriteSession (sessionId : jstr) : D Net json :=
  path ← with_segment (js "/session-favorites/") sessionId; sendJSON (js "PUT") path (Some (JObj [])).
Definition unfavoriteSession (sessionId : jstr) : D Net json :=
  path ← with_segment (js "/session-favorites/") sessionId; sendJSON (js "DELETE") path (Some (JObj [])).
Definition deleteSession (sessionId : jstr) : D Net json :=
  path ← with_segment (js "/sessions/") sessionId; sendJSON (js "DELETE") path (Some (JObj [])).
Definition purgeObservation (before : option jstr) : D Net json :=
  sendJSON (js "POST") (js "/observation/purge")
    (Some (JObj (match before with Some b => if str_empty b then [] else [(js "before", JStr b)] | None => [] end))).

(** ** Toast actions *)

(** [catch (e) { toast.error(String(e?.message ?? e)) }] *)
Definition toast_error (e : exn) : D Net unit := emit (ToastError (exn_message e)).

Definition reloadConfigWithToast : D Net unit :=
  d_try (res ← reloadConfig;
         _ ← emit (ToastSuccess (js "配置已重载。"));
         w ← d_lift (prop res "warning");
         if truthy w then emit (ToastWarning (to_string (nullish w JNull))) else mret tt)
    toast_error.

Definition revealConfigFolderWithToast : D Net unit :=
  d_try (_ ← revealConfigFolder; emit (ToastSuccess (js "已在文件管理器中打开。"))) toast_error.

Definition quitAppWithToast : D Net unit :=
  d_try (_ ← quitApp; emit (ToastSuccess (js "正在退出…"))) toast_error.

End Transport.

(** ** Addressing

    The decoder the gateway's router applies to a path segment, as a
    specification of what [encodeURIComponent] has to be inverse to. *)

Definition hex_value (c : Z) : Z := if c <? 58 then c - 48 else if c <? 97 then c - 55 else c - 87.

Definition octet (s : jstr) : option (Z * jstr) :=
  match s with
  | 37 :: a :: b :: t => Some (16 * hex_value a + hex_value b, t)
  | _ => None
  end.

(** One code point in front of a string. *)
Definition decode_cp (s : jstr) : option (Z * jstr) :=
  match s with
  | [] => None
  | c :: t =>
      if c =? 37 then
        '(b0, t0) ← octet s;
        if b0 <? 128 then Some (b0, t0)
        else '(b1, t1) ← octet t0;
             if b0 <? 224 then Some ((b0 - 192) * 64 + (b1 - 128), t1)
             else '(b2, t2) ← octet t1;
                  if b0 <? 240 then Some ((b0 - 224) * 4096 + (b1 - 128) * 64 + (b2 - 128), t2)
                  else '(b3, t3) ← octet t2;
                       Some ((b0 - 240) * 262144 + (b1 - 128) * 4096 + (b2 - 128) * 64 + (b3 - 128), t3)
      else Some (c, t)
  end.

(** The UTF-16 units of a code point. *)
Definition utf16 (cp : Z) : jstr :=
  if cp <? 65536 then [cp] else [55296 + (cp - 65536) / 1024; 56320 + (cp - 65536) mod 1024].

Fixpoint decode_units (fuel : nat) (s : jstr) : option jstr :=
  match s, fuel with
  | [], _ => Some []
  | _, O => None
  | _, S fuel => '(cp, t) ← decode_cp s; r ← decode_units fuel t; Some (utf16 cp ++ r)
  end.
Definition decodeSegment (s : jstr) : option jstr := decode_units (length s) s.

(** Units a path segment keeps to: no separator of a URL is among them. *)
Definition segment_unit (c : Z) : bool := is_unreserved c || (c =? 37).

(** The path of a target as the URL standard parses it: up to the first
    ["?"] or ["#"], and without its dot segments. *)
Fixpoint before_query (s : jstr) : jstr :=
  match s with [] => [] | c :: t => if (c =? 63) || (c =? 35) then [] else c :: before_query t end.

Definition single_dot (s : jstr) : bool := array_includes (map js ["."; "%2e"; "%2E"]) s.
Definition double_dot (s : jstr) : bool :=
  array_includes (map js [".."; ".%2e"; ".%2E"; "%2e."; "%2E."; "%2e%2e"; "%2e%2E"; "%2E%2e"; "%2E%2E"]) s.

(** [acc] holds the segments kept, last first; a dot segment at the end leaves
    an empty one. *)
Fixpoint remove_dots (acc segments : list jstr) : list jstr :=
  match segments with
  | [] => reverse acc
  | s :: t =>
      if double_dot s then remove_dots (match t with [] => [] :: tl acc | _ => tl acc end) t
      else if single_dot s then remove_dots (match t with [] => [] :: acc | _ => acc end) t
      else remove_dots (s :: acc) t
  end.

Definition url_path (s : jstr) : jstr :=
  match split_char 47 (before_query s) with
  | root :: segments => join [47] (root :: remove_dots [] segments)
  | [] => []
  end.

(** [lia] over quotients and remainders by constants. *)
Ltac dlia := Z.to_euclidean_division_equations; lia.

Lemma octet_pct b t : 0 <= b < 256 -> octet (pct b ++ t) = Some (b, t).
Proof.
  intros Hb. unfold pct. cbn [app octet]. do 2 f_equal. unfold hex_value, upper_hex.
  repeat (case_match; bool_to_prop; try dlia).
  all: dlia.
Qed.

Lemma octets_pct b bs t : 0 <= b < 256 -> octet (flat_map pct (b :: bs) ++ t) = Some (b, flat_map pct bs ++ t).
Proof. intros Hb. change (flat_map pct (b :: bs)) with (pct b ++ flat_map pct bs). rewrite <- app_assoc. by apply octet_pct. Qed.

Lemma decode_pcts b bs t : 0 <= b < 256 ->
  decode_cp (flat_map pct (b :: bs) ++ t) =
  (if b <? 128 then Some (b, flat_map pct bs ++ t)
   else '(b1, t1) ← octet (flat_map pct bs ++ t);
        if b <? 224 then Some ((b - 192) * 64 + (b1 - 128), t1)
        else '(b2, t2) ← octet t1;
             if b <? 240 then Some ((b - 224) * 4096 + (b1 - 128) * 64 + (b2 - 128), t2)
             else '(b3, t3) ← octet t2;
                  Some ((b - 240) * 262144 + (b1 - 128) * 4096 + (b2 - 128) * 64 + (b3 - 128), t3)).
Proof.
  intros Hb. pose proof (octets_pct b bs t Hb) as E. unfold decode_cp.
  change (flat_map pct (b :: bs) ++ t) with
    (37 :: upper_hex (b / 16) :: upper_hex (b mod 16) :: (flat_map pct bs ++ t)) in *.
  change (37 =? 37) with true. cbn iota beta. rewrite E. done.
Qed.

Lemma decode_encode_cp cp t : 0 <= cp < 1114112 -> decode_cp (encode_cp cp ++ t) = Some (cp, t).
Proof.
  intros Hc. unfold encode_cp. destruct (is_unreserved cp) eqn:U.
  - simpl. destruct (Z.eqb_spec cp 37) as [-> |]; [done|done].
  - unfold utf8. repeat case_match; bool_to_prop; rewrite decode_pcts by dlia;
      repeat (first [rewrite (proj2 (Z.ltb_lt _ _)) by dlia | rewrite (proj2 (Z.ltb_ge _ _)) by dlia
                    | rewrite octets_pct by dlia]; cbn [mbind option_bind]);
      cbn [flat_map app]; do 2 f_equal; dlia.
Qed.

(** [s.isWellFormed()]: no lone surrogate. *)
Fixpoint isWellFormed (s : jstr) : bool :=
  match s with
  | [] => true
  | c :: t =>
      if is_low c then false
      else if is_high c then match t with d :: t' => is_low d && isWellFormed t' | [] => false end
      else isWellFormed t
  end.

Lemma well_formed_ind (P : jstr -> Prop) :
  P [] ->
  (forall c t, is_low c = false -> is_high c = false -> isWellFormed t = true -> P t -> P (c :: t)) ->
  (forall c d t, is_low c = false -> is_high c = true -> is_low d = true -> isWellFormed t = true -> P t -> P (c :: d :: t)) ->
  forall s, isWellFormed s = true -> P s.
Proof.
  intros H0 H1 H2 s. remember (length s) as n eqn:E. assert (Hn : (length s <= n)%nat) by lia. clear E.
  revert s Hn. induction n as [|n IH]; intros [|c [|d t]] Hn W; simpl in *; try done; try lia.
  - repeat case_match; try done. by apply H1.
  - destruct (is_low c) eqn:L; [done|]. destruct (is_high c) eqn:Hi.
    + bool_to_prop. apply H2; try done. apply IH; [lia|done].
    + apply H1; try done. apply IH; [simpl; lia|done].
Qed.

Lemma encode_cp_segment cp : 0 <= cp < 1114112 -> forallb segment_unit (encode_cp cp) = true.
Proof.
  assert (Hx : forall b, 0 <= b < 256 -> forallb segment_unit (pct b) = true).
  { intros b Hb. assert (Hh : forall n, 0 <= n < 16 -> segment_unit (upper_hex n) = true).
    { intros n Hn. unfold segment_unit, is_unreserved, upper_hex. case_match; bool_to_prop; lia. }
    unfold pct. cbn [forallb]. rewrite !Hh by dlia. done. }
  intros Hc. unfold encode_cp. destruct (is_unreserved cp) eqn:U.
  - simpl. unfold segment_unit. by rewrite U.
  - unfold utf8. repeat case_match; bool_to_prop; cbn [flat_map]; rewrite !forallb_app, !Hx by dlia; done.
Qed.

Lemma encode_cp_length cp : (1 <= length (encode_cp cp))%nat.
Proof. unfold encode_cp, utf8. repeat case_match; simpl; lia. Qed.

Lemma decode_units_cp f cp t : 0 <= cp < 1114112 -> (length (encode_cp cp ++ t) <= f)%nat ->
  exists g, (length t <= g)%nat /\
    decode_units f (encode_cp cp ++ t) = (r ← decode_units g t; Some (utf16 cp ++ r)).
Proof.
  intros Hc Hf. pose proof (encode_cp_length cp) as L. rewrite length_app in Hf.
  destruct f as [|f]; [lia|]. exists f. split; [lia|].
  pose proof (decode_encode_cp cp t Hc) as D. simpl. destruct (encode_cp cp ++ t) eqn:E.
  - destruct (encode_cp cp); [simpl in L; lia|done].
  - rewrite D. done.
Qed.

Lemma encode_decodes s : isWellFormed s = true -> wf_str s -> exists e,
  encodeURIComponent s = Ret e /\ forallb segment_unit e = true /\
  forall f, (length e <= f)%nat -> decode_units f e = Some s.
Proof.
  intros W. pattern s. revert s W. apply well_formed_ind.
  - intros _. exists []. split_and!; try done. by intros [].
  - intros c t Hl Hh _ IH U. inversion U as [|? ? Uc Ut]; subst. destruct (IH Ut) as (e & E & F & D).
    unfold unit_ok in Uc. exists (encode_cp c ++ e). split_and!.
    + simpl. by rewrite Hl, Hh, E.
    + by rewrite forallb_app, encode_cp_segment, F by lia.
    + intros f Hf. destruct (decode_units_cp f c e) as (g & Hg & ->); [lia|done|].
      rewrite D by done. simpl. unfold utf16. by rewrite (proj2 (Z.ltb_lt _ _)) by lia.
  - intros c d t Hl Hh Hd _ IH U. inversion U as [|? ? Uc Ut]; subst. inversion Ut as [|? ? Ud Ut']; subst.
    destruct (IH Ut') as (e & E & F & D). unfold unit_ok, is_low, is_high in *.
    set (cp := (c - 55296) * 1024 + (d - 56320) + 65536). bool_to_prop.
    assert (Hc : 65536 <= cp < 1114112) by (subst cp; lia). exists (encode_cp cp ++ e). split_and!.
    + cbn [encodeURIComponent]. unfold is_low, is_high. rewrite E. subst cp.
      repeat (first [rewrite (proj2 (Z.leb_le _ _)) by lia | rewrite (proj2 (Z.leb_gt _ _)) by lia]). done.
    + by rewrite forallb_app, encode_cp_segment, F by lia.
    + intros f Hf. destruct (decode_units_cp f cp e) as (g & Hg & ->); [lia|done|].
      rewrite D by done. simpl. unfold utf16. rewrite (proj2 (Z.ltb_ge _ _)) by lia. simpl.
      do 2 f_equal; [subst cp; dlia|]. f_equal. subst cp; dlia.
Qed.

Lemma before_query_segment p e : before_query p = p -> forallb segment_unit e = true -> before_query (p ++ e) = p ++ e.
Proof.
  intros Hp He. assert (E : before_query e = e).
  { clear Hp. induction e as [|c e IH]; [done|]. simpl in *. bool_to_prop. rewrite IH by done.
    destruct (Z.eqb_spec c 63) as [-> |]; [done|]. by destruct (Z.eqb_spec c 35) as [-> |]. }
  revert Hp. induction p as [|c p IH]; [done|]. simpl. case_match; [done|]. intros [= Hp]. by rewrite IH.
Qed.

Lemma split_char_last c p e : c ∉ e -> split_char c (p ++ c :: e) = split_char c p ++ [e].
Proof.
  intros N. induction p as [|d p IH]; cbn [app split_char].
  - rewrite Z.eqb_refl. by rewrite split_char_none.
  - rewrite IH. destruct (d =? c); [done|]. by destruct (split_char c p) eqn:E; [apply split_char_nonempty in E|].
Qed.

Definition dotted (s : jstr) : bool := single_dot s || double_dot s.

Lemma remove_dots_plain acc l : Forall (fun s => dotted s = false) l -> remove_dots acc l = reverse acc ++ l.
Proof.
  intros F. revert acc. induction F as [|s l Hs _ IH]; intros acc; cbn [remove_dots]; [by rewrite app_nil_r|].
  apply orb_false_elim in Hs as [-> ->]. rewrite IH, reverse_cons, <- app_assoc. done.
Qed.

(** A path without dot segments is kept as it is. *)
Lemma url_path_plain s root segments : before_query s = s -> split_char 47 s = root :: segments ->
  Forall (fun x => dotted x = false) segments -> url_path s = s.
Proof.
  intros Q S F. unfold url_path. rewrite Q, S, remove_dots_plain by done.
  transitivity (join [47] (split_char 47 s)); [by rewrite S|apply join_split].
Qed.

Lemma dotted_decodes e id : dotted e = true -> decodeSegment e = Some id -> id = js "." \/ id = js "..".
Proof.
  unfold dotted, single_dot, double_dot. intros D%orb_true_iff. rewrite !array_includes_spec in D.
  assert (X : Forall (fun x => decodeSegment x = Some (js ".") \/ decodeSegment x = Some (js ".."))
    (map js ["."; "%2e"; "%2E"] ++ map js [".."; ".%2e"; ".%2E"; "%2e."; "%2E."; "%2e%2e"; "%2e%2E"; "%2E%2e"; "%2E%2E"])).
  { repeat apply Forall_cons_2; try apply Forall_nil_2; first [left; vm_compute; reflexivity|right; vm_compute; reflexivity]. }
  rewrite Forall_app, !Forall_forall in X. destruct X as [X1 X2]. intros E.
  destruct D as [D|D]; [apply X1 in D|apply X2 in D]; rewrite E in D; destruct D as [D|D]; injection D; auto.
Qed.

Section Theorems.
  Context {Net : Type} `{Fetch Net}.

(** The endpoints that address one object by a caller-supplied identifier,
    with the fixed part of their path. *)
Definition by_id_endpoints (body : json) : list (jstr * (jstr -> D Net json)) :=
  [(js "/trace/sessions/", fun id => listTraceBySession id None);
   (js "/trace/requests/", getTraceByRequestID);
   (js "/providers/", fun id => updateProvider id body);
   (js "/providers/", deleteProvider);
   (js "/models/", fun id => updateModel id body);
   (js "/models/", deleteModel);
   (js "/routes/", fun id => updateRoute id body);
   (js "/routes/", deleteRoute);
   (js "/session-favorites/", favoriteSession);
   (js "/session-favorites/", unfavoriteSession);
   (js "/sessions/", deleteSession)].

(** The requests an operation issues. *)
Definition requests (log : list effect) : list request :=
  omap (fun ev => match ev with Requested r => Some r | _ => None end) log.

Definition issued {A} (op : D Net A) (n : Net) : list request := requests (op (n, [])).2.2.

Lemma issued_get path ps n : issued (getJSON path ps) n =
  [{| rq_method := js "GET"; rq_target := BASE ++ path; rq_params := search_params ps; rq_body := None |}].
Proof.
  unfold issued, getJSON, send, mbind, D_bind.
  destruct (fetch _ n) as [[resp|e] n']; [|done].
  destruct (negb (resp_ok resp)); [|done]. cbv zeta. repeat case_match; done.
Qed.

Lemma issued_send m path b n : issued (sendJSON m path b) n =
  [{| rq_method := m; rq_target := BASE ++ path; rq_params := []; rq_body := stringify <$> b |}].
Proof.
  unfold issued, sendJSON, send, mbind, D_bind.
  destruct (fetch _ n) as [[resp|e] n']; [|done]. cbv zeta.
  destruct (negb (resp_ok resp)); [|done]. repeat case_match; done.
Qed.

Lemma issued_segment p x (k : jstr -> D Net json) n e : encodeURIComponent x = Ret e ->
  issued (path ← with_segment p x; k path) n = issued (k (p ++ e)) n.
Proof. intros E. unfold issued, with_segment, d_lift, mbind, D_bind. by rewrite E. Qed.

(** C37: Every endpoint of the desktop client that addresses an object by a
    textual name or id, [getDispatchSteps] excepted, issues exactly one
    request, whose path is the endpoint's fixed part followed by one
    percent-encoded segment.  For any identifier but ["."] and [".."] the path
    the URL parser sees is that very text: the identifier can neither open a
    query or fragment nor add or remove path segments, and the segment decodes
    to precisely the identifier, so distinct identifiers never share an
    address. *)
Theorem by_id_addressing body prefix op id n :
  (prefix, op) ∈ by_id_endpoints body -> isWellFormed id = true -> wf_str id -> id ∉ [js "."; js ".."] ->
  exists q e, issued (op id) n = [q] /\ rq_target q = BASE ++ prefix ++ e /\
    url_path (rq_target q) = rq_target q /\ (47 ∉ e) /\ decodeSegment e = Some id.
Proof.
  intros Hop W U Nd. destruct (encode_decodes id W U) as (e & E & F & D).
  assert (S : 47 ∉ e).
  { intros Hin. apply list_elem_of_In in Hin. by apply (proj1 (forallb_forall _ _) F) in Hin. }
  assert (P : url_path (BASE ++ prefix ++ e) = BASE ++ prefix ++ e).
  { assert (Pl : dotted e = false).
    { destruct (dotted e) eqn:X; [|done]. destruct Nd. rewrite !elem_of_cons.
      destruct (dotted_decodes e id X) as [-> | ->]; [apply D; lia|by left|by right; left]. }
    assert (G : forall p segs, p = removelast p ++ [47] -> before_query p = p -> split_char 47 (removelast p) = [] :: segs ->
              forallb (fun x => negb (dotted x)) segs = true -> url_path (p ++ e) = p ++ e).
    { intros p segs P Q Sp Fs. apply (url_path_plain _ [] (segs ++ [e])); [by apply before_query_segment| |].
      - rewrite P, <- app_assoc. cbn [app]. by rewrite split_char_last, Sp.
      - apply Forall_app. split; [|by constructor]. apply Forall_forall. intros x I. rewrite forallb_forall in Fs.
        by apply negb_true_iff, Fs, list_elem_of_In. }
    rewrite app_assoc. unfold by_id_endpoints in Hop. set_unfold in Hop.
    destruct_or! Hop; injection Hop as -> _;
      (eapply G; vm_compute; reflexivity). }
  assert (exists q, issued (op id) n = [q] /\ rq_target q = BASE ++ prefix ++ e) as (q & Hq & Ht).
  { unfold by_id_endpoints in Hop. set_unfold in Hop.
    destruct_or! Hop; injection Hop as -> ->; eexists;
      (split; [etrans; [exact (issued_segment _ _ _ _ _ E)|first [apply issued_get|apply issued_send]]|done]). }
  exists q, e. rewrite Ht. split_and!; try done. apply D. lia.
Qed.

(** The one per-object endpoint that interpolates its identifier as it is,
    [getDispatchSteps], addresses the wrong object when the identifier holds a
    URL delimiter: everything from the first ["?"] or ["#"] on is cut from the
    path, so different request ids reach the same resource. *)
Theorem getDispatchSteps_unencoded id rest c n :
  c = 63 \/ c = 35 ->
  exists q q', issued (getDispatchSteps (id ++ c :: rest)) n = [q] /\ issued (getDispatchSteps id) n = [q'] /\
    url_path (rq_target q) = url_path (rq_target q').
Proof.
  intros Hc. do 2 eexists. split_and!; [apply issued_get|apply issued_get|]. cbn [rq_target].
  rewrite !app_assoc. generalize ((BASE ++ js "/dispatch-steps/") ++ id) as p. intros p. unfold url_path.
  assert (E : before_query (p ++ c :: rest) = before_query p); [|by rewrite E].
  induction p as [|x p IH]; simpl; [by destruct Hc as [-> | ->]|]. by rewrite IH.
Qed.

(** The identifiers ["."] and [".."] are dot segments: the provider of that
    name cannot be addressed, and deleting it goes to the collection or above. *)
Theorem dot_ids_lost n :
  (exists q, issued (deleteProvider (js ".")) n = [q] /\ rq_method q = js "DELETE" /\ url_path (rq_target q) = js "/api/v1/providers/") /\
  (exists q, issued (deleteProvider (js "..")) n = [q] /\ rq_method q = js "DELETE" /\ url_path (rq_target q) = js "/api/v1/").
Proof.
  assert (E1 : encodeURIComponent (js ".") = Ret (js ".")) by done. assert (E2 : encodeURIComponent (js "..") = Ret (js "..")) by done.
  split; eexists; (split; [etrans; [first [exact (issued_segment _ _ _ _ _ E1)|exact (issued_segment _ _ _ _ _ E2)]|apply issued_send]|]);
    (split; [done|]); by vm_compute.
Qed.

(** ** Failed replies *)

(** What a failed reply says: its own error text if it carries one, a stale
    gateway if it is a bare 404, the status otherwise. *)
Definition reply_error (resp : response) : exn :=
  match json_parse (rs_text resp) with
  | Ret b => if truthy (opt_prop (Some b) "error") then err_error (to_string (nullish (opt_prop (Some b) "error") JNull))
             else if rs_status resp =? 404 then staleBackendError else err_error (failed_message (rs_status resp))
  | Throw _ => if rs_status resp =? 404 then staleBackendError else err_error (failed_message (rs_status resp))
  end.

(** An [error] member that is falsy without being [null]: [""], [0], [false]. *)
Definition blank_error (resp : response) : bool :=
  match json_parse (rs_text resp) with
  | Ret b => match opt_prop (Some b) "error" with
             | None | Some JNull => false
             | v => negb (truthy v)
             end
  | Throw _ => false
  end.

Lemma getJSON_failed path ps n log resp n' :
  fetch {| rq_method := js "GET"; rq_target := BASE ++ path; rq_params := search_params ps; rq_body := None |} n = (Ret resp, n') ->
  resp_ok resp = false -> (getJSON path ps (n, log)).1 = Throw (reply_error resp).
Proof.
  intros Hf Hok. unfold getJSON, send, mbind, D_bind. rewrite Hf, Hok. cbn [negb]. unfold reply_error.
  destruct (json_parse (rs_text resp)) as [b|e]; [|by destruct (_ =? 404)].
  destruct (opt_prop (Some b) "error") as [v|]; [|by destruct (_ =? 404)].
  destruct (truthy (Some v)); [by destruct v|by destruct (_ =? 404)].
Qed.

Lemma sendJSON_failed m path b n log resp n' :
  fetch {| rq_method := m; rq_target := BASE ++ path; rq_params := []; rq_body := stringify <$> b |} n = (Ret resp, n') ->
  resp_ok resp = false ->
  (rs_status resp = 404 \/ blank_error resp = false) -> (sendJSON m path b (n, log)).1 = Throw (reply_error resp).
Proof.
  intros Hf Hok Hb. unfold sendJSON, send, mbind, D_bind. rewrite Hf, Hok. cbn [negb].
  unfold reply_error, blank_error in *.
  destruct (str_empty (rs_text resp)) eqn:Em.
  { apply str_empty_true in Em. rewrite Em. simpl. by destruct (_ =? 404). }
  destruct (json_parse (rs_text resp)) as [v|e]; [|simpl; by destruct (_ =? 404)].
  destruct (opt_prop (Some v) "error") as [w|]; [|simpl; by destruct (_ =? 404)].
  destruct (truthy (Some w)) eqn:T; simpl negb; [rewrite andb_false_r; by destruct w|]. rewrite andb_true_r.
  destruct (Z.eqb_spec (rs_status resp) 404); [done|]. destruct Hb as [|Hb]; [done|].
  destruct w; try done; simpl in Hb; simpl in T; congruence || (by rewrite T in Hb) || (destruct b0; done).
Qed.

(** When the gateway refuses a read and a write with the same reply, the
    two transports raise the same error: the reply's own error text, the
    stale-gateway hint for a 404 without one, the status otherwise.  The only
    replies on which they can differ carry an error member that is falsy but
    not null; there the write raises that blank text. *)
Theorem transports_agree path ps m path' b n n1 n2 log resp :
  fetch {| rq_method := js "GET"; rq_target := BASE ++ path; rq_params := search_params ps; rq_body := None |} n = (Ret resp, n1) ->
  fetch {| rq_method := m; rq_target := BASE ++ path'; rq_params := []; rq_body := stringify <$> b |} n = (Ret resp, n2) ->
  resp_ok resp = false ->
  (getJSON path ps (n, log)).1 = Throw (reply_error resp) /\
  (rs_status resp = 404 \/ blank_error resp = false ->
     (sendJSON m path' b (n, log)).1 = Throw (reply_error resp)) /\
  (rs_status resp <> 404 -> blank_error resp = true ->
     exists v, truthy (Some v) = false /\ (sendJSON m path' b (n, log)).1 = Throw (err_error (to_string v))).
Proof.
  intros H1 H2 Hok. split_and!.
  - by eapply getJSON_failed.
  - by eapply sendJSON_failed.
  - intros H4 Hb. unfold sendJSON, send, mbind, D_bind, blank_error in *. rewrite H2, Hok. cbn [negb].
    destruct (str_empty (rs_text resp)) eqn:Em.
    { apply str_empty_true in Em. by rewrite Em in Hb. }
    destruct (json_parse (rs_text resp)) as [v|e]; [|done].
    rewrite (proj2 (Z.eqb_neq _ _) H4). cbn [andb].
    destruct (opt_prop (Some v) "error") as [w|]; [|done]. exists w.
    destruct w; try done; bool_to_prop; done.
Qed.

(** A write sends one request, whatever comes of it. *)
Lemma sendJSON_log m path b n log : exists r n',
  sendJSON m path b (n, log) = (r, (n', log ++ [Requested {| rq_method := m; rq_target := BASE ++ path; rq_params := [];
                                                            rq_body := stringify <$> b |}])).
Proof.
  unfold sendJSON, send, mbind, D_bind. destruct (fetch _ n) as [[resp|e] n']; [|by eauto].
  repeat case_match; eexists _, _; reflexivity.
Qed.

(** ** Toasts *)

(** Each action with the request it makes, its success text and whether it
    shows the reply's warning. *)
Definition toast_actions : list (D Net unit * D Net json * jstr * bool) :=
  [(reloadConfigWithToast, reloadConfig, js "配置已重载。", true);
   (revealConfigFolderWithToast, revealConfigFolder, js "已在文件管理器中打开。", false);
   (quitAppWithToast, quitApp, js "正在退出…", false)].

(** What follows the success toast. *)
Definition follow_up (warns : bool) (res : json) : list effect :=
  if negb warns then []
  else match res with
       | JNull => [ToastError (js "Cannot read properties of null (reading 'warning')")]
       | _ => match opt_prop (Some res) "warning" with
              | Some w => if truthy (Some w) then [ToastWarning (to_string w)] else []
              | None => []
              end
       end.

(** The sidebar's actions never reject and report every outcome by a
    toast.  A failed request shows exactly one toast, with the error's message,
    and no success.  A successful one shows its success text, and the reload
    then shows the reply's warning if it has one; because the reload reads
    [res.warning] without a guard, a success whose body is empty or not JSON is
    followed by an error toast. *)
Theorem toasts_report act call text warns n log :
  (act, call, text, warns) ∈ toast_actions ->
  let '(r, (n', log')) := call (n, log) in
  act (n, log) = (Ret tt, (n', log' ++ match r with
                                       | Throw e => [ToastError (exn_message e)]
                                       | Ret res => ToastSuccess text :: follow_up warns res
                                       end)).
Proof.
  intros Hin. unfold toast_actions in Hin. set_unfold in Hin. destruct_or! Hin; injection Hin as -> -> -> ->;
    unfold reloadConfigWithToast, revealConfigFolderWithToast, quitAppWithToast, d_try, toast_error, emit, mbind, D_bind;
    (match goal with |- context [?c (n, log)] => destruct (c (n, log)) as [[res|e] [n' log']] end); try done.
  unfold d_lift, follow_up. cbn [negb]. destruct res as [| | | | |l]; simpl; try done.
  - by rewrite <- app_assoc.
  - destruct (lookup_prop _ l) as [w|]; [|done].
    change (match w with JNull | JBool false => false | JNum m => num_truthy m
            | JStr s => negb (str_empty s) | _ => true end) with (truthy (Some w)).
    destruct (truthy (Some w)); [|done]. rewrite <- app_assoc. by destruct w.
Qed.

End Theorems.

(** A gateway that answers every request alike. *)
Definition always (resp : response) : Fetch unit := fun _ n => (Ret resp, n).

Lemma by_id_addressing_witness : exists q e,
  issued (getTraceByRequestID (H := always {| rs_status := 200; rs_text := js "{}" |}) (js "a/b?€😀")) tt = [q] /\
  rq_target q = BASE ++ js "/trace/requests/" ++ e /\ url_path (rq_target q) = rq_target q /\ (47 ∉ e) /\
  decodeSegment e = Some (js "a/b?€😀").
Proof.
  apply (by_id_addressing (H := always {| rs_status := 200; rs_text := js "{}" |}) JNull (js "/trace/requests/")
           (getTraceByRequestID (H := always {| rs_status := 200; rs_text := js "{}" |}))).
  - right. left.
  - reflexivity.
  - repeat (constructor; [unfold unit_ok; vm_compute; split; congruence|]). constructor.
  - apply (bool_decide_unpack _). vm_compute. exact I.
Defined.

Lemma getDispatchSteps_unencoded_witness : exists q q',
  issued (getDispatchSteps (H := always {| rs_status := 200; rs_text := js "[]" |}) (js "r1" ++ 35 :: js "x")) tt = [q] /\
  issued (getDispatchSteps (H := always {| rs_status := 200; rs_text := js "[]" |}) (js "r1")) tt = [q'] /\
  url_path (rq_target q) = url_path (rq_target q').
Proof. apply (getDispatchSteps_unencoded (js "r1") (js "x") 35 tt). by right. Defined.

Lemma transports_agree_witness :
  let net := always {| rs_status := 404; rs_text := js "404 page not found" |} in
  (getJSON (H := net) (js "/logs") [] (tt, [])).1 = Throw staleBackendError.
Proof.
  exact (proj1 (transports_agree (H := always {| rs_status := 404; rs_text := js "404 page not found" |})
    (js "/logs") [] (js "POST") (js "/app/quit") None tt tt tt [] _ eq_refl eq_refl eq_refl)).
Defined.

Lemma toasts_report_witness :
  let net := always {| rs_status := 200; rs_text := [] |} in
  (reloadConfigWithToast (H := net) (tt, [])).2.2 =
  [Requested {| rq_method := js "POST"; rq_target := js "/api/v1/config/reload"; rq_params := []; rq_body := None |};
   ToastSuccess (js "配置已重载。"); ToastError (js "Cannot read properties of null (reading 'warning')")].
Proof.
  pose proof (toasts_report (H := always {| rs_status := 200; rs_text := [] |})
    _ _ _ _ tt [] ltac:(left)) as E.
  exact (f_equal (fun w => w.2.2) E).
Defined.
