(* ===== verification/Urls.v ===== *)
(** * URL query parameters

    The [URLSearchParams] object the search pages read and write
    ([application/x-www-form-urlencoded] of the URL standard), and the
    parameter object Next.js hands a server page. *)

From S2P Require Import Prelude JsNumber JsString Json AdminRuntime FormActions DesktopApi.

(** ** Serialising *)

(** The code points of a string, lone surrogates replaced ([USVString]). *)
Fixpoint code_points (s : jstr) : list Z :=
  match s with
  | [] => []
  | c :: t =>
      if is_high c then
        match t with
        | d :: t' => if is_low d then ((c - 55296) * 1024 + (d - 56320) + 65536) :: code_points t'
                     else 65533 :: code_points t
        | [] => [65533]
        end
      else if is_low c then 65533 :: code_points t
      else c :: code_points t
  end.

(** [s.toWellFormed()] *)
Definition toWellFormed (s : jstr) : jstr := flat_map utf16 (code_points s).

Definition form_safe (b : Z) : bool :=
  ((65 <=? b) && (b <=? 90)) || ((97 <=? b) && (b <=? 122)) || ((48 <=? b) && (b <=? 57))
  || (b =? 42) || (b =? 45) || (b =? 46) || (b =? 95).

Definition form_byte (b : Z) : jstr := if b =? 32 then [43] else if form_safe b then [b] else pct b.

Definition form_encode (s : jstr) : jstr := flat_map form_byte (flat_map utf8 (code_points s)).

(** Name-value pairs in order. *)
Definition params : Type := list (jstr * jstr).

Definition form_pair (kv : jstr * jstr) : jstr := form_encode kv.1 ++ 61 :: form_encode kv.2.

(** [params.toString()] *)
Definition usp_string (ps : params) : jstr := join (js "&") (map form_pair ps).

(** ** Parsing *)

Fixpoint percent_decode (s : list Z) : list Z :=
  match s with
  | [] => []
  | c :: t =>
      if c =? 37 then
        match t with
        | a :: b :: t' => match unhex a, unhex b with
                          | Some x, Some y => (16 * x + y) :: percent_decode t'
                          | _, _ => 37 :: percent_decode t
                          end
        | _ => 37 :: percent_decode t
        end
      else c :: percent_decode t
  end.

(** The UTF-8 decoder of the Encoding standard: bytes still needed, bounds of
    the next one, code point so far. *)
Record utf8_state : Type := { u_needed : nat; u_lower : Z; u_upper : Z; u_cp : Z }.

Definition utf8_idle : utf8_state := {| u_needed := 0; u_lower := 128; u_upper := 191; u_cp := 0 |}.

(** A byte at the start of a sequence: what is emitted, and the state after. *)
Definition utf8_start (b : Z) : list Z * utf8_state :=
  if b <? 128 then ([b], utf8_idle)
  else if (194 <=? b) && (b <=? 223) then
    ([], {| u_needed := 1; u_lower := 128; u_upper := 191; u_cp := b - 192 |})
  else if (224 <=? b) && (b <=? 239) then
    ([], {| u_needed := 2; u_lower := if b =? 224 then 160 else 128; u_upper := if b =? 237 then 159 else 191;
            u_cp := b - 224 |})
  else if (240 <=? b) && (b <=? 244) then
    ([], {| u_needed := 3; u_lower := if b =? 240 then 144 else 128; u_upper := if b =? 244 then 143 else 191;
            u_cp := b - 240 |})
  else ([65533], utf8_idle).

Definition utf8_step (st : utf8_state) (b : Z) : list Z * utf8_state :=
  match u_needed st with
  | O => utf8_start b
  | S n =>
      if (b <? u_lower st) || (u_upper st <? b) then
        let '(out, st') := utf8_start b in (65533 :: out, st')
      else
        let cp := u_cp st * 64 + (b - 128) in
        match n with
        | O => ([cp], utf8_idle)
        | _ => ([], {| u_needed := n; u_lower := 128; u_upper := 191; u_cp := cp |})
        end
  end.

Fixpoint utf8_run (st : utf8_state) (bs : list Z) : list Z :=
  match bs with
  | [] => match u_needed st with O => [] | _ => [65533] end
  | b :: t => let '(out, st') := utf8_step st b in out ++ utf8_run st' t
  end.

Definition plus_to_space (c : Z) : Z := if c =? 43 then 32 else c.

Definition form_decode (s : jstr) : jstr :=
  flat_map utf16 (utf8_run utf8_idle (percent_decode (flat_map utf8 (code_points (map plus_to_space s))))).

(** Split at the first ["="]; without one the value is empty. *)
Fixpoint cut_eq (s : jstr) : jstr * jstr :=
  match s with
  | [] => ([], [])
  | c :: t => if c =? 61 then ([], t) else let '(k, v) := cut_eq t in (c :: k, v)
  end.

(** [new URLSearchParams(s)] *)
Definition usp_parse (s : jstr) : params :=
  map (fun part => let '(k, v) := cut_eq part in (form_decode k, form_decode v)) (filter_truthy (split_char 38 s)).

(** ** Access *)

Definition usp_getAll (ps : params) (k : jstr) : list jstr := map snd (List.filter (fun kv => streq k kv.1) ps).

(** [params.get(k)], [None] for [null]. *)
Fixpoint usp_get (ps : params) (k : jstr) : option jstr :=
  match ps with
  | [] => None
  | (k', v) :: t => if streq k k' then Some v else usp_get t k
  end.

(** [params.get(k) ?? ""] *)
Definition usp_text (ps : params) (k : jstr) : jstr := default [] (usp_get ps k).

Definition usp_has (ps : params) (k : jstr) : bool := match usp_get ps k with Some _ => true | None => false end.

(** [params.delete(k)] *)
Definition usp_delete (k : jstr) (ps : params) : params := List.filter (fun kv => negb (streq k kv.1)) ps.

(** [params.set(k, v)]: the first pair of that name takes the value, the
    others are removed; a new name is appended. *)
Fixpoint usp_set (k v : jstr) (ps : params) : params :=
  match ps with
  | [] => [(k, v)]
  | (k', v') :: t => if streq k k' then (k, v) :: usp_delete k t else (k', v') :: usp_set k v t
  end.

(** [if (v) params.set(k, v)] *)
Definition usp_set_if (k v : jstr) (ps : params) : params := if str_empty v then ps else usp_set k v ps.

(** [if (v) params.set(k, v); else params.delete(k)] *)
Definition usp_assign (k v : jstr) (ps : params) : params := if str_empty v then usp_delete k ps else usp_set k v ps.

(** The property [k] of Next's [searchParams]: a repeated name is an array. *)
Definition search_param (ps : params) (k : jstr) : unknown :=
  match usp_getAll ps k with
  | [] => None
  | [v] => Some (JStr v)
  | l => Some (JStrs l)
  end.

(** [Number(v)] on a parameter. *)
Definition param_number (v : json) : num :=
  match v with JStr s => str_to_num s | JArr _ => str_to_num (to_string v) | JNum n => n | _ => NaN end.

(** ** Round trip *)

Definition scalar (cp : Z) : Prop := 0 <= cp < 55296 \/ 57344 <= cp < 1114112.

Lemma scalar_unit c : unit_ok c -> is_high c = false -> is_low c = false -> scalar c.
Proof. unfold unit_ok, is_high, is_low, scalar. rewrite !andb_false_iff, !Z.leb_gt. lia. Qed.

Lemma scalar_pair c d : is_high c = true -> is_low d = true -> scalar ((c - 55296) * 1024 + (d - 56320) + 65536).
Proof. unfold is_high, is_low, scalar. intros. bool_to_prop. lia. Qed.

Lemma scalar_replacement : scalar 65533.
Proof. unfold scalar. lia. Qed.

Lemma code_points_scalar s : wf_str s -> Forall scalar (code_points s).
Proof.
  remember (length s) as n eqn:E. assert (Hn : (length s <= n)%nat) by lia. clear E.
  revert s Hn. induction n as [|n IH]; intros [|c t] Hn W; simpl in Hn; try constructor; try lia.
  apply Forall_cons in W as [Hc W]. simpl. destruct (is_high c) eqn:Hh.
  - destruct t as [|d t']; [apply Forall_singleton, scalar_replacement|]. destruct (is_low d) eqn:Hd.
    + constructor; [by apply scalar_pair|]. apply IH; [simpl in *; lia|]. by apply Forall_cons in W as [_ W].
    + constructor; [apply scalar_replacement|]. by apply IH; [lia|].
  - destruct (is_low c) eqn:Hl; (constructor; [first [apply scalar_replacement | by apply scalar_unit]|]; by apply IH; [lia|]).
Qed.

Lemma toWellFormed_id s : isWellFormed s = true -> wf_str s -> toWellFormed s = s.
Proof.
  intros W. pattern s. revert s W. apply well_formed_ind; [done| |].
  - intros c t Hl Hh _ IH U. apply Forall_cons in U as [Uc Ut]. unfold toWellFormed in *. simpl. rewrite Hl, Hh. simpl.
    rewrite IH by done. unfold utf16, unit_ok in *. by rewrite (proj2 (Z.ltb_lt _ _)) by lia.
  - intros c d t Hl Hh Hd _ IH U. apply Forall_cons in U as [Uc Ut]. apply Forall_cons in Ut as [Ud Ut].
    unfold toWellFormed in *. cbn [code_points]. rewrite Hh, Hd. cbn [flat_map]. rewrite IH by done.
    unfold utf16, unit_ok, is_high, is_low in *. bool_to_prop. rewrite (proj2 (Z.ltb_ge _ _)) by lia. simpl.
    f_equal; [dlia|]. f_equal. dlia.
Qed.

(** Decide the comparisons of a goal by arithmetic. *)
Ltac decide_tests :=
  repeat (first [ rewrite (proj2 (Z.ltb_lt _ _)) by dlia | rewrite (proj2 (Z.ltb_ge _ _)) by dlia
                | rewrite (proj2 (Z.leb_le _ _)) by dlia | rewrite (proj2 (Z.leb_gt _ _)) by dlia ];
          cbn [andb orb]).

(** A continuation byte within the bounds. *)
Lemma utf8_run_next n lo hi cp b bs : lo <= b <= hi ->
  utf8_run {| u_needed := S n; u_lower := lo; u_upper := hi; u_cp := cp |} (b :: bs) =
  match n with
  | O => (cp * 64 + (b - 128)) :: utf8_run utf8_idle bs
  | _ => utf8_run {| u_needed := n; u_lower := 128; u_upper := 191; u_cp := cp * 64 + (b - 128) |} bs
  end.
Proof. intros H. cbn [utf8_run utf8_step u_needed u_lower u_upper u_cp]. decide_tests. by destruct n. Qed.

Lemma utf8_run_start b bs out st : utf8_start b = (out, st) -> utf8_run utf8_idle (b :: bs) = out ++ utf8_run st bs.
Proof. intros E. cbn [utf8_run utf8_step utf8_idle u_needed]. by rewrite E. Qed.

Lemma utf8_run_cp cp bs : scalar cp -> utf8_run utf8_idle (utf8 cp ++ bs) = cp :: utf8_run utf8_idle bs.
Proof.
  intros S. unfold scalar in S. unfold utf8.
  destruct (cp <? 128) eqn:H1; [|destruct (cp <? 2048) eqn:H2; [|destruct (cp <? 65536) eqn:H3]]; bool_to_prop;
    cbn [app]; (erewrite utf8_run_start; [|unfold utf8_start; decide_tests; reflexivity]); cbn [app].
  - done.
  - rewrite utf8_run_next by dlia. f_equal. dlia.
  - rewrite utf8_run_next by (repeat case_match; bool_to_prop; dlia). rewrite utf8_run_next by dlia. f_equal. dlia.
  - rewrite utf8_run_next by (repeat case_match; bool_to_prop; dlia). rewrite !utf8_run_next by dlia. f_equal. dlia.
Qed.

Lemma utf8_run_cps cps : Forall scalar cps -> utf8_run utf8_idle (flat_map utf8 cps) = cps.
Proof. induction 1 as [|cp cps S _ IH]; [done|]. cbn [flat_map]. by rewrite utf8_run_cp, IH by done. Qed.

Lemma utf8_bytes cp : scalar cp -> Forall (fun b => 0 <= b < 256) (utf8 cp).
Proof. unfold scalar, utf8. intros S. repeat case_match; bool_to_prop; repeat constructor; dlia. Qed.

(** ASCII text is its own code points and its own UTF-8. *)
Lemma ascii_bytes s : Forall (fun c => 0 <= c < 128) s -> flat_map utf8 (code_points s) = s.
Proof.
  induction 1 as [|c s Hc _ IH]; [done|]. cbn [code_points]. unfold is_high, is_low. decide_tests. cbn [flat_map].
  rewrite IH. unfold utf8. by decide_tests.
Qed.

(** A serialised byte: ASCII, no separator, and decoded to itself. *)
Lemma form_byte_units b : 0 <= b < 256 -> Forall (fun c => 0 <= c < 128 /\ c <> 38 /\ c <> 61) (form_byte b).
Proof.
  intros Hb. unfold form_byte, form_safe. destruct (b =? 32) eqn:E1; [repeat constructor; lia|].
  case_match eqn:E2.
  - repeat constructor; repeat (apply orb_true_iff in E2 as [E2|E2]); bool_to_prop; lia.
  - unfold pct, upper_hex. repeat constructor; repeat case_match; bool_to_prop; dlia.
Qed.

Lemma unhex_upper n : 0 <= n < 16 -> unhex (upper_hex n) = Some n.
Proof.
  intros H. unfold unhex, radix_digit, upper_hex, is_digit.
  destruct (n <? 10) eqn:E; bool_to_prop; decide_tests; f_equal; lia.
Qed.

Lemma percent_decode_byte b r : 0 <= b < 256 ->
  percent_decode (map plus_to_space (form_byte b) ++ r) = b :: percent_decode r.
Proof.
  intros Hb. unfold form_byte. destruct (Z.eqb_spec b 32) as [-> |N]; [done|]. destruct (form_safe b) eqn:E.
  - assert (b <> 43 /\ b <> 37) as [N1 N2] by (unfold form_safe in E; repeat (apply orb_true_iff in E as [E|E]); bool_to_prop; lia).
    unfold plus_to_space. cbn [map app percent_decode]. rewrite (proj2 (Z.eqb_neq b 43) N1). cbn [app percent_decode].
    by rewrite (proj2 (Z.eqb_neq b 37) N2).
  - assert (P : forall n, 0 <= n < 16 -> plus_to_space (upper_hex n) = upper_hex n).
    { intros n Hn. unfold plus_to_space, upper_hex. repeat case_match; bool_to_prop; lia. }
    unfold pct. cbn [map app]. rewrite !P by dlia. change (plus_to_space 37) with 37. cbn [percent_decode Z.eqb].
    rewrite !unhex_upper by dlia. f_equal. dlia.
Qed.

Lemma percent_decode_bytes bs : Forall (fun b => 0 <= b < 256) bs ->
  percent_decode (map plus_to_space (flat_map form_byte bs)) = bs.
Proof.
  induction 1 as [|b bs Hb _ IH]; [done|]. cbn [flat_map]. by rewrite map_app, percent_decode_byte, IH.
Qed.

Lemma Forall_flat_map {A B} (P : A -> Prop) (Q : B -> Prop) (f : A -> list B) l :
  (forall x, P x -> Forall Q (f x)) -> Forall P l -> Forall Q (flat_map f l).
Proof. intros H. induction 1; [constructor|]. cbn [flat_map]. apply Forall_app. auto. Qed.

Lemma encoded_bytes s : wf_str s -> Forall (fun b => 0 <= b < 256) (flat_map utf8 (code_points s)).
Proof. intros W. eapply Forall_flat_map; [apply utf8_bytes|by apply code_points_scalar]. Qed.

Lemma form_encode_units s : wf_str s -> Forall (fun c => 0 <= c < 128 /\ c <> 38 /\ c <> 61) (form_encode s).
Proof. intros W. eapply Forall_flat_map; [apply form_byte_units|by apply encoded_bytes]. Qed.

(** Decoding an encoded name or value gives it back, lone surrogates replaced. *)
Lemma form_roundtrip s : wf_str s -> form_decode (form_encode s) = toWellFormed s.
Proof.
  intros W. unfold form_decode. rewrite ascii_bytes.
  - unfold form_encode. rewrite percent_decode_bytes by by apply encoded_bytes.
    by rewrite utf8_run_cps by by apply code_points_scalar.
  - apply Forall_map. eapply Forall_impl; [by apply form_encode_units|]. intros c [Hc _]. unfold plus_to_space.
    cbn. case_match; lia.
Qed.

Lemma cut_eq_app k v : 61 ∉ k -> cut_eq (k ++ 61 :: v) = (k, v).
Proof.
  induction k as [|c k IH]; intros H; [done|]. apply not_elem_of_cons in H as [N H]. cbn [app cut_eq].
  rewrite (proj2 (Z.eqb_neq c 61)) by congruence. by rewrite IH.
Qed.

Definition wf_param (kv : jstr * jstr) : Prop := wf_str kv.1 /\ wf_str kv.2.
Definition clean_param (kv : jstr * jstr) : jstr * jstr := (toWellFormed kv.1, toWellFormed kv.2).

Lemma not_in_units (c : Z) s : Forall (fun x => 0 <= x < 128 /\ x <> 38 /\ x <> 61) s -> c = 38 \/ c = 61 -> c ∉ s.
Proof. intros F H I. rewrite Forall_forall in F. destruct (F c I). lia. Qed.

Lemma form_pair_parse kv : wf_param kv ->
  (let '(k, v) := cut_eq (form_pair kv) in (form_decode k, form_decode v)) = clean_param kv.
Proof.
  intros [Wk Wv]. unfold form_pair. rewrite cut_eq_app by (eapply not_in_units; [by apply form_encode_units|auto]).
  by rewrite !form_roundtrip by done.
Qed.

Lemma form_pair_amp kv : wf_param kv -> 38 ∉ form_pair kv.
Proof.
  intros [Wk Wv]. unfold form_pair. rewrite not_elem_of_app, not_elem_of_cons.
  repeat split; try lia; eapply not_in_units; eauto using form_encode_units.
Qed.

Lemma split_pairs ps : ps <> [] -> Forall wf_param ps -> split_char 38 (usp_string ps) = map form_pair ps.
Proof.
  unfold usp_string. change (js "&") with [38]. intros N F. induction F as [|kv ps W F IH]; [done|].
  destruct ps as [|kv' ps]; [by apply split_char_none, form_pair_amp|].
  rewrite map_cons, join_cons by done. cbn [app]. rewrite split_char_app by by apply form_pair_amp. by rewrite IH.
Qed.

Lemma filter_pairs ps : filter_truthy (map form_pair ps) = map form_pair ps.
Proof.
  unfold filter_truthy. induction ps as [|kv ps IH]; [done|]. cbn [map List.filter]. rewrite IH.
  unfold form_pair at 1. by destruct (form_encode kv.1).
Qed.

(** Parsing a serialised query gives the same pairs in the same order. *)
Lemma usp_roundtrip ps : Forall wf_param ps -> usp_parse (usp_string ps) = map clean_param ps.
Proof.
  intros F. unfold usp_parse. destruct (decide (ps = [])) as [-> |N]; [done|].
  rewrite split_pairs, filter_pairs, map_map by done. clear N. induction F as [|kv ps W F IH]; [done|].
  cbn [map]. by rewrite IH, form_pair_parse.
Qed.

(** ** Laws of access *)

Lemma usp_get_delete k k' ps : usp_get (usp_delete k ps) k' = if streq k' k then None else usp_get ps k'.
Proof.
  induction ps as [|[a v] ps IH]; simpl; [by case_match|].
  destruct (streq k a) eqn:E; simpl; rewrite IH.
  - bool_to_prop. subst a. by destruct (streq k' k).
  - destruct (streq k' a) eqn:E2; [|done]. bool_to_prop. subst a.
    destruct (streq k' k) eqn:E3; [|done]. bool_to_prop. by subst.
Qed.

Lemma usp_get_set k v k' ps : usp_get (usp_set k v ps) k' = if streq k' k then Some v else usp_get ps k'.
Proof.
  induction ps as [|[a w] ps IH]; simpl; [done|].
  destruct (streq k a) eqn:E; simpl.
  - bool_to_prop. subst a. destruct (streq k' k) eqn:E2; [done|]. rewrite usp_get_delete. by rewrite E2.
  - rewrite IH. destruct (streq k' a) eqn:E2; [|done]. bool_to_prop. subst a.
    destruct (streq k' k) eqn:E3; [|done]. bool_to_prop. by subst.
Qed.

Lemma usp_get_set_if k v k' ps :
  usp_get (usp_set_if k v ps) k' = if negb (str_empty v) && streq k' k then Some v else usp_get ps k'.
Proof. unfold usp_set_if. destruct (str_empty v); [done|]. by rewrite usp_get_set. Qed.

Lemma usp_get_assign k v k' ps :
  usp_get (usp_assign k v ps) k' = if streq k' k then (if str_empty v then None else Some v) else usp_get ps k'.
Proof. unfold usp_assign. destruct (str_empty v); [by rewrite usp_get_delete|by rewrite usp_get_set]. Qed.

Create Rewrite HintDb usp.
#[export] Hint Rewrite usp_get_set usp_get_delete usp_get_set_if usp_get_assign : usp.

(** No name is repeated. *)
Definition once (ps : params) : Prop := NoDup (map fst ps).

Lemma once_delete k ps : once ps -> once (usp_delete k ps).
Proof.
  unfold once, usp_delete. induction ps as [|[a v] ps IH]; [done|]. cbn [map fst]. intros H. apply NoDup_cons in H as [N H].
  cbn [List.filter fst]. destruct (streq k a); simpl; [by apply IH|]. constructor; [|by apply IH].
  intros I. apply N. apply list_elem_of_In in I. apply in_map_iff in I as (x & <- & I). apply filter_In in I as [I _].
  apply list_elem_of_In. by apply in_map.
Qed.

Lemma set_fst k v ps x : x ∈ map fst (usp_set k v ps) -> x = k \/ x ∈ map fst ps.
Proof.
  induction ps as [|[a w] ps IH]; cbn [usp_set].
  - intros H. apply list_elem_of_singleton in H. by left.
  - destruct (streq k a) eqn:E; cbn [map fst]; rewrite !elem_of_cons.
    + intros [-> |H]; [by left|]. right. right. apply list_elem_of_In, in_map_iff in H as (y & <- & H).
      apply filter_In in H as [H _]. apply list_elem_of_In, in_map, H.
    + intros [-> |H]; [by right; left|]. destruct (IH H); auto.
Qed.

Lemma once_set k v ps : once ps -> once (usp_set k v ps).
Proof.
  unfold once. induction ps as [|[a w] ps IH]; cbn [usp_set map fst].
  - intros _. apply NoDup_singleton.
  - intros H. apply NoDup_cons in H as [N H]. destruct (streq k a) eqn:E; cbn [map fst].
    + bool_to_prop. subst a. constructor.
      * intros I. apply list_elem_of_In, in_map_iff in I as (y & Ey & I). apply filter_In in I as [_ I].
        rewrite Ey, streq_refl in I. done.
      * by apply (once_delete k ps).
    + constructor; [|by apply IH]. intros I. apply set_fst in I as [-> |I]; [|done]. by rewrite streq_refl in E.
Qed.

Lemma once_set_if k v ps : once ps -> once (usp_set_if k v ps).
Proof. unfold usp_set_if. case_match; auto using once_set. Qed.

Lemma once_assign k v ps : once ps -> once (usp_assign k v ps).
Proof. unfold usp_assign. case_match; auto using once_set, once_delete. Qed.

Lemma once_nil : once [].
Proof. apply NoDup_nil_2. Qed.

#[export] Hint Resolve once_nil once_set once_delete once_set_if once_assign : voxel.

(** Without repeated names the page sees the value [get] returns. *)
Lemma search_param_get ps k : once ps -> search_param ps k = JStr <$> usp_get ps k.
Proof.
  intros O. unfold search_param. enough (E : usp_getAll ps k = match usp_get ps k with Some v => [v] | None => [] end)
    by (rewrite E; by destruct (usp_get ps k)).
  unfold usp_getAll, once in *. induction ps as [|[a v] ps IH]; [done|]. cbn [map fst] in O. apply NoDup_cons in O as [N O].
  cbn [List.filter fst usp_get]. destruct (streq k a) eqn:E; [|by apply IH]. cbn [map snd]. f_equal.
  bool_to_prop. subst a. clear IH. induction ps as [|[b w] ps IH]; [done|]. cbn [map fst] in *. cbn [List.filter fst].
  apply not_elem_of_cons in N as [N1 N2]. apply NoDup_cons in O as [_ O].
  rewrite (proj2 (streq_false k b) N1). by apply IH.
Qed.

(** ** [decodeURIComponent] *)

(** Escaped bytes ([inr]) and literal units ([inl]); [None] where ["%"] is not
    followed by two hexadecimal digits. *)
Fixpoint escapes (s : jstr) : option (list (Z + Z)) :=
  match s with
  | [] => Some []
  | c :: t =>
      if c =? 37 then
        match t with
        | a :: b :: t' => x ← unhex a; y ← unhex b; r ← escapes t'; Some (inr (16 * x + y) :: r)
        | _ => None
        end
      else r ← escapes t; Some (inl c :: r)
  end.

Definition continuation (lo hi b : Z) : bool := (lo <=? b) && (b <=? hi).

(** Runs of escaped bytes must be valid UTF-8. *)
Fixpoint join_escapes (l : list (Z + Z)) : option jstr :=
  match l with
  | [] => Some []
  | inl c :: t => r ← join_escapes t; Some (c :: r)
  | inr b :: t =>
      if b <? 128 then r ← join_escapes t; Some (b :: r)
      else if (194 <=? b) && (b <=? 223) then
        match t with
        | inr b1 :: t1 =>
            if continuation 128 191 b1 then
              r ← join_escapes t1; Some (utf16 ((b - 192) * 64 + (b1 - 128)) ++ r)
            else None
        | _ => None
        end
      else if (224 <=? b) && (b <=? 239) then
        match t with
        | inr b1 :: inr b2 :: t2 =>
            if continuation (if b =? 224 then 160 else 128) (if b =? 237 then 159 else 191) b1 && continuation 128 191 b2 then
              r ← join_escapes t2; Some (utf16 ((b - 224) * 4096 + (b1 - 128) * 64 + (b2 - 128)) ++ r)
            else None
        | _ => None
        end
      else if (240 <=? b) && (b <=? 244) then
        match t with
        | inr b1 :: inr b2 :: inr b3 :: t3 =>
            if continuation (if b =? 240 then 144 else 128) (if b =? 244 then 143 else 191) b1
               && continuation 128 191 b2 && continuation 128 191 b3 then
              r ← join_escapes t3;
              Some (utf16 ((b - 240) * 262144 + (b1 - 128) * 4096 + (b2 - 128) * 64 + (b3 - 128)) ++ r)
            else None
        | _ => None
        end
      else None
  end.

Definition decodeURIComponent (s : jstr) : result jstr :=
  match l ← escapes s; join_escapes l with
  | Some r => Ret r
  | None => Throw (EError (js "URIError") (js "URI malformed"))
  end.

Lemma escapes_pct b t : 0 <= b < 256 -> escapes (pct b ++ t) = (r ← escapes t; Some (inr b :: r)).
Proof.
  intros Hb. unfold pct. cbn [app escapes Z.eqb]. rewrite !unhex_upper by dlia. cbn [mbind option_bind].
  destruct (escapes t); [|done]. simpl. do 3 f_equal. dlia.
Qed.

Lemma escapes_pcts bs t : Forall (fun b => 0 <= b < 256) bs ->
  escapes (flat_map pct bs ++ t) = (r ← escapes t; Some (map inr bs ++ r)).
Proof.
  induction 1 as [|b bs Hb _ IH]; [simpl; by destruct (escapes t)|]. cbn [flat_map]. rewrite <- app_assoc, escapes_pct, IH by done.
  by destruct (escapes t).
Qed.

(** What [decodeURIComponent] makes of one encoded code point. *)
Lemma join_escapes_cp cp r : scalar cp -> join_escapes (map inr (utf8 cp) ++ r) = (x ← join_escapes r; Some (utf16 cp ++ x)).
Proof.
  intros S. unfold scalar in S. unfold utf8, continuation.
  destruct (cp <? 128) eqn:H1; [|destruct (cp <? 2048) eqn:H2; [|destruct (cp <? 65536) eqn:H3]]; bool_to_prop;
    cbn [app map join_escapes].
  - rewrite (proj2 (Z.ltb_lt cp 128)) by lia. unfold utf16. by rewrite (proj2 (Z.ltb_lt cp 65536)) by lia.
  - unfold continuation. decide_tests. destruct (join_escapes r); [|done]. simpl. do 3 f_equal. dlia.
  - unfold continuation. decide_tests.
    assert (E : (if 224 + cp / 4096 =? 224 then 160 else 128) <= 128 + cp / 64 mod 64
                <= (if 224 + cp / 4096 =? 237 then 159 else 191)) by (repeat case_match; bool_to_prop; dlia).
    destruct E as [-> %Z.leb_le -> %Z.leb_le]. decide_tests. destruct (join_escapes r); [|done]. simpl. do 3 f_equal. dlia.
  - unfold continuation. decide_tests.
    assert (E : (if 240 + cp / 262144 =? 240 then 144 else 128) <= 128 + cp / 4096 mod 64
                <= (if 240 + cp / 262144 =? 244 then 143 else 191)) by (repeat case_match; bool_to_prop; dlia).
    destruct E as [-> %Z.leb_le -> %Z.leb_le]. decide_tests. destruct (join_escapes r); [|done]. simpl. do 3 f_equal. dlia.
Qed.

Lemma decode_cp_app cp e s : scalar cp -> (l ← escapes e; join_escapes l) = Some s ->
  (l ← escapes (encode_cp cp ++ e); join_escapes l) = Some (utf16 cp ++ s).
Proof.
  intros S E. unfold encode_cp. destruct (is_unreserved cp) eqn:U.
  - assert (N : cp <> 37 /\ cp < 128) by (unfold is_unreserved in U; repeat (apply orb_true_iff in U as [U|U]); bool_to_prop; lia).
    cbn [app escapes]. rewrite (proj2 (Z.eqb_neq _ _)) by apply N.
    destruct (escapes e) as [l|]; [|done]. simpl in *. rewrite E. unfold utf16. by rewrite (proj2 (Z.ltb_lt cp 65536)) by lia.
  - rewrite escapes_pcts by by apply utf8_bytes. destruct (escapes e) as [l|]; [|done]. cbn [mbind option_bind] in *.
    rewrite join_escapes_cp by done. by rewrite E.
Qed.

(** Decoding an encoded component gives it back. *)
Lemma component_roundtrip s : isWellFormed s = true -> wf_str s ->
  exists e, encodeURIComponent s = Ret e /\ decodeURIComponent e = Ret s.
Proof.
  intros W U. enough (H : exists e, encodeURIComponent s = Ret e /\ (l ← escapes e; join_escapes l) = Some s).
  { destruct H as (e & E & D). exists e. split; [done|]. unfold decodeURIComponent. by rewrite D. }
  revert U. pattern s. revert s W. apply well_formed_ind.
  - intros _. by exists [].
  - intros c t Hl Hh _ IH U. apply Forall_cons in U as [Uc Ut]. destruct (IH Ut) as (e & E & D).
    exists (encode_cp c ++ e). split; [simpl; by rewrite Hl, Hh, E|].
    rewrite (decode_cp_app c e t) by (done || by apply scalar_unit). unfold utf16, unit_ok in *.
    by rewrite (proj2 (Z.ltb_lt _ _)) by lia.
  - intros c d t Hl Hh Hd _ IH U. apply Forall_cons in U as [Uc Ut]. apply Forall_cons in Ut as [Ud Ut].
    destruct (IH Ut) as (e & E & D). exists (encode_cp ((c - 55296) * 1024 + (d - 56320) + 65536) ++ e).
    split; [cbn [encodeURIComponent]; by rewrite Hl, Hh, Hd, E|].
    rewrite (decode_cp_app _ e t) by (done || by apply scalar_pair).
    unfold utf16, unit_ok, is_high, is_low in *. bool_to_prop. rewrite (proj2 (Z.ltb_ge _ _)) by lia. simpl.
    do 2 f_equal; [dlia|]. f_equal. dlia.
Qed.

(** ** A component in the query of an address

    [`?agent=${encodeURIComponent(a)}`], read back by [URLSearchParams]. *)

Lemma percent_decode_pct b r : 0 <= b < 256 -> percent_decode (map plus_to_space (pct b) ++ r) = b :: percent_decode r.
Proof.
  intros Hb. assert (P : forall n, 0 <= n < 16 -> plus_to_space (upper_hex n) = upper_hex n).
  { intros n Hn. unfold plus_to_space, upper_hex. repeat case_match; bool_to_prop; lia. }
  unfold pct. cbn [map app]. rewrite !P by dlia. change (plus_to_space 37) with 37. cbn [percent_decode Z.eqb].
  rewrite !unhex_upper by dlia. f_equal. dlia.
Qed.

Lemma unreserved_unit c : is_unreserved c = true -> 0 <= c < 128 /\ c <> 37 /\ c <> 38 /\ c <> 43 /\ c <> 61.
Proof. intros U. unfold is_unreserved in U. repeat (apply orb_true_iff in U as [U|U]); bool_to_prop; lia. Qed.

Lemma percent_decode_cp cp r : scalar cp -> percent_decode (map plus_to_space (encode_cp cp) ++ r) = utf8 cp ++ percent_decode r.
Proof.
  intros S. unfold encode_cp. destruct (is_unreserved cp) eqn:U.
  - apply unreserved_unit in U as (B & N1 & _ & N2 & _). cbn [map app]. unfold plus_to_space. rewrite (proj2 (Z.eqb_neq cp 43) N2).
    cbn [percent_decode]. rewrite (proj2 (Z.eqb_neq cp 37) N1). unfold utf8. by rewrite (proj2 (Z.ltb_lt cp 128)) by lia.
  - pose proof (utf8_bytes cp S) as F. revert F. generalize (utf8 cp) as bs. induction bs as [|b bs IH]; [done|].
    intros [Hb F]%Forall_cons. cbn [flat_map]. rewrite map_app, <- app_assoc, percent_decode_pct by done. cbn [app]. by rewrite IH.
Qed.

Lemma encode_cp_units cp : scalar cp -> Forall (fun c => 0 <= c < 128 /\ c <> 38 /\ c <> 61) (encode_cp cp).
Proof.
  intros S. unfold encode_cp. destruct (is_unreserved cp) eqn:U.
  - apply unreserved_unit in U. constructor; [lia|constructor].
  - eapply Forall_flat_map; [|by apply utf8_bytes]. intros b Hb. cbn beta in Hb. assert (forall n, 0 <= n < 16 -> 48 <= upper_hex n < 71) as X.
    { intros n Hn. unfold upper_hex. case_match; bool_to_prop; lia. }
    unfold pct. assert (upper_hex (b / 16) <> 61 /\ upper_hex (b mod 16) <> 61) as [? ?] by (split; unfold upper_hex; case_match; bool_to_prop; dlia).
    pose proof (X (b / 16) ltac:(dlia)). pose proof (X (b mod 16) ltac:(dlia)). repeat (constructor; [lia|]). constructor.
Qed.

Lemma encode_code_points s : isWellFormed s = true -> wf_str s -> encodeURIComponent s = Ret (flat_map encode_cp (code_points s)).
Proof.
  intros W. pattern s. revert s W. apply well_formed_ind.
  - done.
  - intros c t Hl Hh _ IH U. apply Forall_cons in U as [Uc Ut]. cbn [encodeURIComponent code_points]. rewrite Hl, Hh. by rewrite IH.
  - intros c d t Hl Hh Hd _ IH U. apply Forall_cons in U as [Uc Ut]. apply Forall_cons in Ut as [Ud Ut].
    cbn [encodeURIComponent code_points]. rewrite Hl, Hh, Hd. by rewrite IH.
Qed.

Lemma component_form_decode s e : isWellFormed s = true -> wf_str s -> encodeURIComponent s = Ret e ->
  Forall (fun c => 0 <= c < 128 /\ c <> 38 /\ c <> 61) e /\ form_decode e = s.
Proof.
  intros W U E. rewrite encode_code_points in E by done. injection E as <-. pose proof (code_points_scalar s U) as S.
  assert (A : Forall (fun c => 0 <= c < 128 /\ c <> 38 /\ c <> 61) (flat_map encode_cp (code_points s)))
    by (eapply Forall_flat_map; [apply encode_cp_units|done]).
  split; [done|]. unfold form_decode. rewrite ascii_bytes.
  2:{ apply Forall_map. eapply Forall_impl; [exact A|]. intros c [Hc _]. unfold plus_to_space. cbn. case_match; lia. }
  assert (P : percent_decode (map plus_to_space (flat_map encode_cp (code_points s))) = flat_map utf8 (code_points s)).
  { clear A. induction S as [|cp cps Hc _ IH]; [done|]. cbn [flat_map]. rewrite map_app, percent_decode_cp by done. by rewrite IH. }
  rewrite P, utf8_run_cps by done. by apply toWellFormed_id.
Qed.

(** An encoded component, read as the value of a parameter, is the text. *)
Lemma component_part k s : k <> [] -> 38 ∉ k -> 61 ∉ k -> form_decode k = k -> isWellFormed s = true -> wf_str s ->
  exists e, encodeURIComponent s = Ret e /\ (38 ∉ k ++ 61 :: e) /\ (forall ws,
    map (fun part => let '(k, v) := cut_eq part in (form_decode k, form_decode v)) (filter_truthy ((k ++ 61 :: e) :: ws))
    = (k, s) :: map (fun part => let '(k, v) := cut_eq part in (form_decode k, form_decode v)) (filter_truthy ws)).
Proof.
  intros N A Q D W U. destruct (component_roundtrip s W U) as (e & E & _). exists e. split; [done|].
  destruct (component_form_decode s e W U E) as [F De]. split.
  - rewrite elem_of_app, elem_of_cons. rewrite Forall_forall in F. intros [X|[X|X]]; [done|done|]. apply F in X. lia.
  - intros ws. unfold filter_truthy. cbn [List.filter]. destruct k as [|c k]; [done|]. cbn [app str_empty negb]. cbn [map].
    change (c :: k ++ 61 :: e) with ((c :: k) ++ 61 :: e). rewrite cut_eq_app by done. by rewrite D, De.
Qed.

Lemma component_param k s : k <> [] -> 38 ∉ k -> 61 ∉ k -> form_decode k = k -> isWellFormed s = true -> wf_str s ->
  exists e, encodeURIComponent s = Ret e /\ usp_parse (k ++ 61 :: e) = [(k, s)] /\
    forall r, usp_parse ((k ++ 61 :: e) ++ 38 :: r) = (k, s) :: usp_parse r.
Proof.
  intros N A Q D W U. destruct (component_part k s N A Q D W U) as (e & E & X & P). exists e. split; [done|].
  unfold usp_parse. split; [by rewrite split_char_none, P|]. intros r. by rewrite split_char_app, P.
Qed.
