(* ===== verification/Format.v ===== *)
(** * Display formatting of the desktop UI

    [desktop-ui/src/lib/format.ts]: labels, tones and compact renderings of
    counts, ratios and durations (its money half is in [Money]).  Locale
    formatting and the [Date] parser are the interface [Locale]. *)

From S2P Require Import Prelude JsNumber JsString Money.

(** What the runtime's internationalisation library supplies. *)
Class Locale : Type := {
  number_zh : num -> jstr;                  (* [n.toLocaleString("zh-CN")] *)
  date_time : jstr -> num;                  (* [new Date(iso).getTime()] *)
  date_zh : jstr -> jstr;                   (* [d.toLocaleString("zh-CN", { hour12: false })] *)
}.

(** ** Labels and tones *)

Definition AGENT_LABELS : list (jstr * jstr) :=
  [(js "claude-code", js "Claude Code"); (js "codex", js "Codex"); (js "codebuddy", js "CodeBuddy");
   (js "workbuddy", js "WorkBuddy"); (js "opencode", js "OpenCode")].

(** Names every object literal inherits; indexing one by such a name yields
    the inherited member instead of [undefined]. *)
Definition inherited_names : list jstr :=
  map js ["constructor"; "toString"; "toLocaleString"; "valueOf"; "hasOwnProperty"; "isPrototypeOf"; "propertyIsEnumerable";
          "__proto__"; "__defineGetter__"; "__defineSetter__"; "__lookupGetter__"; "__lookupSetter__"].

Inductive label : Type :=
  | Text (s : jstr)
  | Inherited (name : jstr).

Definition agentLabel (agentType : jstr) : label :=
  if str_empty agentType then Text (js "其他")
  else match List.find (fun kv => streq kv.1 agentType) AGENT_LABELS with
       | Some kv => Text kv.2
       | None => if array_includes inherited_names agentType then Inherited agentType else Text agentType
       end.

Inductive tone : Type := Tprimary | Tsuccess | Twarning | Tmuted | Tdestructive | Tdefault.
#[global] Instance tone_eq_dec : EqDecision tone.
Proof. solve_decision. Defined.

Definition agentTone (agentType : jstr) : tone :=
  if streq agentType (js "claude-code") then Tprimary
  else if streq agentType (js "codebuddy") then Tsuccess
  else if streq agentType (js "codex") then Twarning
  else Tmuted.

Definition statusTone (status : option num) : tone :=
  let s := default (int 0) status in
  if nle (int 200) s && nlt s (int 300) then Tsuccess
  else if nle (int 400) s && nlt s (int 500) then Twarning
  else if nle (int 500) s then Tdestructive
  else Tmuted.

Definition shortId (id : option jstr) (n : nat) : jstr :=
  match id with
  | None => js "-"
  | Some s => if str_empty s then js "-"
              else if (n <? length s)%nat then take n s ++ js "…" else s
  end.

(** ** Quantities *)

Definition formatNumber `{Locale} (n : option num) : jstr := number_zh (default (int 0) n).

Definition formatPercent (v : option num) : jstr :=
  num_to_string (nround (nmul (default (int 0) v) (int 100))) ++ js "%".

Definition formatDuration (ms : option num) : jstr :=
  let v := default (int 0) ms in
  if nlt v (int 1000) then num_to_string v ++ js "ms"
  else toFixed 2 (ndiv v (int 1000)) ++ js "s".

Definition formatDurationCompact (ms : option num) : jstr :=
  let v := default (int 0) ms in
  if nle v (int 0) then js "—"
  else if nlt v (int 60000) then toFixed 1 (ndiv v (int 1000)) ++ js "s"
  else
    let m := nfloor (ndiv v (int 60000)) in
    let s := nfloor (ndiv (nmod v (int 60000)) (int 1000)) in
    num_to_string m ++ js "m" ++ num_to_string s ++ js "s".

Definition formatTokens (n : option num) : jstr :=
  let v := default (int 0) n in
  if nle (int 1000000) v then toFixed 1 (ndiv v (int 1000000)) ++ js "M"
  else if nle (int 1000) v then toFixed 1 (ndiv v (int 1000)) ++ js "k"
  else num_to_string v.

Definition formatTime `{Locale} (iso : option jstr) : jstr :=
  match iso with
  | None => js "-"
  | Some s => if str_empty s then js "-"
              else if is_nan (date_time s) then s
              else date_zh s
  end.

(** ** Decimal renderings *)

(** [s] is a decimal numeral with [f] fractional digits denoting [n / 10^f]. *)
Definition shows (f : nat) (s : jstr) (n : Z) : Prop := exists ip fp,
  s = ip ++ js "." ++ fp /\ ip <> [] /\ length fp = f /\
  Forall (fun c => is_digit c = true) (ip ++ fp) /\ dval (ip ++ fp) = n.

Lemma toFixed_shows f m k : (0 < f)%nat -> 0 <= m < 10 ^ 21 * pow2 k ->
  shows f (toFixed f (Fin m k)) ((2 * m * 10 ^ Z.of_nat f + pow2 k) / (2 * pow2 k)).
Proof.
  intros Hf Hm. unfold toFixed. pose proof (pow2_pos k). rewrite Z.abs_eq by lia.
  rewrite (proj2 (Z.leb_gt _ _)) by lia. rewrite (proj2 (Z.ltb_ge _ _)) by lia.
  rewrite (proj2 (Nat.eqb_neq f 0)) by lia. cbv zeta.
  set (n := _ / _). assert (0 <= n) by (apply Z.div_pos; nia).
  destruct (digits_spec n) as [Dv Dd]; [done|].
  destruct (padStart_digits (S f) (digits n) Dd) as [Pd Pv].
  set (d := padStart (S f) 48 (digits n)) in *.
  assert (L : (S f <= length d)%nat).
  { subst d. unfold padStart. rewrite length_app, length_replicate. lia. }
  exists (take (length d - f) d), (drop (length d - f) d). rewrite take_drop, length_drop. split_and!; try done.
  - intros E. apply (f_equal length) in E. rewrite length_take in E. simpl in E. lia.
  - lia.
  - congruence.
Qed.

(** The quotient of two integers, rounded to a double and then printed with
    [f] decimals, is the quotient rounded to [f] decimals: the first rounding
    never moves the second one past a half. *)
Lemma toFixed_rnd f a b e :
  (0 < f)%nat -> 0 < a -> 0 < b -> 0 <= e <= 51 -> a < b * 2 ^ (e + 1) -> b * 10 ^ Z.of_nat f < 2 ^ (52 - e) -> b <= 2 ^ 1000 ->
  exists n, shows f (toFixed f (rnd a b)) n /\ Z.abs (2 * n * b - 2 * a * 10 ^ Z.of_nat f) <= b.
Proof.
  intros Hf Ha Hb He Hab Hbe Hbig. unfold rnd. rewrite (proj2 (Z.eqb_neq a 0)) by lia.
  rewrite (proj2 (Z.ltb_ge a 0)) by lia. rewrite Z.abs_eq by lia.
  assert (L : ratio_log2 a b <= e) by (apply ratio_log2_le; lia).
  assert (G : -1000 <= ratio_log2 a b) by (apply (ratio_log2_ge a b 1000); nia).
  unfold rnd_pos, frac_bits. rewrite Z.min_l by lia. set (s := 52 - ratio_log2 a b).
  rewrite (proj2 (Z.leb_le 0 s)) by lia. pose proof (rhe_half (a * 2 ^ s) b Hb) as R.
  assert (R0 : 0 <= rhe (a * 2 ^ s) b) by (apply rhe_ge; [done|]; pose proof (Z.pow_pos_nonneg 2 s ltac:(lia) ltac:(lia)); nia).
  assert (R1 : rhe (a * 2 ^ s) b <= 2 ^ (e + 1) * 2 ^ s).
  { apply rhe_le; [done|]. pose proof (Z.pow_pos_nonneg 2 s ltac:(lia) ltac:(lia)). nia. }
  set (m := rhe (a * 2 ^ s) b) in *. set (T := 10 ^ Z.of_nat f) in *.
  assert (S : b * T < 2 ^ s) by (eapply Z.lt_le_trans; [exact Hbe|apply Z.pow_le_mono_r; lia]).
  assert (HT : 0 < T) by (subst T; lia).
  assert (HE : 2 ^ (e + 1) < 10 ^ 21) by (eapply Z.le_lt_trans; [apply (Z.pow_le_mono_r 2 (e + 1) 52); lia|done]).
  assert (P : pow2 (Z.to_nat s) = 2 ^ s) by (unfold pow2; rewrite Z2Nat.id; [done|lia]).
  destruct (norm_value m (Z.to_nat s)) as (p & j & d & E & Em & Hk & _). rewrite E. cbn [signed].
  pose proof (pow2_pos d). pose proof (pow2_pos j). pose proof (Z.pow_pos_nonneg 2 s ltac:(lia) ltac:(lia)) as PS.
  set (n := (2 * p * T + pow2 j) / (2 * pow2 j)). exists n. split.
  { apply toFixed_shows; [done|]. destruct Hk as [M0|Hk].
    - assert (p = 0) by nia. subst p. lia.
    - rewrite Hk, pow2_add in P. nia. }
  pose proof (Z.div_mod (2 * p * T + pow2 j) (2 * pow2 j) ltac:(lia)) as D.
  pose proof (Z.mod_pos_bound (2 * p * T + pow2 j) (2 * pow2 j) ltac:(lia)) as B. fold n in D.
  assert (N : 2 * m * T - 2 ^ s < 2 * n * 2 ^ s <= 2 * m * T + 2 ^ s).
  { destruct Hk as [M0|Hk].
    - assert (p = 0) by nia. subst p. nia.
    - rewrite Hk, pow2_add in P. rewrite <- P, Em. nia. }
  clear - N R S HT Hb PS. nia.
Qed.

(** A token count of up to [2^48] is shown in full below a thousand, in
    thousands with suffix k below a million and in millions with suffix M from
    there, always with one decimal that is the count correctly rounded, in
    spite of the intermediate floating-point quotient.  The unit is chosen
    before rounding, so the counts above 999950 and below a million read 1000.0k. *)
Theorem formatTokens_correct v : 0 <= v <= 2 ^ 48 ->
  (v < 1000 -> formatTokens (Some (int v)) = digits v) /\
  (1000 <= v < 1000000 -> exists s t, formatTokens (Some (int v)) = s ++ js "k" /\ shows 1 s t /\ Z.abs (100 * t - v) <= 50) /\
  (1000000 <= v -> exists s t, formatTokens (Some (int v)) = s ++ js "M" /\ shows 1 s t /\ Z.abs (100000 * t - v) <= 50000) /\
  (999950 < v < 1000000 -> exists s, formatTokens (Some (int v)) = s ++ js "k" /\ shows 1 s 10000).
Proof.
  intros Hv. unfold formatTokens. cbn [from_option id]. rewrite !nle_int.
  assert (K : 1000 <= v < 1000000 -> exists t, shows 1 (toFixed 1 (ndiv (int v) (int 1000))) t /\ Z.abs (100 * t - v) <= 50).
  { intros. rewrite ndiv_int by lia. destruct (toFixed_rnd 1 v 1000 20) as (t & ? & ?); try lia. exists t. split; [done|lia]. }
  split_and!; intros.
  - repeat rewrite (proj2 (Z.leb_gt _ _)) by lia. apply num_to_string_int. lia.
  - rewrite (proj2 (Z.leb_gt _ _)), (proj2 (Z.leb_le _ _)) by lia. destruct K as (t & ? & ?); [done|]. by eexists _, t.
  - rewrite (proj2 (Z.leb_le _ _)), ndiv_int by lia. destruct (toFixed_rnd 1 v 1000000 28) as (t & ? & ?); try lia.
    eexists _, t. split_and!; [done|done|lia].
  - rewrite (proj2 (Z.leb_gt _ _)), (proj2 (Z.leb_le _ _)) by lia. destruct K as (t & ? & ?); [lia|].
    assert (t = 10000) as -> by lia. by eexists.
Qed.

Lemma formatTokens_correct_witness : exists s t,
  formatTokens (Some (int 11300)) = s ++ js "k" /\ shows 1 s t /\ Z.abs (100 * t - 11300) <= 50.
Proof. apply (formatTokens_correct 11300); lia. Defined.

(** The compact duration of a whole number of milliseconds: a dash for
    zero or less, seconds with one correctly rounded decimal below a minute,
    and from a minute on the exact whole minutes and seconds, with the seconds
    below sixty. *)
Theorem formatDurationCompact_correct v : v <= MAX_SAFE ->
  (v <= 0 -> formatDurationCompact (Some (int v)) = js "—") /\
  (0 < v < 60000 -> exists s t, formatDurationCompact (Some (int v)) = s ++ js "s" /\ shows 1 s t /\ Z.abs (100 * t - v) <= 50) /\
  (60000 <= v -> exists m s, formatDurationCompact (Some (int v)) = digits m ++ js "m" ++ digits s ++ js "s" /\
     0 <= s < 60 /\ 60000 * m + 1000 * s <= v < 60000 * m + 1000 * s + 1000).
Proof.
  unfold MAX_SAFE. intros Hv. unfold formatDurationCompact. cbn [from_option id]. rewrite nle_int, nlt_int. split_and!; intros.
  - by rewrite (proj2 (Z.leb_le _ _)) by lia.
  - rewrite (proj2 (Z.leb_gt _ _)), (proj2 (Z.ltb_lt _ _)), ndiv_int by lia.
    destruct (toFixed_rnd 1 v 1000 10) as (t & ? & ?); try lia. eexists _, t. split_and!; [done|done|lia].
  - rewrite (proj2 (Z.leb_gt _ _)), (proj2 (Z.ltb_ge _ _)), nmod_int, !ndiv_int by lia.
    pose proof (Z.div_mod v 60000 ltac:(lia)). pose proof (Z.mod_pos_bound v 60000 ltac:(lia)).
    pose proof (Z.div_mod (v mod 60000) 1000 ltac:(lia)). pose proof (Z.mod_pos_bound (v mod 60000) 1000 ltac:(lia)).
    rewrite (nfloor_rnd v 60000 37), (nfloor_rnd (v mod 60000) 1000 10) by lia.
    exists (v / 60000), (v mod 60000 / 1000). rewrite !num_to_string_int by lia. split_and!; [done|lia..].
Qed.

Lemma formatDurationCompact_correct_witness : exists m s,
  formatDurationCompact (Some (int 120000)) = digits m ++ js "m" ++ digits s ++ js "s" /\
  0 <= s < 60 /\ 60000 * m + 1000 * s <= 120000 < 60000 * m + 1000 * s + 1000.
Proof. apply (formatDurationCompact_correct 120000); unfold MAX_SAFE; lia. Defined.

(** An agent type is labelled by a non-blank text, except when it names a
    member every object inherits, where the lookup yields that member. *)
Lemma agentLabel_text a : match agentLabel a with
  | Inherited n => n = a /\ a ∈ inherited_names
  | Text s => s <> [] /\ a ∉ inherited_names
  end.
Proof.
  destruct (decide (a ∈ inherited_names)) as [Hin|Hn].
  - pose proof Hin as Hin'. apply list_elem_of_In in Hin. simpl in Hin. destruct_or! Hin; subst; by split || done.
  - unfold agentLabel. destruct (str_empty a) eqn:Em; [by split|].
    destruct (List.find _ AGENT_LABELS) as [kv|] eqn:F.
    + split; [|done]. apply find_some in F as [F _]. apply list_elem_of_In in F. unfold AGENT_LABELS in F. set_unfold in F.
      by destruct_or! F; subst.
    + destruct (array_includes inherited_names a) eqn:I; [by apply array_includes_spec in I|]. split; [by intros ->|done].
Qed.
