(* ===== verification/TraceViewer.v ===== *)
(** * The desktop trace viewer

    [desktop-ui/src/pages/TraceViewer.tsx]: the component's hooks as a state
    machine.  A state change makes its effects due; React runs them in a later
    step ([Commit]), and network replies, which may arrive in any order, are
    steps of their own.  A reply is handled to the end in one step: the
    promise callbacks it triggers run before any other task. *)

From stdpp Require Import gmap.
From S2P Require Import Prelude JsNumber JsString Json Trace.

(** ** State *)

(** A row of the timeline, by its id (what the effects read of it). *)
Definition row : Type := Z.

(** The promise of one candidate row. *)
Inductive slot : Type := Waiting | Got (d : TraceDetailLike) | Lost.

(** The promise of the selected row. *)
Inductive current : Type := Pending | Arrived (d : TraceDetailLike) | Rejected.

(** One run of the detail effect: [Promise.all([currentP, ...candPs])] and the
    [cancelled] flag its cleanup sets. *)
Record run : Type := {
  r_sel : row;
  r_cur : current;
  r_cands : list (row * slot);
  r_cancelled : bool;
}.

Record state : Type := {
  sessionId : jstr;
  timeline : list row;
  timelineOf : option jstr;            (* the session whose reply set [timeline]; no hook *)
  selectedId : option row;
  detail : option TraceDetailLike;
  prevDetail : option TraceDetailLike;
  loading : bool;
  loadingDetail : bool;
  error : option jstr;
  activeTab : jstr;
  rowCache : gmap row TraceDetailLike;
  (* not hooks: the requests made and answered, and what React has still to do *)
  answers : list (row * TraceDetailLike);   (* every row the gateway answered, with its answer *)
  fetches : list jstr;                 (* sessions of the [listTraceBySession] calls not answered yet *)
  runs : list run;                     (* runs of the detail effect, oldest first *)
  cleanup : option nat;                (* the run whose cleanup is due at the next one *)
  due_session : bool;                  (* [sessionId] changed since the last commit *)
  due_detail : bool;                   (* [selectedId] or [prevIds] did *)
}.

Inductive event : Type :=
  | Navigate (s : jstr)                                 (* the route parameter changes *)
  | Commit                                              (* React runs the due effects *)
  | TimelineReply (i : nat) (r : list row + jstr)       (* the i-th timeline request in flight settles *)
  | Select (id : row)                                   (* a click on a timeline row *)
  | ShowTab (tab : jstr)
  | CurrentReply (g : nat) (r : TraceDetailLike + jstr) (* run [g]'s selected row *)
  | CandidateReply (g k : nat) (r : option TraceDetailLike).  (* run [g]'s [k]-th candidate *)

(** ** The hooks *)

Definition BASELINE_WINDOW : nat := 10.

(** [timeline.findIndex((t) => t.id === selectedId)] *)
Fixpoint find_index (id : row) (l : list row) : option nat :=
  match l with [] => None | x :: t => if x =? id then Some 0%nat else S <$> find_index id t end.

Definition prevIds (timeline : list row) (selectedId : option row) : list row :=
  match selectedId with
  | None => []
  | Some id =>
      match find_index id timeline with
      | None | Some O => []
      | Some idx => let start := (idx - BASELINE_WINDOW)%nat in
                    reverse (take (idx - start) (drop start timeline))
      end
  end.

Definition with_cancelled (r : run) : run :=
  {| r_sel := r_sel r; r_cur := r_cur r; r_cands := r_cands r; r_cancelled := true |}.

(** Requests for the candidates not yet cached. *)
Definition candidates (cache : gmap row TraceDetailLike) (ids : list row) : list (row * slot) :=
  map (fun id => (id, match cache !! id with Some hit => Got hit | None => Waiting end)) ids.

(** [useEffect(() => { setLoading(true); listTraceBySession(sessionId)… }, [sessionId])] *)
Definition timeline_effect (st : state) : state :=
  {| sessionId := sessionId st; timeline := timeline st; timelineOf := timelineOf st; selectedId := selectedId st; detail := detail st;
     prevDetail := prevDetail st; loading := true; loadingDetail := loadingDetail st; error := error st;
     activeTab := activeTab st; rowCache := rowCache st; answers := answers st; fetches := fetches st ++ [sessionId st]; runs := runs st;
     cleanup := cleanup st; due_session := false; due_detail := due_detail st |}.

(** The cleanup of the previous run of the detail effect: [cancelled = true]. *)
Definition cancel_previous (st : state) : list run :=
  match cleanup st with Some g => alter with_cancelled g (runs st) | None => runs st end.

(** [useEffect(() => { if (selectedId == null) … }, [selectedId, prevIds])] *)
Definition detail_effect (st : state) : state :=
  let rs := cancel_previous st in
  match selectedId st with
  | None =>
      {| sessionId := sessionId st; timeline := timeline st; timelineOf := timelineOf st; selectedId := None; detail := None;
         prevDetail := None; loading := loading st; loadingDetail := loadingDetail st; error := error st;
         activeTab := activeTab st; rowCache := rowCache st; answers := answers st; fetches := fetches st; runs := rs;
         cleanup := None; due_session := due_session st; due_detail := false |}
  | Some id =>
      let r := {| r_sel := id; r_cur := Pending; r_cands := candidates (rowCache st) (prevIds (timeline st) (Some id));
                  r_cancelled := false |} in
      {| sessionId := sessionId st; timeline := timeline st; timelineOf := timelineOf st; selectedId := Some id; detail := detail st;
         prevDetail := prevDetail st; loading := loading st; loadingDetail := true; error := error st;
         activeTab := js "messages"; rowCache := rowCache st; answers := answers st; fetches := fetches st; runs := rs ++ [r];
         cleanup := Some (length rs); due_session := due_session st; due_detail := false |}
  end.

Definition commit (st : state) : state :=
  let st := if due_session st then timeline_effect st else st in
  if due_detail st then detail_effect st else st.

(** The mounted component, with its first effects due. *)
Definition mounted (s : jstr) : state :=
  {| sessionId := s; timeline := []; timelineOf := None; selectedId := None; detail := None; prevDetail := None; loading := true;
     loadingDetail := false; error := None; activeTab := js "messages"; rowCache := ∅; answers := []; fetches := []; runs := [];
     cleanup := None; due_session := true; due_detail := true |}.

(** ** Replies and clicks *)

Definition update_runs (st : state) (rs : list run) (new : list (row * TraceDetailLike)) (cache : gmap row TraceDetailLike) : state :=
  {| sessionId := sessionId st; timeline := timeline st; timelineOf := timelineOf st; selectedId := selectedId st;
     detail := detail st; prevDetail := prevDetail st; loading := loading st; loadingDetail := loadingDetail st;
     error := error st; activeTab := activeTab st; rowCache := cache; answers := new ++ answers st; fetches := fetches st; runs := rs;
     cleanup := cleanup st; due_session := due_session st; due_detail := due_detail st |}.

(** [setDetail; setPrevDetail] and [setLoadingDetail(false)] *)
Definition show_detail (st : state) (cur : TraceDetailLike) (prev : option TraceDetailLike) : state :=
  {| sessionId := sessionId st; timeline := timeline st; timelineOf := timelineOf st; selectedId := selectedId st;
     detail := Some cur; prevDetail := prev; loading := loading st; loadingDetail := false; error := error st;
     activeTab := activeTab st; rowCache := rowCache st; answers := answers st; fetches := fetches st; runs := runs st;
     cleanup := cleanup st; due_session := due_session st; due_detail := due_detail st |}.

(** [setError(…)] and [setLoadingDetail(false)] *)
Definition fail_detail (st : state) (message : jstr) : state :=
  {| sessionId := sessionId st; timeline := timeline st; timelineOf := timelineOf st; selectedId := selectedId st;
     detail := detail st; prevDetail := prevDetail st; loading := loading st; loadingDetail := false;
     error := Some message; activeTab := activeTab st; rowCache := rowCache st; answers := answers st; fetches := fetches st; runs := runs st;
     cleanup := cleanup st; due_session := due_session st; due_detail := due_detail st |}.

(** [cands.filter((c) => c != null)] *)
Definition found (cands : list (row * slot)) : list TraceDetailLike :=
  omap (fun c => match c.2 with Got d => Some d | _ => None end) cands.

Definition is_waiting (c : row * slot) : bool := match c.2 with Waiting => true | _ => false end.

(** What [Promise.all] does once run [r] has no promise left to wait for. *)
Definition settle (st : state) (r : run) : state :=
  match r_cur r with
  | Arrived cur =>
      if existsb is_waiting (r_cands r) then st
      else if r_cancelled r then st
      else match pickBaseline cur (found (r_cands r)) with
           | Ret prev => show_detail st cur prev
           | Throw e => fail_detail st (exn_message e)
           end
  | _ => st
  end.

Definition current_reply (st : state) (g : nat) (r : TraceDetailLike + jstr) : option state :=
  rn ← runs st !! g;
  match r_cur rn, r with
  | Pending, inl d =>
      let rn' := {| r_sel := r_sel rn; r_cur := Arrived d; r_cands := r_cands rn; r_cancelled := r_cancelled rn |} in
      Some (settle (update_runs st (<[g := rn']> (runs st)) [(r_sel rn, d)] (<[r_sel rn := d]> (rowCache st))) rn')
  | Pending, inr m =>
      let rn' := {| r_sel := r_sel rn; r_cur := Rejected; r_cands := r_cands rn; r_cancelled := r_cancelled rn |} in
      let st' := update_runs st (<[g := rn']> (runs st)) [] (rowCache st) in
      Some (if r_cancelled rn then st' else fail_detail st' m)
  | _, _ => None
  end.

Definition candidate_reply (st : state) (g k : nat) (r : option TraceDetailLike) : option state :=
  rn ← runs st !! g;
  c ← r_cands rn !! k;
  match c.2 with
  | Waiting =>
      let '(s, new, cache) := match r with
                              | Some d => (Got d, [(c.1, d)], <[c.1 := d]> (rowCache st))
                              | None => (Lost, [], rowCache st)
                              end in
      let rn' := {| r_sel := r_sel rn; r_cur := r_cur rn; r_cands := <[k := (c.1, s)]> (r_cands rn);
                    r_cancelled := r_cancelled rn |} in
      Some (settle (update_runs st (<[g := rn']> (runs st)) new cache) rn')
  | _ => None
  end.

(** [.then((r) => …).catch(…).finally(() => setLoading(false))] of the timeline. *)
Definition timeline_reply (st : state) (i : nat) (r : list row + jstr) : option state :=
  s ← fetches st !! i;
  Some match r with
       | inl rows =>
           {| sessionId := sessionId st; timeline := rows; timelineOf := Some s; selectedId := head rows;
              detail := detail st; prevDetail := prevDetail st; loading := false; loadingDetail := loadingDetail st;
              error := error st; activeTab := activeTab st; rowCache := rowCache st; answers := answers st; fetches := delete i (fetches st);
              runs := runs st; cleanup := cleanup st; due_session := due_session st; due_detail := true |}
       | inr m =>
           {| sessionId := sessionId st; timeline := timeline st; timelineOf := timelineOf st; selectedId := selectedId st;
              detail := detail st; prevDetail := prevDetail st; loading := false; loadingDetail := loadingDetail st;
              error := Some m; activeTab := activeTab st; rowCache := rowCache st; answers := answers st; fetches := delete i (fetches st);
              runs := runs st; cleanup := cleanup st; due_session := due_session st; due_detail := due_detail st |}
       end.

(** ** What is rendered *)

Inductive view : Type :=
  | LoadingPage
  | ErrorPage (message : jstr)
  | EmptyPage
  | Viewer (pane : option (TraceDetailLike * option TraceDetailLike)).   (* [None] for the skeleton *)

Definition render (st : state) : view :=
  if loading st then LoadingPage
  else match error st with
       | Some m => if str_empty m then
                     match timeline st with
                     | [] => EmptyPage
                     | _ => Viewer (if loadingDetail st then None else d ← detail st; Some (d, prevDetail st))
                     end
                   else ErrorPage m
       | None => match timeline st with
                 | [] => EmptyPage
                 | _ => Viewer (if loadingDetail st then None else d ← detail st; Some (d, prevDetail st))
                 end
       end.

(** [onClick={() => setSelectedId(t.id)}]: setting the same value is no change. *)
Definition select (st : state) (id : row) : option state :=
  match render st with
  | Viewer _ =>
      if existsb (Z.eqb id) (timeline st) then
        Some (if decide (selectedId st = Some id) then st
              else {| sessionId := sessionId st; timeline := timeline st; timelineOf := timelineOf st;
                      selectedId := Some id; detail := detail st; prevDetail := prevDetail st; loading := loading st;
                      loadingDetail := loadingDetail st; error := error st; activeTab := activeTab st;
                      rowCache := rowCache st; answers := answers st; fetches := fetches st; runs := runs st; cleanup := cleanup st;
                      due_session := due_session st; due_detail := true |})
      else None
  | _ => None
  end.

Definition show_tab (st : state) (tab : jstr) : state :=
  {| sessionId := sessionId st; timeline := timeline st; timelineOf := timelineOf st; selectedId := selectedId st;
     detail := detail st; prevDetail := prevDetail st; loading := loading st; loadingDetail := loadingDetail st;
     error := error st; activeTab := tab; rowCache := rowCache st; answers := answers st; fetches := fetches st; runs := runs st;
     cleanup := cleanup st; due_session := due_session st; due_detail := due_detail st |}.

Definition navigate (st : state) (s : jstr) : state :=
  if streq (sessionId st) s then st
  else {| sessionId := s; timeline := timeline st; timelineOf := timelineOf st; selectedId := selectedId st;
          detail := detail st; prevDetail := prevDetail st; loading := loading st; loadingDetail := loadingDetail st;
          error := error st; activeTab := activeTab st; rowCache := rowCache st; answers := answers st; fetches := fetches st; runs := runs st;
          cleanup := cleanup st; due_session := true; due_detail := due_detail st |}.

(** One step; [None] where the event cannot happen. *)
Definition step (st : state) (e : event) : option state :=
  match e with
  | Navigate s => Some (navigate st s)
  | Commit => Some (commit st)
  | TimelineReply i r => timeline_reply st i r
  | Select id => select st id
  | ShowTab tab => Some (show_tab st tab)
  | CurrentReply g r => current_reply st g r
  | CandidateReply g k r => candidate_reply st g k r
  end.

Fixpoint execute (st : state) (es : list event) : option state :=
  match es with [] => Some st | e :: t => st' ← step st e; execute st' t end.

Inductive reachable (s : jstr) : state -> Prop :=
  | reach_mount : reachable s (mounted s)
  | reach_step st e st' : reachable s st -> step st e = Some st' -> reachable s st'.

(** ** Invariant *)

(** Run [r] still waits for a reply of the gateway. *)
Definition unanswered (r : run) : Prop :=
  r_cur r = Pending \/ (exists d, r_cur r = Arrived d) /\ existsb is_waiting (r_cands r) = true.

(** Where the run for the selected row stands, and what the hooks then hold. *)
Definition phase (st : state) (r : run) : Prop :=
  (loadingDetail st = true /\ unanswered r) \/
  (loadingDetail st = false /\ exists d, r_cur r = Arrived d /\ existsb is_waiting (r_cands r) = false /\
     match pickBaseline d (found (r_cands r)) with
     | Ret prev => detail st = Some d /\ prevDetail st = prev
     | Throw _ => error st <> None
     end) \/
  (loadingDetail st = false /\ r_cur r = Rejected /\ error st <> None).

(** The answers of the gateway are what promises and cache hold. *)
Definition run_sound (answers : list (row * TraceDetailLike)) (r : run) : Prop :=
  (forall d, r_cur r = Arrived d -> (r_sel r, d) ∈ answers) /\
  (forall id d, (id, Got d) ∈ r_cands r -> (id, d) ∈ answers).

Record Inv (st : state) : Prop := {
  inv_live : forall g r, runs st !! g = Some r -> r_cancelled r = false -> cleanup st = Some g;
  inv_cleanup : forall g, cleanup st = Some g -> exists r, runs st !! g = Some r /\ r_cancelled r = false;
  inv_cache : forall id d, rowCache st !! id = Some d -> (id, d) ∈ answers st;
  inv_runs : Forall (run_sound (answers st)) (runs st);
  inv_due : due_detail st = false ->
    match selectedId st with
    | None => cleanup st = None /\ detail st = None
    | Some id => exists g r, cleanup st = Some g /\ runs st !! g = Some r /\ r_sel r = id /\
                   map fst (r_cands r) = prevIds (timeline st) (Some id) /\ phase st r
    end;
}.

Lemma mounted_inv s : Inv (mounted s).
Proof. by split; simpl; try set_solver. Qed.

Lemma run_sound_mono a b r : a ⊆ b -> run_sound a r -> run_sound b r.
Proof. intros S [H1 H2]. split; intros; apply S; auto. Qed.

(** [settle] touches only the hooks it sets. *)
Lemma settle_frame st r : let st' := settle st r in
  runs st' = runs st /\ cleanup st' = cleanup st /\ rowCache st' = rowCache st /\ answers st' = answers st /\
  due_detail st' = due_detail st /\ selectedId st' = selectedId st /\ timeline st' = timeline st.
Proof. unfold settle. cbv zeta. repeat case_match; done. Qed.

Lemma settle_cancelled st r : r_cancelled r = true -> settle st r = st.
Proof. intros H. unfold settle. rewrite H. repeat case_match; done. Qed.

Lemma settle_phase st r : r_cancelled r = false -> r_cur r <> Rejected -> loadingDetail st = true -> phase (settle st r) r.
Proof.
  intros Hc Hr Hl. unfold settle. destruct (r_cur r) as [|d|] eqn:E; [left; split; [done|by left]| |done].
  destruct (existsb is_waiting (r_cands r)) eqn:W; [left; split; [done|right; eauto]|].
  rewrite Hc. right. left. destruct (pickBaseline d (found (r_cands r))) eqn:Pk; (split; [done|]);
    exists d; rewrite Pk; done.
Qed.

(** The phase of a run that waits for a reply, or was rejected. *)
Lemma phase_unanswered st r : phase st r -> unanswered r -> loadingDetail st = true.
Proof.
  intros [[? _]|[(_ & d & E & W & _)|(_ & E & _)]] U; [done| |].
  - destruct U as [U|[_ U]]; congruence.
  - destruct U as [U|[[d U] _]]; congruence.
Qed.

Lemma phase_rejected st r r' : phase st r -> r_cur r = Rejected -> r_cur r' = Rejected -> phase st r'.
Proof.
  intros [[_ U]|[(_ & d & E & _)|(? & _ & ?)]] R R'.
  - destruct U as [U|[[d U] _]]; congruence.
  - congruence.
  - right. right. done.
Qed.

Section Reply.
  Variables (st : state) (g : nat) (rn rn' : run) (new : list (row * TraceDetailLike)) (cache : gmap row TraceDetailLike).
  Hypothesis I : Inv st.
  Hypothesis Hg : runs st !! g = Some rn.
  Hypothesis Hsel : r_sel rn' = r_sel rn.
  Hypothesis Hcan : r_cancelled rn' = r_cancelled rn.
  Hypothesis Hids : map fst (r_cands rn') = map fst (r_cands rn).
  Hypothesis Hsound : run_sound (new ++ answers st) rn'.
  Hypothesis Hcache : forall id d, cache !! id = Some d -> (id, d) ∈ new ++ answers st.

Let upd : state := update_runs st (<[g := rn']> (runs st)) new cache.

Lemma upd_lookup h r : runs upd !! h = Some r -> (h = g /\ r = rn') \/ (h <> g /\ runs st !! h = Some r).
Proof.
  simpl. intros H. destruct (decide (h = g)) as [-> |].
  - left. rewrite list_lookup_insert_eq in H by (by eapply lookup_lt_Some). by injection H.
  - right. by rewrite list_lookup_insert_ne in H.
Qed.

Lemma upd_here : runs upd !! g = Some rn'.
Proof. simpl. apply list_lookup_insert_eq. by eapply lookup_lt_Some. Qed.

(** The parts of the invariant that do not depend on the phase survive in any
    state with the same runs, cache and answers. *)
Lemma reply_frame (st' : state) :
  runs st' = runs upd -> cleanup st' = cleanup upd -> rowCache st' = rowCache upd -> answers st' = answers upd ->
  due_detail st' = due_detail upd -> selectedId st' = selectedId upd -> timeline st' = timeline upd ->
  (due_detail st = false -> r_cancelled rn = true -> st' = upd) ->
  (due_detail st = false -> r_cancelled rn = false -> phase st rn -> phase st' rn') -> Inv st'.
Proof.
  intros E1 E2 E3 E4 E5 E6 E7 Hold Hphase. split.
  - intros h r. rewrite E1, E2. intros H C. destruct (upd_lookup h r H) as [[-> ->]|[_ H']].
    + apply (inv_live st I g rn Hg). congruence.
    + by apply (inv_live st I h r).
  - intros h. rewrite E1, E2. intros H. destruct (inv_cleanup st I h H) as (r & Hr & C).
    destruct (decide (h = g)) as [-> |].
    + exists rn'. split; [apply upd_here|]. congruence.
    + exists r. simpl. by rewrite list_lookup_insert_ne.
  - rewrite E3, E4. exact Hcache.
  - rewrite E1, E4. apply Forall_insert; [|done]. eapply Forall_impl; [exact (inv_runs st I)|].
    intros r. apply run_sound_mono. set_solver.
  - rewrite E5, E6, E7, E2, E1. intros D. pose proof (inv_due st I D) as Q. unfold upd, update_runs. cbn [selectedId timeline cleanup runs].
    destruct (selectedId st) as [id|] eqn:Es.
    + destruct Q as (h & r & C & Hr & S & Ids & Ph). exists h. destruct (decide (h = g)) as [-> |Ne].
      * assert (r = rn) as -> by congruence. exists rn'. split_and!; try done; [apply upd_here|congruence|congruence|].
        apply Hphase; try done. destruct (inv_cleanup st I g C) as (r' & Hr' & ?). congruence.
      * exists r. split_and!; try done; [by rewrite list_lookup_insert_ne|].
        rewrite Hold; [done|done|]. destruct (r_cancelled rn) eqn:X; [done|].
        apply (inv_live st I g rn Hg) in X. congruence.
    + destruct Q as [C Dt]. split; [done|]. rewrite Hold; [done|done|].
      destruct (r_cancelled rn) eqn:X; [done|]. apply (inv_live st I g rn Hg) in X. congruence.
Qed.

Lemma reply_inv :
  (r_cur rn = Rejected /\ r_cur rn' = Rejected) \/ (unanswered rn /\ r_cur rn' <> Rejected) -> Inv (settle upd rn').
Proof.
  intros Hcur. destruct (settle_frame upd rn') as (E1 & E2 & E3 & E4 & E5 & E6 & E7). apply reply_frame; try done.
  - intros _ C. apply settle_cancelled. congruence.
  - intros _ C Ph. destruct Hcur as [[R R']|[U R']].
    + assert (settle upd rn' = upd) as -> by (unfold settle; by rewrite R'). by apply (phase_rejected st rn rn').
    + apply settle_phase; [congruence|done|]. by apply (phase_unanswered st rn).
Qed.

End Reply.

(** ** Every step preserves the invariant *)

Lemma current_reply_inv st g r st' : Inv st -> current_reply st g r = Some st' -> Inv st'.
Proof.
  intros I. unfold current_reply. destruct (runs st !! g) as [rn|] eqn:Hg; [|done]. cbn [mbind option_bind].
  pose proof (proj1 (Forall_lookup _ _) (inv_runs st I) g rn Hg) as [_ Hcands].
  destruct (r_cur rn) eqn:Hc; [|by destruct r..]. destruct r as [d|m]; intros [= <-].
  - apply (reply_inv st g rn); try done.
    + split; cbn [r_cur r_sel r_cands]; [intros ? [= ->]; left|intros id e H; right; by apply Hcands].
    + intros id e H. destruct (decide (id = r_sel rn)) as [-> |].
      * rewrite lookup_insert_eq in H. injection H as ->. left.
      * rewrite lookup_insert_ne in H by done. right. by apply (inv_cache st I).
    + right. split; [by left|done].
  - set (rn' := Build_run _ _ _ _). set (upd := update_runs _ _ _ _).
    assert (Hs : run_sound ([] ++ answers st) rn') by (by split; [|exact Hcands]).
    apply (reply_frame st g rn rn' [] (rowCache st)); try done; try (by apply (inv_cache st I));
      try (by destruct (r_cancelled rn)).
    intros _ B _. rewrite B. right. right. done.
Qed.

Lemma insert_fst {A B} (l : list (A * B)) k c b : l !! k = Some c -> map fst (<[k := (c.1, b)]> l) = map fst l.
Proof.
  intros H. rewrite list_fmap_insert. apply list_insert_id. by rewrite list_lookup_fmap, H.
Qed.

Lemma waiting_unanswered r k c : r_cands r !! k = Some c -> c.2 = Waiting -> r_cur r = Rejected \/ unanswered r.
Proof.
  intros Hk Hw. destruct (r_cur r) as [|d|] eqn:E; [right; by left| |by left]. right. right. split; [eauto|].
  apply existsb_exists. exists c. split; [by eapply list_elem_of_In, list_elem_of_lookup_2|]. unfold is_waiting. by rewrite Hw.
Qed.

Lemma candidate_reply_inv st g k r st' : Inv st -> candidate_reply st g k r = Some st' -> Inv st'.
Proof.
  intros I. unfold candidate_reply. destruct (runs st !! g) as [rn|] eqn:Hg; [|done]. cbn [mbind option_bind].
  destruct (r_cands rn !! k) as [c|] eqn:Hk; [|done]. cbn [mbind option_bind]. destruct (c.2) eqn:Hw; try done.
  pose proof (proj1 (Forall_lookup _ _) (inv_runs st I) g rn Hg) as [Hcur Hcands].
  pose proof (waiting_unanswered rn k c Hk Hw) as U.
  assert (L : forall new s, (forall d, s = Got d -> (c.1, d) ∈ new) ->
    run_sound (new ++ answers st) {| r_sel := r_sel rn; r_cur := r_cur rn; r_cands := <[k := (c.1, s)]> (r_cands rn);
                                     r_cancelled := r_cancelled rn |}).
  { intros new s Hs. split; cbn [r_cur r_sel r_cands].
    - intros d E. apply elem_of_app. right. auto.
    - intros id d Hin. apply elem_of_app. apply list_elem_of_lookup_1 in Hin as [j Hj].
      destruct (decide (j = k)) as [-> |].
      + rewrite list_lookup_insert_eq in Hj by (by eapply lookup_lt_Some). injection Hj as <- ->. left. auto.
      + rewrite list_lookup_insert_ne in Hj by done. right. apply Hcands. by eapply list_elem_of_lookup_2. }
  destruct r as [d|]; intros [= <-].
  - apply (reply_inv st g rn); try done.
    + cbn [r_cands]. by apply insert_fst.
    + apply L. intros ? [= ->]. left.
    + intros id e H. destruct (decide (id = c.1)) as [-> |].
      * rewrite lookup_insert_eq in H. injection H as ->. left.
      * rewrite lookup_insert_ne in H by done. right. by apply (inv_cache st I).
    + cbn [r_cur]. destruct U as [U|U]; [by left|]. destruct (r_cur rn) eqn:E; [right; by split..|by left].
  - apply (reply_inv st g rn); try done.
    + cbn [r_cands]. by apply insert_fst.
    + apply L. done.
    + apply (inv_cache st I).
    + cbn [r_cur]. destruct U as [U|U]; [by left|]. destruct (r_cur rn) eqn:E; [right; by split..|by left].
Qed.

Lemma cancel_previous_all st h r : Inv st -> cancel_previous st !! h = Some r -> r_cancelled r = true.
Proof.
  intros I. unfold cancel_previous. destruct (cleanup st) as [g|] eqn:C; intros H.
  - destruct (decide (h = g)) as [-> |].
    + rewrite list_lookup_alter_eq in H. destruct (runs st !! g); [|done]. by injection H as <-.
    + rewrite list_lookup_alter_ne in H by done. destruct (r_cancelled r) eqn:X; [done|].
      apply (inv_live st I) in H; [congruence|done].
  - destruct (r_cancelled r) eqn:X; [done|]. apply (inv_live st I) in H; [congruence|done].
Qed.

Lemma cancel_previous_sound st : Inv st -> Forall (run_sound (answers st)) (cancel_previous st).
Proof.
  intros I. unfold cancel_previous. destruct (cleanup st) as [g|]; [|apply (inv_runs st I)].
  apply Forall_alter; [apply (inv_runs st I)|]. done.
Qed.

Lemma candidates_sound st ids id d : Inv st -> (id, Got d) ∈ candidates (rowCache st) ids -> (id, d) ∈ answers st.
Proof.
  intros I H. apply list_elem_of_fmap in H as (x & E & _). injection E as <- E.
  destruct (rowCache st !! id) eqn:L; [|done]. injection E as <-. by apply (inv_cache st I).
Qed.

Lemma detail_effect_inv st : Inv st -> Inv (detail_effect st).
Proof.
  intros I. unfold detail_effect. cbv zeta. pose proof (cancel_previous_all st) as Can.
  pose proof (cancel_previous_sound st I) as Snd. destruct (selectedId st) as [id|] eqn:S; split; simpl; try done.
  - intros h r H C. destruct (decide (h = length (cancel_previous st))) as [-> |]; [done|].
    apply lookup_app_Some in H as [H|[L H]]; [apply Can in H; [congruence|done]|].
    apply list_lookup_singleton_Some in H as [E _]. lia.
  - intros h [= <-]. exists {| r_sel := id; r_cur := Pending; r_cands := candidates (rowCache st) (prevIds (timeline st) (Some id));
                              r_cancelled := false |}. split; [|done]. by rewrite lookup_app_r, Nat.sub_diag by lia.
  - apply (inv_cache st I).
  - apply Forall_app. split; [done|]. apply Forall_singleton. split; [done|].
    intros x d H. by eapply candidates_sound.
  - intros _. eexists _, _. split_and!; [done|by rewrite lookup_app_r, Nat.sub_diag by lia|done| |left; split; [done|by left]].
    cbn [r_cands]. unfold candidates. rewrite map_map. apply map_id.
  - intros h r H C. apply Can in H; [congruence|done].
  - apply (inv_cache st I).
Qed.

Lemma step_inv st e st' : Inv st -> step st e = Some st' -> Inv st'.
Proof.
  intros I. destruct e as [s| |i r|id|tab|g r|g k r]; simpl.
  - intros [= <-]. unfold navigate. case_match; [done|]. by destruct I; split.
  - intros [= <-]. unfold commit. assert (I' : Inv (timeline_effect st)) by (by destruct I; split).
    destruct (due_session st); cbv zeta; case_match; by try apply detail_effect_inv.
  - unfold timeline_reply. destruct (fetches st !! i); [|done]. cbn [mbind option_bind].
    intros [= <-]. destruct r; destruct I as [I1 I2 I3 I4 I5]; split; try done.
    intros D. specialize (I5 D). cbn [selectedId]. destruct (selectedId st); [|done].
    destruct I5 as (g & rn & C & Hr & Hs & Ids & Ph). exists g, rn. split_and!; try done.
    destruct Ph as [Ph|[(L & d & A & W & B)|(L & R & _)]]; [by left|right; left|by right; right].
    split; [done|]. exists d. split_and!; try done. by destruct (pickBaseline d _).
  - unfold select. destruct (render st); try done. case_match; [|done]. intros [= <-]. case_match; [done|]. by destruct I; split.
  - intros [= <-]. by destruct I; split.
  - by apply current_reply_inv.
  - by apply candidate_reply_inv.
Qed.

Lemma reachable_inv s st : reachable s st -> Inv st.
Proof. induction 1; [apply mounted_inv|by eapply step_inv]. Qed.

(** C2: Whatever the order in which clicks, navigations and replies arrive, a
    detail pane that is shown (effects run, no error) is the gateway's answer
    for the row now selected, never for an earlier selection, and is compared
    with the best baseline among the answers for the rows just above it on the
    timeline, nearest first, rows that failed to load left out. *)
Theorem viewer_shows_selected s st d prev :
  reachable s st -> due_detail st = false -> error st = None -> render st = Viewer (Some (d, prev)) ->
  exists id cands, selectedId st = Some id /\ (id, d) ∈ answers st /\
    map fst cands = prevIds (timeline st) (Some id) /\ (forall x c, (x, Got c) ∈ cands -> (x, c) ∈ answers st) /\
    pickBaseline d (found cands) = Ret prev.
Proof.
  intros R D E V. pose proof (reachable_inv s st R) as I. pose proof (inv_due st I D) as Q.
  unfold render in V. rewrite E in V. destruct (loading st); [done|]. destruct (timeline st) as [|t0 ts] eqn:T; [done|].
  destruct (loadingDetail st) eqn:L; [done|]. destruct (detail st) as [d'|] eqn:Dt; [|done]. injection V as -> <-.
  destruct (selectedId st) as [id|]; [|by destruct Q].
  destruct Q as (g & r & C & Hr & Hs & Ids & Ph). exists id, (r_cands r).
  pose proof (proj1 (Forall_lookup _ _) (inv_runs st I) g r Hr) as [Hcur Hcands].
  destruct Ph as [[? _]|[(_ & e & A & W & B)|(_ & _ & ?)]]; [congruence| |done].
  destruct (pickBaseline e (found (r_cands r))) eqn:Pk; [|done]. destruct B as [B1 B2].
  assert (e = d) as -> by congruence.
  split_and!; try done; [rewrite <- Hs; by apply Hcur|congruence].
Qed.

(** C34: The viewer never spins for nothing: while the detail pane of a selected
    row is a skeleton, a request of the run for that row is still unanswered;
    so once the gateway has answered or failed every request, the pane shows
    the row or the page shows an error. *)
Theorem viewer_progress s st id :
  reachable s st -> due_detail st = false -> selectedId st = Some id -> error st = None ->
  loadingDetail st = true \/ detail st = None ->
  exists g r, runs st !! g = Some r /\ r_sel r = id /\ r_cancelled r = false /\ unanswered r.
Proof.
  intros R D S E V. pose proof (reachable_inv s st R) as I. pose proof (inv_due st I D) as Q. rewrite S in Q.
  destruct Q as (g & r & C & Hr & Hs & _ & Ph). exists g, r.
  destruct (inv_cleanup st I g C) as (r' & Hr' & ?). split_and!; try done; [congruence|].
  destruct Ph as [[_ ?]|[(L & e & A & W & B)|(_ & _ & ?)]]; [done| |done].
  destruct (pickBaseline e _); [|done]. destruct B as [B _], V; congruence.
Qed.

(** ** Sessions and errors *)

Definition is_navigate (e : event) : bool := match e with Navigate _ => true | _ => false end.

(** Every timeline request in flight, and the timeline shown, are for [s]. *)
Definition single_session (s : jstr) (st : state) : Prop :=
  sessionId st = s /\ Forall (eq s) (fetches st) /\ from_option (eq s) True (timelineOf st).

Lemma settle_session st r : let st' := settle st r in
  sessionId st' = sessionId st /\ fetches st' = fetches st /\ timelineOf st' = timelineOf st /\ (error st <> None -> error st' <> None).
Proof. unfold settle. cbv zeta. repeat case_match; done. Qed.

Lemma step_session st e st' : step st e = Some st' ->
  (error st <> None -> error st' <> None) /\
  (forall s, is_navigate e = false -> single_session s st -> single_session s st').
Proof.
  intros H. split; [|intros s N (S & F & T)].
  - destruct e; simpl in H; simplify_eq; unfold navigate, commit, timeline_reply, select, current_reply, candidate_reply in *;
      intros E; repeat (case_match; simplify_option_eq); try done;
      try (unfold detail_effect, timeline_effect; repeat case_match; done); by apply settle_session.
  - destruct e; simpl in N, H; simplify_eq; unfold commit, timeline_reply, select, current_reply, candidate_reply in *.
    + assert (single_session (sessionId st) (timeline_effect st)) as (?&?&?).
      { split_and!; try done. simpl. apply Forall_app. split; [done|]. by apply Forall_singleton. }
      destruct (due_session st); cbv zeta; (case_match; [|by split_and!]);
        unfold detail_effect; case_match; by split_and!.
    + destruct (fetches st !! i) as [s'|] eqn:L; [|done]. simpl in H. injection H as <-.
      pose proof (proj1 (Forall_lookup _ _) F i s' L) as Es. simpl in Es.
      destruct r; split_and!; simpl; try done; by apply Forall_delete.
    + repeat (case_match; simplify_eq); by split_and!.
    + by split_and!.
    + repeat (case_match; simplify_option_eq); try by split_and!.
      all: match goal with |- single_session _ (settle ?a ?b) => destruct (settle_session a b) as (E1 & E2 & E3 & _) end;
        unfold single_session; rewrite E1, E2, E3; by split_and!.
    + repeat (case_match; simplify_option_eq); try by split_and!.
      all: match goal with |- single_session _ (settle ?a ?b) => destruct (settle_session a b) as (E1 & E2 & E3 & _) end;
        unfold single_session; rewrite E1, E2, E3; by split_and!.
Qed.

Lemma execute_error es : forall st st', execute st es = Some st' -> error st <> None -> error st' <> None.
Proof.
  induction es as [|e es IH]; simpl; intros st st'; [by intros [= <-]|].
  destruct (step st e) as [st1|] eqn:S; [|done]. simpl. intros X E. apply (IH st1 st' X). by apply (step_session st e).
Qed.

Lemma execute_session s es : forall st st', existsb is_navigate es = false -> execute st es = Some st' ->
  single_session s st -> single_session s st'.
Proof.
  induction es as [|e es IH]; simpl; intros st st' N; [by intros [= <-]|].
  apply orb_false_elim in N as [N1 N2]. destruct (step st e) as [st1|] eqn:S; [|done]. simpl.
  intros X E. apply (IH st1 st' N2 X). by apply (step_session st e).
Qed.

(** As long as the route parameter stays, the timeline shown is that of the
    viewer's session.  Across a change of session it need not be: the timeline
    request is not cancelled, so a late reply for the old session replaces the
    new one's timeline.  And an error, once set, is never cleared: nothing but
    an empty message lets the viewer be shown again, whatever is navigated to,
    answered or clicked. *)
Theorem viewer_sessions s :
  (forall es st, existsb is_navigate es = false -> execute (mounted s) es = Some st ->
     sessionId st = s /\ from_option (eq s) True (timelineOf st)) /\
  (exists es st, execute (mounted (js "a")) es = Some st /\ sessionId st = js "b" /\ timelineOf st = Some (js "a") /\
     fetches st = [] /\ loading st = false) /\
  (forall es st st' pane, error st <> None -> execute st es = Some st' -> render st' = Viewer pane -> error st' = Some []).
Proof.
  split_and!.
  - intros es st N X. destruct (execute_session s es (mounted s) st N X) as (? & _ & ?); [by split_and!|done].
  - exists [Commit; Navigate (js "b"); Commit; TimelineReply 1 (inl [7; 8]); TimelineReply 0 (inl [3])].
    eexists. split; [vm_compute; reflexivity|done].
  - intros es st st' pane E X V. apply execute_error in X; [|done]. unfold render in V.
    destruct (loading st'); [done|]. destruct (error st') as [m|]; [|done]. by destruct m.
Qed.

(** ** Examples *)

(** Two rows, the second one selected and loaded, the first its baseline. *)
Definition message (role content : string) : json := JObj [(js "role", JStr (js role)); (js "content", JStr (js content))].
Definition payload (ms : list json) : TraceDetailLike :=
  {| messages := Some (JArr ms); request_raw := None; response_raw := None |}.
Definition first_turn : TraceDetailLike := payload [message "user" "hi"].
Definition second_turn : TraceDetailLike := payload [message "user" "hi"; message "assistant" "hello"].

Definition session_events : list event :=
  [Commit; TimelineReply 0 (inl [1; 2]); Commit; CurrentReply 0 (inl first_turn); Select 2; Commit; Select 1; Commit;
   Select 2; Commit; CurrentReply 1 (inl second_turn); CurrentReply 3 (inl second_turn)].

Lemma execute_reachable s es : forall st st', reachable s st -> execute st es = Some st' -> reachable s st'.
Proof.
  induction es as [|e es IH]; simpl; intros st st' R; [by intros [= <-]|].
  destruct (step st e) as [st1|] eqn:S; [|done]. simpl. apply IH. by eapply reach_step.
Qed.

Lemma viewer_shows_selected_witness : exists st id cands,
  execute (mounted (js "s")) session_events = Some st /\ selectedId st = Some id /\ (id, second_turn) ∈ answers st /\
  pickBaseline second_turn (found cands) = Ret (Some first_turn).
Proof.
  destruct (execute (mounted (js "s")) session_events) as [st|] eqn:X; [|vm_compute in X; discriminate X].
  destruct (viewer_shows_selected (js "s") st second_turn (Some first_turn)) as (id & cands & H1 & H2 & _ & _ & H5).
  - exact (execute_reachable (js "s") session_events (mounted (js "s")) st (reach_mount (js "s")) X).
  - vm_compute in X. injection X as <-. reflexivity.
  - vm_compute in X. injection X as <-. reflexivity.
  - vm_compute in X. injection X as <-. vm_compute. reflexivity.
  - exists st, id, cands. split; [reflexivity|]. split; [exact H1|]. split; [exact H2|exact H5].
Defined.

Lemma viewer_progress_witness : exists st g r,
  execute (mounted (js "s")) (take 6 session_events) = Some st /\ runs st !! g = Some r /\ r_sel r = 2 /\ unanswered r.
Proof.
  destruct (execute (mounted (js "s")) (take 6 session_events)) as [st|] eqn:X; [|vm_compute in X; discriminate X].
  destruct (viewer_progress (js "s") st 2) as (g & r & H1 & H2 & _ & H4).
  - exact (execute_reachable (js "s") _ (mounted (js "s")) st (reach_mount (js "s")) X).
  - vm_compute in X. injection X as <-. reflexivity.
  - vm_compute in X. injection X as <-. reflexivity.
  - vm_compute in X. injection X as <-. reflexivity.
  - left. vm_compute in X. injection X as <-. reflexivity.
  - exists st, g, r. split; [reflexivity|]. split; [exact H1|]. split; [exact H2|exact H4].
Defined.
