(* ===== verification/WebTrace.v ===== *)
(** * The admin UI's trace tree

    [web/src/components/trace/trace-categories.tsx], the original of the
    desktop component modelled in [Trace]: its tree with translated titles,
    coloured role names and plain-text bodies, and that it is the desktop
    tree up to those. *)

From S2P Require Import Prelude JsNumber JsString Json Trace.

Section Tree.
  (** The translation function of next-intl. *)
  Variable t : jstr -> jstr.

Definition labelTitle (label : jstr) : jstr :=
  if streq label (js "system") then t (js "messages.categories.system")
  else if streq label (js "tools") then t (js "messages.categories.tools")
  else if streq label (js "messages") then t (js "messages.categories.messages")
  else if streq label (js "output") then t (js "messages.categories.output")
  else label.

Definition roleTextColor (role : jstr) : jstr :=
  if streq role (js "user") then js "text-blue-600"
  else if streq role (js "assistant") then js "text-emerald-600"
  else if streq role (js "system") then js "text-amber-600"
  else if streq role (js "tool") then js "text-purple-600"
  else js "text-muted-foreground".

(** An expanded block: text is never rendered as Markdown here. *)
Definition WebBlockRaw (b : Block) : result RawView :=
  let e := t (js "raw.empty") in
  match b with
  | BText s | BThinking s => Ret (VPre (or_empty e s))
  | BToolResult _ s => Ret (VPre (or_empty e s))
  | BImage => Ret VImage
  | BToolUse n tc =>
      f ← prop tc "function";
      id ← prop tc "id";
      Ret (VCall (to_string (nullish (opt_prop f "name") (JStr n))) (default [] (as_string id)) (pretty_args f))
  | BUnknown v => Ret (VPre (stringify_pretty 0 v))
  end.

Record WebMessage : Type := {
  wm_number : nat; wm_role : option (jstr * jstr); wm_chips : list (jstr * jstr * jstr); wm_raw : list RawView;
}.

(** The role is shown in its colour, and not at all when empty. *)
Definition WebMessageNode (index : nat) (msg : json) : result WebMessage :=
  blocks ← blocksOf msg;
  role ← role_of msg;
  raws ← map_result WebBlockRaw blocks;
  Ret {| wm_number := S index; wm_role := if str_empty role then None else Some (role, roleTextColor role);
         wm_chips := map (fun b => (blockChipStyle b, blockChipDetail b)) blocks; wm_raw := raws |}.

Definition web_messages (base : nat) (l : list json) : result (list WebMessage) :=
  map_result (fun im => WebMessageNode im.1 im.2) (imap (fun i m => ((base + i)%nat, m)) l).

Record WebGroup : Type := { wg_title : jstr; wg_count : nat; wg_open : bool; wg_items : list WebMessage }.

Definition WebGroupNode (label : jstr) (count : nat) (items : list WebMessage) : WebGroup :=
  {| wg_title := if streq label (js "carried-over") then t (js "messages.categories.carriedOver") else t (js "messages.categories.new");
     wg_count := count; wg_open := streq label (js "new"); wg_items := items |}.

Inductive WebBody : Type :=
  | WMessages (l : list WebMessage)
  | WTools (l : list ToolView)
  | WGroups (l : list WebGroup)
  | WOutput (o : option OutputView)
  | WHint (text : jstr).

Record WebSection : Type := { ws_title : jstr; ws_color : jstr; ws_count : nat; ws_open : bool; ws_body : WebBody }.

(** [Section]: a hint replaces the children of an empty section. *)
Definition WebSectionNode (label : jstr) (count : nat) (emptyHint : option jstr) (body : WebBody) : WebSection :=
  {| ws_title := labelTitle label; ws_color := sectionColor label; ws_count := count; ws_open := true;
     ws_body := match emptyHint with
                | Some h => if (count =? 0)%nat && negb (str_empty h) then WHint h else body
                | None => body
                end |}.

Definition WebTraceCategories (current : TraceDetailLike) (previous : option TraceDetailLike) : result (option (list WebSection)) :=
  a ← Web.analyze current previous;
  let totalMsgs := (length (carried a) + length (turnMsgs a))%nat in
  if (length (systemMsgs a) =? 0)%nat && (length (tools a) =? 0)%nat && (totalMsgs =? 0)%nat
     && match output a with Some _ => false | None => true end
  then Ret None
  else
    sys ← web_messages 0 (systemMsgs a);
    tls ← map_result (ToolLabel t) (tools a);
    car ← web_messages 0 (carried a);
    new ← web_messages (length (carried a)) (turnMsgs a);
    out ← (match output a with Some item => o ← OutputNode t item; Ret (Some o) | None => Ret None end);
    Ret (Some (
      when (0 <? length (systemMsgs a))%nat (WebSectionNode (js "system") (length (systemMsgs a)) None (WMessages sys))
      ++ when (0 <? length (tools a))%nat (WebSectionNode (js "tools") (length (tools a)) None (WTools tls))
      ++ when (0 <? totalMsgs)%nat
           (WebSectionNode (js "messages") totalMsgs None
              (WGroups (when (0 <? length (carried a))%nat (WebGroupNode (js "carried-over") (length (carried a)) car)
                        ++ when (0 <? length (turnMsgs a))%nat (WebGroupNode (js "new") (length (turnMsgs a)) new))))
      ++ [WebSectionNode (js "output") (match output a with Some _ => 1%nat | None => 0%nat end) (Some (t (js "raw.empty"))) (WOutput out)])).

(** ** The desktop tree, in the admin tree's types

    Field by field: title, colour, count, open state and hint are the ones the
    desktop component computed. *)

Definition plain (v : RawView) : RawView := match v with VMarkdown s => VPre s | _ => v end.

(** A message of the desktop tree without its role badge and Markdown. *)
Definition shown_message (m : MessageView) : WebMessage :=
  {| wm_number := mv_number m; wm_role := None; wm_chips := mv_chips m; wm_raw := map plain (mv_raw m) |}.

Definition shown_group (g : GroupView) : WebGroup :=
  {| wg_title := gv_title g; wg_count := gv_count g; wg_open := gv_open g; wg_items := map shown_message (gv_items g) |}.

Definition shown_section (s : SectionView) : WebSection :=
  {| ws_title := sv_title s; ws_color := sv_color s; ws_count := sv_count s; ws_open := sv_open s;
     ws_body := match sv_body s with
                | SMessages l => WMessages (map shown_message l)
                | STools l => WTools l
                | SGroups l => WGroups (map shown_group l)
                | SOutput o => WOutput o
                | SHint h => WHint h
                end |}.

(** A section of the admin tree without its role names. *)
Definition unrole (m : WebMessage) : WebMessage :=
  {| wm_number := wm_number m; wm_role := None; wm_chips := wm_chips m; wm_raw := wm_raw m |}.

Definition unrole_group (g : WebGroup) : WebGroup :=
  {| wg_title := wg_title g; wg_count := wg_count g; wg_open := wg_open g; wg_items := map unrole (wg_items g) |}.

Definition unrole_section (s : WebSection) : WebSection :=
  {| ws_title := ws_title s; ws_color := ws_color s; ws_count := ws_count s; ws_open := ws_open s;
     ws_body := match ws_body s with
                | WMessages l => WMessages (map unrole l)
                | WGroups l => WGroups (map unrole_group l)
                | b => b
                end |}.

Lemma map_result_ext {A B C D} (f : A -> result B) (g : A -> result C) (h : B -> D) (k : C -> D) l :
  (forall x, h <$> f x = k <$> g x) -> map h <$> map_result f l = map k <$> map_result g l.
Proof.
  intros E. induction l as [|x l IH]; [done|]. simpl. specialize (E x).
  destruct (f x), (g x); simpl in *; try congruence. destruct (map_result f l), (map_result g l); simpl in *; congruence.
Qed.

Lemma raw_plain b role : WebBlockRaw b = plain <$> BlockRaw t b role.
Proof.
  destruct b as [s| |s|n tc|i s|v]; simpl; try done.
  - destruct s; [by rewrite andb_false_r|]. simpl. rewrite andb_true_r. by destruct (streq role (js "assistant")).
  - destruct (prop tc "function"); simpl; [|done]. by destruct (prop tc "id").
Qed.

Lemma message_shown i m : unrole <$> WebMessageNode i m = shown_message <$> MessageNode t i m.
Proof.
  unfold WebMessageNode, MessageNode. destruct (blocksOf m) as [bs|]; simpl; [|done]. destruct (role_of m) as [role|]; simpl; [|done].
  pose proof (map_result_ext WebBlockRaw (fun b => BlockRaw t b role) (fun v => v) plain bs) as E.
  assert (X : forall b, (fun v : RawView => v) <$> WebBlockRaw b = plain <$> BlockRaw t b role)
    by (intros b; rewrite <- raw_plain; by destruct (WebBlockRaw b)).
  specialize (E X). destruct (map_result WebBlockRaw bs), (map_result (fun b => BlockRaw t b role) bs); simpl in *; try congruence.
  unfold unrole, shown_message. simpl. rewrite map_id in E. congruence.
Qed.

Lemma messages_shown base l : map unrole <$> web_messages base l = map shown_message <$> message_nodes t base l.
Proof. apply map_result_ext. intros [i m]. apply message_shown. Qed.

End Tree.

Lemma map_when {A B} (f : A -> B) b x : map f (when b x) = when b (f x).
Proof. by destruct b. Qed.

Lemma section_agrees t label count hint (b : SectionBody) (w : WebBody) :
  ws_body (unrole_section {| ws_title := []; ws_color := []; ws_count := 0; ws_open := true; ws_body := w |}) =
  ws_body (shown_section {| sv_label := []; sv_title := []; sv_color := []; sv_count := 0; sv_open := true; sv_body := b |}) ->
  unrole_section (WebSectionNode t label count hint w) = shown_section (SectionNode t label count hint b).
Proof.
  intros E. unfold unrole_section, shown_section, WebSectionNode, SectionNode. cbn [ws_title ws_color ws_count ws_open ws_body sv_title sv_color sv_count sv_open sv_body] in *.
  f_equal. destruct hint as [h|]; [|exact E]. by destruct (_ && _).
Qed.

Lemma group_agrees t label count items witems : map unrole witems = map shown_message items ->
  unrole_group (WebGroupNode t label count witems) = shown_group (Group t label count items).
Proof. intros E. unfold unrole_group, shown_group, WebGroupNode, Group. cbn. by rewrite E. Qed.

(** C7: The admin UI renders the trace tree the desktop UI renders: the same
    sections in the same order with the same titles, colours, counts, hints and
    open states, the same groups, messages, chips, tools and output, the same
    placeholder and the same exceptions, for every pair of payloads and every
    translation; only role names and the Markdown rendering of assistant text
    differ. *)
Theorem front_ends_same_tree t current previous :
  (fmap (M := option) (map unrole_section)) <$> WebTraceCategories t current previous =
  (fmap (M := option) (map shown_section)) <$> TraceCategories t current previous.
Proof.
  unfold WebTraceCategories, TraceCategories. rewrite analyze_agree. destruct (Desktop.analyze current previous) as [a|]; [|done].
  cbn [mbind result_bind]. destruct (_ && _ && _ && _); [done|].
  pose proof (messages_shown t 0 (systemMsgs a)) as Es. pose proof (messages_shown t 0 (carried a)) as Ec.
  pose proof (messages_shown t (length (carried a)) (turnMsgs a)) as En.
  destruct (web_messages t 0 (systemMsgs a)) as [ws|], (message_nodes t 0 (systemMsgs a)) as [ds|]; simpl in Es; try discriminate Es;
    [|simpl; congruence].
  cbn [mbind result_bind]. destruct (map_result (ToolLabel t) (tools a)) as [tl|]; [|done]. cbn [mbind result_bind].
  destruct (web_messages t 0 (carried a)) as [wc|], (message_nodes t 0 (carried a)) as [dc|]; simpl in Ec; try discriminate Ec;
    [|simpl; congruence].
  cbn [mbind result_bind].
  destruct (web_messages t (length (carried a)) (turnMsgs a)) as [wn|], (message_nodes t (length (carried a)) (turnMsgs a)) as [dn|];
    simpl in En; try discriminate En; [|simpl; congruence].
  cbn [mbind result_bind]. injection Es as Es. injection Ec as Ec. injection En as En.
  destruct (match output a with Some item => _ | None => Ret None end) as [out|]; [|done].
  cbn [mbind result_bind fmap result_fmap option_fmap option_map]. do 2 f_equal. rewrite !map_app, !map_when. cbn [map].
  rewrite (section_agrees t _ _ _ (SMessages ds) (WMessages ws)) by exact (f_equal WMessages Es).
  rewrite (section_agrees t _ _ _ (STools tl) (WTools tl)) by reflexivity.
  rewrite (section_agrees t _ _ _ (SOutput out) (WOutput out)) by reflexivity.
  erewrite (section_agrees t (js "messages")); [reflexivity|]. cbn [ws_body unrole_section shown_section sv_body]. f_equal.
  rewrite !map_app, !map_when. by rewrite (group_agrees t _ _ dc wc Ec), (group_agrees t _ _ dn wn En).
Qed.
