(* ===== verification/ConfigForms.v ===== *)
(** * Configuration forms of the desktop UI

    The create/edit forms of [desktop-ui/src/pages/Providers.tsx], [Models.tsx]
    and [Routes.tsx]: the state their hooks hold, the edits the rendered
    controls allow, and the submit handlers on top of [DesktopApi].  A submit
    handler answers with what the form shows afterwards ([outcome]). *)

From S2P Require Import Prelude JsNumber Money JsString Json DesktopApi Format.

(** ** Rows with a React key

    The forms keep their repeated rows as arrays whose elements carry a
    [crypto.randomUUID()] key; edits address a row by it. *)

Class Keyed (R : Type) : Type := key_of : R -> jstr.

Section Rows.
  Context {R : Type} `{Keyed R}.

(** [arr.map((x) => (x.key === key ? f(x) : x))] *)
Definition patch_row (k : jstr) (f : R -> R) (rows : list R) : list R :=
  map (fun x => if streq (key_of x) k then f x else x) rows.

(** [arr.filter((x) => x.key !== key)] *)
Definition remove_row (k : jstr) (rows : list R) : list R := List.filter (fun x => negb (streq (key_of x) k)) rows.

Definition keys_of (rows : list R) : list jstr := map key_of rows.

Lemma patch_keys k f rows : (forall x, key_of (f x) = key_of x) -> keys_of (patch_row k f rows) = keys_of rows.
Proof.
  intros Hf. unfold keys_of, patch_row. rewrite map_map. apply map_ext. intros x. by destruct (streq _ _).
Qed.

(** With distinct keys an edit changes the addressed row and no other. *)
Lemma patch_lookup k f rows i x : NoDup (keys_of rows) -> rows !! i = Some x -> key_of x = k ->
  patch_row k f rows = <[i := f x]> rows.
Proof.
  intros Hn Hi Hk. apply list_eq. intros j. unfold patch_row. rewrite list_lookup_fmap.
  destruct (decide (j = i)) as [-> |Ne].
  - rewrite list_lookup_insert_eq, Hi by (by eapply lookup_lt_Some). simpl. by rewrite Hk, streq_refl.
  - rewrite list_lookup_insert_ne by done. destruct (rows !! j) as [y|] eqn:Hj; [|done]. simpl.
    destruct (streq (key_of y) k) eqn:E; [|done]. apply streq_true in E. destruct Ne.
    eapply (NoDup_lookup (keys_of rows)); [done| |]; unfold keys_of; rewrite list_lookup_fmap.
    + by rewrite Hj.
    + by rewrite Hi; simpl; rewrite Hk, E.
Qed.

Lemma patch_length k f rows : length (patch_row k f rows) = length rows.
Proof. apply length_map. Qed.

Lemma remove_nodup k rows : NoDup (keys_of rows) -> NoDup (keys_of (remove_row k rows)).
Proof.
  unfold keys_of, remove_row. induction rows as [|x rows IH]; simpl; [done|].
  intros [Hx Hn]%NoDup_cons. case_match; simpl; [|by apply IH]. apply NoDup_cons. split; [|by apply IH].
  intros Hin. apply Hx. apply list_elem_of_fmap in Hin as (y & -> & Hy). apply list_elem_of_fmap. exists y. split; [done|].
  apply list_elem_of_In, filter_In in Hy as [Hy _]. by apply list_elem_of_In.
Qed.

(** Removing one of several rows with distinct keys leaves at least one. *)
Lemma remove_length k rows : NoDup (keys_of rows) -> (length rows <= S (length (remove_row k rows)))%nat.
Proof.
  unfold keys_of, remove_row. induction rows as [|x rows IH]; simpl; [lia|]. intros [Hx Hn]%NoDup_cons.
  destruct (streq (key_of x) k) eqn:E; simpl; [|specialize (IH Hn); lia].
  assert (F : List.filter (fun y => negb (streq (key_of y) k)) rows = rows); [|rewrite F; lia].
  apply streq_true in E as <-. clear IH Hn. induction rows as [|y rows IH]; simpl in *; [done|].
  apply not_elem_of_cons in Hx as [Hy Hx]. rewrite (proj2 (streq_false _ _)) by congruence. simpl. by rewrite IH.
Qed.

Section Drawn.
  (** The UUIDs drawn for keys, in order, no two alike. *)
  Variable uuid : nat -> jstr.
  Hypothesis uuid_unique : forall i j, uuid i = uuid j -> i = j.

(** The keys are distinct and among the first [n] UUIDs. *)
Definition drawn_keys (n : nat) (rows : list R) : Prop :=
  NoDup (keys_of rows) /\ forall k, k ∈ keys_of rows -> exists i, (i < n)%nat /\ k = uuid i.

Lemma drawn_patch n k f rows : (forall x, key_of (f x) = key_of x) -> drawn_keys n rows -> drawn_keys n (patch_row k f rows).
Proof. intros K. unfold drawn_keys. by rewrite patch_keys. Qed.

Lemma drawn_remove n k rows : drawn_keys n rows -> drawn_keys n (remove_row k rows).
Proof.
  intros [H1 H2]. split; [by apply remove_nodup|]. intros x Hx. apply H2. unfold keys_of, remove_row in *.
  apply list_elem_of_fmap in Hx as (y & -> & Hy). apply list_elem_of_In, filter_In in Hy as [Hy _].
  apply list_elem_of_fmap. exists y. split; [done|by apply list_elem_of_In].
Qed.

Lemma drawn_append n x rows : key_of x = uuid n -> drawn_keys n rows -> drawn_keys (S n) (rows ++ [x]).
Proof.
  intros K [H1 H2]. unfold drawn_keys, keys_of. rewrite map_app. split.
  - apply NoDup_app. split_and!; [done| |apply NoDup_singleton]. intros y Hy Hx.
    apply list_elem_of_singleton in Hx as ->. destruct (H2 _ Hy) as (i & Hi & E). rewrite K in E. apply uuid_unique in E. lia.
  - intros y [Hy|Hy]%elem_of_app.
    + destruct (H2 y Hy) as (i & ? & ->). exists i. split; [lia|done].
    + apply list_elem_of_singleton in Hy as ->. exists n. split; [lia|done].
Qed.

(** One row per item, each with the next UUID. *)
Lemma drawn_fresh {A} (row : jstr -> A -> R) l : (forall u a, key_of (row u a) = u) ->
  drawn_keys (length l) (imap (fun i => row (uuid i)) l).
Proof.
  intros K. assert (E : keys_of (imap (fun i => row (uuid i)) l) = map uuid (seq 0 (length l))).
  { apply list_eq. intros j. unfold keys_of. rewrite !list_lookup_fmap, list_lookup_imap. destruct (l !! j) eqn:E; simpl.
    - rewrite lookup_seq_lt by (by eapply lookup_lt_Some). simpl. by rewrite K.
    - by rewrite lookup_seq_ge by (by apply lookup_ge_None). }
  unfold drawn_keys. rewrite E. split.
  - apply NoDup_fmap_2; [intros i j; apply uuid_unique|apply NoDup_seq].
  - intros k (i & -> & Hi)%list_elem_of_fmap. apply elem_of_seq in Hi. exists i. split; [lia|done].
Qed.

Lemma drawn_one x : key_of x = uuid 0%nat -> drawn_keys 1 [x].
Proof. intros K. apply (drawn_append 0 x []); [done|]. split; [constructor|by intros k Hk%elem_of_nil]. Qed.

End Drawn.
End Rows.

(** ** Submitting *)

(** What a form shows when its submit handler is through: closed by
    [onSuccess], or still open with the error message. *)
Inductive outcome : Type := Closed | Shown (message : jstr).

Section Submit.
  Context {Net : Type} `{Fetch Net}.

(** [try { const res = await call; toast.success(…); if (res.warning)
    toast.warning(res.warning); onSuccess(); } catch (err) { setError(…) }] *)
Definition write_form (success : option jstr) (call : D Net json) : D Net outcome :=
  d_try
    (res ← call;
     _ ← match success with Some m => emit (ToastSuccess m) | None => mret tt end;
     w ← d_lift (prop res "warning");
     _ ← if truthy w then emit (ToastWarning (to_string (nullish w JNull))) else mret tt;
     mret Closed)
    (fun e => mret (Shown (exn_message e))).

Lemma issued_bind {A B} (m : D Net A) (k : A -> D Net B) n :
  (forall a n' log, requests (k a (n', log)).2.2 = requests log) -> issued (a ← m; k a) n = issued m n.
Proof.
  intros Hk. unfold issued, mbind, D_bind. destruct (m (n, [])) as [[a|e] [n' log]]; [apply Hk|done].
Qed.

Lemma requests_app l1 l2 : requests (l1 ++ l2) = requests l1 ++ requests l2.
Proof. apply omap_app. Qed.

(** A form issues exactly the requests of its call. *)
Lemma issued_write_form success call n : issued (write_form success call) n = issued call n.
Proof.
  unfold write_form, issued, d_try, mbind, D_bind. destruct (call (n, [])) as [[res|e] [n' log]]; [|done].
  unfold d_lift, emit. destruct success; destruct (prop res "warning") as [w|]; simpl;
    try destruct (truthy w); simpl; rewrite ?requests_app; simpl; by rewrite ?app_nil_r.
Qed.

(** No request and no toast. *)
Definition silent {A} (op : D Net A) : Prop := forall w, (op w).2 = w.

End Submit.

(** ** Providers *)

Module ProviderForm.

Record ProviderTimeouts : Type := { connect : num; first_byte : num; overall : num }.

Record ProviderEndpoint : Type := {
  ep_id : option jstr; ep_adapter : jstr; ep_base_url : jstr; ep_timeouts : option ProviderTimeouts;
}.

Record Provider : Type := {
  p_name : jstr; p_type : jstr; p_endpoints : list ProviderEndpoint; p_api_key_ref : jstr;
  p_timeouts : option ProviderTimeouts; p_weight : option num;
}.

Definition PRESET_BRANDS : list jstr :=
  map js ["openai"; "tencent"; "zhipu"; "anthropic"; "google"; "azure"; "deepseek"; "bedrock"].
Definition CUSTOM_TYPE : jstr := "_custom_".
Definition DEFAULT_TIMEOUTS : ProviderTimeouts :=
  {| connect := int 5000000000; first_byte := int 120000000000; overall := int 300000000000 |}.
Definition DEFAULT_WEIGHT : num := int 100.
Definition PLAIN_REF_PREFIX : jstr := "plain://".

Inductive CredMode : Type := CredRef | CredKey.

Record EndpointRow : Type := { er_key : jstr; er_id : jstr; er_adapter : jstr; er_base_url : jstr }.
#[global] Instance endpoint_row_keyed : Keyed EndpointRow := er_key.

Definition newEndpointRow (uuid : jstr) : EndpointRow :=
  {| er_key := uuid; er_id := []; er_adapter := js "openai"; er_base_url := [] |}.

Definition endpointToRow (uuid : jstr) (ep : ProviderEndpoint) : EndpointRow :=
  {| er_key := uuid; er_id := default [] (ep_id ep); er_adapter := ep_adapter ep; er_base_url := ep_base_url ep |}.

Record form : Type := {
  defaultValues : option Provider;
  name : jstr;
  typeSelect : jstr;
  customType : jstr;
  endpoints : list EndpointRow;
  credMode : CredMode;
  apiKeyRef : jstr;
  apiKey : jstr;
  drawn : nat;                            (* UUIDs drawn so far; no hook *)
}.

Definition isEdit (f : form) : bool := match defaultValues f with Some _ => true | None => false end.

Section Form.
  (** The UUIDs [crypto.randomUUID()] gives, in order. *)
  Variable uuid : nat -> jstr.

(** The initial state of the hooks. *)
Definition mount (dv : option Provider) : form :=
  let dvType := match dv with Some p => p_type p | None => [] end in
  let dvIsPreset := array_includes PRESET_BRANDS dvType in
  let dvApiKeyRef := match dv with Some p => p_api_key_ref p | None => [] end in
  let plain := startsWith PLAIN_REF_PREFIX dvApiKeyRef in
  let rows := match dv with
              | Some p => match p_endpoints p with
                          | [] => [newEndpointRow (uuid 0)]
                          | eps => imap (fun i => endpointToRow (uuid i)) eps
                          end
              | None => [newEndpointRow (uuid 0)]
              end in
  {| defaultValues := dv;
     name := match dv with Some p => p_name p | None => [] end;
     typeSelect := if dvIsPreset then dvType else if str_empty dvType then [] else CUSTOM_TYPE;
     customType := if negb dvIsPreset && negb (str_empty dvType) then dvType else [];
     endpoints := rows;
     credMode := if plain then CredKey else CredRef;
     apiKeyRef := if plain then [] else dvApiKeyRef;
     apiKey := [];
     drawn := length rows |}.

(** The edits the rendered controls offer. *)
Inductive edit : Type :=
  | SetName (s : jstr)
  | SetTypeSelect (s : jstr)
  | SetCustomType (s : jstr)
  | SetAdapter (k s : jstr)
  | SetBaseUrl (k s : jstr)
  | RemoveEndpoint (k : jstr)
  | AddEndpoint
  | SetCredMode (m : CredMode)
  | SetApiKeyRef (s : jstr)
  | SetApiKey (s : jstr).

Definition with_endpoints (f : form) (rows : list EndpointRow) (n : nat) : form :=
  {| defaultValues := defaultValues f; name := name f; typeSelect := typeSelect f; customType := customType f;
     endpoints := rows; credMode := credMode f; apiKeyRef := apiKeyRef f; apiKey := apiKey f; drawn := n |}.

(** The name input is disabled when editing, the remove button is rendered
    only while there is more than one endpoint. *)
Definition apply_edit (f : form) (e : edit) : form :=
  let set nm ts ct cm rf ak :=
    {| defaultValues := defaultValues f; name := nm; typeSelect := ts; customType := ct; endpoints := endpoints f;
       credMode := cm; apiKeyRef := rf; apiKey := ak; drawn := drawn f |} in
  match e with
  | SetName s => if isEdit f then f else set s (typeSelect f) (customType f) (credMode f) (apiKeyRef f) (apiKey f)
  | SetTypeSelect s => set (name f) s (customType f) (credMode f) (apiKeyRef f) (apiKey f)
  | SetCustomType s => set (name f) (typeSelect f) s (credMode f) (apiKeyRef f) (apiKey f)
  | SetCredMode m => set (name f) (typeSelect f) (customType f) m (apiKeyRef f) (apiKey f)
  | SetApiKeyRef s => set (name f) (typeSelect f) (customType f) (credMode f) s (apiKey f)
  | SetApiKey s => set (name f) (typeSelect f) (customType f) (credMode f) (apiKeyRef f) s
  | SetAdapter k s =>
      with_endpoints f (patch_row k (fun x => {| er_key := er_key x; er_id := er_id x; er_adapter := s;
                                                 er_base_url := er_base_url x |}) (endpoints f)) (drawn f)
  | SetBaseUrl k s =>
      with_endpoints f (patch_row k (fun x => {| er_key := er_key x; er_id := er_id x; er_adapter := er_adapter x;
                                                 er_base_url := s |}) (endpoints f)) (drawn f)
  | RemoveEndpoint k =>
      if (1 <? length (endpoints f))%nat then with_endpoints f (remove_row k (endpoints f)) (drawn f) else f
  | AddEndpoint => with_endpoints f (endpoints f ++ [newEndpointRow (uuid (drawn f))]) (S (drawn f))
  end.

Definition edits (f : form) (es : list edit) : form := foldl apply_edit f es.

End Form.

Definition typeValue (f : form) : jstr := if streq (typeSelect f) CUSTOM_TYPE then trim (customType f) else typeSelect f.

(** The credential reference a submit sends. *)
Definition credential (f : form) : jstr :=
  match credMode f with
  | CredRef => trim (apiKeyRef f)
  | CredKey => if negb (str_empty (apiKey f)) then PLAIN_REF_PREFIX ++ apiKey f
               else match defaultValues f with Some p => p_api_key_ref p | None => [] end
  end.

(** The checks before a request, in order. *)
Definition validate (f : form) : option jstr :=
  if str_empty (trim (name f)) || str_empty (typeValue f) || str_empty (credential f)
  then Some (js "请完整填写名称、类型与凭证。")
  else if match endpoints f with [] => true | _ => false end then Some (js "至少需要一个端点。")
  else if existsb (fun ep => str_empty (er_adapter ep) || str_empty (trim (er_base_url ep))) (endpoints f)
  then Some (js "每个端点都需要选择协议并填写基础 URL。")
  else None.

Definition row_endpoint (ep : EndpointRow) : ProviderEndpoint :=
  {| ep_id := if str_empty (er_id ep) then None else Some (er_id ep); ep_adapter := er_adapter ep;
     ep_base_url := trim (er_base_url ep); ep_timeouts := None |}.

(** The provider a submit sends. *)
Definition body (f : form) : Provider :=
  {| p_name := trim (name f); p_type := typeValue f; p_endpoints := map row_endpoint (endpoints f);
     p_api_key_ref := credential f;
     p_timeouts := match defaultValues f with
                   | Some p => match p_timeouts p with Some t => Some t | None => Some DEFAULT_TIMEOUTS end
                   | None => Some DEFAULT_TIMEOUTS
                   end;
     p_weight := match defaultValues f with
                 | Some p => match p_weight p with Some w => Some w | None => Some DEFAULT_WEIGHT end
                 | None => Some DEFAULT_WEIGHT
                 end |}.

Definition timeouts_json (t : ProviderTimeouts) : json :=
  JObj [(js "connect", JNum (connect t)); (js "first_byte", JNum (first_byte t)); (js "overall", JNum (overall t))].

Definition opt_member {A} (k : string) (f : A -> json) (v : option A) : list (jstr * json) :=
  match v with Some a => [(js k, f a)] | None => [] end.

Definition endpoint_json (ep : ProviderEndpoint) : json :=
  JObj (opt_member "id" JStr (ep_id ep)
        ++ [(js "adapter", JStr (ep_adapter ep)); (js "base_url", JStr (ep_base_url ep))]
        ++ opt_member "timeouts" timeouts_json (ep_timeouts ep)).

Definition provider_json (p : Provider) : json :=
  JObj (opt_member "timeouts" timeouts_json (p_timeouts p) ++ opt_member "weight" JNum (p_weight p)
        ++ [(js "name", JStr (p_name p)); (js "type", JStr (p_type p));
            (js "endpoints", JArr (map endpoint_json (p_endpoints p))); (js "api_key_ref", JStr (p_api_key_ref p))]).

Definition onSubmit {Net} `{Fetch Net} (f : form) : D Net outcome :=
  match validate f with
  | Some m => mret (Shown m)
  | None =>
      let b := body f in
      if isEdit f
      then write_form (Some (js "供应商已更新。")) (updateProvider (p_name b) (provider_json b))
      else write_form (Some (js "供应商已创建。")) (createProvider (provider_json b))
  end.

(** *** Invariant of the form *)

Section Invariant.
  Variable uuid : nat -> jstr.
  Hypothesis uuid_unique : forall i j, uuid i = uuid j -> i = j.

(** Keys are distinct UUIDs already drawn, there is always an endpoint row,
    and the provider being edited stays fixed. *)
Record ok (dv : option Provider) (f : form) : Prop := {
  ok_keys : drawn_keys uuid (drawn f) (endpoints f);
  ok_some : endpoints f <> [];
  ok_dv : defaultValues f = dv;
  ok_name : match dv with Some p => name f = p_name p | None => True end;
}.

Lemma mount_ok dv : ok dv (mount uuid dv).
Proof.
  destruct dv as [p|]; [|split; [by apply drawn_one|done..]].
  destruct (p_endpoints p) as [|e eps] eqn:E; split; simpl; rewrite ?E; try done; [by apply drawn_one|].
  cbn [length]. rewrite length_imap. by apply (drawn_fresh uuid uuid_unique endpointToRow (e :: eps)).
Qed.

Lemma patched_some k g (rows : list EndpointRow) : rows <> [] -> patch_row k g rows <> [].
Proof. by destruct rows. Qed.

Lemma apply_edit_ok dv f e : ok dv f -> ok dv (apply_edit uuid f e).
Proof.
  intros [H1 H2 H3 H4]. destruct e as [s|s|s|k s|k s|k| |m|s|s]; simpl; try by split.
  - unfold isEdit. rewrite H3. destruct dv; by split.
  - split; [by apply drawn_patch|by apply patched_some|done|done].
  - split; [by apply drawn_patch|by apply patched_some|done|done].
  - destruct (Nat.ltb_spec 1 (length (endpoints f))) as [L|L]; [|by split].
    split; [by apply drawn_remove| |done|done]. cbn. intros E.
    pose proof (remove_length k (endpoints f) (proj1 H1)) as R. rewrite E in R. simpl in R. lia.
  - split; [by apply drawn_append| |done|done]. cbn. by destruct (endpoints f).
Qed.

Lemma provider_edits_ok dv es : forall f, ok dv f -> ok dv (edits uuid f es).
Proof. induction es as [|e es IH]; intros f Hf; [done|]. apply IH. by apply apply_edit_ok. Qed.

End Invariant.

(** *** Editing a stored provider *)

(** Already trimmed and not blank. *)
Definition tidy (s : jstr) : Prop := trim s = s /\ s <> [].

(** A provider as the gateway stores it: no blank or untrimmed fields, at
    least one endpoint, hidden fields present. *)
Record stored (p : Provider) : Prop := {
  st_name : tidy (p_name p);
  st_type : tidy (p_type p);
  st_endpoints : p_endpoints p <> [];
  st_endpoint : Forall (fun e => ep_adapter e <> [] /\ tidy (ep_base_url e) /\ ep_id e <> Some []) (p_endpoints p);
  st_ref : p_api_key_ref p <> [];
  st_ref_tidy : startsWith PLAIN_REF_PREFIX (p_api_key_ref p) = true \/ trim (p_api_key_ref p) = p_api_key_ref p;
  st_timeouts : p_timeouts p <> None;
  st_weight : p_weight p <> None;
}.

(** The provider with the timeouts of its endpoints dropped. *)
Definition drop_endpoint_timeouts (p : Provider) : Provider :=
  {| p_name := p_name p; p_type := p_type p;
     p_endpoints := map (fun e => {| ep_id := ep_id e; ep_adapter := ep_adapter e; ep_base_url := ep_base_url e;
                                     ep_timeouts := None |}) (p_endpoints p);
     p_api_key_ref := p_api_key_ref p; p_timeouts := p_timeouts p; p_weight := p_weight p |}.

Lemma endpointToRow_back k e : ep_adapter e <> [] /\ tidy (ep_base_url e) /\ ep_id e <> Some [] ->
  row_endpoint (endpointToRow k e) =
    {| ep_id := ep_id e; ep_adapter := ep_adapter e; ep_base_url := ep_base_url e; ep_timeouts := None |} /\
  str_empty (er_adapter (endpointToRow k e)) || str_empty (trim (er_base_url (endpointToRow k e))) = false.
Proof.
  intros (A & [T B] & D). unfold row_endpoint, endpointToRow. simpl. rewrite T. split.
  - by destruct (ep_id e) as [[|]|].
  - destruct (ep_adapter e), (ep_base_url e); done.
Qed.

Lemma rows_back uuid eps : Forall (fun e => ep_adapter e <> [] /\ tidy (ep_base_url e) /\ ep_id e <> Some []) eps ->
  map row_endpoint (imap (fun i => endpointToRow (uuid i)) eps) =
    map (fun e => {| ep_id := ep_id e; ep_adapter := ep_adapter e; ep_base_url := ep_base_url e; ep_timeouts := None |}) eps /\
  existsb (fun ep => str_empty (er_adapter ep) || str_empty (trim (er_base_url ep)))
    (imap (fun i => endpointToRow (uuid i)) eps) = false.
Proof.
  intros F. revert uuid. induction F as [|e eps He _ IH]; intros uuid; [done|].
  destruct (endpointToRow_back (uuid 0%nat) e He) as [E1 E2]. destruct (IH (fun i => uuid (S i))) as [I1 I2].
  cbn [imap map existsb]. rewrite E1, E2. split; [f_equal; exact I1|exact I2].
Qed.

Lemma mount_valid uuid p : stored p ->
  body (mount uuid (Some p)) = drop_endpoint_timeouts p /\ validate (mount uuid (Some p)) = None.
Proof.
  intros [[N1 N2] [T1 T2] E F R1 R2 Ht Hw]. set (f := mount uuid (Some p)).
  assert (Ee : endpoints f = imap (fun i => endpointToRow (uuid i)) (p_endpoints p)) by (subst f; simpl; by destruct (p_endpoints p)).
  assert (Ne : endpoints f <> []) by (rewrite Ee; by destruct (p_endpoints p)).
  destruct (rows_back uuid _ F) as [B1 B2]. rewrite <- Ee in B1, B2.
  assert (Ty : typeValue f = p_type p).
  { subst f. unfold typeValue, mount. cbn [typeSelect customType]. destruct (array_includes PRESET_BRANDS (p_type p)) eqn:Pr.
    - destruct (streq (p_type p) CUSTOM_TYPE) eqn:X; [|done]. apply streq_true in X. by rewrite X in Pr.
    - destruct (p_type p); [done|]. cbn [str_empty negb andb]. by rewrite streq_refl. }
  assert (Cr : credential f = p_api_key_ref p).
  { subst f. unfold credential, mount. cbn [credMode apiKeyRef apiKey defaultValues]. destruct (startsWith PLAIN_REF_PREFIX (p_api_key_ref p)) eqn:X; [done|].
    destruct R2; [congruence|done]. }
  assert (Nm : trim (name f) = p_name p) by done.
  split.
  - unfold body, drop_endpoint_timeouts. rewrite Nm, Ty, Cr, B1. subst f. simpl.
    destruct (p_timeouts p); [|done]. destruct (p_weight p); done.
  - unfold validate. rewrite Nm, Ty, Cr, B2. destruct (endpoints f); [done|].
    destruct (p_name p), (p_type p), (p_api_key_ref p); done.
Qed.

(** C9: Opening a stored provider in the desktop form and saving it unchanged
    issues one PUT to its own address with the provider as stored: name, brand
    (preset or custom), endpoints in order, hidden weight and timeouts, and
    the credential, plaintext or reference.  Only the timeouts of individual
    endpoints are lost: the form's rows do not carry them. *)
Theorem provider_edit_roundtrip {Net} `{Fetch Net} uuid p e n :
  stored p -> encodeURIComponent (p_name p) = Ret e ->
  issued (onSubmit (mount uuid (Some p))) n =
    [{| rq_method := js "PUT"; rq_target := BASE ++ js "/providers/" ++ e; rq_params := [];
        rq_body := Some (stringify (provider_json (drop_endpoint_timeouts p))) |}].
Proof.
  intros S E. destruct (mount_valid uuid p S) as [B V]. unfold onSubmit. rewrite V, B.
  change (isEdit (mount uuid (Some p))) with true. cbv iota zeta. rewrite issued_write_form.
  exact (eq_trans (issued_segment _ _ _ n e E) (issued_send _ _ _ n)).
Qed.

(** Witnesses: a Zhipu provider with a plaintext key and an endpoint that has
    its own timeouts. *)
Definition zhipu : Provider :=
  {| p_name := js "zhipu-cn"; p_type := js "zhipu";
     p_endpoints := [{| ep_id := Some (js "ep-1"); ep_adapter := js "openai"; ep_base_url := js "https://open.bigmodel.cn/v4";
                        ep_timeouts := Some DEFAULT_TIMEOUTS |}];
     p_api_key_ref := js "plain://sk-1"; p_timeouts := Some DEFAULT_TIMEOUTS; p_weight := Some DEFAULT_WEIGHT |}.

Lemma provider_edit_roundtrip_witness : exists b,
  issued (onSubmit (H := always {| rs_status := 200; rs_text := js "{}" |}) (mount (fun n => repeat 97 n) (Some zhipu))) tt =
    [{| rq_method := js "PUT"; rq_target := js "/api/v1/providers/zhipu-cn"; rq_params := []; rq_body := Some b |}] /\
  provider_json (drop_endpoint_timeouts zhipu) <> provider_json zhipu.
Proof.
  eexists. split; [|by vm_compute].
  refine (provider_edit_roundtrip (H := always {| rs_status := 200; rs_text := js "{}" |})
            (fun n => repeat 97 n) zhipu (js "zhipu-cn") tt _ _); [|reflexivity].
  split; try by vm_compute.
  - constructor; [by vm_compute|constructor].
  - by left.
Defined.

End ProviderForm.

(** ** Comma-separated lists *)

(** [s.split(",").map((x) => x.trim()).filter(Boolean)] *)
Definition parse_list (s : jstr) : list jstr := filter_truthy (map trim (split_char 44 s)).

Lemma split_join l w : Forall (fun x => 44 ∉ x) (w :: l) ->
  split_char 44 (join (js ", ") (w :: l)) = w :: map (cons 32) l.
Proof.
  revert w. induction l as [|v l IH]; intros w [Hw Hl]%Forall_cons; [by apply split_char_none|].
  rewrite join_cons by done. change (js ", ") with [44; 32] at 1. cbn [app]. rewrite split_char_app by done.
  f_equal. destruct l as [|u l].
  - cbn [join map]. apply Forall_cons in Hl as [Hv _]. apply split_char_none. rewrite not_elem_of_cons. done.
  - pose proof (IH v Hl) as E. rewrite join_cons in * by done. change (js ", ") with [44; 32] in *. cbn [app] in *.
    apply Forall_cons in Hl as [Hv _]. rewrite split_char_app in E by done. injection E as E.
    change (32 :: v ++ 44 :: 32 :: join [44; 32] (u :: l)) with ((32 :: v) ++ 44 :: 32 :: join [44; 32] (u :: l)).
    rewrite split_char_app by (rewrite not_elem_of_cons; done). cbn [map]. f_equal. exact E.
Qed.

(** A list of tidy, comma-free words survives joining and parsing. *)
Lemma parse_list_join l : Forall (fun x => ProviderForm.tidy x /\ 44 ∉ x) l -> parse_list (join (js ", ") l) = l.
Proof.
  intros F. destruct l as [|w l]; [done|]. unfold parse_list.
  rewrite split_join by (eapply Forall_impl; [exact F|]; by intros x [_ ?]).
  rewrite map_cons, map_map. rewrite (map_ext_in (fun x => trim (32 :: x)) (fun x => x)).
  - rewrite map_id. apply Forall_cons in F as [[[-> N] _] F]. unfold filter_truthy. simpl.
    destruct w; [done|]. simpl. f_equal. clear N. induction F as [|x l [[_ Nx] _] _ IH]; simpl; [done|].
    destruct x; [done|]. simpl. by rewrite IH.
  - intros x Hx. apply Forall_cons in F as [_ F]. rewrite Forall_forall in F.
    destruct (F x) as [[T _] _]; [by apply list_elem_of_In|]. exact T.
Qed.

Lemma trimStart_blank s : trimStart s = [] <-> Forall (fun c => is_space c = true) s.
Proof.
  induction s as [|c s IH]; simpl; [done|]. rewrite Forall_cons, <- IH. destruct (is_space c); intuition congruence.
Qed.

Lemma trimStart_head s : match trimStart s with c :: _ => is_space c = false | [] => True end.
Proof. induction s as [|c s IH]; simpl; [done|]. by destruct (is_space c) eqn:E. Qed.

(** A string trims to nothing exactly when it is all white space. *)
Lemma trim_blank s : trim s = [] <-> Forall (fun c => is_space c = true) s.
Proof.
  unfold trim, trimEnd. rewrite <- trimStart_blank. split.
  - intros E. apply (f_equal reverse) in E. rewrite reverse_involutive in E. apply trimStart_blank in E.
    rewrite Forall_reverse in E. pose proof (trimStart_head s) as H. destruct (trimStart s); [done|].
    apply Forall_cons in E as [E _]. congruence.
  - by intros ->.
Qed.

Lemma join_blank l w : ProviderForm.tidy w -> str_empty (trim (join (js ", ") (w :: l))) = false.
Proof.
  intros [T N]. destruct (str_empty _) eqn:E; [|done]. apply str_empty_true, trim_blank in E. destruct N.
  rewrite <- T. apply trim_blank. destruct l; [done|]. rewrite join_cons in E by done. by apply Forall_app in E as [? _].
Qed.

(** ** Models *)

Module ModelForm.

Record Pricing : Type := {
  prompt_per_1m : num; completion_per_1m : num; currency : jstr; cache_hit_multiplier : option num;
}.
Record ModelUpstream : Type := {
  provider : jstr; upstream_model : jstr; default_max_tokens : option num; pricing : option Pricing;
}.
Record Model : Type := {
  alias : jstr; description : option jstr; context_length : option num; capabilities : option (list jstr);
  tags : option (list jstr); upstreams : list ModelUpstream;
}.

Definition CURRENCY : jstr := "USD".

Record UpstreamDraft : Type := {
  ud_key : jstr; ud_provider : jstr; ud_upstream_model : jstr; ud_max_tokens : jstr; ud_prompt_price : jstr;
  ud_completion_price : jstr; ud_cache_hit_pct : jstr;
}.
#[global] Instance draft_keyed : Keyed UpstreamDraft := ud_key.

Definition newUpstream (uuid : jstr) (provider : jstr) : UpstreamDraft :=
  {| ud_key := uuid; ud_provider := provider; ud_upstream_model := []; ud_max_tokens := []; ud_prompt_price := [];
     ud_completion_price := []; ud_cache_hit_pct := [] |}.

Definition toDraft (uuid : jstr) (u : ModelUpstream) : UpstreamDraft :=
  {| ud_key := uuid; ud_provider := provider u; ud_upstream_model := upstream_model u;
     ud_max_tokens := match default_max_tokens u with
                      | Some n => if num_truthy n then num_to_string n else []
                      | None => []
                      end;
     ud_prompt_price := match pricing u with Some p => Money.Desktop.microToDisplay (prompt_per_1m p) | None => [] end;
     ud_completion_price := match pricing u with Some p => Money.Desktop.microToDisplay (completion_per_1m p) | None => [] end;
     ud_cache_hit_pct := match pricing u with
                         | Some p => match cache_hit_multiplier p with
                                     | Some m => if nlt (int 0) m then num_to_string (ndiv m (int 10000)) else []
                                     | None => []
                                     end
                         | None => []
                         end |}.

Record form : Type := {
  defaultValues : option Model;
  f_alias : jstr; f_description : jstr; f_contextLength : jstr; f_capabilities : jstr; f_tags : jstr;
  f_upstreams : list UpstreamDraft;
  f_drawn : nat;                          (* UUIDs drawn so far; no hook *)
}.

Definition isEdit (f : form) : bool := match defaultValues f with Some _ => true | None => false end.

(** The initial state of the hooks; [first] is [providers[0]?.name]. *)
Definition mount (uuid : nat -> jstr) (first : option jstr) (dv : option Model) : form :=
  {| defaultValues := dv;
     f_alias := match dv with Some m => alias m | None => [] end;
     f_description := match dv with Some m => default [] (description m) | None => [] end;
     f_contextLength := match dv with
                        | Some m => match context_length m with
                                    | Some n => if num_truthy n then num_to_string n else []
                                    | None => []
                                    end
                        | None => []
                        end;
     f_capabilities := join (js ", ") (match dv with Some m => default [] (capabilities m) | None => [] end);
     f_tags := join (js ", ") (match dv with Some m => default [] (tags m) | None => [] end);
     f_upstreams := match dv with
                    | Some m => match upstreams m with
                                | [] => [newUpstream (uuid 0%nat) (default [] first)]
                                | us => imap (fun i => toDraft (uuid i)) us
                                end
                    | None => [newUpstream (uuid 0%nat) (default [] first)]
                    end;
     f_drawn := match dv with Some m => Nat.max 1 (length (upstreams m)) | None => 1%nat end |}.

(** The edits the rendered controls offer; a draft's fields by name. *)
Inductive draft_field : Type := DProvider | DUpstreamModel | DMaxTokens | DPromptPrice | DCompletionPrice | DCacheHit.
#[global] Instance draft_field_eq_dec : EqDecision draft_field.
Proof. solve_decision. Defined.

Inductive edit : Type :=
  | SetAlias (s : jstr) | SetDescription (s : jstr) | SetContextLength (s : jstr) | SetCapabilities (s : jstr) | SetTags (s : jstr)
  | PatchUpstream (k : jstr) (d : draft_field) (s : jstr)
  | RemoveUpstream (k : jstr)
  | AddUpstream.

(** [{ ...u, ...patch }] *)
Definition patch_draft (d : draft_field) (s : jstr) (u : UpstreamDraft) : UpstreamDraft :=
  let set e old := if decide (d = e) then s else old in
  {| ud_key := ud_key u; ud_provider := set DProvider (ud_provider u); ud_upstream_model := set DUpstreamModel (ud_upstream_model u);
     ud_max_tokens := set DMaxTokens (ud_max_tokens u); ud_prompt_price := set DPromptPrice (ud_prompt_price u);
     ud_completion_price := set DCompletionPrice (ud_completion_price u); ud_cache_hit_pct := set DCacheHit (ud_cache_hit_pct u) |}.

(** The alias is locked when editing; the last upstream may be removed. *)
Definition apply_edit (uuid : nat -> jstr) (first : option jstr) (f : form) (e : edit) : form :=
  let set a d c cap tg ups n :=
    {| defaultValues := defaultValues f; f_alias := a; f_description := d; f_contextLength := c; f_capabilities := cap; f_tags := tg;
       f_upstreams := ups; f_drawn := n |} in
  let '(a, d, c, cap, tg, ups, n) :=
    (f_alias f, f_description f, f_contextLength f, f_capabilities f, f_tags f, f_upstreams f, f_drawn f) in
  match e with
  | SetAlias s => if isEdit f then f else set s d c cap tg ups n
  | SetDescription s => set a s c cap tg ups n
  | SetContextLength s => set a d s cap tg ups n
  | SetCapabilities s => set a d c s tg ups n
  | SetTags s => set a d c cap s ups n
  | PatchUpstream k x s => set a d c cap tg (patch_row k (patch_draft x s) ups) n
  | RemoveUpstream k => set a d c cap tg (remove_row k ups) n
  | AddUpstream => set a d c cap tg (ups ++ [newUpstream (uuid n) (default [] first)]) (S n)
  end.

Definition edits (uuid : nat -> jstr) (first : option jstr) (f : form) (es : list edit) : form := foldl (apply_edit uuid first) f es.

(** The model being edited and its alias stay fixed, upstream keys are
    distinct. *)
Record ok (uuid : nat -> jstr) (dv : option Model) (f : form) : Prop := {
  ok_keys : drawn_keys uuid (f_drawn f) (f_upstreams f);
  ok_dv : defaultValues f = dv;
  ok_alias : match dv with Some m => f_alias f = alias m | None => True end;
}.

Lemma model_edits_ok uuid first dv es : (forall i j, uuid i = uuid j -> i = j) -> ok uuid dv (edits uuid first (mount uuid first dv) es).
Proof.
  intros U. assert (M : ok uuid dv (mount uuid first dv)).
  { split; [|done|by destruct dv]. destruct dv as [m|]; simpl; [|by apply drawn_one].
    destruct (upstreams m) as [|u us]; [by apply drawn_one|]. apply (drawn_fresh uuid U toDraft (u :: us)). done. }
  revert M. generalize (mount uuid first dv). induction es as [|e es IH]; intros f Hf; [done|]. apply IH. clear IH.
  destruct Hf as [H1 H2 H3], e as [s|s|s|s|s|k x s|k|]; simpl; try by split.
  - unfold apply_edit, isEdit. rewrite H2. destruct dv; by split.
  - split; [by apply drawn_patch|done|done].
  - split; [by apply drawn_remove|done|done].
  - split; [by apply drawn_append|done|done].
Qed.

Definition parsePrice (v : jstr) : result num :=
  if str_empty (trim v) then Ret (int 0) else Money.Desktop.displayToMicro v.

(** One row of [upstreams.map((u) => …)]. *)
Definition parse_draft (u : UpstreamDraft) : result ModelUpstream :=
  if str_empty (ud_provider u) || str_empty (trim (ud_upstream_model u))
  then Throw (err_error (js "每个上游都需要选择供应商并填写上游模型。"))
  else
    let pct := if str_empty (trim (ud_cache_hit_pct u)) then int 0 else str_to_num (ud_cache_hit_pct u) in
    if is_nan pct || nlt pct (int 0) || nlt (int 100) pct
    then Throw (err_error (js "缓存命中 % 必须是 0-100 的数字。"))
    else
      pp ← parsePrice (ud_prompt_price u);
      cp ← parsePrice (ud_completion_price u);
      Ret {| provider := ud_provider u; upstream_model := trim (ud_upstream_model u);
             default_max_tokens := if str_empty (trim (ud_max_tokens u)) then None else Some (str_to_num (ud_max_tokens u));
             pricing := Some {| prompt_per_1m := pp; completion_per_1m := cp; currency := CURRENCY;
                                cache_hit_multiplier := Some (nround (nmul pct (int 10000))) |} |}.

Definition parse_error (e : exn) : jstr :=
  if is_range_error e then js "价格必须是合法数字（如 2.50）。" else exn_message e.

Definition unless_blank {A} (s : jstr) (f : jstr -> A) : option A := if str_empty (trim s) then None else Some (f s).

(** The model a submit sends, given its parsed upstreams. *)
Definition body (f : form) (parsed : list ModelUpstream) : Model :=
  {| alias := trim (f_alias f);
     description := unless_blank (f_description f) trim;
     context_length := unless_blank (f_contextLength f) str_to_num;
     capabilities := unless_blank (f_capabilities f) parse_list;
     tags := unless_blank (f_tags f) parse_list;
     upstreams := parsed |}.

Definition opt_member := @ProviderForm.opt_member.
Arguments opt_member {A} k f v.

Definition pricing_json (p : Pricing) : json :=
  JObj ([(js "prompt_per_1m", JNum (prompt_per_1m p)); (js "completion_per_1m", JNum (completion_per_1m p));
         (js "currency", JStr (currency p))] ++ opt_member "cache_hit_multiplier" JNum (cache_hit_multiplier p)).

Definition upstream_json (u : ModelUpstream) : json :=
  JObj ([(js "provider", JStr (provider u)); (js "upstream_model", JStr (upstream_model u))]
        ++ opt_member "default_max_tokens" JNum (default_max_tokens u) ++ opt_member "pricing" pricing_json (pricing u)).

Definition model_json (m : Model) : json :=
  let strings l := JArr (map JStr l) in
  JObj ([(js "alias", JStr (alias m))] ++ opt_member "description" JStr (description m)
        ++ opt_member "context_length" JNum (context_length m) ++ opt_member "capabilities" strings (capabilities m)
        ++ opt_member "tags" strings (tags m) ++ [(js "upstreams", JArr (map upstream_json (upstreams m)))]).

Definition onSubmit {Net} `{Fetch Net} (f : form) : D Net outcome :=
  if str_empty (trim (f_alias f)) then mret (Shown (js "请填写模型别名。"))
  else match f_upstreams f with
       | [] => mret (Shown (js "至少需要一个上游。"))
       | us => match map_result parse_draft us with
               | Throw e => mret (Shown (parse_error e))
               | Ret parsed =>
                   let b := body f parsed in
                   if isEdit f then write_form None (updateModel (alias b) (model_json b))
                   else write_form None (createModel (model_json b))
               end
       end.

(** *** Editing a stored model *)

(** An integer price in the safe range. *)
Definition stored_price (n : num) : Prop := exists a, n = int a /\ 0 <= a <= 2 ^ 52.

Record stored_upstream (u : ModelUpstream) : Prop := {
  su_provider : provider u <> [];
  su_model : ProviderForm.tidy (upstream_model u);
  su_tokens : forall n, default_max_tokens u = Some n -> exists k, n = int k /\ 0 < k <= 2 ^ 53;
  su_pricing : forall p, pricing u = Some p -> stored_price (prompt_per_1m p) /\ stored_price (completion_per_1m p) /\
    forall m, cache_hit_multiplier p = Some m -> exists q, m = int (10000 * q) /\ 0 <= q <= 100;
}.

Definition hundredths (n : num) : num := match n with Fin a 0 => int (cents a * 10000) | _ => n end.

(** What an unchanged edit makes of an upstream: prices in whole hundredths,
    in US dollars whatever the currency was, and explicit zeros where there
    was no price or no cache discount. *)
Definition resaved (u : ModelUpstream) : ModelUpstream :=
  {| provider := provider u; upstream_model := upstream_model u; default_max_tokens := default_max_tokens u;
     pricing := Some {| prompt_per_1m := match pricing u with Some p => hundredths (prompt_per_1m p) | None => int 0 end;
                        completion_per_1m := match pricing u with Some p => hundredths (completion_per_1m p) | None => int 0 end;
                        currency := CURRENCY;
                        cache_hit_multiplier :=
                          Some (match pricing u with Some p => default (int 0) (cache_hit_multiplier p) | None => int 0 end) |} |}.

Lemma parsePrice_display n : stored_price n -> parsePrice (Money.Desktop.microToDisplay n) = Ret (hundredths n).
Proof.
  intros (a & -> & Ha). destruct (display_back a Ha) as (T & N & E). unfold parsePrice.
  change Money.Desktop.microToDisplay with Money.Web.microToDisplay.
  change Money.Desktop.displayToMicro with Money.Web.displayToMicro. by rewrite T, N.
Qed.

(** The percentage shown for a whole-percent multiplier. *)
Definition pct_field (m : num) : jstr := if nlt (int 0) m then num_to_string (ndiv m (int 10000)) else [].
Definition pct_value (s : jstr) : num := if str_empty (trim s) then int 0 else str_to_num s.

Lemma pct_roundtrip q : 0 <= q <= 100 -> let pct := pct_value (pct_field (int (10000 * q))) in
  is_nan pct || nlt pct (int 0) || nlt (int 100) pct = false /\ nround (nmul pct (int 10000)) = int (10000 * q).
Proof.
  intros Hq. assert (A : forallb (fun n => let pct := pct_value (pct_field (int (10000 * Z.of_nat n))) in
    negb (is_nan pct || nlt pct (int 0) || nlt (int 100) pct) &&
    bool_decide (nround (nmul pct (int 10000)) = int (10000 * Z.of_nat n))) (seq 0 101) = true) by (vm_compute; reflexivity).
  rewrite forallb_forall in A. specialize (A (Z.to_nat q)). rewrite Z2Nat.id in A by lia.
  assert (I : In (Z.to_nat q) (seq 0 101)) by (apply in_seq; lia).
  cbv zeta in *. destruct (andb_prop _ _ (A I)) as [A1 A2].
  split; [by apply negb_true_iff|by apply bool_decide_eq_true in A2].
Qed.

Lemma draft_pct k u : stored_upstream u -> exists pct, pct_value (ud_cache_hit_pct (toDraft k u)) = pct /\
  is_nan pct || nlt pct (int 0) || nlt (int 100) pct = false /\
  Some (nround (nmul pct (int 10000))) = cache_hit_multiplier (match pricing (resaved u) with Some p => p | None => Build_Pricing (int 0) (int 0) [] None end).
Proof.
  intros S. eexists. split; [reflexivity|]. simpl. destruct (pricing u) as [p|] eqn:P; [|done].
  destruct (su_pricing u S p P) as (_ & _ & Hc). destruct (cache_hit_multiplier p) as [m|]; [|done].
  destruct (Hc m eq_refl) as (q & -> & Hq). destruct (pct_roundtrip q Hq) as [A B]. split; [exact A|]. f_equal. exact B.
Qed.

Lemma draft_tokens k u : stored_upstream u ->
  (if str_empty (trim (ud_max_tokens (toDraft k u))) then None else Some (str_to_num (ud_max_tokens (toDraft k u)))) = default_max_tokens u.
Proof.
  intros S. simpl. destruct (default_max_tokens u) as [n|] eqn:E; [|done]. destruct (su_tokens u S n E) as (a & -> & Ha).
  assert (num_truthy (int a) = true) as -> by (destruct a; done || lia).
  rewrite str_to_num_int by lia. rewrite num_to_string_int by lia. destruct (digits_spec a) as [_ D]; [lia|].
  rewrite trim_id by (by apply digits_not_space). destruct (digits a) eqn:X; [by apply digits_nonempty in X|done].
Qed.

Lemma draft_prices k u : stored_upstream u ->
  parsePrice (ud_prompt_price (toDraft k u)) = Ret (match pricing u with Some p => hundredths (prompt_per_1m p) | None => int 0 end) /\
  parsePrice (ud_completion_price (toDraft k u)) = Ret (match pricing u with Some p => hundredths (completion_per_1m p) | None => int 0 end).
Proof.
  intros S. simpl. destruct (pricing u) as [p|] eqn:P; [|done]. destruct (su_pricing u S p P) as (A & B & _).
  split; by apply parsePrice_display.
Qed.

Lemma draft_roundtrip k u : stored_upstream u -> parse_draft (toDraft k u) = Ret (resaved u).
Proof.
  intros S. destruct (draft_prices k u S) as [P1 P2]. destruct (draft_pct k u S) as (pct & Hp & V & M).
  unfold parse_draft. fold (pct_value (ud_cache_hit_pct (toDraft k u))). rewrite Hp, V, P1, P2, (draft_tokens k u S).
  change (ud_provider (toDraft k u)) with (provider u). change (ud_upstream_model (toDraft k u)) with (upstream_model u).
  destruct (su_model u S) as [T N]. rewrite T. pose proof (su_provider u S) as Np.
  destruct (provider u) as [|x xs] eqn:Ep; [done|]. destruct (upstream_model u) as [|y ys] eqn:Em; [done|].
  cbn [str_empty orb mbind result_bind]. unfold resaved in *. rewrite Ep, Em. cbn [pricing cache_hit_multiplier] in M. by rewrite M.
Qed.

Definition stored_list (l : option (list jstr)) : Prop :=
  forall ws, l = Some ws -> ws <> [] /\ Forall (fun x => ProviderForm.tidy x /\ 44 ∉ x) ws.

Record stored (m : Model) : Prop := {
  sm_alias : ProviderForm.tidy (alias m);
  sm_description : forall d, description m = Some d -> ProviderForm.tidy d;
  sm_context : forall n, context_length m = Some n -> exists k, n = int k /\ 0 < k <= 2 ^ 53;
  sm_capabilities : stored_list (capabilities m);
  sm_tags : stored_list (tags m);
  sm_some : upstreams m <> [];
  sm_upstreams : Forall stored_upstream (upstreams m);
}.

Definition resaved_model (m : Model) : Model :=
  {| alias := alias m; description := description m; context_length := context_length m; capabilities := capabilities m;
     tags := tags m; upstreams := map resaved (upstreams m) |}.

Lemma list_back l : stored_list l -> unless_blank (join (js ", ") (default [] l)) parse_list = l.
Proof.
  intros S. destruct l as [ws|]; [|done]. destruct (S ws eq_refl) as [N F]. simpl. unfold unless_blank.
  destruct ws as [|w ws]; [done|]. rewrite join_blank by (by apply Forall_cons in F as [[? _] _]). by rewrite parse_list_join.
Qed.

Lemma number_back n : (forall k, n = Some k -> exists a, k = int a /\ 0 < a <= 2 ^ 53) ->
  unless_blank (match n with Some k => if num_truthy k then num_to_string k else [] | None => [] end) str_to_num = n.
Proof.
  intros H. destruct n as [k|]; [|done]. destruct (H k eq_refl) as (a & -> & Ha).
  assert (num_truthy (int a) = true) as -> by (destruct a; done || lia). unfold unless_blank.
  rewrite str_to_num_int by lia. rewrite num_to_string_int by lia. destruct (digits_spec a) as [_ D]; [lia|].
  rewrite trim_id by (by apply digits_not_space). destruct (digits a) eqn:X; [by apply digits_nonempty in X|done].
Qed.

Lemma mount_body uuid first m : stored m -> body (mount uuid first (Some m)) (map resaved (upstreams m)) = resaved_model m.
Proof.
  intros [[A1 A2] Hd Hc Hcap Ht _ _]. unfold body, mount, resaved_model.
  cbn [f_alias f_description f_contextLength f_capabilities f_tags].
  rewrite A1, (list_back _ Hcap), (list_back _ Ht), (number_back _ Hc). f_equal.
  destruct (description m) as [d|]; [|done]. destruct (Hd d eq_refl) as [T N]. unfold unless_blank. simpl. rewrite T. by destruct d.
Qed.

Lemma mount_drafts uuid first m : stored m -> map_result parse_draft (f_upstreams (mount uuid first (Some m))) = Ret (map resaved (upstreams m)) /\
  f_upstreams (mount uuid first (Some m)) <> [].
Proof.
  intros S. pose proof (sm_some m S) as N. pose proof (sm_upstreams m S) as F. simpl.
  assert (G : forall us, Forall stored_upstream us -> forall u : nat -> jstr,
            map_result parse_draft (imap (fun i => toDraft (u i)) us) = Ret (map resaved us)).
  { intros us. induction 1 as [|v vs Hv _ IH]; intros u; [done|].
    cbn [imap map_result map]. rewrite (draft_roundtrip _ v Hv). cbn [mbind result_bind].
    exact (f_equal (fun r => ys ← r; Ret (resaved v :: ys)) (IH (fun i => u (Datatypes.S i)))). }
  destruct (upstreams m) as [|u us]; [done|]. split; [exact (G (u :: us) F uuid)|done].
Qed.

(** Opening a stored model in the desktop form and saving it unchanged
    issues one PUT to its own address.  Alias, description, context length,
    capabilities, tags, providers, upstream models, token limits and cache
    discounts come back as stored; prices come back in whole hundredths and in
    US dollars whatever their currency was, and an upstream without prices
    comes back with explicit zero prices. *)
Theorem desktop_model_edit {Net} `{Fetch Net} uuid first m e n :
  stored m -> encodeURIComponent (alias m) = Ret e ->
  issued (onSubmit (mount uuid first (Some m))) n =
    [{| rq_method := js "PUT"; rq_target := BASE ++ js "/models/" ++ e; rq_params := [];
        rq_body := Some (stringify (model_json (resaved_model m))) |}].
Proof.
  intros S E. destruct (mount_drafts uuid first m S) as [M N]. unfold onSubmit.
  change (f_alias (mount uuid first (Some m))) with (alias m).
  assert (str_empty (trim (alias m)) = false) as -> by (destruct (sm_alias m S) as [-> ?]; by destruct (alias m)).
  destruct (f_upstreams (mount uuid first (Some m))) as [|d ds]; [done|]. rewrite M, (mount_body uuid first m S).
  change (isEdit (mount uuid first (Some m))) with true. cbv iota zeta. rewrite issued_write_form.
  exact (eq_trans (issued_segment _ _ _ n e E) (issued_send _ _ _ n)).
Qed.

(** A model priced in yuan with a price that is not whole hundredths. *)
Definition glm : Model :=
  {| alias := js "glm"; description := None; context_length := Some (int 128000);
     capabilities := Some [js "chat"; js "vision"]; tags := None;
     upstreams := [{| provider := js "zhipu-cn"; upstream_model := js "glm-4"; default_max_tokens := None;
                      pricing := Some {| prompt_per_1m := int 504999; completion_per_1m := int 2000000;
                                         currency := js "CNY"; cache_hit_multiplier := Some (int 500000) |} |}] |}.

Lemma desktop_model_edit_witness : exists b,
  issued (onSubmit (H := always {| rs_status := 200; rs_text := js "{}" |}) (mount (fun n => repeat 97 n) None (Some glm))) tt =
    [{| rq_method := js "PUT"; rq_target := js "/api/v1/models/glm"; rq_params := []; rq_body := Some b |}] /\
  map pricing (upstreams (resaved_model glm)) =
    [Some {| prompt_per_1m := int 500000; completion_per_1m := int 2000000; currency := js "USD";
             cache_hit_multiplier := Some (int 500000) |}].
Proof.
  eexists. split; [|by vm_compute].
  refine (desktop_model_edit (H := always {| rs_status := 200; rs_text := js "{}" |})
            (fun n => repeat 97 n) None glm (js "glm") tt _ _); [|reflexivity].
  split; try done.
  - intros n [= <-]. by exists 128000.
  - intros ws [= <-]. split; [done|]. repeat (constructor; [split; [done|by apply (bool_decide_unpack _)]|]). constructor.
  - constructor; [|constructor]. split; try done. intros p [= <-]. split_and!.
    + by exists 504999.
    + by exists 2000000.
    + intros m [= <-]. by exists 50.
Defined.

End ModelForm.

(** ** Routes *)

Module RouteForm.

Record RouteProvider : Type := { rp_name : jstr; rp_weight : option num }.
Record Route : Type := { model_alias : jstr; providers : list RouteProvider; strategy : jstr }.

(** What the form reads of a model: its alias and upstream providers. *)
Record ModelRef : Type := { mr_alias : jstr; mr_upstreams : option (list jstr) }.

Definition STRATEGIES : list jstr := map js ["priority"; "weighted"; "round_robin"; "session_affinity"].
Definition STRATEGY_LABELS : list (jstr * jstr) :=
  [(js "priority", js "优先级"); (js "weighted", js "加权"); (js "round_robin", js "轮询"); (js "session_affinity", js "会话亲和")].

Definition strategyLabel (s : option jstr) : label :=
  let k := default [] s in
  match List.find (fun kv => streq kv.1 k) STRATEGY_LABELS with
  | Some kv => Text kv.2
  | None => if array_includes inherited_names k then Inherited k else Text (default (js "-") s)
  end.

Record ProviderRowDraft : Type := { pr_key : jstr; pr_name : jstr; pr_weight : jstr }.
#[global] Instance provider_row_keyed : Keyed ProviderRowDraft := pr_key.

Record form : Type := {
  defaultValues : option Route;
  selectedModel : jstr;
  f_strategy : jstr;
  rows : list ProviderRowDraft;
  drawn : nat;
}.

Definition isEdit (f : form) : bool := match defaultValues f with Some _ => true | None => false end.

Section Form.
  Variable uuid : nat -> jstr.
  (** The props: configured models and the names of the configured providers. *)
  Variables (models : list ModelRef) (known : list jstr).

Definition mount (dv : option Route) : form :=
  let rs := match dv with
            | Some r => imap (fun i p => {| pr_key := uuid i; pr_name := rp_name p;
                                            pr_weight := match rp_weight p with Some w => num_to_string w | None => [] end |})
                          (providers r)
            | None => []
            end in
  {| defaultValues := dv; selectedModel := match dv with Some r => model_alias r | None => [] end;
     f_strategy := match dv with Some r => strategy r | None => [] end; rows := rs; drawn := length rs |}.

(** The providers the row selects offer. *)
Definition allowedProviders (selected : jstr) : list jstr :=
  if str_empty selected then known
  else match List.find (fun m => streq (mr_alias m) selected) models with
       | Some m => match mr_upstreams m with
                   | Some ups => List.filter (fun p => array_includes ups p) known
                   | None => known
                   end
       | None => known
       end.

Inductive edit : Type :=
  | SelectModel (a : jstr)
  | SetStrategy (s : jstr)
  | PickProvider (k n : jstr)
  | SetWeight (k w : jstr)
  | RemoveRow (k : jstr)
  | AddRow.

Definition with_rows (f : form) (rs : list ProviderRowDraft) (n : nat) : form :=
  {| defaultValues := defaultValues f; selectedModel := selectedModel f; f_strategy := f_strategy f; rows := rs; drawn := n |}.

(** The edits the rendered controls allow: the model is a select among the
    models on create and fixed on edit, the others are selects among their
    options. *)
Definition apply_edit (f : form) (e : edit) : form :=
  match e with
  | SelectModel a =>
      if negb (isEdit f) && existsb (fun m => streq (mr_alias m) a) models
      then {| defaultValues := defaultValues f; selectedModel := a; f_strategy := f_strategy f; rows := rows f; drawn := drawn f |}
      else f
  | SetStrategy s =>
      if array_includes STRATEGIES s
      then {| defaultValues := defaultValues f; selectedModel := selectedModel f; f_strategy := s; rows := rows f; drawn := drawn f |}
      else f
  | PickProvider k n =>
      if array_includes (allowedProviders (selectedModel f)) n
      then with_rows f (patch_row k (fun r => {| pr_key := pr_key r; pr_name := n; pr_weight := pr_weight r |}) (rows f)) (drawn f)
      else f
  | SetWeight k w =>
      with_rows f (patch_row k (fun r => {| pr_key := pr_key r; pr_name := pr_name r; pr_weight := w |}) (rows f)) (drawn f)
  | RemoveRow k => with_rows f (remove_row k (rows f)) (drawn f)
  | AddRow => with_rows f (rows f ++ [{| pr_key := uuid (drawn f); pr_name := []; pr_weight := [] |}]) (S (drawn f))
  end.

Definition edits (f : form) (es : list edit) : form := foldl apply_edit f es.

End Form.

Definition validate (f : form) : option jstr :=
  if str_empty (selectedModel f) then Some (js "请选择模型别名。")
  else if str_empty (f_strategy f) then Some (js "请选择策略。")
  else if match rows f with [] => true | _ => false end || existsb (fun r => str_empty (pr_name r)) (rows f)
  then Some (js "至少需要一个候选供应商，且每行都要选择供应商。")
  else None.

Definition row_provider (r : ProviderRowDraft) : RouteProvider :=
  {| rp_name := pr_name r; rp_weight := if str_empty (trim (pr_weight r)) then None else Some (str_to_num (pr_weight r)) |}.

Definition body (f : form) : Route :=
  {| model_alias := selectedModel f; strategy := f_strategy f; providers := map row_provider (rows f) |}.

Definition route_json (r : Route) : json :=
  JObj [(js "model_alias", JStr (model_alias r)); (js "strategy", JStr (strategy r));
        (js "providers", JArr (map (fun p => JObj ([(js "name", JStr (rp_name p))]
                                                   ++ ProviderForm.opt_member "weight" JNum (rp_weight p))) (providers r)))].

Definition onSubmit {Net} `{Fetch Net} (f : form) : D Net outcome :=
  match validate f with
  | Some m => mret (Shown m)
  | None =>
      let b := body f in
      if isEdit f then write_form None (updateRoute (model_alias b) (route_json b))
      else write_form None (createRoute (route_json b))
  end.

(** The route being edited and its model stay fixed, row keys are distinct. *)
Record ok (uuid : nat -> jstr) (dv : option Route) (f : form) : Prop := {
  ok_keys : drawn_keys uuid (drawn f) (rows f);
  ok_dv : defaultValues f = dv;
  ok_model : match dv with Some r => selectedModel f = model_alias r | None => True end;
}.

Lemma route_edits_ok uuid models known dv es : (forall i j, uuid i = uuid j -> i = j) ->
  ok uuid dv (edits uuid models known (mount uuid dv) es).
Proof.
  intros U. assert (M : ok uuid dv (mount uuid dv)).
  { split; [|done|by destruct dv]. destruct dv as [r|]; simpl; [|split; [constructor|by intros k Hk%elem_of_nil]].
    rewrite length_imap. by apply (drawn_fresh uuid U (fun u p => {| pr_key := u; pr_name := rp_name p;
      pr_weight := match rp_weight p with Some w => num_to_string w | None => [] end |})). }
  revert M. generalize (mount uuid dv). induction es as [|e es IH]; intros f Hf; [done|]. apply IH. clear IH.
  destruct Hf as [H1 H2 H3], e as [a|s|k n|k w|k|]; unfold apply_edit.
  - unfold isEdit. rewrite H2. destruct dv; simpl; [by split|]. destruct (existsb _ _); by split.
  - destruct (array_includes _ _); by split.
  - destruct (array_includes _ _); [|by split]. split; [by apply drawn_patch|done|done].
  - split; [by apply drawn_patch|done|done].
  - split; [by apply drawn_remove|done|done].
  - split; [by apply drawn_append|done|done].
Qed.

(** *** Candidates *)

Definition selects_model (e : edit) : bool := match e with SelectModel _ => true | _ => false end.

(** Every chosen provider is one the selected model can use. *)
Definition candidates_ok (models : list ModelRef) (known : list jstr) (f : form) : Prop :=
  Forall (fun r => pr_name r = [] \/ pr_name r ∈ allowedProviders models known (selectedModel f)) (rows f).

Lemma apply_edit_candidates uuid models known f e : selects_model e = false ->
  candidates_ok models known f -> candidates_ok models known (apply_edit uuid models known f e).
Proof.
  intros N C. unfold candidates_ok in *. destruct e as [a|s|k n|k w|k|]; simpl in *; try done.
  - by case_match.
  - case_match; [|done]. apply array_includes_spec in H. cbn [rows selectedModel with_rows]. unfold patch_row.
    apply Forall_fmap. eapply Forall_impl; [exact C|]. intros r Hr. simpl. case_match; [by right|done].
  - unfold patch_row. apply Forall_fmap. eapply Forall_impl; [exact C|]. intros r Hr. simpl. by case_match.
  - unfold remove_row. rewrite Forall_forall in *. intros r Hr. apply C.
    apply list_elem_of_In, filter_In in Hr as [Hr _]. by apply list_elem_of_In.
  - apply Forall_app. split; [done|]. apply Forall_singleton. by left.
Qed.

Lemma edits_candidates uuid models known es : forall f, existsb selects_model es = false ->
  candidates_ok models known f -> candidates_ok models known (edits uuid models known f es).
Proof.
  induction es as [|e es IH]; intros f N C; [done|]. apply orb_false_elim in N as [N1 N2].
  apply IH; [done|]. by apply apply_edit_candidates.
Qed.

Lemma validate_rows f : validate f = None -> Forall (fun r => pr_name r <> []) (rows f).
Proof.
  unfold validate. destruct (str_empty _); [done|]. destruct (str_empty _); [done|].
  destruct (_ || existsb (fun r => str_empty (pr_name r)) (rows f)) eqn:E; [done|]. intros _.
  apply orb_false_elim in E as [_ E]. apply Forall_forall. intros r Hr Nr.
  assert (existsb (fun x => str_empty (pr_name x)) (rows f) = true); [|congruence].
  apply existsb_exists. exists r. split; [by apply list_elem_of_In|]. by rewrite Nr.
Qed.

(** The route form keeps its candidates within the selected model's
    upstream providers as long as the model is not changed: whatever else is
    edited, a valid submit then sends only providers the model can use.
    Changing the model afterwards keeps the rows already chosen, and the form
    submits them although the new model cannot use them. *)
Theorem route_candidates :
  (forall uuid models known dv es, existsb selects_model es = false ->
     candidates_ok models known (mount uuid dv) ->
     let f := edits uuid models known (mount uuid dv) es in
     validate f = None -> Forall (fun p => rp_name p ∈ allowedProviders models known (selectedModel f)) (providers (body f))) /\
  (exists uuid models known es,
     let f := edits uuid models known (mount uuid None) es in
     validate f = None /\ Forall (fun p => rp_name p ∉ allowedProviders models known (selectedModel f)) (providers (body f)) /\
     providers (body f) <> []).
Proof.
  split.
  - intros uuid models known dv es N C f V. pose proof (edits_candidates uuid models known es _ N C) as Cf. fold f in Cf.
    unfold body. cbn [providers]. apply Forall_fmap. pose proof (validate_rows f V) as Vr.
    eapply Forall_impl; [apply Forall_and; exact (conj Cf Vr)|]. intros r [[E|E] Nr]; [done|done].
  - exists (fun n => digits (Z.of_nat n)),
      [{| mr_alias := js "gpt-4o"; mr_upstreams := Some [js "openai"] |}; {| mr_alias := js "glm"; mr_upstreams := Some [js "zhipu"] |}],
      [js "openai"; js "zhipu"],
      [SelectModel (js "gpt-4o"); SetStrategy (js "priority"); AddRow; PickProvider (digits 0) (js "openai"); SelectModel (js "glm")].
    vm_compute. split_and!; [done| |done]. constructor; [|constructor]. intros H. inversion H; subst; by inversion H2.
Qed.

End RouteForm.

(** ** All three forms *)

Section Submits.
  Context {Net : Type} `{Fetch Net}.

(** A write call makes one request, or fails before making any. *)
Definition one_call (call : D Net json) : Prop := forall n log, exists r n',
  (exists q, call (n, log) = (r, (n', log ++ [Requested q]))) \/ (n' = n /\ exists e, call (n, log) = (Throw e, (n, log))).

Lemma sendJSON_one m path b : one_call (sendJSON m path b).
Proof. intros n log. destruct (sendJSON_log m path b n log) as (r & n' & E). exists r, n'. left. eauto. Qed.

Lemma with_segment_one m p x b : one_call (path ← with_segment p x; sendJSON m path b).
Proof.
  intros n log. unfold with_segment, d_lift, mbind, D_bind. destruct (encodeURIComponent x) as [s|e].
  - destruct (sendJSON_log m (p ++ s) b n log) as (r & n' & E). exists r, n'. left. eauto.
  - exists (Throw e), n. right. eauto.
Qed.

(** The body of a reply, as the client reads it. *)
Definition reply_body (resp : response) : json :=
  match json_parse (rs_text resp) with Ret v => if str_empty (rs_text resp) then JNull else v | Throw _ => JNull end.

Definition success_toast (success : option jstr) : list effect := match success with Some t => [ToastSuccess t] | None => [] end.

Definition warning_toast (v : json) : list effect :=
  let w := opt_prop (Some v) "warning" in if truthy w then [ToastWarning (to_string (nullish w JNull))] else [].

(** [op] makes the one request [meth path] with the body [b], and ends as the
    gateway answered it.  Only a write the gateway accepted toasts success,
    and the form closes exactly when the accepted reply has a body; an
    accepted write without one leaves the form open with the error of reading
    it.  A refused or failed write is shown, with no toast at all: with the
    reply's own error text, if it has one. *)
Definition writes (success : option jstr) (meth path : jstr) (b : json) (op : D Net outcome) : Prop := forall n log,
  let q := {| rq_method := meth; rq_target := BASE ++ path; rq_params := []; rq_body := Some (stringify b) |} in
  match fetch q n with
  | (Throw e, n') => op (n, log) = (Ret (Shown (exn_message e)), (n', log ++ [Requested q]))
  | (Ret resp, n') =>
      if resp_ok resp then
        match reply_body resp with
        | JNull => op (n, log) = (Ret (Shown (js "Cannot read properties of null (reading 'warning')")),
                                  (n', log ++ Requested q :: success_toast success))
        | v => op (n, log) = (Ret Closed, (n', log ++ Requested q :: success_toast success ++ warning_toast v))
        end
      else exists m, op (n, log) = (Ret (Shown m), (n', log ++ [Requested q])) /\
        (rs_status resp = 404 \/ blank_error resp = false -> m = exn_message (reply_error resp))
  end.

(** Shown without any request or toast. *)
Definition refuses (m : jstr) (op : D Net outcome) : Prop := forall n log, op (n, log) = (Ret (Shown m), (n, log)).

Lemma sendJSON_accepted meth path b n log resp n' :
  let q := {| rq_method := meth; rq_target := BASE ++ path; rq_params := []; rq_body := Some (stringify b) |} in
  fetch q n = (Ret resp, n') -> resp_ok resp = true ->
  sendJSON meth path (Some b) (n, log) = (Ret (reply_body resp), (n', log ++ [Requested q])).
Proof.
  intros q Hf Hok. unfold sendJSON, send, mbind, D_bind. cbn [fmap option_fmap option_map]. fold q. rewrite Hf, Hok. cbn [negb].
  unfold reply_body. destruct (str_empty (rs_text resp)); [by destruct (json_parse _)|by destruct (json_parse _)].
Qed.

Lemma write_form_writes success meth path b : writes success meth path b (write_form success (sendJSON meth path (Some b))).
Proof.
  intros n log. cbv zeta. set (q := {| rq_method := _ |}). destruct (fetch q n) as [[resp|e] n'] eqn:Hf.
  2:{ unfold write_form, d_try, sendJSON, send, mbind, D_bind. cbn [fmap option_fmap option_map]. fold q. by rewrite Hf. }
  destruct (resp_ok resp) eqn:Hok.
  - unfold write_form, d_try, mbind, D_bind. rewrite (sendJSON_accepted meth path b n log resp n' Hf Hok). fold q.
    unfold d_lift, emit, warning_toast. destruct success as [t|]; cbn [success_toast];
      (destruct (reply_body resp) as [| | | | |l]; cbn [prop opt_prop]; try (cbn; by rewrite <- ?app_assoc));
      (destruct (truthy (lookup_prop (js "warning") l)); cbn; by rewrite <- ?app_assoc).
  - pose proof (sendJSON_failed meth path (Some b) n log resp n' Hf Hok) as F.
    assert (X : exists e, sendJSON meth path (Some b) (n, log) = (Throw e, (n', log ++ [Requested q]))).
    { unfold sendJSON, send, mbind, D_bind. cbn [fmap option_fmap option_map]. fold q. rewrite Hf, Hok. cbn [negb].
      destruct (_ && _); by eexists. }
    destruct X as [e X]. rewrite X in F. exists (exn_message e). unfold write_form, d_try, mbind, D_bind. rewrite X.
    split; [done|]. intros P. apply F in P. by injection P as ->.
Qed.

(** A write to the address of [x]: a name that is not well formed has none. *)
Definition writes_to (success : option jstr) (prefix x : jstr) (b : json) (op : D Net outcome) : Prop :=
  match encodeURIComponent x with
  | Ret s => writes success (js "PUT") (prefix ++ s) b op
  | Throw e => refuses (exn_message e) op
  end.

Lemma write_form_writes_to success prefix x b :
  writes_to success prefix x b (write_form success (path ← with_segment prefix x; sendJSON (js "PUT") path (Some b))).
Proof.
  unfold writes_to. destruct (encodeURIComponent x) as [s|e] eqn:E.
  - intros n log. pose proof (write_form_writes success (js "PUT") (prefix ++ s) b n log) as W.
    unfold write_form, d_try, mbind, D_bind in *. unfold with_segment, d_lift, mbind, D_bind in *. rewrite E. exact W.
  - intros n log. unfold write_form, d_try, with_segment, d_lift, mbind, D_bind. by rewrite E.
Qed.

(** What the model form objects to before it writes. *)
Definition model_problem (f : ModelForm.form) : option jstr :=
  if str_empty (trim (ModelForm.f_alias f)) then Some (js "请填写模型别名。")
  else match ModelForm.f_upstreams f with
       | [] => Some (js "至少需要一个上游。")
       | us => match map_result ModelForm.parse_draft us with Throw e => Some (ModelForm.parse_error e) | Ret _ => None end
       end.

(** C39: Submitting a provider, model or route form never raises.  A form with a
    problem shows it, without a request or a toast; otherwise one request is
    made, a PUT to the object edited or a POST to its collection, and its
    answer decides the rest: success is announced only when the gateway
    accepted the write, a refused or failed write is shown and toasts nothing,
    and the form closes only after an accepted write whose reply has a body. *)
Theorem config_forms_submit pf mf rf :
  (match ProviderForm.validate pf with
   | Some m => refuses m (ProviderForm.onSubmit pf)
   | None =>
       let b := ProviderForm.body pf in
       if ProviderForm.isEdit pf
       then writes_to (Some (js "供应商已更新。")) (js "/providers/") (ProviderForm.p_name b) (ProviderForm.provider_json b)
              (ProviderForm.onSubmit pf)
       else writes (Some (js "供应商已创建。")) (js "POST") (js "/providers") (ProviderForm.provider_json b) (ProviderForm.onSubmit pf)
   end) /\
  (match model_problem mf with
   | Some m => refuses m (ModelForm.onSubmit mf)
   | None => exists us, map_result ModelForm.parse_draft (ModelForm.f_upstreams mf) = Ret us /\
       let b := ModelForm.body mf us in
       if ModelForm.isEdit mf
       then writes_to None (js "/models/") (ModelForm.alias b) (ModelForm.model_json b) (ModelForm.onSubmit mf)
       else writes None (js "POST") (js "/models") (ModelForm.model_json b) (ModelForm.onSubmit mf)
   end) /\
  (match RouteForm.validate rf with
   | Some m => refuses m (RouteForm.onSubmit rf)
   | None =>
       let b := RouteForm.body rf in
       if RouteForm.isEdit rf
       then writes_to None (js "/routes/") (RouteForm.model_alias b) (RouteForm.route_json b) (RouteForm.onSubmit rf)
       else writes None (js "POST") (js "/routes") (RouteForm.route_json b) (RouteForm.onSubmit rf)
   end).
Proof.
  split_and!.
  - unfold ProviderForm.onSubmit. destruct (ProviderForm.validate pf); [done|]. cbv zeta.
    destruct (ProviderForm.isEdit pf); [apply write_form_writes_to|apply write_form_writes].
  - unfold model_problem, ModelForm.onSubmit. destruct (str_empty _); [done|].
    destruct (ModelForm.f_upstreams mf) as [|u us]; [done|].
    destruct (map_result ModelForm.parse_draft (u :: us)) as [parsed|e]; [|done]. exists parsed. split; [done|]. cbv zeta.
    destruct (ModelForm.isEdit mf); [apply write_form_writes_to|apply write_form_writes].
  - unfold RouteForm.onSubmit. destruct (RouteForm.validate rf); [done|]. cbv zeta.
    destruct (RouteForm.isEdit rf); [apply write_form_writes_to|apply write_form_writes].
Qed.

End Submits.

(** C32: Whatever edits are made, each configuration form keeps distinct row
    keys, so an edit of a row changes that row only, and keeps the object it
    edits and that object's name; the provider form also never runs out of
    endpoint rows, so that its check for none cannot fire. *)
Theorem config_forms_invariant uuid pv mv rv pes mes res first models known :
  (forall i j, uuid i = uuid j -> i = j) ->
  let pf := ProviderForm.edits uuid (ProviderForm.mount uuid pv) pes in
  let mf := ModelForm.edits uuid first (ModelForm.mount uuid first mv) mes in
  let rf := RouteForm.edits uuid models known (RouteForm.mount uuid rv) res in
  (NoDup (keys_of (ProviderForm.endpoints pf)) /\ NoDup (keys_of (ModelForm.f_upstreams mf)) /\ NoDup (keys_of (RouteForm.rows rf))) /\
  (ProviderForm.defaultValues pf = pv /\ ModelForm.defaultValues mf = mv /\ RouteForm.defaultValues rf = rv) /\
  (forall p, pv = Some p -> ProviderForm.name pf = ProviderForm.p_name p) /\
  (forall m, mv = Some m -> ModelForm.f_alias mf = ModelForm.alias m) /\
  (forall r, rv = Some r -> RouteForm.selectedModel rf = RouteForm.model_alias r) /\
  ProviderForm.endpoints pf <> [] /\ ProviderForm.validate pf <> Some (js "至少需要一个端点。").
Proof.
  intros U pf mf rf. destruct (ProviderForm.provider_edits_ok uuid U pv pes _ (ProviderForm.mount_ok uuid U pv)) as [[P1 _] P2 P3 P4].
  destruct (ModelForm.model_edits_ok uuid first mv mes U) as [[M1 _] M2 M3].
  destruct (RouteForm.route_edits_ok uuid models known rv res U) as [[R1 _] R2 R3]. fold pf in P1, P2, P3, P4. split_and!; try done.
  - by intros p ->.
  - by intros m ->.
  - by intros r ->.
  - unfold ProviderForm.validate. destruct (_ || _ || _); [by vm_compute|].
    destruct (ProviderForm.endpoints pf); [done|]. by destruct (existsb _ _).
Qed.

Lemma config_forms_invariant_witness :
  NoDup (keys_of (ProviderForm.endpoints (ProviderForm.edits (fun n => repeat 97 n) (ProviderForm.mount (fun n => repeat 97 n) (Some ProviderForm.zhipu))
    [ProviderForm.AddEndpoint; ProviderForm.SetName (js "x"); ProviderForm.RemoveEndpoint []; ProviderForm.SetBaseUrl [97] (js "u")]))).
Proof.
  refine (proj1 (proj1 (config_forms_invariant (fun n => repeat 97 n) (Some ProviderForm.zhipu) None None _ [] [] None [] [] _))).
  intros i j E. apply (f_equal length) in E. by rewrite !repeat_length in E.
Defined.
