(* ===== verification/Loaders.v ===== *)
(** * Data loading in the desktop pages

    The pages of [desktop-ui/src/pages] load their data in a [useEffect] that
    depends on the query shown: it starts a request, and the promise handlers
    store the reply.  Some effects set a [cancelled] flag in their cleanup so
    that replies for an earlier query are dropped, others do not.  [Loader] is
    what such a page promises: its call, its state transitions, whether it
    polls and when it renders the controls that change the query, with the law
    that a handled reply ends the loading state.  The machine below runs any
    loader against a network that answers in any order; [ListPages] supplies
    the loaders of the single pages. *)

From stdpp Require Import relations.
From S2P Require Import Prelude JsNumber JsString Json DesktopApi.

(** ** Loaders *)

(** [fetch] settling with a given reply. *)
Definition answered (r : result response) : Fetch unit := fun _ n => (r, n).

Class Loader (Q V : Type) : Type := {
  call : forall Net, Fetch Net -> Q -> D Net json;   (* the request of a query *)
  start : V -> V;                                    (* the state set when it is sent *)
  settle : result json -> V -> V;                    (* the promise handlers *)
  busy : V -> bool;                                  (* the loading flag *)
  cancels : bool;                                    (* the cleanup sets [cancelled] *)
  polls : bool;                                      (* the effect repeats its request on a timer *)
  refetches : bool;                                  (* handlers outside the effect reload, too *)
  offers : V -> bool;                                (* the controls that change the query are rendered *)
  settle_done : forall r v, busy (settle r v) = false;
  cancels_only : cancels = true -> refetches = false;
}.

Section Machine.
  Context {Q V : Type} `{EqDecision Q} (L : Loader Q V).

(** What the promise of query [q] settles with when the network replies [r]. *)
Definition outcome_of (q : Q) (r : result response) : result json := (call unit (answered r) q (tt, [])).1.

Record machine : Type := {
  current : Q;                            (* the dependencies as last set *)
  committed : option Q;                   (* the dependencies the effect last ran for *)
  flags : list bool;                      (* [cancelled] of each run, oldest first *)
  pending : list (option nat * Q);        (* unanswered requests, oldest first, with their run *)
  view : V;
  asked : option Q;                       (* the query of the last request; no hook *)
}.

Definition mounted (q : Q) (v : V) : machine :=
  {| current := q; committed := None; flags := []; pending := []; view := v; asked := None |}.

(** The effect has to run: its dependencies differ from those it ran for. *)
Definition due (st : machine) : bool := negb (bool_decide (committed st = Some (current st))).

(** Does the run a request belongs to have its [cancelled] flag set? *)
Definition cancelled (fs : list bool) (run : option nat) : bool :=
  match run with Some g => default false (fs !! g) | None => false end.

Definition change (q : Q) (st : machine) : machine :=
  {| current := q; committed := committed st; flags := flags st; pending := pending st; view := view st; asked := asked st |}.

(** React runs the due effect, after the cleanup of its previous run. *)
Definition commit (st : machine) : machine :=
  {| current := current st; committed := Some (current st);
     flags := if cancels then map (fun _ => true) (flags st) ++ [false] else flags st;
     pending := pending st ++ [(if cancels then Some (length (flags st)) else None, current st)];
     view := start (view st); asked := Some (current st) |}.

(** The timer of the last run fires. *)
Definition poll (q : Q) (st : machine) : machine :=
  {| current := current st; committed := committed st; flags := flags st;
     pending := pending st ++ [(if cancels then Some (pred (length (flags st))) else None, q)];
     view := view st; asked := Some q |}.

(** A handler outside the effect reloads query [q]. *)
Definition again (q : Q) (st : machine) : machine :=
  {| current := current st; committed := committed st; flags := flags st; pending := pending st ++ [(None, q)];
     view := start (view st); asked := Some q |}.

(** The reply to the [i]-th unanswered request. *)
Definition reply (i : nat) (run : option nat) (q : Q) (r : result response) (st : machine) : machine :=
  {| current := current st; committed := committed st; flags := flags st; pending := delete i (pending st);
     view := if cancelled (flags st) run then view st else settle (outcome_of q r) (view st); asked := asked st |}.

Section Steps.
  (** [serves q r]: the gateway may answer query [q] with [r].
      [order i]: the network may deliver the [i]-th oldest reply first. *)
  Variables (serves : Q -> result response -> Prop) (order : nat -> Prop).

Inductive internal (st : machine) : machine -> Prop :=
  | i_commit : due st = true -> internal st (commit st)
  | i_reply i run q r : order i -> pending st !! i = Some (run, q) -> serves q r -> internal st (reply i run q r st).

(** What happens without the user: the timer of a polling effect fires, too. *)
Inductive automatic (st : machine) : machine -> Prop :=
  | a_internal st' : internal st st' -> automatic st st'
  | a_poll q : polls = true -> committed st = Some q -> automatic st (poll q st).

Inductive step (st : machine) : machine -> Prop :=
  | s_internal st' : internal st st' -> step st st'
  | s_change q : offers (view st) = true -> step st (change q st)
  | s_poll q : polls = true -> committed st = Some q -> step st (poll q st)
  | s_again q : refetches = true -> step st (again q st).

Definition reachable (q : Q) (v : V) (st : machine) : Prop := rtc step (mounted q v) st.
End Steps.

Definition any_order (i : nat) : Prop := True.
Definition in_order (i : nat) : Prop := i = 0%nat.

(** ** Cancelled runs *)

(** Every flag but the last is set, and a request whose run is not cancelled
    is one for the query the effect last ran for. *)
Record guarded (st : machine) : Prop := {
  gd_flags : cancels = true -> committed st <> None -> exists fs, flags st = fs ++ [false] /\ Forall (fun b => b = true) fs;
  gd_runs : forall g q, (Some g, q) ∈ pending st -> (g < length (flags st))%nat;
  gd_current : forall g q, cancels = true -> (Some g, q) ∈ pending st -> cancelled (flags st) (Some g) = false ->
    committed st = Some q;
  gd_always : forall q, cancels = true -> (None, q) ∉ pending st;
}.

Lemma cancelled_old fs g : Forall (fun b => b = true) fs -> cancelled (fs ++ [false]) (Some g) = false -> (length fs <= g)%nat.
Proof.
  intros F C. destruct (Nat.le_gt_cases (length fs) g) as [?|H]; [done|]. unfold cancelled in C.
  rewrite lookup_app_l in C by done. destruct (lookup_lt_is_Some_2 fs g H) as [b E]. rewrite E in C. simpl in C. subst.
  rewrite Forall_forall in F. apply list_elem_of_lookup_2 in E. by apply F in E.
Qed.

Lemma cancelled_last fs : cancelled (fs ++ [false]) (Some (length fs)) = false.
Proof. unfold cancelled. by rewrite lookup_app_r, Nat.sub_diag by done. Qed.

Lemma guarded_commit st : guarded st -> guarded (commit st).
Proof.
  intros [_ G2 _ G4]. unfold commit. destruct cancels eqn:C; split; simpl; rewrite ?C; try done.
  - intros _ _. eexists. split; [done|]. apply Forall_map, Forall_true. done.
  - intros g q. rewrite length_app, length_map. intros [I|I%list_elem_of_singleton]%elem_of_app; [apply G2 in I|simplify_eq]; simpl; lia.
  - intros g q _ [I|I%list_elem_of_singleton]%elem_of_app N; [|by simplify_eq].
    apply cancelled_old in N; [|by apply Forall_map, Forall_true]. rewrite length_map in N. apply G2 in I. lia.
  - intros q _ [I|I%list_elem_of_singleton]%elem_of_app; [by eapply G4|done].
  - intros g q [I|I%list_elem_of_singleton]%elem_of_app; [by eapply G2|done].
Qed.

Lemma guarded_poll st q : committed st = Some q -> guarded st -> guarded (poll q st).
Proof.
  intros E [G1 G2 G3 G4]. unfold poll. destruct cancels eqn:C; split; simpl; rewrite ?C; try done.
  - intros g p [I|I%list_elem_of_singleton]%elem_of_app; [by eapply G2|]. simplify_eq.
    destruct G1 as (fs & -> & _); [done|by rewrite E|]. rewrite length_app. simpl. lia.
  - intros g p _ [I|I%list_elem_of_singleton]%elem_of_app N; [by eapply G3|]. by simplify_eq.
  - intros p _ [I|I%list_elem_of_singleton]%elem_of_app; [by eapply G4|done].
  - intros g p [I|I%list_elem_of_singleton]%elem_of_app; [by eapply G2|done].
Qed.

Lemma guarded_again st q : cancels = false -> guarded st -> guarded (again q st).
Proof.
  intros C [_ G2 _ _]. split; simpl; rewrite ?C; try done.
  intros g p [I|I%list_elem_of_singleton]%elem_of_app; [by eapply G2|done].
Qed.

Lemma guarded_reply st i run q r : guarded st -> guarded (reply i run q r st).
Proof.
  intros [G1 G2 G3 G4]. assert (S : forall x, x ∈ delete i (pending st) -> x ∈ pending st)
    by (intros x I; eapply elem_of_submseteq; [exact I|apply sublist_submseteq, sublist_delete]).
  split; simpl; eauto. intros p C I. eapply G4; eauto.
Qed.

Lemma cancels_refetch : cancels = true -> refetches = true -> False.
Proof. intros C R. pose proof (cancels_only C). congruence. Qed.

Lemma guarded_step serves order st st' : step serves order st st' -> guarded st -> guarded st'.
Proof.
  intros [? [D|i run q r O P S]|q Of|q P E|q R] G; [..|destruct cancels eqn:C; [by destruct (cancels_refetch C R)|]].
  - by apply guarded_commit.
  - by apply guarded_reply.
  - by destruct G.
  - by apply guarded_poll.
  - by apply guarded_again.
Qed.

Lemma guarded_reachable serves order q v st : reachable serves order q v st -> guarded st.
Proof.
  intros R. unfold reachable in R. remember (mounted q v) as st0 eqn:E. assert (G : guarded st0)
    by (subst; split; simpl; try done; intros ? ?; set_solver).
  clear E. induction R as [|st1 st2 st3 S _ IH]; eauto using guarded_step.
Qed.

(** ** Specification: answers to the current query only *)

(** What a page promises of its data: the query it shows, and a state that
    changes only when it asks a new query or the gateway answers the query
    shown. *)
Record promise : Type := { p_query : option Q; p_view : V }.

Inductive promised (serves : Q -> result response -> Prop) (p : promise) : promise -> Prop :=
  | p_ask q : promised serves p {| p_query := Some q; p_view := start (p_view p) |}
  | p_answer q r : p_query p = Some q -> serves q r ->
      promised serves p {| p_query := Some q; p_view := settle (outcome_of q r) (p_view p) |}.

Definition promise_of (st : machine) : promise := {| p_query := committed st; p_view := view st |}.

Lemma reply_promised serves st i run q r :
  cancels = true -> guarded st -> pending st !! i = Some (run, q) -> serves q r ->
  promise_of (reply i run q r st) = promise_of st \/ promised serves (promise_of st) (promise_of (reply i run q r st)).
Proof.
  intros C [_ _ G3 G4] P S. apply list_elem_of_lookup_2 in P. unfold promise_of, reply. simpl.
  destruct run as [g|]; [|by destruct (G4 q C)]. destruct (cancelled (flags st) (Some g)) eqn:F; [by left|].
  right. rewrite (G3 g q C P F). by apply (p_answer _ {| p_query := Some q; p_view := view st |}).
Qed.

Lemma step_promised serves order st st' :
  cancels = true -> guarded st -> step serves order st st' ->
  promise_of st' = promise_of st \/ promised serves (promise_of st) (promise_of st').
Proof.
  intros C G [? [D|i run q r O P S]|q Of|q P E|q R].
  - right. exact (p_ask serves (promise_of st) (current st)).
  - by apply reply_promised.
  - by left.
  - by left.
  - by destruct (cancels_refetch C R).
Qed.

(** ** In-order networks *)

(** The last request sent is either the last one still unanswered, and its
    run is not cancelled, or answered and shown. *)
Definition last_shown (serves : Q -> result response -> Prop) (st : machine) : Prop :=
  match asked st with
  | None => pending st = []
  | Some q =>
      (exists l run, pending st = l ++ [(run, q)] /\ cancelled (flags st) run = false) \/
      (pending st = [] /\ exists r v, serves q r /\ view st = settle (outcome_of q r) v)
  end.

Lemma last_shown_step serves st st' : guarded st -> step serves in_order st st' -> last_shown serves st -> last_shown serves st'.
Proof.
  intros G [? [D|i run q r -> P S]|q Of|q P E|q R] H; unfold last_shown; simpl.
  - left. eexists _, _. split; [done|]. destruct cancels; [|done].
    rewrite <- (length_map (fun _ => true) (flags st)). apply cancelled_last.
  - unfold last_shown in H. destruct (asked st) as [q'|]; [|by rewrite H in P].
    destruct H as [(l & run' & E & F)|[E _]]; rewrite E in *; [|done]. destruct l as [|x l]; simpl in *; simplify_eq.
    + right. split; [done|]. rewrite F. eauto.
    + left. eauto.
  - done.
  - left. eexists _, _. split; [done|]. destruct cancels eqn:C; [|done]. destruct G as [G1 _ _ _].
    destruct G1 as (fs & -> & _); [done|by rewrite E|]. rewrite length_app, Nat.add_1_r. apply cancelled_last.
  - left. by eexists _, None.
Qed.

Lemma last_shown_reachable serves q v st : reachable serves in_order q v st -> last_shown serves st.
Proof.
  intros R. pose proof (guarded_reachable _ _ _ _ _ R) as G. unfold reachable in R.
  apply rtc_ind_r with (P := fun st => guarded st -> last_shown serves st) in R; eauto; [done|].
  intros st1 st2 R1 S IH _. pose proof (guarded_reachable _ _ _ _ _ R1). eauto using last_shown_step.
Qed.

(** Without reloads outside the effect, the last request is for the query the
    effect last ran for. *)
Lemma asked_committed serves order q v st : refetches = false -> reachable serves order q v st -> asked st = committed st.
Proof.
  intros F R. unfold reachable in R. remember (mounted q v) as st0 eqn:E.
  assert (A : asked st0 = committed st0) by by subst. clear E.
  induction R as [|st1 st2 st3 S _ IH]; [done|]. apply IH. destruct S as [? []|p Of|p ? E|p]; simpl; congruence.
Qed.

Lemma asked_some serves order q v st : reachable serves order q v st -> asked st = None -> committed st = None.
Proof.
  intros R. unfold reachable in R. apply rtc_ind_r with (P := fun st => asked st = None -> committed st = None) in R; [done|done|].
  intros st1 st2 _ [? []| | |] IH; simpl; done || by apply IH.
Qed.

(** ** Settling *)

Definition weight (st : machine) : nat := length (pending st) + if due st then 2 else 0.

Lemma internal_weight serves order st st' : internal serves order st st' -> (weight st' < weight st)%nat.
Proof.
  intros [D|i run q r O P S]; unfold weight.
  - rewrite D. unfold due, commit. simpl. rewrite bool_decide_true by done. simpl. rewrite length_app. simpl. lia.
  - change (due (reply i run q r st)) with (due st). simpl.
    rewrite length_delete by eauto. apply lookup_lt_Some in P. lia.
Qed.

(** While the loading state is on, the effect is still due for the first time
    or an unanswered request can end it. *)
Definition busy_for_reason (st : machine) : Prop := busy (view st) = true -> committed st = None \/
  exists i run q, pending st !! i = Some (run, q) /\ cancelled (flags st) run = false.

Lemma busy_step serves order st st' : guarded st -> step serves order st st' -> busy_for_reason st -> busy_for_reason st'.
Proof.
  intros G [? [D|i run q r O P S]|q Of|q P E|q R] H; unfold busy_for_reason; simpl; intros B.
  - right. eexists (length (pending st)), _, _. split; [by rewrite lookup_app_r, Nat.sub_diag|]. destruct cancels; [|done].
    rewrite <- (length_map (fun _ => true) (flags st)). apply cancelled_last.
  - destruct (cancelled (flags st) run) eqn:F; [|by rewrite settle_done in B].
    destruct (H B) as [?|(j & run' & q' & P' & F')]; [by left|]. right.
    destruct (lt_eq_lt_dec j i) as [[?|Ej]|?]; [|subst j; congruence|].
    + exists j, run', q'. by rewrite list_lookup_delete_lt.
    + exists (pred j), run', q'. rewrite list_lookup_delete_ge by lia. by rewrite (Nat.succ_pred_pos j) by lia.
  - by apply H.
  - destruct (H B) as [?|(j & run' & q' & P' & F')]; [by left|]. right. exists j, run', q'.
    by rewrite lookup_app_l by (by eapply lookup_lt_Some).
  - right. exists (length (pending st)), None, q. by rewrite lookup_app_r, Nat.sub_diag.
Qed.

Lemma busy_reachable serves order q v st : reachable serves order q v st -> busy_for_reason st.
Proof.
  intros R. unfold reachable in R.
  apply rtc_ind_r with (P := busy_for_reason) in R; eauto; [by left|].
  intros st1 st2 R1 S IH. pose proof (guarded_reachable _ _ _ _ _ R1). eauto using busy_step.
Qed.

(** A state no internal step leaves has nothing due and nothing outstanding,
    when the gateway answers every query and the network delivers. *)
Lemma stopped_quiet serves order st :
  (forall q, exists r, serves q r) -> order 0%nat -> (forall st', ~ internal serves order st st') ->
  due st = false /\ pending st = [].
Proof.
  intros A O N. split.
  - destruct (due st) eqn:D; [|done]. by destruct (N (commit st) ltac:(by constructor)).
  - destruct (pending st) as [|[run q] l] eqn:P; [done|]. destruct (A q) as [r Sv].
    destruct (N (reply 0 run q r st)). apply i_reply; [done| |done]. by rewrite P.
Qed.

(** ** Contracts of a loading page *)

(** Every reachable state is one the specification reaches, and every step is
    a step of the specification or leaves the data alone. *)
Definition keeps_promise : Prop := forall serves order q v st,
  reachable serves order q v st ->
  rtc (promised serves) {| p_query := None; p_view := v |} (promise_of st) /\
  forall st', step serves order st st' ->
    promise_of st' = promise_of st \/ promised serves (promise_of st) (promise_of st').

(** Replies in order, a page at rest shows an answer to the last query asked. *)
Definition shows_last_asked : Prop := forall serves q0 v0 st,
  reachable serves in_order q0 v0 st -> due st = false -> pending st = [] ->
  exists q r v, asked st = Some q /\ serves q r /\ view st = settle (outcome_of q r) v.

(** Replies in order, a page at rest shows an answer to the query selected. *)
Definition shows_selected : Prop := forall serves q0 v0 st,
  reachable serves in_order q0 v0 st -> due st = false -> pending st = [] ->
  exists r v, serves (current st) r /\ view st = settle (outcome_of (current st) r) v.

(** Steps of the kind [R] come to an end within a bound, with nothing due or
    outstanding and the loading state off. *)
Definition comes_to_rest (R : (Q -> result response -> Prop) -> (nat -> Prop) -> machine -> machine -> Prop) : Prop := forall serves order q v st,
  (forall q, exists r, serves q r) -> order 0%nat -> reachable serves order q v st ->
  (forall n st', nsteps (R serves order) n st st' -> (n <= length (pending st) + 2)%nat) /\
  forall st', rtc (R serves order) st st' -> (forall st'', ~ R serves order st' st'') ->
    due st' = false /\ pending st' = [] /\ busy (view st') = false.

(** Without further input, timers included, the page comes to rest. *)
Definition settles : Prop := comes_to_rest automatic.

(** A page with a timer comes to rest before the timer fires again. *)
Definition settles_between_ticks : Prop := comes_to_rest internal.

Lemma cancelling_keeps_promise : cancels = true -> keeps_promise.
Proof.
  intros C serves order q v st R. split; [|intros st'; by apply step_promised, (guarded_reachable _ _ _ _ _ R)].
  unfold reachable in R. apply rtc_ind_r with (P := fun st => rtc (promised serves) {| p_query := None; p_view := v |} (promise_of st)) in R;
    [done|apply rtc_refl|].
  intros st1 st2 R1 S IH. destruct (step_promised serves order st1 st2 C (guarded_reachable _ _ _ _ _ R1) S) as [->|P]; [done|].
  by eapply rtc_r.
Qed.

Lemma at_rest_committed st : due st = false -> committed st = Some (current st).
Proof. unfold due. by destruct (bool_decide_reflect (committed st = Some (current st))). Qed.

Lemma loader_shows_last : shows_last_asked.
Proof.
  intros serves q0 v0 st R D P. pose proof (last_shown_reachable serves q0 v0 st R) as H. unfold last_shown in H.
  apply at_rest_committed in D. destruct (asked st) as [q|] eqn:A.
  - destruct H as [(l & run & E & _)|(_ & r & v & S & E)]; [rewrite P in E; by destruct l|]. by exists q, r, v.
  - pose proof (asked_some serves in_order q0 v0 st R A). congruence.
Qed.

Lemma loader_shows_selected : refetches = false -> shows_selected.
Proof.
  intros F serves q0 v0 st R D P. destruct (loader_shows_last serves q0 v0 st R D P) as (q & r & v & A & S & E).
  pose proof (asked_committed serves in_order q0 v0 st F R). apply at_rest_committed in D.
  assert (q = current st) as -> by congruence. by exists r, v.
Qed.

Lemma steps_bounded serves order n st st' : nsteps (internal serves order) n st st' -> (n + weight st' <= weight st)%nat.
Proof. intros N. induction N as [st|n st st1 st2 I N IH]; [done|]. apply internal_weight in I. lia. Qed.

Lemma loader_rests : settles_between_ticks.
Proof.
  intros serves order q v st A O R. split.
  - intros n st' N. apply steps_bounded in N. unfold weight in *. destruct (due st); lia.
  - intros st' I N. destruct (stopped_quiet serves order st' A O N) as [D P]. split_and!; [done|done|].
    assert (R' : reachable serves order q v st') by (unfold reachable in *; etrans; [done|]; eapply rtc_subrel; [|done]; by constructor).
    destruct (busy (view st')) eqn:B; [|done]. apply at_rest_committed in D.
    destruct (busy_reachable serves order q v st' R' B) as [E|(i & run & p & E & _)]; [congruence|by rewrite P in E].
Qed.

Lemma automatic_internal serves order st st' : polls = false -> automatic serves order st st' <-> internal serves order st st'.
Proof. intros P. split; [|by constructor]. intros [? I|q E]; [done|congruence]. Qed.

Lemma nsteps_sub {A} (R1 R2 : relation A) n x y : (forall a b, R1 a b -> R2 a b) -> nsteps R1 n x y -> nsteps R2 n x y.
Proof. intros S. induction 1; econstructor; eauto. Qed.

Lemma loader_settles : polls = false -> settles.
Proof.
  intros P serves order q v st A O R. destruct (loader_rests serves order q v st A O R) as [B E]. split.
  - intros n st' N. eapply B, nsteps_sub; [|exact N]. intros a b. by apply automatic_internal.
  - intros st' I N. apply E.
    + eapply rtc_subrel; [|exact I]. intros a b. by apply automatic_internal.
    + intros st'' H. apply (N st''). by constructor.
Qed.

(** When the timer fires at rest, one reply brings the page back to rest, and
    the loading state stays off throughout. *)
Lemma tick_rests serves order q v st q' : (forall q, exists r, serves q r) -> order 0%nat -> reachable serves order q v st ->
  polls = true -> committed st = Some q' -> due st = false -> pending st = [] ->
  busy (view (poll q' st)) = busy (view st) /\
  (forall n st', nsteps (internal serves order) n (poll q' st) st' -> (n <= 1)%nat) /\
  exists r, serves q' r /\ internal serves order (poll q' st) (reply 0 (if cancels then Some (pred (length (flags st))) else None) q' r (poll q' st)).
Proof.
  intros A O R P C D E. split; [done|]. split.
  - intros n st' N. apply steps_bounded in N. unfold weight in N. cbn [pending poll] in N. rewrite E in N. cbn in N.
    change (due (poll q' st)) with (due st) in N. rewrite D in N. lia.
  - destruct (A q') as [r S]. exists r. split; [done|]. apply i_reply; [done| |done]. cbn. by rewrite E.
Qed.

End Machine.

(** ** Loading several lists *)
Section All.
  Context {Net : Type} (first_rejected : exn -> list exn -> exn).

Definition settled {A} (m : D Net A) : D Net (result A) := fun w => let '(r, w') := m w in (Ret r, w').

Fixpoint settle_all (ms : list (D Net json)) : D Net (list (result json)) :=
  match ms with [] => mret [] | m :: t => r ← settled m; rs ← settle_all t; mret (r :: rs) end.

Definition rejections (rs : list (result json)) : list exn := omap (fun r => match r with Throw e => Some e | Ret _ => None end) rs.
Definition values (rs : list (result json)) : list json := omap (fun r => match r with Ret v => Some v | Throw _ => None end) rs.

(** [Promise.all(ms)]: every request is made; [first_rejected] says which of
    several failures settles first. *)
Definition promise_all (ms : list (D Net json)) : D Net json :=
  rs ← settle_all ms;
  match rejections rs with [] => mret (JArr (values rs)) | e :: es => d_throw (first_rejected e es) end.

(** [m.catch(() => [])] *)
Definition or_no_list (m : D Net json) : D Net json := d_try m (fun _ => mret (JArr [])).

End All.
