(* ===== verification/ListPages.v ===== *)
(** * The list pages of the desktop UI

    [desktop-ui/src/pages/Sessions.tsx], [RequestLogs.tsx], [Prompts.tsx] and
    [Logs.tsx], and the two loaders inside [TraceViewer.tsx] (request metrics
    and dispatch path), each as a [Loader]; their filters, row cells and
    deletions, and the confirmation dialog
    [desktop-ui/src/components/ui/confirm-modal.tsx]. *)

From stdpp Require Import relations.
From S2P Require Import Prelude JsNumber JsString Json DesktopApi Format ConfigForms Loaders.

(** ** Paged lists *)

Record ListView : Type := { rows : unknown; total : unknown; loading : bool; error : option jstr }.

Definition empty_list : ListView := {| rows := Some (JArr []); total := Some (JNum (int 0)); loading := true; error := None |}.

(** [setLoading(true)] *)
Definition list_start (v : ListView) : ListView := {| rows := rows v; total := total v; loading := true; error := error v |}.

(** [.then((r) => { setRows(r.data); setTotal(r.total); setError(null) })],
    [.catch((e) => setError(…))], [.finally(() => setLoading(false))] *)
Definition list_settle (r : result json) (v : ListView) : ListView :=
  match (j ← r; d ← prop j "data"; t ← prop j "total"; mret (d, t)) with
  | Ret (d, t) => {| rows := d; total := t; loading := false; error := None |}
  | Throw e => {| rows := rows v; total := total v; loading := false; error := Some (exn_message e) |}
  end.

Lemma list_settle_done r v : loading (list_settle r v) = false.
Proof. unfold list_settle. by destruct (mbind _ _) as [[]|]. Qed.

(** What a list page shows under its filters: skeletons, a text when there are
    no rows, or the rows; a reply without a [data] array makes it raise. *)
Inductive list_body : Type := BSkeleton | BEmpty (text : jstr) | BRows (l : list json).

Definition render_list (empty : jstr) (v : ListView) : result list_body :=
  if loading v then Ret BSkeleton
  else match rows v with
       | Some (JArr []) => Ret (BEmpty empty)
       | Some (JArr l) => Ret (BRows l)
       | None => Throw (err_type (js "Cannot read properties of undefined (reading 'length')"))
       | Some JNull => Throw (err_type (js "Cannot read properties of null (reading 'length')"))
       | Some (JStr []) => Ret (BEmpty empty)
       | Some _ => Throw (err_type (js "rows.map is not a function"))
       end.

(** Midnight or the last second of a date, in UTC. *)
Definition toRFC3339 (date : jstr) (endOfDay : bool) : option jstr :=
  if str_empty date then None
  else Some (date ++ js "T" ++ (if endOfDay then js "23:59:59" else js "00:00:00") ++ js "Z").

Definition AGENTS : list jstr := map js ["claude-code"; "codex"; "codebuddy"; "workbuddy"; "opencode"].

Module Sessions.

Record query : Type := { agent : jstr; from : jstr; to : jstr; page : Z; pageSize : Z; tick : Z }.
#[global] Instance query_eq_dec : EqDecision query.
Proof. solve_decision. Defined.

(** The first query, from the [agent] parameter of the address. *)
Definition first_query (param : option jstr) : query :=
  {| agent := default [] param; from := []; to := []; page := 1; pageSize := 20; tick := 0 |}.

Inductive edit : Type := SetAgent (s : jstr) | SetFrom (s : jstr) | SetTo (s : jstr) | GoPage (p : Z) | SetPageSize (n : Z) | Retick.

Definition apply_edit (q : query) (e : edit) : query :=
  match e with
  | SetAgent s => {| agent := s; from := from q; to := to q; page := 1; pageSize := pageSize q; tick := tick q |}
  | SetFrom s => {| agent := agent q; from := s; to := to q; page := 1; pageSize := pageSize q; tick := tick q |}
  | SetTo s => {| agent := agent q; from := from q; to := s; page := 1; pageSize := pageSize q; tick := tick q |}
  | GoPage p => {| agent := agent q; from := from q; to := to q; page := p; pageSize := pageSize q; tick := tick q |}
  | SetPageSize n => {| agent := agent q; from := from q; to := to q; page := 1; pageSize := n; tick := tick q |}
  | Retick => {| agent := agent q; from := from q; to := to q; page := page q; pageSize := pageSize q; tick := tick q + 1 |}
  end.

Definition list_call (Net : Type) (F : Fetch Net) (q : query) : D Net json :=
  listSessions {| sq_agent_type := Some (agent q); sq_from := toRFC3339 (from q) false; sq_to := toRFC3339 (to q) true;
                  sq_page := Some (int (page q)); sq_page_size := Some (int (pageSize q)) |}.

#[global] Instance loader : Loader query ListView :=
  {| call := list_call; start := list_start; settle := list_settle; busy := loading;
     cancels := false; polls := false; refetches := false; offers := fun _ => true; settle_done := list_settle_done;
     cancels_only := fun _ => eq_refl |}.

Definition render (v : ListView) : result list_body := render_list (js "暂无会话。调整过滤条件，或先通过网关发起请求。") v.

Record SessionSummary : Type := {
  session_id : jstr; agent_type : jstr; request_count : num; prompt_tokens : num; completion_tokens : num;
  total_tokens : num; duration_ms : num; started_at : jstr; has_errors : bool; favorited : bool;
}.

Section Page.
  Context {Net : Type} `{Fetch Net}.

(** The star of a row; [true] when the list reloads. *)
Definition toggleFavorite (s : SessionSummary) : D Net bool :=
  d_try (_ ← (if favorited s then unfavoriteSession (session_id s) else favoriteSession (session_id s)); mret true)
        (fun e => _ ← toast_error e; mret false).

(** [`${v}`] *)
Definition template (v : unknown) : jstr := match v with Some j => to_string j | None => js "undefined" end.

(** The confirmed deletion; [true] when the list reloads. *)
Definition onConfirm (deleting : option jstr) : D Net bool :=
  match deleting with
  | None => mret false
  | Some id =>
      d_try (res ← deleteSession id;
             n ← d_lift (prop res "deleted");
             _ ← emit (ToastSuccess (js "已删除 " ++ template n ++ js " 条观测记录。"));
             mret true)
            (fun e => _ ← toast_error e; mret false)
  end.
End Page.

Record cells : Type := {
  c_star : jstr; c_link : jstr; c_id : jstr; c_alert : bool; c_agent : label; c_requests : jstr; c_tokens : jstr;
  c_split : jstr; c_duration : jstr; c_started : jstr;
}.

(** A row of the table; its link raises on an id that is not well-formed. *)
Definition row_cells `{Locale} (s : SessionSummary) : result cells :=
  e ← encodeURIComponent (session_id s);
  Ret {| c_star := if favorited s then js "取消收藏" else js "收藏"; c_link := js "/trace/" ++ e; c_id := session_id s;
         c_alert := has_errors s; c_agent := agentLabel (agent_type s); c_requests := num_to_string (request_count s);
         c_tokens := formatTokens (Some (total_tokens s));
         c_split := js "(" ++ formatTokens (Some (prompt_tokens s)) ++ js "/" ++ formatTokens (Some (completion_tokens s)) ++ js ")";
         c_duration := formatDurationCompact (Some (duration_ms s)); c_started := formatTime (Some (started_at s)) |}.

End Sessions.

Module RequestLogs.

Record query : Type := {
  agent : jstr; provider : jstr; model : jstr; errorType : jstr; sessionID : jstr; requestID : jstr; from : jstr; to : jstr;
  page : Z; pageSize : Z;
}.
#[global] Instance query_eq_dec : EqDecision query.
Proof. solve_decision. Defined.

Definition first_query : query :=
  {| agent := []; provider := []; model := []; errorType := []; sessionID := []; requestID := []; from := []; to := [];
     page := 1; pageSize := 20 |}.

Inductive field : Type := FAgent | FProvider | FModel | FErrorType | FSessionID | FRequestID | FFrom | FTo.
#[global] Instance field_eq_dec : EqDecision field.
Proof. solve_decision. Defined.

Inductive edit : Type := SetField (f : field) (s : jstr) | GoPage (p : Z) | SetPageSize (n : Z).

(** Every filter input also calls [resetPage()]. *)
Definition apply_edit (q : query) (e : edit) : query :=
  match e with
  | SetField f s =>
      let set g old := if decide (f = g) then s else old in
      {| agent := set FAgent (agent q); provider := set FProvider (provider q); model := set FModel (model q);
         errorType := set FErrorType (errorType q); sessionID := set FSessionID (sessionID q);
         requestID := set FRequestID (requestID q); from := set FFrom (from q); to := set FTo (to q);
         page := 1; pageSize := pageSize q |}
  | GoPage p =>
      {| agent := agent q; provider := provider q; model := model q; errorType := errorType q; sessionID := sessionID q;
         requestID := requestID q; from := from q; to := to q; page := p; pageSize := pageSize q |}
  | SetPageSize n =>
      {| agent := agent q; provider := provider q; model := model q; errorType := errorType q; sessionID := sessionID q;
         requestID := requestID q; from := from q; to := to q; page := 1; pageSize := n |}
  end.

Definition list_call (Net : Type) (F : Fetch Net) (q : query) : D Net json :=
  listRequestLogs
    {| lq_provider := Some (provider q); lq_model_requested := Some (model q); lq_error_type := Some (errorType q);
       lq_session_id := Some (sessionID q); lq_request_id := Some (requestID q); lq_agent_type := Some (agent q);
       lq_from := toRFC3339 (from q) false; lq_to := toRFC3339 (to q) true;
       lq_page := Some (int (page q)); lq_page_size := Some (int (pageSize q)) |}.

#[global] Instance loader : Loader query ListView :=
  {| call := list_call; start := list_start; settle := list_settle; busy := loading;
     cancels := false; polls := false; refetches := false; offers := fun _ => true; settle_done := list_settle_done;
     cancels_only := fun _ => eq_refl |}.

Definition render (v : ListView) : result list_body := render_list (js "暂无请求日志。调整过滤条件，或先通过网关发起请求。") v.

(** The fields of a log row the page reads. *)
Record RequestLogView : Type := {
  created_at : jstr; agent_type : jstr; r_provider : jstr; model_requested : jstr; model_resolved : jstr;
  total_tokens : num; prompt_tokens : num; completion_tokens : num; ttft_ms : num; duration_ms : num; error_type : jstr;
  blocked_by : jstr; fallback : bool; session_id : jstr; request_id : jstr; client_request_id : jstr;
  upstream_request_id : jstr; cache_hit : bool; cache_tier : jstr;
}.

Inductive status : Type := Succeeded | Failed (text : jstr).

Record cells : Type := {
  c_time : jstr; c_agent : label; c_provider : jstr; c_model : jstr; c_resolved : option jstr; c_tokens : jstr; c_split : jstr;
  c_ttft : jstr; c_duration : jstr; c_status : status; c_fallback : bool; c_session : option (jstr * jstr);
  c_ids : jstr; c_id : jstr;
}.

Definition status_cell (r : RequestLogView) : status :=
  if negb (str_empty (error_type r)) || negb (str_empty (blocked_by r))
  then Failed (if negb (str_empty (blocked_by r)) then js "拦截: " ++ blocked_by r else error_type r)
  else Succeeded.

Definition row_cells `{Locale} (r : RequestLogView) : result cells :=
  session ← (if str_empty (session_id r) then Ret None
             else e ← encodeURIComponent (session_id r); Ret (Some (js "/trace/" ++ e, shortId (Some (session_id r)) 10)));
  Ret {| c_time := formatTime (Some (created_at r));
         c_agent := if str_empty (agent_type r) then Text (js "—") else agentLabel (agent_type r);
         c_provider := if str_empty (r_provider r) then js "—" else r_provider r;
         c_model := model_requested r;
         c_resolved := if negb (str_empty (model_resolved r)) && negb (streq (model_resolved r) (model_requested r))
                       then Some (js "→ " ++ model_resolved r) else None;
         c_tokens := formatTokens (Some (total_tokens r));
         c_split := js "(" ++ formatTokens (Some (prompt_tokens r)) ++ js "/" ++ formatTokens (Some (completion_tokens r)) ++ js ")";
         c_ttft := if nlt (int 0) (ttft_ms r) then formatDurationCompact (Some (ttft_ms r)) else js "—";
         c_duration := formatDurationCompact (Some (duration_ms r)); c_status := status_cell r; c_fallback := fallback r;
         c_session := session;
         c_ids := js "gateway: " ++ request_id r
                  ++ (if str_empty (client_request_id r) then [] else 10 :: js "client: " ++ client_request_id r)
                  ++ (if str_empty (upstream_request_id r) then [] else 10 :: js "upstream: " ++ upstream_request_id r);
         c_id := shortId (Some (request_id r)) 10 |}.

End RequestLogs.

Module Prompts.

Record query : Type := { q : jstr; tag : jstr; page : Z; pageSize : Z }.
#[global] Instance query_eq_dec : EqDecision query.
Proof. solve_decision. Defined.

Definition first_query : query := {| q := []; tag := []; page := 1; pageSize := 20 |}.

Inductive edit : Type := SetQ (s : jstr) | SetTag (s : jstr) | GoPage (p : Z) | SetPageSize (n : Z).

Definition apply_edit (x : query) (e : edit) : query :=
  match e with
  | SetQ s => {| q := s; tag := tag x; page := 1; pageSize := pageSize x |}
  | SetTag s => {| q := q x; tag := s; page := 1; pageSize := pageSize x |}
  | GoPage p => {| q := q x; tag := tag x; page := p; pageSize := pageSize x |}
  | SetPageSize n => {| q := q x; tag := tag x; page := 1; pageSize := n |}
  end.

Definition list_call (Net : Type) (F : Fetch Net) (x : query) : D Net json :=
  listPrompts {| pq_q := Some (q x); pq_tag := Some (tag x); pq_page := Some (int (page x));
                 pq_page_size := Some (int (pageSize x)) |}.

(** [refresh] runs in the effect, and again from the dialogs. *)
#[global] Instance loader : Loader query ListView :=
  {| call := list_call; start := list_start; settle := list_settle; busy := loading;
     cancels := false; polls := false; refetches := true; offers := fun _ => true; settle_done := list_settle_done;
     cancels_only := fun E => match E in _ = b return (if b then true = false else True) with eq_refl => I end |}.

Section Page.
  Context {Net : Type} `{Fetch Net}.

(** The confirmed deletion; [true] when it cleared [deleting] itself and
    called [refresh()]. *)
Definition onConfirm (deleting : option num) : D Net bool :=
  match deleting with
  | None => mret false
  | Some id =>
      d_try (_ ← deletePrompt id; _ ← emit (ToastSuccess (js "已删除。")); mret true)
            (fun e => _ ← toast_error e; mret false)
  end.
End Page.

(** The placeholder without rows depends on the filters. *)
Definition render (x : query) (v : ListView) : result list_body :=
  render_list (if negb (str_empty (q x)) || negb (str_empty (tag x)) then js "没有匹配的收藏" else js "还没有收藏") v.

(** [onCopy]: the toast after writing to the clipboard. *)
Definition onCopy (accepted : bool) : effect := if accepted then ToastSuccess (js "内容已复制。") else ToastError (js "复制失败。").

(** The excerpt of a prompt's content. *)
Definition excerpt (content : jstr) : jstr :=
  if (500 <? length content)%nat then take 500 content ++ js "…" else content.

End Prompts.

(** ** Runtime log *)

Module Logs.

Definition TAIL_OPTIONS : list Z := [200; 500; 1000; 2000].

Record view : Type := { lines : json; error : option jstr; initialLoading : bool }.

Definition first_view : view := {| lines := JArr []; error := None; initialLoading := true |}.

Definition list_call (Net : Type) (F : Fetch Net) (tail : Z) : D Net json := getLogs (Some (int tail)).

(** The promise handlers of [fetchLogs]. *)
Definition logs_settle (r : result json) (v : view) : view :=
  match (j ← r; prop j "lines") with
  | Ret l => {| lines := nullish l (JArr []); error := None; initialLoading := false |}
  | Throw e => {| lines := lines v; error := Some (exn_message e); initialLoading := false |}
  end.

Lemma logs_settle_done r v : initialLoading (logs_settle r v) = false.
Proof. unfold logs_settle. by destruct (mbind _ _). Qed.

#[global] Instance loader : Loader Z view :=
  {| call := list_call; start := fun v => v; settle := logs_settle; busy := initialLoading;
     cancels := true; polls := true; refetches := false; offers := fun _ => true; settle_done := logs_settle_done; cancels_only := fun _ => eq_refl |}.

Section Filter.
  (** [String.prototype.toLowerCase] *)
  Variable lower : jstr -> jstr.

(** The matching lines, newest first. *)
Definition visible (lines : list jstr) (filter : jstr) : list jstr :=
  let kw := lower (trim filter) in
  let filtered := if str_empty kw then lines else List.filter (fun l => includes kw (lower l)) lines in
  reverse filtered.

Definition counter (lines : list jstr) (filter : jstr) : jstr :=
  if str_empty filter then zstr (Z.of_nat (length lines)) ++ js " 行"
  else zstr (Z.of_nat (length (visible lines filter))) ++ js " / " ++ zstr (Z.of_nat (length lines)) ++ js " 行".

Definition empty_text (filter : jstr) : jstr := if str_empty filter then js "暂无日志。" else js "没有匹配关键字的日志行。".

End Filter.
End Logs.

(** ** Loaders of the trace viewer *)

Module Metrics.

Record view : Type := { metrics : json; metricsLoading : bool }.

Definition first_view : view := {| metrics := JNull; metricsLoading := true |}.

Definition list_call (Net : Type) (F : Fetch Net) (request_id : jstr) : D Net json :=
  listRequestLogs
    {| lq_provider := None; lq_model_requested := None; lq_error_type := None; lq_session_id := None;
       lq_request_id := Some request_id; lq_agent_type := None; lq_from := None; lq_to := None; lq_page := None;
       lq_page_size := Some (int 1) |}.

(** [d[0]] *)
Definition index0 (d : unknown) : result unknown :=
  match d with
  | None => Throw (err_type (js "Cannot read properties of undefined (reading '0')"))
  | Some JNull => Throw (err_type (js "Cannot read properties of null (reading '0')"))
  | Some (JArr l) => Ret (head l)
  | Some (JStr s) => Ret ((fun c => JStr [c]) <$> head s)
  | Some (JObj l) => Ret (lookup_prop (js "0") l)
  | Some _ => Ret None
  end.

Definition metrics_settle (r : result json) (v : view) : view :=
  match (j ← r; d ← prop j "data"; index0 d) with
  | Ret m => {| metrics := nullish m JNull; metricsLoading := false |}
  | Throw _ => {| metrics := JNull; metricsLoading := false |}
  end.

Lemma metrics_settle_done r v : metricsLoading (metrics_settle r v) = false.
Proof. unfold metrics_settle. by destruct (mbind _ _). Qed.

#[global] Instance loader : Loader jstr view :=
  {| call := list_call; start := fun _ => first_view; settle := metrics_settle; busy := metricsLoading;
     cancels := true; polls := false; refetches := false; offers := fun _ => true; settle_done := metrics_settle_done; cancels_only := fun _ => eq_refl |}.

(** The six figures of the bar. *)
Definition MetricsBar `{Locale} (metrics : option RequestLogs.RequestLogView) (loading isError : bool) : list (jstr * jstr) :=
  let m := if isError then None else metrics in
  let showLoading := loading && negb isError in
  let value (f : RequestLogs.RequestLogView -> jstr) :=
    if showLoading then js "…" else match m with Some x => f x | None => js "—" end in
  [(js "Prompt Tokens", value (fun m => formatNumber (Some (RequestLogs.prompt_tokens m))));
   (js "Completion Tokens", value (fun m => formatNumber (Some (RequestLogs.completion_tokens m))));
   (js "Total Tokens", value (fun m => formatNumber (Some (RequestLogs.total_tokens m))));
   (js "TTFT", value (fun m => formatDuration (Some (RequestLogs.ttft_ms m))));
   (js "Duration", value (fun m => formatDuration (Some (RequestLogs.duration_ms m))));
   (js "Cache", value (fun m => if RequestLogs.cache_hit m
                                then if str_empty (RequestLogs.cache_tier m) then js "hit" else RequestLogs.cache_tier m
                                else js "miss"))].

(** The tabs of the detail pane, and the effect that leaves a tab the row does
    not have. *)
Definition tabs (response_raw error_raw : bool) : list jstr :=
  [js "messages"; js "request"] ++ (if response_raw then [js "response"] else []) ++ (if error_raw then [js "error"] else []).

Definition snap_tab (response_raw error_raw : bool) (activeTab : jstr) : jstr :=
  if existsb (streq activeTab) (tabs response_raw error_raw) then activeTab else js "messages".

End Metrics.

Module DispatchPath.

Record view : Type := { steps : json; loading : bool }.

Definition first_view : view := {| steps := JNull; loading := true |}.

Definition list_call (Net : Type) (F : Fetch Net) (requestID : jstr) : D Net json := getDispatchSteps requestID.

Definition steps_settle (r : result json) (v : view) : view :=
  {| steps := match r with Ret s => s | Throw _ => JNull end; loading := false |}.

#[global] Instance loader : Loader jstr view :=
  {| call := list_call; start := fun v => {| steps := steps v; loading := true |}; settle := steps_settle; busy := loading;
     cancels := true; polls := false; refetches := false; offers := fun _ => true; settle_done := fun _ _ => eq_refl; cancels_only := fun _ => eq_refl |}.

Record DispatchStep : Type := {
  ordinal : num; provider : jstr; endpoint : jstr; action : jstr; skip_reason : jstr; selection_outcome : jstr;
  error_type : jstr; upstream_request_id : jstr; duration_ms : num;
}.

Inductive circle : Type := CMuted | CPrimary | CDestructive.

Record item : Type := {
  i_circle : circle; i_number : jstr; i_provider : jstr; i_endpoint : option jstr; i_tone : tone; i_badge : jstr;
  i_duration : option jstr; i_upstream : option (jstr * jstr); i_bar : bool;
}.

Definition render_step (isLast : bool) (s : DispatchStep) : item :=
  let skipped := streq (action s) (js "skipped") in
  let selected := streq (selection_outcome s) (js "selected") in
  let '(tone, text) :=
    if skipped then (Tmuted, js "跳过 · " ++ skip_reason s)
    else if selected then (Tsuccess, js "命中")
    else if streq (selection_outcome s) (js "retryable_failure") then (Twarning, js "可重试失败 · " ++ error_type s)
    else (Tdestructive, js "终态失败 · " ++ error_type s) in
  {| i_circle := if skipped then CMuted else if selected then CPrimary else CDestructive;
     i_number := num_to_string (nadd (ordinal s) (int 1)); i_provider := provider s;
     i_endpoint := if str_empty (endpoint s) then None else Some (js "/" ++ endpoint s);
     i_tone := tone; i_badge := text;
     i_duration := if nlt (int 0) (duration_ms s) then Some (formatDuration (Some (duration_ms s))) else None;
     i_upstream := if str_empty (upstream_request_id s) then None
                   else Some (upstream_request_id s, js "upstream: " ++ shortId (Some (upstream_request_id s)) 12);
     i_bar := negb isLast |}.

(** Nothing, the loading text, or one item per step. *)
Inductive panel : Type := PLoading | PNothing | PSteps (l : list item).

Definition render (steps : option (list DispatchStep)) (loading : bool) : panel :=
  if loading then PLoading
  else match steps with
       | None | Some [] => PNothing
       | Some l => PSteps (imap (fun i => render_step (i =? length l - 1)%nat) l)
       end.

End DispatchPath.

(** ** Confirmation dialogs *)

Module ConfirmModal.
Section Dialog.
  Context {Net : Type} `{Fetch Net} {A : Type}.

(** [handleConfirm]: closed after [onConfirm], or its failure shown inline. *)
Definition handleConfirm (onConfirm : D Net A) : D Net (option jstr * option A) :=
  d_try (a ← onConfirm; mret (None, Some a)) (fun e => mret (Some (exn_message e), None)).
End Dialog.

(** The deletions of the configuration pages: failures are left to the
    dialog. *)
Definition delete_config {Net} (del : jstr -> D Net json) (deleting : option jstr) : D Net bool :=
  match deleting with None => mret false | Some name => _ ← del name; mret true end.

End ConfirmModal.

(** ** Provider health *)

Module Health.

Record EndpointHealth : Type := {
  provider : jstr; endpoint : jstr; breaker_state : jstr; attempted : num; selected : num; avg_duration_ms : num;
  last_seen : option jstr;
}.

(** A [Map] from provider to its endpoints, in insertion order. *)
Definition health_map : Type := list (jstr * list EndpointHealth).

Definition get (m : health_map) (k : jstr) : option (list EndpointHealth) := snd <$> List.find (fun e => streq e.1 k) m.

Fixpoint set (m : health_map) (k : jstr) (v : list EndpointHealth) : health_map :=
  match m with
  | [] => [(k, v)]
  | (k', v') :: t => if streq k' k then (k, v) :: t else (k', v') :: set t k v
  end.

Definition load_health (health : list EndpointHealth) : health_map :=
  foldl (fun m h => set m (provider h) (default [] (get m (provider h)) ++ [h])) [] health.

Record badge : Type := { b_label : jstr; b_tone : tone; b_rate : option num; b_duration : option jstr; b_seen : option jstr }.

Section Badges.
  (** [formatTimeShort]: the browser's rendering of an instant. *)
  Variable formatTimeShort : jstr -> jstr.

Definition HealthBadge (h : EndpointHealth) : badge :=
  let state s := streq (breaker_state h) (js s) in
  {| b_label := if state "closed" then js "健康" else if state "open" then js "熔断" else if state "half-open" then js "半开" else js "未知";
     b_tone := if state "closed" then Tsuccess else if state "open" then Tdestructive else if state "half-open" then Twarning else Tmuted;
     b_rate := if nlt (int 0) (attempted h) then Some (nround (nmul (ndiv (selected h) (attempted h)) (int 100))) else None;
     b_duration := if nlt (int 0) (attempted h) && nlt (int 0) (avg_duration_ms h)
                   then Some (formatDuration (Some (avg_duration_ms h))) else None;
     b_seen := match last_seen h with
               | Some s => if str_empty s then None else Some (formatTimeShort s)
               | None => None
               end |}.

(** One badge per endpoint of the provider, [None] for the text "unused". *)
Definition HealthBadges (health : list EndpointHealth) : option (list badge) :=
  match health with [] => None | _ => Some (map HealthBadge health) end.
End Badges.

Lemma get_set m k v k' : get (set m k v) k' = if streq k k' then Some v else get m k'.
Proof.
  unfold get, streq. induction m as [|[a w] m IH]; simpl; [by case_bool_decide|].
  unfold streq in *. destruct (bool_decide_reflect (a = k)); simpl; [subst|]; repeat case_bool_decide; simplify_eq; done.
Qed.

(** The map groups the endpoints by provider, in the gateway's order. *)
Lemma load_health_spec health p :
  default [] (get (load_health health) p) = List.filter (fun h => streq (provider h) p) health.
Proof.
  induction health as [|h health IH] using rev_ind; [done|]. unfold load_health in *. rewrite foldl_snoc, get_set, List.filter_app.
  simpl. unfold streq in *. case_bool_decide; simpl; [subst; by rewrite IH|by rewrite app_nil_r].
Qed.

End Health.

(** ** What the pages promise *)

(** C3: The runtime log, the request metrics and the dispatch path, whose
    effects set a cancellation flag, implement the specification of a page
    that shows answers to its current query only: every reachable state is
    one the specification reaches, and every step, whatever the order of the
    replies, leaves the data alone, asks a new query or shows the gateway's
    answer to the query asked last; a reply for an earlier query never does. *)
Theorem cancelling_loaders_refine :
  keeps_promise Logs.loader /\ keeps_promise Metrics.loader /\ keeps_promise DispatchPath.loader.
Proof. split_and!; by apply cancelling_keeps_promise. Qed.

(** When the network delivers replies in the order of the requests, every
    loading page that has come to rest shows the gateway's answer to the query
    selected; the prompts page, which a dialog may reload with an older query,
    shows the answer to the last query it asked. *)
Theorem in_order_pages_current :
  shows_selected Sessions.loader /\ shows_selected RequestLogs.loader /\ shows_selected Logs.loader /\
  shows_selected Metrics.loader /\ shows_selected DispatchPath.loader /\ shows_last_asked Prompts.loader.
Proof. split_and!; first [by apply loader_shows_selected | apply loader_shows_last]. Qed.

(** C30: The session, request-log and prompt lists, the request metrics and the
    dispatch path settle: once the user stops, the commits and replies that
    remain end after at most as many steps as there are replies outstanding
    plus two, and where they end no effect is due, nothing is outstanding and
    the loading state is off, for any order of replies and any gateway that
    answers.  The runtime log, which repeats its request on a timer, comes to
    rest in the same way before each tick; a tick at rest sends one request,
    whose reply is the only step to rest again, and never shows the loading
    state. *)
Theorem pages_settle :
  settles Sessions.loader /\ settles RequestLogs.loader /\ settles Prompts.loader /\
  settles Metrics.loader /\ settles DispatchPath.loader /\ settles_between_ticks Logs.loader /\
  forall serves order q v st q', (forall q, exists r, serves q r) -> order 0%nat -> reachable Logs.loader serves order q v st ->
    committed st = Some q' -> due st = false -> pending st = [] ->
    automatic Logs.loader serves order st (poll Logs.loader q' st) /\ pending (poll Logs.loader q' st) <> [] /\
    busy (view (poll Logs.loader q' st)) = false /\
    (forall n st', nsteps (internal Logs.loader serves order) n (poll Logs.loader q' st) st' -> (n <= 1)%nat) /\
    exists st', internal Logs.loader serves order (poll Logs.loader q' st) st' /\ pending st' = [] /\ due st' = false.
Proof.
  split_and!; try (by apply loader_settles); [apply loader_rests|]. intros serves order q v st q' A O R C D E.
  destruct (tick_rests Logs.loader serves order q v st q' A O R eq_refl C D E) as (B & N & r & S & I).
  assert (F : busy (view st) = false).
  { destruct (loader_rests Logs.loader serves order q v st A O R) as [_ Q]. apply (Q st); [apply rtc_refl|].
    intros st' [X|i run p x O' X Y]; [congruence|]. by rewrite E in X. }
  split_and!; [by apply a_poll|cbn; by rewrite E|congruence|exact N|]. eexists. split; [exact I|]. split; [|exact D]. cbn. by rewrite E.
Qed.

Section Reordering.
  Context {Q V : Type} `{EqDecision Q} (L : Loader Q V).

(** Two requests answered in the opposite order, in an effect without a
    cancellation flag. *)
Lemma reordered serves q1 q2 v r1 r2 :
  cancels = false -> q1 <> q2 -> serves q1 r1 -> serves q2 r2 -> offers (start v) = true ->
  reachable L serves any_order q1 v
    {| current := q2; committed := Some q2; flags := []; pending := [];
       view := settle (outcome_of L q1 r1) (settle (outcome_of L q2 r2) (start (start v))); asked := Some q2 |}.
Proof.
  intros C N S1 S2 Of. unfold reachable.
  assert (D : forall (q : Q) (st : @machine Q V), committed st <> Some q -> current st = q -> due st = true)
    by (intros q st H1 <-; unfold due; by rewrite bool_decide_false).
  eapply rtc_l; [apply s_internal, i_commit; by apply (D q1)|].
  eapply rtc_l; [by apply (s_change L serves any_order _ q2)|].
  eapply rtc_l; [apply s_internal, i_commit; apply (D q2); simpl; congruence|].
  eapply rtc_l; [eapply s_internal, (i_reply L serves any_order _ 1); [done|reflexivity|exact S2]|].
  eapply rtc_l; [eapply s_internal, (i_reply L serves any_order _ 0); [done|reflexivity|exact S1]|].
  unfold reply, commit, change, mounted. simpl. rewrite C. simpl. apply rtc_refl.
Qed.

End Reordering.

(** A gateway that lists exactly one row, the text [s]. *)
Definition echo (s : jstr) : result response :=
  Ret {| rs_status := 200; rs_text := stringify (JObj [(js "data", JArr [JStr s]); (js "total", JNum (int 1))]) |}.

(** At rest, with no error, showing the row of a filter other than the one
    selected. *)
Definition shows_other {Q} `{EqDecision Q} (filter : Q -> jstr) (q0 : Q) (st : @machine Q ListView) : Prop :=
  due st = false /\ pending st = [] /\ loading (view st) = false /\ error (view st) = None /\
  rows (view st) = Some (JArr [JStr (filter q0)]) /\ filter (current st) <> filter q0.

(** The session, request-log and prompt lists have no cancellation flag:
    when two replies arrive in the opposite order, each page comes to rest
    showing the rows of the filter selected before, without any error or
    loading indication. *)
Theorem list_pages_race :
  (exists st, reachable Sessions.loader (fun q r => r = echo (Sessions.agent q)) any_order
                (Sessions.first_query (Some (js "codex"))) empty_list st /\
     shows_other Sessions.agent (Sessions.first_query (Some (js "codex"))) st /\
     current st = Sessions.apply_edit (Sessions.first_query (Some (js "codex"))) (Sessions.SetAgent (js "opencode"))) /\
  (exists st, reachable RequestLogs.loader (fun q r => r = echo (RequestLogs.model q)) any_order RequestLogs.first_query empty_list st /\
     shows_other RequestLogs.model RequestLogs.first_query st /\
     current st = RequestLogs.apply_edit RequestLogs.first_query (RequestLogs.SetField RequestLogs.FModel (js "glm"))) /\
  (exists st, reachable Prompts.loader (fun q r => r = echo (Prompts.tag q)) any_order Prompts.first_query empty_list st /\
     shows_other Prompts.tag Prompts.first_query st /\
     current st = Prompts.apply_edit Prompts.first_query (Prompts.SetTag (js "few-shot"))).
Proof.
  split_and!; eexists; (split; [eapply reordered; [reflexivity| |reflexivity|reflexivity|reflexivity]|split; [|reflexivity]]).
  1, 3, 5: by vm_compute.
  all: unfold shows_other; split_and!; by vm_compute.
Qed.

(** ** Deletions *)

Section Deletions.
  Context {Net : Type} `{Fetch Net}.

(** The dialog closes, after at most one request and with one toast, and the
    list reloads exactly when the toast announces success. *)
Definition closes_with_toast (op : D Net bool) : Prop := forall n log, exists reload n' sent t,
  ConfirmModal.handleConfirm op (n, log) = (Ret (None, Some reload), (n', log ++ sent ++ [t])) /\
  (sent = [] \/ exists q, sent = [Requested q]) /\
  (reload = true /\ (exists m, t = ToastSuccess m) \/ reload = false /\ exists m, t = ToastError m).

(** The dialog closes and the list reloads after one successful request, or
    stays with the failure shown inline; no toast either way. *)
Definition closes_or_explains (op : D Net bool) : Prop := forall n log, exists n',
  (exists q, ConfirmModal.handleConfirm op (n, log) = (Ret (None, Some true), (n', log ++ [Requested q]))) \/
  (exists m sent, ConfirmModal.handleConfirm op (n, log) = (Ret (Some m, None), (n', log ++ sent)) /\
     (sent = [] \/ exists q, sent = [Requested q])).

Lemma toast_delete (call : D Net json) (text : json -> result jstr) : one_call call ->
  closes_with_toast (d_try (res ← call; m ← d_lift (text res); _ ← emit (ToastSuccess m); mret true)
                           (fun e => _ ← toast_error e; mret false)).
Proof.
  intros C n log. unfold ConfirmModal.handleConfirm, d_try, mbind, D_bind.
  destruct (C n log) as (r & n' & [(q & E)|(-> & e & E)]); rewrite E.
  - destruct r as [res|e]; [unfold d_lift; destruct (text res) as [m|e]|]; eexists _, n', [Requested q], _;
      rewrite app_assoc; split_and!; [reflexivity|by eauto|by eauto|reflexivity|by eauto|by eauto|reflexivity|by eauto|by eauto].
  - eexists _, n, [], _. split_and!; [reflexivity|by left|by eauto].
Qed.

Lemma config_delete (del : jstr -> D Net json) name : one_call (del name) ->
  closes_or_explains (ConfirmModal.delete_config del (Some name)).
Proof.
  intros C n log. unfold ConfirmModal.handleConfirm, ConfirmModal.delete_config, d_try, mbind, D_bind.
  destruct (C n log) as (r & n' & [(q & E)|(-> & e & E)]); rewrite E.
  - exists n'. destruct r as [res|e]; [left; by exists q|right]. eexists _, [Requested q]. eauto.
  - exists n. right. eexists _, []. rewrite app_nil_r. eauto.
Qed.

(** Confirming a deletion of a session or a prompt always closes the
    dialog and reports the outcome by one toast, reloading the list exactly on
    success; the dialog's own error line, used by the provider, model and
    route pages, shows exactly the failures there and keeps the dialog open. *)
Theorem delete_dialogs :
  (forall id, closes_with_toast (Sessions.onConfirm (Some id))) /\
  (forall id, closes_with_toast (Prompts.onConfirm (Some id))) /\
  (forall name, closes_or_explains (ConfirmModal.delete_config deleteProvider (Some name)) /\
     closes_or_explains (ConfirmModal.delete_config deleteModel (Some name)) /\
     closes_or_explains (ConfirmModal.delete_config deleteRoute (Some name))).
Proof.
  split_and!.
  - intros id n log.
    pose proof (toast_delete (deleteSession id)
      (fun res => d ← prop res "deleted"; Ret (js "已删除 " ++ Sessions.template d ++ js " 条观测记录。"))
      (with_segment_one _ _ _ _) n log) as T.
    unfold ConfirmModal.handleConfirm, Sessions.onConfirm, d_try, mbind, D_bind, d_lift, result_bind in *.
    destruct (deleteSession id (n, log)) as [[res|e] w]; [|exact T]. by destruct (prop res "deleted").
  - intros id n log.
    pose proof (toast_delete (deletePrompt id) (fun _ => Ret (js "已删除。")) (sendJSON_one _ _ _) n log) as T.
    unfold ConfirmModal.handleConfirm, Prompts.onConfirm, d_try, mbind, D_bind, d_lift in *. exact T.
  - intros name. split_and!; apply config_delete, with_segment_one.
Qed.

End Deletions.

(** ** Examples *)

(** The runtime log after its tail changed from 500 to 200 lines while the
    first request was in flight: the late reply changes nothing. *)
Definition two_tails : @machine Z Logs.view :=
  commit Logs.loader (change 200 (commit Logs.loader (mounted 500 Logs.first_view))).

Lemma two_tails_reachable : reachable Logs.loader (fun _ _ => True) any_order 500 Logs.first_view two_tails.
Proof.
  unfold reachable. eapply rtc_l; [by apply s_internal, i_commit|].
  eapply rtc_l; [by apply (s_change Logs.loader _ _ _ 200)|]. eapply rtc_l; [by apply s_internal, i_commit|]. apply rtc_refl.
Qed.

Lemma two_tails_late_reply :
  rtc (promised Logs.loader (fun _ _ => True)) {| p_query := None; p_view := Logs.first_view |} (promise_of two_tails) /\
  promise_of (reply Logs.loader 0 (Some 0%nat) 500 (echo []) two_tails) = promise_of two_tails.
Proof.
  split; [|reflexivity].
  exact (proj1 (cancelling_keeps_promise Logs.loader eq_refl _ _ 500 Logs.first_view two_tails two_tails_reachable)).
Qed.

(** The sessions page once its first reply arrived. *)
Definition sessions_loaded : @machine Sessions.query ListView :=
  reply Sessions.loader 0 None (Sessions.first_query None) (echo (js "s1"))
    (commit Sessions.loader (mounted (Sessions.first_query None) empty_list)).

Lemma sessions_loaded_reachable :
  reachable Sessions.loader (fun _ r => r = echo (js "s1")) in_order (Sessions.first_query None) empty_list sessions_loaded.
Proof.
  unfold reachable. eapply rtc_l; [by apply s_internal, i_commit|].
  eapply rtc_l; [by apply s_internal, (i_reply Sessions.loader _ _ _ 0 None)|]. apply rtc_refl.
Qed.

Lemma sessions_loaded_shows : exists r v, r = echo (js "s1") /\
  view sessions_loaded = list_settle (outcome_of Sessions.loader (current sessions_loaded) r) v.
Proof.
  destruct (loader_shows_selected Sessions.loader eq_refl _ _ _ _ sessions_loaded_reachable eq_refl eq_refl)
    as (r & v & S & E). by exists r, v.
Qed.
