(* ===== verification/Calendar.v ===== *)
(** * Dates

    The ECMAScript calendar the front ends compute with: time values as
    milliseconds, [MakeDay] and the field accessors, local time under a time
    zone, [Date.prototype.toISOString] and the date-time string format of
    [Date.parse]. *)

From S2P Require Import Prelude JsNumber JsString.

Ltac zdiv := Z.to_euclidean_division_equations; lia.

(** ** Days and civil dates *)

Definition msPerDay : Z := 86400000.

Definition dayFromYear (y : Z) : Z := 365 * (y - 1970) + (y - 1969) / 4 - (y - 1901) / 100 + (y - 1601) / 400.

Definition isLeap (y : Z) : bool := (y mod 4 =? 0) && (negb (y mod 100 =? 0) || (y mod 400 =? 0)).

(** The year of a day number: an estimate within one year, corrected. *)
Definition yearFromDay (d : Z) : Z :=
  let y := 1970 + d * 400 / 146097 in
  if d <? dayFromYear y then y - 1 else if dayFromYear (y + 1) <=? d then y + 1 else y.

(** Days of the year before month [m]. *)
Definition monthStart (leap : bool) (m : Z) : Z :=
  let l := if leap then 1 else 0 in
  match m with
  | 0 => 0 | 1 => 31 | 2 => 59 + l | 3 => 90 + l | 4 => 120 + l | 5 => 151 + l | 6 => 181 + l | 7 => 212 + l
  | 8 => 243 + l | 9 => 273 + l | 10 => 304 + l | 11 => 334 + l | _ => 365 + l
  end.

(** The month a day of the year falls in: the number of months begun. *)
Definition monthFromDoy (leap : bool) (doy : Z) : Z :=
  Z.of_nat (length (List.filter (fun m => monthStart leap (Z.of_nat m) <=? doy) (seq 1 11))).

Definition dayInYear (d : Z) : Z := d - dayFromYear (yearFromDay d).
Definition monthFromDay (d : Z) : Z := monthFromDoy (isLeap (yearFromDay d)) (dayInYear d).
Definition dateFromDay (d : Z) : Z := dayInYear d - monthStart (isLeap (yearFromDay d)) (monthFromDay d) + 1.
Definition weekDay (d : Z) : Z := (d + 4) mod 7.

(** [MakeDay]: the month may leave 0..11, the date any range. *)
Definition makeDay (y m dt : Z) : Z :=
  let ym := y + m / 12 in
  dayFromYear ym + monthStart (isLeap ym) (m mod 12) + dt - 1.

Lemma year_length y : dayFromYear (y + 1) - dayFromYear y = if isLeap y then 366 else 365.
Proof.
  unfold dayFromYear, isLeap.
  destruct (Z.eqb_spec (y mod 4) 0), (Z.eqb_spec (y mod 100) 0), (Z.eqb_spec (y mod 400) 0); cbn -[Z.mul Z.add Z.sub Z.div]; zdiv.
Qed.

Lemma dayFromYear_mono y y' : y <= y' -> dayFromYear y <= dayFromYear y'.
Proof. unfold dayFromYear. zdiv. Qed.

Lemma yearFromDay_spec d : dayFromYear (yearFromDay d) <= d < dayFromYear (yearFromDay d + 1).
Proof.
  unfold yearFromDay. set (y := 1970 + d * 400 / 146097).
  assert (dayFromYear (y - 1) <= d < dayFromYear (y + 2)) by (subst y; unfold dayFromYear; zdiv).
  destruct (Z.ltb_spec d (dayFromYear y)); [rewrite Z.sub_add; lia|].
  destruct (Z.leb_spec (dayFromYear (y + 1)) d); [replace (y + 1 + 1) with (y + 2) by lia|]; lia.
Qed.

Lemma yearFromDay_unique d y : dayFromYear y <= d < dayFromYear (y + 1) -> yearFromDay d = y.
Proof.
  intros H. pose proof (yearFromDay_spec d) as S. destruct (Z.lt_trichotomy (yearFromDay d) y) as [L|[E|G]]; [|done|].
  - pose proof (dayFromYear_mono (yearFromDay d + 1) y). lia.
  - pose proof (dayFromYear_mono (y + 1) (yearFromDay d)). lia.
Qed.

Lemma dayInYear_bounds d : 0 <= dayInYear d < if isLeap (yearFromDay d) then 366 else 365.
Proof. rewrite <- year_length. unfold dayInYear. pose proof (yearFromDay_spec d). lia. Qed.

Lemma monthFromDoy_spec (leap : bool) doy : 0 <= doy < (if leap then 366 else 365) ->
  0 <= monthFromDoy leap doy < 12 /\ monthStart leap (monthFromDoy leap doy) <= doy < monthStart leap (monthFromDoy leap doy + 1).
Proof.
  intros H. assert (A : forallb (fun n => let d := Z.of_nat n in let m := monthFromDoy leap d in
    (0 <=? m) && (m <? 12) && (monthStart leap m <=? d) && (d <? monthStart leap (m + 1)))
    (seq 0 (if leap then 366 else 365)) = true) by (destruct leap; vm_compute; reflexivity).
  rewrite forallb_forall in A. specialize (A (Z.to_nat doy)). rewrite in_seq, Z2Nat.id in A by lia.
  cbv zeta in A. rewrite !andb_true_iff, !Z.leb_le, !Z.ltb_lt in A. assert ((0 <= Z.to_nat doy < 0 + (if leap then 366 else 365))%nat) by (destruct leap; lia).
  tauto.
Qed.

Lemma monthFromDay_spec d : 0 <= monthFromDay d < 12 /\ 
  monthStart (isLeap (yearFromDay d)) (monthFromDay d) <= dayInYear d < monthStart (isLeap (yearFromDay d)) (monthFromDay d + 1).
Proof. apply monthFromDoy_spec, dayInYear_bounds. Qed.

Lemma makeDay_add y m dt k : makeDay y m (dt + k) = makeDay y m dt + k.
Proof. unfold makeDay. lia. Qed.

(** A day is the day of its own fields. *)
Lemma makeDay_fields d : makeDay (yearFromDay d) (monthFromDay d) (dateFromDay d) = d.
Proof.
  destruct (monthFromDay_spec d) as [M _]. unfold makeDay, dateFromDay.
  rewrite Z.div_small, Z.mod_small, Z.add_0_r by done. unfold dayInYear. lia.
Qed.

Lemma makeDay_shift y m dt : makeDay y m dt = makeDay (y + m / 12) (m mod 12) dt.
Proof. unfold makeDay. by rewrite Z.mod_mod, (Z.div_small (m mod 12)), Z.add_0_r by (done || apply Z.mod_pos_bound; lia). Qed.

Lemma monthStart_step leap m : 0 <= m < 12 -> 28 <= monthStart leap (m + 1) - monthStart leap m <= 31.
Proof.
  intros H. assert (m = 0 \/ m = 1 \/ m = 2 \/ m = 3 \/ m = 4 \/ m = 5 \/ m = 6 \/ m = 7 \/ m = 8 \/ m = 9 \/ m = 10 \/ m = 11) as E by lia.
  destruct leap; repeat destruct E as [->|E]; subst; simpl; lia.
Qed.

Lemma monthStart_range (leap : bool) m : 0 <= m <= 12 -> 0 <= monthStart leap m <= if leap then 366 else 365.
Proof.
  intros H. assert (m = 0 \/ m = 1 \/ m = 2 \/ m = 3 \/ m = 4 \/ m = 5 \/ m = 6 \/ m = 7 \/ m = 8 \/ m = 9 \/ m = 10 \/ m = 11 \/ m = 12) as E by lia.
  destruct leap; repeat destruct E as [->|E]; subst; simpl; lia.
Qed.

Lemma monthStart_mono leap m m' : 0 <= m <= m' -> m' <= 12 -> monthStart leap m <= monthStart leap m'.
Proof.
  intros [H1 H2] H3. replace m' with (m + Z.of_nat (Z.to_nat (m' - m))) in * by lia.
  generalize (Z.to_nat (m' - m)) H3. clear H2 H3. intros n. induction n as [|n IH]; intros H; [by rewrite Z.add_0_r|].
  etrans; [apply IH; lia|]. replace (m + Z.of_nat (S n)) with (m + Z.of_nat n + 1) by lia.
  pose proof (monthStart_step leap (m + Z.of_nat n)). lia.
Qed.

(** The fields of a valid civil date. *)
Lemma fields_makeDay y m dt : 0 <= m < 12 -> 1 <= dt <= monthStart (isLeap y) (m + 1) - monthStart (isLeap y) m ->
  yearFromDay (makeDay y m dt) = y /\ monthFromDay (makeDay y m dt) = m /\ dateFromDay (makeDay y m dt) = dt.
Proof.
  intros Hm Hd. assert (E : makeDay y m dt = dayFromYear y + monthStart (isLeap y) m + dt - 1)
    by (unfold makeDay; by rewrite Z.div_small, Z.mod_small, Z.add_0_r by done).
  assert (Y : yearFromDay (makeDay y m dt) = y).
  { apply yearFromDay_unique. pose proof (year_length y). pose proof (monthStart_range (isLeap y) m).
    pose proof (monthStart_range (isLeap y) (m + 1)). lia. }
  destruct (monthFromDay_spec (makeDay y m dt)) as [M S]. unfold dayInYear in S. rewrite Y, E in S.
  assert (X : monthFromDay (makeDay y m dt) = m).
  { rewrite E in *. set (m' := monthFromDay _) in *. destruct (Z.lt_trichotomy m' m) as [L|[?|G]]; [|done|].
    - pose proof (monthStart_mono (isLeap y) (m' + 1) m). lia.
    - pose proof (monthStart_mono (isLeap y) (m + 1) m'). lia. }
  split_and!; [done|done|]. unfold dateFromDay, dayInYear. rewrite Y, X. lia.
Qed.

(** ** Time values and time zones *)

Definition dayOf (t : Z) : Z := t / msPerDay.
Definition timeInDay (t : Z) : Z := t mod msPerDay.

Lemma dayOf_split d x : 0 <= x < msPerDay -> dayOf (d * msPerDay + x) = d /\ timeInDay (d * msPerDay + x) = x.
Proof. unfold dayOf, timeInDay, msPerDay. zdiv. Qed.

Lemma dayOf_midnight d : dayOf (d * msPerDay) = d /\ timeInDay (d * msPerDay) = 0.
Proof. unfold dayOf, timeInDay, msPerDay. zdiv. Qed.

Lemma day_time t : dayOf t * msPerDay + timeInDay t = t.
Proof. unfold dayOf, timeInDay, msPerDay. zdiv. Qed.

(** The system's time zone: local time of an instant, and the instant of a
    local time (with the offset before the change where local time skips or
    repeats). *)
Class TimeZone : Type := { LocalTime : Z -> Z; UTC : Z -> Z }.

(** A zone of constant offset. *)
Definition fixed_zone (offset : Z) : TimeZone := {| LocalTime t := t + offset; UTC t := t - offset |}.

(** A zone whose clocks go from midnight to one o'clock at local day [d], with
    UTC before. *)
Definition midnight_gap (d : Z) : TimeZone :=
  {| LocalTime t := if t <? d * msPerDay then t else t + 3600000;
     UTC t := if t <? d * msPerDay + 3600000 then t else t - 3600000 |}.

Section Dates.
  Context `{TimeZone}.

Definition getFullYear (t : Z) : Z := yearFromDay (dayOf (LocalTime t)).
Definition getMonth (t : Z) : Z := monthFromDay (dayOf (LocalTime t)).
Definition getDate (t : Z) : Z := dateFromDay (dayOf (LocalTime t)).
Definition getDay (t : Z) : Z := weekDay (dayOf (LocalTime t)).
Definition getHours (t : Z) : Z := timeInDay (LocalTime t) / 3600000.
Definition getMinutes (t : Z) : Z := timeInDay (LocalTime t) / 60000 mod 60.

(** [new Date(y, m, dt)]: two-digit years are of the 20th century. *)
Definition newDate (y m dt : Z) : Z :=
  UTC (makeDay (if (0 <=? y) && (y <=? 99) then 1900 + y else y) m dt * msPerDay).

(** [d.setDate(dt)] *)
Definition setDate (t dt : Z) : Z :=
  UTC (makeDay (getFullYear t) (getMonth t) dt * msPerDay + timeInDay (LocalTime t)).

(** [d.setHours(0, 0, 0, 0)] *)
Definition setMidnight (t : Z) : Z := UTC (dayOf (LocalTime t) * msPerDay).

(** Local midnight of local day [d]. *)
Definition midnight (d : Z) : Z := UTC (d * msPerDay).

Lemma newDate_today t k : 100 <= getFullYear t ->
  newDate (getFullYear t) (getMonth t) (getDate t + k) = midnight (dayOf (LocalTime t) + k).
Proof.
  intros Y. unfold newDate, midnight. replace ((0 <=? getFullYear t) && (getFullYear t <=? 99)) with false by (symmetry; bool_to_prop; lia).
  rewrite makeDay_add. unfold getFullYear, getMonth, getDate. by rewrite makeDay_fields.
Qed.

Lemma setDate_shift t k : setDate t (getDate t + k) = UTC ((dayOf (LocalTime t) + k) * msPerDay + timeInDay (LocalTime t)).
Proof. unfold setDate. rewrite makeDay_add. unfold getFullYear, getMonth, getDate. by rewrite makeDay_fields. Qed.

End Dates.

(** ** Date-time strings *)

Definition pad (n : nat) (k : Z) : jstr := padStart n 48 (digits k).

Definition toISOString (t : Z) : jstr :=
  let d := dayOf t in let ms := timeInDay t in let y := yearFromDay d in
  (if (0 <=? y) && (y <=? 9999) then pad 4 y else if y <? 0 then js "-" ++ pad 6 (- y) else js "+" ++ pad 6 y)
  ++ js "-" ++ pad 2 (monthFromDay d + 1) ++ js "-" ++ pad 2 (dateFromDay d)
  ++ js "T" ++ pad 2 (ms / 3600000) ++ js ":" ++ pad 2 (ms / 60000 mod 60) ++ js ":" ++ pad 2 (ms / 1000 mod 60)
  ++ js "." ++ pad 3 (ms mod 1000) ++ js "Z".

Definition take_digits (n : nat) (s : jstr) : option (Z * jstr) :=
  let d := take n s in
  if (length d =? n)%nat && forallb is_digit d then Some (dval d, drop n s) else None.

Definition expect (c : Z) (s : jstr) : option jstr :=
  match s with x :: r => if x =? c then Some r else None | [] => None end.

(** Digits after [c], when [c] is next. *)
Definition field_after (c : Z) (n : nat) (s : jstr) : option (Z * jstr) := expect c s ≫= take_digits n.

(** Seconds and milliseconds, both optional. *)
Definition parse_seconds (s : jstr) : option (Z * jstr) :=
  match expect 58 s with
  | None => Some (0, s)
  | Some r =>
      '(sec, r) ← take_digits 2 r;
      match field_after 46 3 r with
      | Some (ms, r') => Some (sec * 1000 + ms, r')
      | None => Some (sec * 1000, r)
      end
  end.

Section Parse.
  Context `{TimeZone}.
  (** What the engine makes of strings outside the forms below. *)
  Variable other : jstr -> option Z.

(** [Date.parse] on [YYYY-MM-DDTHH:mm(:ss(.sss)?)?Z?]; local time without
    the [Z]. *)
Definition parse_date_time (s : jstr) : option Z :=
  '(y, s) ← take_digits 4 s;
  '(m, s) ← field_after 45 2 s;
  '(d, s) ← field_after 45 2 s;
  '(h, s) ← field_after 84 2 s;
  '(mi, s) ← field_after 58 2 s;
  '(ms, s) ← parse_seconds s;
  if (1 <=? m) && (m <=? 12) && (1 <=? d) && (d <=? monthStart (isLeap y) m - monthStart (isLeap y) (m - 1))
     && (h <? 24) && (mi <? 60) && (ms <? 60000)
  then let t := makeDay y (m - 1) d * msPerDay + h * 3600000 + mi * 60000 + ms in
       if streq s [] then Some (UTC t) else if streq s (js "Z") then Some t else None
  else None.

Definition date_parse (s : jstr) : option Z :=
  match parse_date_time s with Some t => Some t | None => other s end.

End Parse.

Lemma digs_length f k n : 0 <= k < 10 ^ Z.of_nat n -> (1 <= n)%nat -> (length (digs f k) <= n)%nat.
Proof.
  revert k n. induction f as [|f IH]; intros k n H N; simpl; [lia|]. destruct (Z.ltb_spec k 10); [done|].
  rewrite length_app. simpl. destruct n as [|[|n]]; [lia|simpl in H; lia|].
  assert (length (digs f (k / 10)) <= S n)%nat; [|lia]. apply IH; [|lia].
  rewrite (Nat2Z.inj_succ (S n)), Z.pow_succ_r in H by lia. split; [apply Z.div_pos; lia|]. apply Z.div_lt_upper_bound; lia.
Qed.

Lemma pad_length n k : (1 <= n)%nat -> 0 <= k < 10 ^ Z.of_nat n -> length (pad n k) = n.
Proof.
  intros N H. pose proof (digs_length (S (Z.to_nat (Z.log2 k))) k n H N). unfold pad, padStart, digits in *.
  rewrite length_app, length_replicate. lia.
Qed.

Lemma take_digits_pad n k r : (1 <= n)%nat -> 0 <= k < 10 ^ Z.of_nat n -> take_digits n (pad n k ++ r) = Some (k, r).
Proof.
  intros N H. pose proof (pad_length n k N H) as L. destruct (digits_spec k) as [V D]; [lia|].
  destruct (padStart_digits n (digits k) D) as [Pv Pd]. fold (pad n k) in Pv, Pd. unfold take_digits.
  rewrite take_app_length', drop_app_length' by done. rewrite L, Nat.eqb_refl.
  assert (forallb is_digit (pad n k) = true) as -> by (apply forallb_forall; intros x Hx; rewrite Forall_forall in Pd; by apply Pd, list_elem_of_In).
  simpl. by rewrite Pv, V.
Qed.

Lemma field_after_pad c n k r : (1 <= n)%nat -> 0 <= k < 10 ^ Z.of_nat n -> field_after c n (c :: pad n k ++ r) = Some (k, r).
Proof. intros N H. unfold field_after. simpl. rewrite Z.eqb_refl. simpl. by apply take_digits_pad. Qed.

(** Four digits need no padding. *)
Lemma pad_exact n k : 10 ^ (Z.of_nat n - 1) <= k -> 0 <= k -> (1 <= n)%nat -> pad n k = digits k.
Proof.
  intros H P N. destruct (digits_spec k P) as [V D]. pose proof (dval_bound _ D) as B. rewrite V in B.
  assert (10 ^ (Z.of_nat n - 1) < 10 ^ Z.of_nat (length (digits k))) as L by lia.
  apply Z.pow_lt_mono_r_iff in L; [|lia|lia]. unfold pad, padStart. by replace (n - length (digits k))%nat with 0%nat by lia.
Qed.

(** The date and time part shared by both string forms. *)
Definition civil_string (y : jstr) (d h mi : Z) : jstr :=
  y ++ js "-" ++ pad 2 (monthFromDay d + 1) ++ js "-" ++ pad 2 (dateFromDay d) ++ js "T" ++ pad 2 h ++ js ":" ++ pad 2 mi.

Lemma date_bounds d : 1 <= dateFromDay d <= monthStart (isLeap (yearFromDay d)) (monthFromDay d + 1)
                                            - monthStart (isLeap (yearFromDay d)) (monthFromDay d).
Proof. destruct (monthFromDay_spec d) as [_ S]. unfold dateFromDay. lia. Qed.

(** Parsing a civil string reads back its day and time. *)
Lemma parse_civil `{TimeZone} d h mi ms rest tail :
  0 <= yearFromDay d <= 9999 -> 0 <= h < 24 -> 0 <= mi < 60 -> 0 <= ms < 60000 -> parse_seconds rest = Some (ms, tail) ->
  parse_date_time (civil_string (pad 4 (yearFromDay d)) d h mi ++ rest) =
  let t := d * msPerDay + h * 3600000 + mi * 60000 + ms in
  if streq tail [] then Some (UTC t) else if streq tail (js "Z") then Some t else None.
Proof.
  intros Y Hh Hmi Hms R. destruct (monthFromDay_spec d) as [M _]. pose proof (date_bounds d) as D.
  pose proof (monthStart_step (isLeap (yearFromDay d)) (monthFromDay d) M) as B.
  unfold parse_date_time, civil_string. rewrite <- !app_assoc. rewrite take_digits_pad by (done || (simpl; lia)). cbn [mbind option_bind].
  change (js "-" ++ pad 2 (monthFromDay d + 1) ++ js "-" ++ pad 2 (dateFromDay d) ++ js "T" ++ pad 2 h ++ js ":" ++ pad 2 mi ++ rest)
    with (45 :: pad 2 (monthFromDay d + 1) ++ 45 :: pad 2 (dateFromDay d) ++ 84 :: pad 2 h ++ 58 :: pad 2 mi ++ rest).
  do 4 (rewrite field_after_pad by (lia || (simpl; lia)); cbn [mbind option_bind]). rewrite R. cbn [mbind option_bind].
  rewrite Z.add_simpl_r. match goal with |- (if ?b then _ else _) = _ => replace b with true by (symmetry; bool_to_prop; lia) end.
  by rewrite makeDay_fields.
Qed.

(** [Date.parse] inverts [toISOString]. *)
Lemma parse_toISOString `{TimeZone} t : 0 <= yearFromDay (dayOf t) <= 9999 -> parse_date_time (toISOString t) = Some t.
Proof.
  intros Y. unfold toISOString. replace ((0 <=? yearFromDay (dayOf t)) && (yearFromDay (dayOf t) <=? 9999)) with true by (symmetry; bool_to_prop; lia).
  set (x := timeInDay t). assert (X : 0 <= x < msPerDay) by (unfold x, timeInDay; apply Z.mod_pos_bound; done). unfold msPerDay in X.
  pose proof (parse_civil (dayOf t) (x / 3600000) (x / 60000 mod 60) (x / 1000 mod 60 * 1000 + x mod 1000)
    (js ":" ++ pad 2 (x / 1000 mod 60) ++ js "." ++ pad 3 (x mod 1000) ++ js "Z") (js "Z") Y) as P.
  unfold civil_string in P. rewrite <- !app_assoc in P. rewrite P; [|zdiv..|].
  - change (streq (js "Z") []) with false. change (streq (js "Z") (js "Z")) with true. cbv iota zeta. f_equal.
    rewrite <- (day_time t) at 2. fold x. zdiv.
  - unfold parse_seconds. change (js ":" ++ ?r) with (58 :: r). cbn [expect]. rewrite Z.eqb_refl, take_digits_pad by (lia || (simpl; zdiv)).
    cbn [mbind option_bind]. change (js "." ++ ?r) with (46 :: r). by rewrite field_after_pad by (lia || (simpl; zdiv)).
Qed.
