(* ===== verification/DateRanges.v ===== *)
(** * Time-range presets and date inputs

    The presets of both overview pages
    ([web/src/app/[locale]/(dashboard)/overview/range.ts] and the functions of
    [desktop-ui/src/pages/Overview.tsx]) and the date-input helpers of
    [web/src/lib/datetime.ts], over the calendar of [Calendar]. *)

From S2P Require Import Prelude JsNumber JsString Calendar.

Section Ranges.
  Context `{TimeZone}.

(** ** The desktop overview *)

Inductive Preset : Type := Today | Yesterday | Week | Month | LastMonth | AllTime.

Definition PRESETS : list (Preset * jstr) :=
  [(Today, js "今天"); (Yesterday, js "昨天"); (Week, js "本周"); (Month, js "本月"); (LastMonth, js "上月"); (AllTime, js "全部")].

Definition startOfWeekMonday (d : Z) : Z :=
  let x := newDate (getFullYear d) (getMonth d) (getDate d) in
  setDate x (getDate x - (getDay x + 6) mod 7).

Definition rangeFor (p : Preset) (now : Z) : option Z * option Z :=
  let day0 := newDate (getFullYear now) (getMonth now) (getDate now) in
  match p with
  | Today => (Some day0, None)
  | Yesterday => (Some (setDate day0 (getDate day0 - 1)), Some day0)
  | Week => (Some (startOfWeekMonday now), None)
  | Month => (Some (newDate (getFullYear now) (getMonth now) 1), None)
  | LastMonth => (Some (newDate (getFullYear now) (getMonth now - 1) 1), Some (newDate (getFullYear now) (getMonth now) 1))
  | AllTime => (None, None)
  end.

(** The caption; [fmtDay] is the browser's date format. *)
Definition rangeText (fmtDay : Z -> jstr) (p : Preset) (now : Z) : jstr :=
  match rangeFor p now with
  | (None, _) => js "全部时间"
  | (Some from, Some to) => fmtDay from ++ js " 至 " ++ fmtDay to
  | (Some from, None) => fmtDay from ++ js " 至今"
  end.

(** ** The admin overview *)

Definition RANGE_OPTIONS : list jstr := map js ["today"; "yesterday"; "week"; "month"; "last_month"].

Definition startOfDayUTC (d : Z) : jstr := toISOString (setMidnight d).

Definition rangeToFromTo (range : jstr) (now : Z) : option jstr * option jstr :=
  if streq range (js "yesterday") then
    let yesterday := setDate now (getDate now - 1) in
    (Some (startOfDayUTC yesterday), Some (startOfDayUTC now))
  else if streq range (js "week") then
    let dayIdx := (getDay now + 6) mod 7 in
    let monday := setDate now (getDate now - dayIdx) in
    (Some (startOfDayUTC monday), None)
  else if streq range (js "month") then
    (Some (toISOString (newDate (getFullYear now) (getMonth now) 1)), None)
  else if streq range (js "last_month") then
    (Some (toISOString (newDate (getFullYear now) (getMonth now - 1) 1)),
     Some (toISOString (newDate (getFullYear now) (getMonth now) 1)))
  else (Some (startOfDayUTC now), None).

(** The preset the page resolves from its address, and the query it sends. *)
Definition page_range (rawRange : option jstr) : jstr :=
  let r := default [] rawRange in if array_includes RANGE_OPTIONS r then r else js "today".

Definition overview_query (rawRange : option jstr) (now : Z) : list (jstr * jstr) :=
  let '(from, to) := rangeToFromTo (page_range rawRange) now in
  let add (k : string) v := match v with Some s => if str_empty s then [] else [(js k, s)] | None => [] end in
  add "from" from ++ add "to" to.

(** ** Date inputs *)

Section Inputs.
  Variable other : jstr -> option Z.

Definition rfc3339ToLocalDatetime (value : jstr) : jstr :=
  if str_empty value then []
  else match date_parse other value with
       | None => []
       | Some d =>
           zstr (getFullYear d) ++ js "-" ++ padStart 2 48 (zstr (getMonth d + 1)) ++ js "-" ++ padStart 2 48 (zstr (getDate d))
           ++ js "T" ++ padStart 2 48 (zstr (getHours d)) ++ js ":" ++ padStart 2 48 (zstr (getMinutes d))
       end.

Definition localDatetimeToRfc3339 (value : jstr) : jstr :=
  if str_empty value then []
  else match date_parse other value with None => [] | Some d => toISOString d end.

(** [intl]: the browser's rendering in a locale. *)
Definition formatDateTime (intl : jstr -> Z -> jstr) (value locale : jstr) : jstr :=
  if str_empty value then js "—"
  else match date_parse other value with None => js "—" | Some d => intl locale d end.

End Inputs.

(** ** Lemmas *)

Lemma month_first y m : 0 <= m < 12 -> makeDay y (m + 1) 1 = makeDay y m 1 + (monthStart (isLeap y) (m + 1) - monthStart (isLeap y) m).
Proof.
  intros M. unfold makeDay at 2. rewrite Z.div_small, Z.mod_small, Z.add_0_r by done.
  destruct (Z.eq_dec m 11) as [->|N].
  - unfold makeDay. change ((11 + 1) / 12) with 1. change ((11 + 1) mod 12) with 0. pose proof (year_length y).
    destruct (isLeap y); simpl monthStart; lia.
  - unfold makeDay. rewrite Z.div_small, Z.mod_small, Z.add_0_r by lia. lia.
Qed.

(** The days of a month are those between its first and the next month's. *)
Lemma month_interval y m x : 0 <= m < 12 ->
  makeDay y m 1 <= x < makeDay y (m + 1) 1 <-> yearFromDay x = y /\ monthFromDay x = m.
Proof.
  intros M. rewrite month_first by done. split.
  - intros B. replace x with (makeDay y m (1 + (x - makeDay y m 1))) by (rewrite makeDay_add; lia).
    destruct (fields_makeDay y m (1 + (x - makeDay y m 1)) M) as (Y & Mo & _); [lia|done].
  - intros [<- <-]. pose proof (date_bounds x). pose proof (makeDay_fields x) as E.
    replace (dateFromDay x) with (1 + (dateFromDay x - 1)) in E by lia. rewrite makeDay_add in E. lia.
Qed.

Lemma previous_month y m : 0 <= m < 12 -> makeDay y (m - 1) 1 = makeDay (if m =? 0 then y - 1 else y) (if m =? 0 then 11 else m - 1) 1.
Proof.
  intros M. destruct (Z.eqb_spec m 0) as [->|N]; [|done]. rewrite (makeDay_shift y (0 - 1)). done.
Qed.

Lemma local_fields t : 0 <= getMonth t < 12.
Proof. unfold getMonth. apply monthFromDay_spec. Qed.

Lemma newDate_first t k : 100 <= getFullYear t -> newDate (getFullYear t) (getMonth t - k) 1 = midnight (makeDay (getFullYear t) (getMonth t - k) 1).
Proof. intros Y. unfold newDate, midnight. replace ((0 <=? getFullYear t) && (getFullYear t <=? 99)) with false by (symmetry; bool_to_prop; lia). done. Qed.

Lemma newDate_day0 t : 100 <= getFullYear t -> newDate (getFullYear t) (getMonth t) (getDate t) = midnight (dayOf (LocalTime t)).
Proof. intros Y. rewrite <- (Z.add_0_r (getDate t)), newDate_today by done. by rewrite Z.add_0_r. Qed.

Section Zone.
  (** Local midnights exist, and a local time skipped by a clock change is
      read as one of the same day. *)
  Hypothesis midnights : forall d, LocalTime (midnight d) = d * msPerDay.
  Hypothesis same_day : forall t, dayOf (LocalTime (UTC t)) = dayOf t.

Lemma midnight_shift d k : setDate (midnight d) (getDate (midnight d) + k) = midnight (d + k).
Proof.
  rewrite setDate_shift, midnights. destruct (dayOf_midnight d) as [-> ->]. by rewrite Z.add_0_r.
Qed.

Lemma midnight_of_shift t k : setMidnight (setDate t (getDate t + k)) = midnight (dayOf (LocalTime t) + k).
Proof.
  unfold setMidnight. rewrite setDate_shift, same_day. unfold midnight. f_equal. f_equal.
  apply dayOf_split. unfold timeInDay. apply Z.mod_pos_bound. done.
Qed.

Lemma getDay_midnight d : getDay (midnight d) = weekDay d.
Proof. unfold getDay. rewrite midnights. by destruct (dayOf_midnight d) as [-> _]. Qed.

Lemma monday_of d : let w := d - (weekDay d + 6) mod 7 in weekDay w = 1 /\ w <= d < w + 7.
Proof. unfold weekDay. zdiv. Qed.

Lemma startOfWeekMonday_midnight t : 100 <= getFullYear t ->
  startOfWeekMonday t = midnight (dayOf (LocalTime t) - (weekDay (dayOf (LocalTime t)) + 6) mod 7).
Proof.
  intros Y. unfold startOfWeekMonday. rewrite newDate_day0 by done. cbv zeta. rewrite getDay_midnight.
  rewrite <- Z.add_opp_r, midnight_shift. by rewrite Z.add_opp_r.
Qed.

End Zone.
End Ranges.

(** ** Presets *)

(** The name the admin UI gives a preset of the desktop UI. *)
Definition web_name (p : Preset) : option jstr :=
  match p with
  | Today => Some (js "today") | Yesterday => Some (js "yesterday") | Week => Some (js "week")
  | Month => Some (js "month") | LastMonth => Some (js "last_month") | AllTime => None
  end.

Definition iso_range (r : option Z * option Z) : option jstr * option jstr := (toISOString <$> r.1, toISOString <$> r.2).

(** Both front ends resolve every preset to the same bounds, although they
    compute them differently, in every time zone where local midnights exist
    and no skipped hour spans midnight. *)
Theorem presets_agree (tz : TimeZone) p name now :
  (forall d, LocalTime (midnight d) = d * msPerDay) -> (forall t, dayOf (LocalTime (UTC t)) = dayOf t) ->
  100 <= getFullYear now -> web_name p = Some name ->
  rangeToFromTo name now = iso_range (rangeFor p now).
Proof.
  intros Mi Sd Y E. destruct p; simpl in E; simplify_eq; unfold iso_range, rangeFor; simpl fst; simpl snd; try reflexivity.
  - rewrite newDate_day0 by done. reflexivity.
  - change (rangeToFromTo (js "yesterday") now) with (Some (startOfDayUTC (setDate now (getDate now - 1))), Some (startOfDayUTC now)).
    rewrite newDate_day0 by done. unfold startOfDayUTC. rewrite <- !Z.add_opp_r, midnight_of_shift, midnight_shift by done. reflexivity.
  - change (rangeToFromTo (js "week") now) with (Some (startOfDayUTC (setDate now (getDate now - (getDay now + 6) mod 7))), @None jstr).
    rewrite startOfWeekMonday_midnight by done. unfold startOfDayUTC. rewrite <- Z.add_opp_r, midnight_of_shift by done. reflexivity.
Qed.

(** The desktop presets denote the days they name: yesterday is the local
    day before today, the week starts on the Monday of the last seven days,
    the month and the last month are exactly the days of their calendar
    months, and consecutive ranges share their bound. *)
Theorem presets_correct (tz : TimeZone) now :
  (forall d, LocalTime (midnight d) = d * msPerDay) -> 100 <= getFullYear now ->
  let d := dayOf (LocalTime now) in
  rangeFor Today now = (Some (midnight d), None) /\
  rangeFor Yesterday now = (Some (midnight (d - 1)), Some (midnight d)) /\
  (exists w, rangeFor Week now = (Some (midnight w), None) /\ weekDay w = 1 /\ w <= d < w + 7) /\
  exists first last_first, rangeFor Month now = (Some (midnight first), None) /\
    rangeFor LastMonth now = (Some (midnight last_first), Some (midnight first)) /\
    first <= d /\ dateFromDay first = 1 /\
    (forall x, x <= d -> first <= x <-> yearFromDay x = getFullYear now /\ monthFromDay x = getMonth now) /\
    forall x, last_first <= x < first <->
      yearFromDay x * 12 + monthFromDay x = getFullYear now * 12 + getMonth now - 1.
Proof.
  intros Mi Y d. unfold rangeFor. rewrite newDate_day0 by done. fold d. split_and!.
  - done.
  - by rewrite <- Z.add_opp_r, midnight_shift.
  - exists (d - (weekDay d + 6) mod 7). split; [by rewrite startOfWeekMonday_midnight|apply monday_of].
  - pose proof (newDate_first now 0 Y) as F0. pose proof (newDate_first now 1 Y) as F1. rewrite Z.sub_0_r in F0.
    rewrite F0, F1. pose proof (local_fields now) as M.
    exists (makeDay (getFullYear now) (getMonth now) 1), (makeDay (getFullYear now) (getMonth now - 1) 1).
    pose proof (fun x => month_interval (getFullYear now) (getMonth now) x M) as I.
    assert (L : makeDay (getFullYear now) (getMonth now) 1 <= d < makeDay (getFullYear now) (getMonth now + 1) 1) by (by apply I).
    split_and!; [done|done|lia| | |].
    + pose proof (monthStart_step (isLeap (getFullYear now)) (getMonth now) M). apply fields_makeDay; lia.
    + intros x Hx. rewrite <- I. lia.
    + intros x. rewrite previous_month by done.
      pose proof (month_interval (if getMonth now =? 0 then getFullYear now - 1 else getFullYear now)
                    (if getMonth now =? 0 then 11 else getMonth now - 1) x) as J.
      pose proof (proj1 (monthFromDay_spec x)).
      assert (N : makeDay (if getMonth now =? 0 then getFullYear now - 1 else getFullYear now) ((if getMonth now =? 0 then 11 else getMonth now - 1) + 1) 1
                  = makeDay (getFullYear now) (getMonth now) 1).
      { destruct (Z.eqb_spec (getMonth now) 0) as [E|E]; [|f_equal; lia]. rewrite E, (makeDay_shift _ (11 + 1)).
        change ((11 + 1) / 12) with 1. change ((11 + 1) mod 12) with 0. by rewrite Z.sub_add. }
      rewrite N in J. rewrite J by (destruct (Z.eqb_spec (getMonth now) 0); lia).
      destruct (Z.eqb_spec (getMonth now) 0); split; lia.
Qed.

(** Where the clocks skip midnight, the desktop presets lose an hour: they
    move a date that already stands at one o'clock, so yesterday and the week
    start at 01:00, while the admin UI's start at midnight. *)
Theorem desktop_presets_skip_hour :
  let d := makeDay 2024 3 26 in let tz := midnight_gap d in let now := d * msPerDay + 43200000 in
  rangeFor Yesterday now = (Some (midnight (d - 1) + 3600000), Some (midnight d)) /\
  rangeToFromTo (js "yesterday") now = (Some (toISOString (midnight (d - 1))), Some (toISOString (midnight d))) /\
  rangeFor Week now = (Some (midnight (d - 4) + 3600000), None) /\
  rangeToFromTo (js "week") now = (Some (toISOString (midnight (d - 4))), None).
Proof. vm_compute. done. Qed.

(** ** Date inputs *)

Lemma zstr_pad n k : 0 <= k -> padStart n 48 (zstr k) = pad n k.
Proof. intros K. unfold zstr, pad. by rewrite (proj2 (Z.ltb_ge k 0)). Qed.

(** A date typed into a filter survives the address bar: converted to UTC
    for the query and back for the input it is the same text, for every
    four-digit year and every local time the zone's clocks do not skip. *)
Theorem datetime_roundtrip (tz : TimeZone) other d h mi :
  1000 <= yearFromDay d <= 9999 -> 0 <= h < 24 -> 0 <= mi < 60 ->
  let t := d * msPerDay + h * 3600000 + mi * 60000 in
  LocalTime (UTC t) = t -> 0 <= yearFromDay (dayOf (UTC t)) <= 9999 ->
  let v := civil_string (digits (yearFromDay d)) d h mi in
  rfc3339ToLocalDatetime other (localDatetimeToRfc3339 other v) = v.
Proof.
  intros Y Hh Hmi t L U v. assert (P : date_parse other v = Some (UTC t)).
  { unfold date_parse, v. rewrite <- (pad_exact 4) by (simpl; lia). rewrite <- (app_nil_r (civil_string _ _ _ _)).
    rewrite (parse_civil d h mi 0 [] []) by (done || lia). cbn. f_equal. unfold t. f_equal. lia. }
  assert (V : str_empty v = false) by (unfold v, civil_string; destruct (digits (yearFromDay d)) eqn:E; [by apply digits_nonempty in E|done]).
  unfold localDatetimeToRfc3339. rewrite V, P. unfold rfc3339ToLocalDatetime, date_parse. rewrite parse_toISOString by done.
  assert (str_empty (toISOString (UTC t)) = false) as ->.
  { unfold toISOString. replace (_ && _) with true by (symmetry; bool_to_prop; lia).
    pose proof (pad_length 4 (yearFromDay (dayOf (UTC t)))) as B. destruct (pad 4 _); [simpl in B; lia|done]. }
  destruct (dayOf_split d (h * 3600000 + mi * 60000)) as [D T]; [unfold msPerDay; lia|]. rewrite Z.add_assoc in D, T. fold t in D, T.
  unfold getFullYear, getMonth, getDate, getHours, getMinutes. rewrite L, D, T.
  destruct (monthFromDay_spec d) as [M _]. pose proof (date_bounds d). rewrite !zstr_pad by zdiv.
  unfold v, civil_string. unfold zstr. rewrite (proj2 (Z.ltb_ge _ 0)) by lia.
  replace ((h * 3600000 + mi * 60000) / 3600000) with h by zdiv. by replace ((h * 3600000 + mi * 60000) / 60000 mod 60) with mi by zdiv.
Qed.

(** ** Witnesses *)

(** Beijing time. *)
Definition beijing : TimeZone := fixed_zone 28800000.

Lemma beijing_midnights d : @LocalTime beijing (@midnight beijing d) = d * msPerDay.
Proof. unfold midnight, beijing, fixed_zone. simpl. lia. Qed.

Lemma beijing_days t : dayOf (@LocalTime beijing (@UTC beijing t)) = dayOf t.
Proof. unfold beijing, fixed_zone. simpl. by rewrite Z.sub_add. Qed.

Lemma presets_agree_witness :
  @rangeToFromTo beijing (js "last_month") 1704081600000 = (Some (js "2023-11-30T16:00:00.000Z"), Some (js "2023-12-31T16:00:00.000Z")).
Proof.
  rewrite (presets_agree beijing LastMonth); [by vm_compute|apply beijing_midnights|apply beijing_days|by vm_compute|done].
Defined.

Lemma presets_correct_witness :
  @rangeFor beijing Yesterday 1704081600000 = (Some (@midnight beijing 19722), Some (@midnight beijing 19723)).
Proof. exact (proj1 (proj2 (presets_correct beijing 1704081600000 beijing_midnights ltac:(by vm_compute)))). Defined.

Lemma datetime_roundtrip_witness :
  @rfc3339ToLocalDatetime beijing (fun _ => None) (@localDatetimeToRfc3339 beijing (fun _ => None) (js "2024-02-29T07:05")) = js "2024-02-29T07:05".
Proof.
  refine (datetime_roundtrip beijing (fun _ => None) (makeDay 2024 1 29) 7 5 _ _ _ _ _); by vm_compute.
Defined.
