(* ===== verification/Overview.v ===== *)
(** * The desktop overview

    [desktop-ui/src/pages/Overview.tsx]: usage bars, percentages, the cost
    estimate and the setup card.  Its time ranges are in [DateRanges]. *)

From S2P Require Import Prelude JsNumber Money JsString Json DesktopApi Format ConfigForms ListPages.

(** ** Data *)

Record AgentUsage : Type := {
  agent_type : jstr; request_count : num; prompt_tokens : num; completion_tokens : num; duration_ms : num; ttft_ms : num;
  error_count : num;
}.

Record DimensionUsage : Type := {
  key : jstr; d_request_count : num; d_prompt_tokens : num; d_completion_tokens : num; d_error_count : num;
}.

Record ErrorUsage : Type := { error_type : jstr; count : num }.

(** ** Bars and percentages *)

(** [Math.round((value / max) * 100)] *)
Definition percent (value max : num) : num := nround (nmul (ndiv value max) (int 100)).

(** The width of a bar, in percent. *)
Definition bar_width (value max : num) : num := if nlt (int 0) max then nmax (int 2) (percent value max) else int 0.

(** [Math.max(1, ...values)] *)
Definition max_of (values : list num) : num := foldl nmax (int 1) values.

Definition error_row (err : ErrorUsage) (total : num) : num :=
  if nlt (int 0) total then percent (count err) total else int 0.

(** The average of an agent's card. *)
Definition average (sum n : num) : num := if num_truthy n then ndiv sum n else int 0.

(** ** Cost estimate *)

Definition MICRO_PER_UNIT : num := int 1000000.

Definition token_cost (tokens price : num) : num := nround (nmul (ndiv tokens MICRO_PER_UNIT) price).

Definition estimateModelCostMicro (model : option ModelForm.Model) (promptTokens completionTokens : num) : num :=
  match model with
  | None => int 0
  | Some m =>
      match ModelForm.upstreams m with
      | [] => int 0
      | u :: _ =>
          match ModelForm.pricing u with
          | None => int 0
          | Some p => nadd (token_cost promptTokens (ModelForm.prompt_per_1m p)) (token_cost completionTokens (ModelForm.completion_per_1m p))
          end
      end
  end.

(** [modelConfigs.find((c) => c.alias === m.key)] *)
Definition config_of (configs : list ModelForm.Model) (m : DimensionUsage) : option ModelForm.Model :=
  List.find (fun c => streq (ModelForm.alias c) (key m)) configs.

Definition model_cost (configs : list ModelForm.Model) (m : DimensionUsage) : num :=
  estimateModelCostMicro (config_of configs m) (d_prompt_tokens m) (d_completion_tokens m).

Definition totalCostMicro (configs : list ModelForm.Model) (models : list DimensionUsage) : num :=
  foldl (fun sum m => nadd sum (model_cost configs m)) (int 0) models.

(** The currency of the first upstream of the first model. *)
Definition costCurrency (configs : list ModelForm.Model) : jstr :=
  default [] (m ← head configs; u ← head (ModelForm.upstreams m); p ← ModelForm.pricing u; Some (ModelForm.currency p)).

(** The cost shown beside a model. *)
Definition suffix (configs : list ModelForm.Model) (m : DimensionUsage) : option jstr :=
  let cost := model_cost configs m in
  if nlt (int 0) cost then Some (js "≈ " ++ costCurrency configs ++ js " " ++ Money.Desktop.microToDisplay cost) else None.

(** ** Setup card *)

Record setup : Type := { s_providers : list ProviderForm.Provider; s_models : nat; s_routes : nat }.

Record setup_step : Type := { s_label : jstr; s_done : bool; s_to : jstr }.

Definition setupSteps (st : option setup) : option (list setup_step) :=
  (fun s =>
     [{| s_label := js "添加供应商";
         s_done := existsb (fun p => (0 <? length (ProviderForm.p_endpoints p))%nat && negb (str_empty (ProviderForm.p_api_key_ref p))
                                      && negb (streq (ProviderForm.p_api_key_ref p) (js "plain://"))) (s_providers s);
         s_to := js "/providers" |};
      {| s_label := js "创建模型"; s_done := (0 <? s_models s)%nat; s_to := js "/models" |};
      {| s_label := js "配置路由"; s_done := (0 <? s_routes s)%nat; s_to := js "/routes" |}]) <$> st.

Definition setupComplete (st : option setup) : bool :=
  match setupSteps st with Some l => forallb s_done l | None => false end.

(** The steps of the card, when it is shown. *)
Definition setupCard (st : option setup) : option (list setup_step) :=
  match st with Some _ => if negb (setupComplete st) then setupSteps st else None | None => None end.

Record card : Type := { c_count : jstr; c_hint : jstr; c_goto : jstr; c_test_active : bool }.

Definition SetupCard (steps : list setup_step) : card :=
  let nextStep := List.find (fun s => negb (s_done s)) steps in
  let doneCount := length (List.filter s_done steps) in
  {| c_count := zstr (Z.of_nat doneCount) ++ js "/" ++ zstr (Z.of_nat (length steps + 1));
     c_hint := match nextStep with
               | Some s => js "下一步：" ++ s_label s
               | None => js "配置就绪，发一个测试请求验证链路。"
               end;
     c_goto := match nextStep with Some s => s_to s | None => js "/playground" end;
     c_test_active := forallb s_done steps |}.

(** ** Theorems *)

Lemma percent_spec a b : 0 <= a <= b -> 0 < b <= 2 ^ 53 ->
  exists r, percent (int a) (int b) = int r /\ 0 <= r <= 100 /\ Z.abs (r * b - a * 100) < b.
Proof.
  intros Ha Hb. destruct (nround_scaled a b 100 0) as (r & E & A & P & B); [lia|lia|lia|lia|lia|].
  exists r. split_and!; [exact E|done|specialize (B 1); lia|done].
Qed.

Lemma max_of_int counts m : foldl nmax (int m) (map int counts) = int (foldl Z.max m counts).
Proof. revert m. induction counts as [|c counts IH]; intros m; [done|]. cbn [map foldl]. by rewrite nmax_int. Qed.

Lemma foldl_max counts m : m <= foldl Z.max m counts /\ (forall a, a ∈ counts -> a <= foldl Z.max m counts) /\
  forall u, m <= u -> Forall (fun n => n <= u) counts -> foldl Z.max m counts <= u.
Proof.
  revert m. induction counts as [|c counts IH]; intros m; simpl; [split_and!; [done|set_solver|done]|].
  destruct (IH (Z.max m c)) as (I1 & I2 & I3). split_and!; [lia| |].
  - intros a [->|Ha]%elem_of_cons; [lia|by apply I2].
  - intros u Hm [Hc F]%Forall_cons. apply I3; [lia|done].
Qed.

(** Usage bars and percentages stay in range despite floating-point
    division: a count up to 2^53 against the largest of its list gets a bar of
    2 to 100 percent, the largest positive one exactly 100; an error's share
    and an endpoint's success rate lie in 0..100, less than one percent off
    the exact ratio. *)
Theorem percentages_in_range (counts : list Z) (a total : Z) h :
  Forall (fun n => 0 <= n <= 2 ^ 53) counts -> a ∈ counts -> 0 < total <= 2 ^ 53 -> 0 <= a <= total ->
  (exists w, bar_width (int a) (max_of (map int counts)) = int w /\ 2 <= w <= 100 /\
     (Forall (fun n => n <= a) counts -> 0 < a -> w = 100)) /\
  exists r, error_row {| error_type := []; count := int a |} (int total) = int r /\ 0 <= r <= 100 /\ Z.abs (r * total - a * 100) < total /\
    Health.b_rate (Health.HealthBadge h {| Health.provider := []; Health.endpoint := []; Health.breaker_state := [];
      Health.attempted := int total; Health.selected := int a; Health.avg_duration_ms := int 0; Health.last_seen := None |}) = Some (int r).
Proof.
  intros F I Ht Ha. split.
  - unfold max_of. rewrite max_of_int. destruct (foldl_max counts 1) as (M1 & M2 & M3). set (mx := foldl Z.max 1 counts) in *.
    assert (mx <= 2 ^ 53) by (apply M3; [done|]; eapply Forall_impl; [exact F|]; simpl; lia).
    destruct (percent_spec a mx) as (r & E & B & A); [specialize (M2 a I); lia|lia|].
    unfold bar_width. rewrite nlt_int, (proj2 (Z.ltb_lt 0 mx)), E, nmax_int by lia. eexists. split_and!; [reflexivity|lia|lia|].
    intros L P. assert (mx = a) as X by (specialize (M2 a I); specialize (M3 a ltac:(lia) L); lia). rewrite X in A. nia.
  - destruct (percent_spec a total Ha Ht) as (r & E & B & A). exists r. unfold error_row, Health.HealthBadge.
    cbn [Health.b_rate Health.attempted Health.selected count]. rewrite nlt_int, (proj2 (Z.ltb_lt 0 total)) by lia. split_and!; [exact E|lia|lia|done|exact (f_equal Some E)].
Qed.

Lemma percentages_in_range_witness :
  exists w, bar_width (int 7) (max_of (map int [3; 7; 1])) = int w /\ 2 <= w <= 100 /\ (Forall (fun n => n <= 7) [3; 7; 1] -> 0 < 7 -> w = 100).
Proof.
  refine (proj1 (percentages_in_range [3; 7; 1] 7 9 (fun x => x) _ _ _ _)); [repeat (constructor; [lia|]); constructor| |lia|lia].
  right. left.
Defined.

(** The cost estimated for a model is less than two micro-units off the
    exact price of its tokens under its first upstream, for up to 10^12 tokens
    of each kind and prices up to 2^31 micro-units per million, although both
    products are computed in floating point and rounded. *)
Theorem cost_estimate_close m u us p pt ct pp cp :
  ModelForm.upstreams m = u :: us -> ModelForm.pricing u = Some p ->
  ModelForm.prompt_per_1m p = int pp -> ModelForm.completion_per_1m p = int cp ->
  0 <= pt <= 10 ^ 12 -> 0 <= ct <= 10 ^ 12 -> 0 <= pp <= 2 ^ 31 -> 0 <= cp <= 2 ^ 31 ->
  exists c, estimateModelCostMicro (Some m) (int pt) (int ct) = int c /\ 0 <= c /\
    Z.abs (c * 1000000 - (pt * pp + ct * cp)) < 2000000.
Proof.
  intros Hu Hp Hpp Hcp Bpt Bct Bpp Bcp. unfold estimateModelCostMicro. rewrite Hu, Hp, Hpp, Hcp.
  destruct (nround_scaled pt 1000000 pp 19) as (r1 & E1 & A1 & P1 & _); [lia..|].
  destruct (nround_scaled ct 1000000 cp 19) as (r2 & E2 & A2 & P2 & _); [lia..|].
  change (token_cost (int pt) (int pp)) with (nround (nmul (ndiv (int pt) (int 1000000)) (int pp))).
  change (token_cost (int ct) (int cp)) with (nround (nmul (ndiv (int ct) (int 1000000)) (int cp))). rewrite E1, E2.
  exists (r1 + r2). split_and!; [|lia|lia]. apply nadd_int.
  assert (pt * pp <= 10 ^ 12 * 2 ^ 31) by nia. assert (ct * cp <= 10 ^ 12 * 2 ^ 31) by nia. lia.
Qed.

Lemma cost_estimate_close_witness : exists c,
  estimateModelCostMicro (Some ModelForm.glm) (int 1234567) (int 890) = int c /\ 0 <= c /\
  Z.abs (c * 1000000 - (1234567 * 504999 + 890 * 2000000)) < 2000000.
Proof. eapply cost_estimate_close; (reflexivity || lia). Defined.

Lemma first_gap l : forallb s_done l = false -> exists before s after,
  l = before ++ s :: after /\ s_done s = false /\ forallb s_done before = true /\ c_goto (SetupCard l) = s_to s.
Proof.
  induction l as [|x l IH]; simpl; [done|]. intros C. destruct (s_done x) eqn:D; simpl in C.
  - destruct (IH C) as (b & y & a & -> & Dy & Fb & G). exists (x :: b), y, a. unfold SetupCard in *. simpl in *. rewrite D. done.
  - exists [], x, l. unfold SetupCard. simpl. by rewrite D.
Qed.

(** The setup card is shown exactly while the configuration was loaded and
    some of its three steps is open, and it then points at the first open
    step; so its closing state, with every step done and the connectivity test
    offered, is never shown. *)
Theorem setup_card_points_to_gap st :
  (setupCard st = None <-> st = None \/ setupComplete st = true) /\
  forall steps, setupCard st = Some steps ->
    setupSteps st = Some steps /\ c_test_active (SetupCard steps) = false /\
    exists before s after, steps = before ++ s :: after /\ s_done s = false /\ forallb s_done before = true /\
      c_goto (SetupCard steps) = s_to s.
Proof.
  unfold setupCard, setupComplete. destruct st as [s|]; [|by split; [split; [by left|]|]].
  destruct (setupSteps (Some s)) as [l|] eqn:L; [|done]. split.
  - destruct (forallb s_done l); simpl; split; [by right|done|done|by intros []].
  - intros steps E. destruct (forallb s_done l) eqn:C; simpl in E; simplify_eq. split_and!; [done|exact C|by apply first_gap].
Qed.

(** Two models priced in yuan and dollars: the second one's cost is labelled
    in yuan. *)
Example mixed_currencies :
  let usd := {| ModelForm.prompt_per_1m := int 2000000; ModelForm.completion_per_1m := int 0; ModelForm.currency := js "USD";
                ModelForm.cache_hit_multiplier := None |} in
  let gpt := {| ModelForm.alias := js "gpt"; ModelForm.description := None; ModelForm.context_length := None;
                ModelForm.capabilities := None; ModelForm.tags := None;
                ModelForm.upstreams := [{| ModelForm.provider := js "openai"; ModelForm.upstream_model := js "gpt";
                                           ModelForm.default_max_tokens := None; ModelForm.pricing := Some usd |}] |} in
  suffix [ModelForm.glm; gpt] {| key := js "gpt"; d_request_count := int 1; d_prompt_tokens := int 1000000;
                                 d_completion_tokens := int 0; d_error_count := int 0 |} = Some (js "≈ CNY 2.00").
Proof. vm_compute. reflexivity. Qed.
