(* ===== verification/SettingsPages.v ===== *)
(** * Settings, prompt dialog and playground of the desktop UI

    [desktop-ui/src/pages/Settings.tsx] with its cleanup and API-key cards,
    [desktop-ui/src/components/prompts/prompt-form-modal.tsx] and
    [desktop-ui/src/pages/Playground.tsx]. *)

From S2P Require Import Prelude JsNumber Money JsString Json DesktopApi ConfigForms ListPages Calendar.

(** ** [parseInt] *)

(** [parseInt(s)]: white space, a sign, and the longest run of decimal digits
    (hexadecimal after [0x]); [NaN] without digits. *)
Definition parseInt (s : jstr) : num :=
  let '(neg, r) := sign_prefix (trimStart s) in
  let ds := (span is_digit r).1 in
  let decimal := if str_empty ds then NaN else signed neg (rnd (dval ds) 1) in
  match r with
  | c :: x :: h =>
      if (c =? 48) && ((x =? 120) || (x =? 88))
      then match radix_literal 16 (span (fun c => match radix_digit 16 c with Some _ => true | None => false end) h).1 with
           | Some n => signed neg n
           | None => NaN
           end
      else decimal
  | _ => decimal
  end.

(** ** Settings *)

Module Settings.

(** The reply of [getSettings]. *)
Record SettingsView : Type := {
  v_addr : jstr; v_session_headers : option (list jstr); v_capture : bool; v_max_body_kb : num; v_retention_days : num;
}.

Record form : Type := { addr : jstr; sessionHeaders : jstr; capture : jstr; maxBodyKB : jstr; retentionDays : jstr }.

Definition first_form : form :=
  {| addr := []; sessionHeaders := []; capture := js "on"; maxBodyKB := js "256"; retentionDays := js "30" |}.

(** The handler of the reply. *)
Definition loaded (s : SettingsView) : form :=
  {| addr := v_addr s; sessionHeaders := join (js ", ") (default [] (v_session_headers s));
     capture := if v_capture s then js "on" else js "off";
     maxBodyKB := num_to_string (v_max_body_kb s); retentionDays := num_to_string (v_retention_days s) |}.

Definition valid (f : form) : bool :=
  let maxBodyN := str_to_num (maxBodyKB f) in
  let retentionN := str_to_num (retentionDays f) in
  negb (str_empty (trim (addr f))) && is_integer maxBodyN && nle (int 0) maxBodyN && is_integer retentionN && nle (int 0) retentionN.

Definition settings_json (a : jstr) (headers : list jstr) (capture : bool) (maxBody retention : num) : json :=
  JObj [(js "gateway", JObj [(js "addr", JStr a); (js "session_headers", JArr (map JStr headers))]);
        (js "trace", JObj [(js "capture_payload_enabled", JBool capture); (js "max_body_kb", JNum maxBody);
                           (js "retention_days", JNum retention)])].

Section Page.
  Context {Net : Type} `{Fetch Net}.

(** [onSave], when no save is pending. *)
Definition onSave (f : form) : D Net unit :=
  if negb (valid f) then mret tt
  else d_try
    (res ← updateSettings (settings_json (trim (addr f)) (parse_list (sessionHeaders f)) (streq (capture f) (js "on"))
                             (str_to_num (maxBodyKB f)) (str_to_num (retentionDays f)));
     _ ← emit (ToastSuccess (js "设置已保存。"));
     w ← d_lift (prop res "warning");
     if truthy w then emit (ToastWarning (to_string (nullish w JNull))) else mret tt)
    toast_error.

(** The days the cleanup card is given: [parseInt(retentionDays) || 30]. *)
Definition cleanup_days (f : form) : num :=
  let n := parseInt (retentionDays f) in if num_truthy n then n else int 30.

(** [new Date(t).toISOString()]: a RangeError outside the time values. *)
Definition iso_of (t : num) : result jstr :=
  match t with
  | Fin m 0 => if Z.abs m <=? 8640000000000000 then Ret (toISOString m) else Throw (err_range (js "Invalid time value"))
  | _ => Throw (err_range (js "Invalid time value"))
  end.

Definition purge (now : Z) (days : num) : D Net json :=
  before ← d_lift (iso_of (nsub (int now) (nmul days (int 86400000)))); purgeObservation (Some before).

Definition onPurge (now : Z) (retentionDays : num) : D Net unit :=
  d_try (res ← purge now retentionDays;
         n ← d_lift (prop res "deleted");
         emit (ToastSuccess (js "已清理 " ++ Sessions.template n ++ js " 条过期观测记录（" ++ num_to_string retentionDays ++ js " 天前）。")))
        toast_error.

Definition onClearAll : D Net unit :=
  d_try (res ← purgeObservation None;
         n ← d_lift (prop res "deleted");
         emit (ToastSuccess (js "已清空全部 " ++ Sessions.template n ++ js " 条观测记录。")))
        toast_error.

End Page.

(** A settings value as the gateway stores it. *)
Record stored (s : SettingsView) : Prop := {
  st_addr : ProviderForm.tidy (v_addr s);
  st_headers : Forall (fun x => ProviderForm.tidy x /\ 44 ∉ x) (default [] (v_session_headers s));
  st_body : exists n, v_max_body_kb s = int n /\ 0 <= n <= 2 ^ 53;
  st_retention : exists n, v_retention_days s = int n /\ 0 <= n <= 2 ^ 53;
}.

(** Loading the settings and saving them unchanged sends one PUT with the
    values loaded: address, session headers in order, capture switch and both
    numbers. *)
Theorem settings_roundtrip {Net} `{Fetch Net} s n :
  stored s ->
  issued (onSave (loaded s)) n =
    [{| rq_method := js "PUT"; rq_target := BASE ++ js "/settings"; rq_params := [];
        rq_body := Some (stringify (settings_json (v_addr s) (default [] (v_session_headers s)) (v_capture s)
                                      (v_max_body_kb s) (v_retention_days s))) |}].
Proof.
  intros [[A1 A2] Hh (b & Eb & Bb) (r & Er & Br)].
  assert (V : valid (loaded s) = true).
  { unfold valid, loaded. cbn [addr maxBodyKB retentionDays]. rewrite A1, Eb, Er, !str_to_num_int, !nle_int by lia.
    destruct (v_addr s); [done|]. cbn. rewrite !(proj2 (Z.leb_le 0 _)) by lia. done. }
  unfold onSave. rewrite V. cbn [negb]. unfold loaded. cbn [addr sessionHeaders capture maxBodyKB retentionDays].
  rewrite A1, parse_list_join by done. rewrite Eb, Er, !str_to_num_int by lia.
  assert (streq (if v_capture s then js "on" else js "off") (js "on") = v_capture s) as -> by (by destruct (v_capture s)).
  set (call := updateSettings _). transitivity (issued call n); [|exact (issued_send _ _ _ n)].
  unfold issued, d_try, mbind, D_bind. destruct (call (n, [])) as [[res|e] [n' log]]; [|by cbn; rewrite requests_app, app_nil_r].
  unfold d_lift, emit. destruct (prop res "warning") as [w|e]; cbn; [destruct (truthy w)|]; cbn; rewrite !requests_app; cbn; by rewrite !app_nil_r.
Qed.

(** A report by toast adds no request. *)
Lemma issued_reported {Net A} (m : D Net A) (k : A -> D Net unit) n :
  (forall a n' log, requests (k a (n', log)).2.2 = requests log) ->
  issued (d_try (a ← m; k a) toast_error) n = issued m n.
Proof.
  intros K. unfold issued, d_try, mbind, D_bind. destruct (m (n, [])) as [[a|e] [n' log]].
  - specialize (K a n' log). destruct (k a (n', log)) as [[u|e] [n'' log']]; simpl in *; [done|].
    by rewrite requests_app, app_nil_r.
  - simpl. by rewrite requests_app, app_nil_r.
Qed.

Lemma deleted_report {Net} (text : unknown -> jstr) (res : json) (n' : Net) log :
  requests ((x ← d_lift (prop res "deleted"); emit (ToastSuccess (text x))) (n', log)).2.2 = requests log.
Proof. unfold mbind, D_bind, d_lift. destruct (prop res "deleted"); simpl; [|done]. by rewrite requests_app, app_nil_r. Qed.

(** The cleanup button asks to delete what is older than [days] days. *)
Lemma issued_purge {Net} `{Fetch Net} now days n :
  0 <= now <= 4 * 10 ^ 15 -> Z.abs days <= 10 ^ 7 ->
  issued (onPurge now (int days)) n =
    [{| rq_method := js "POST"; rq_target := BASE ++ js "/observation/purge"; rq_params := [];
        rq_body := Some (stringify (JObj [(js "before", JStr (toISOString (now - days * 86400000)))])) |}].
Proof.
  intros Hn Hd. unfold onPurge. rewrite issued_reported by (intros; apply deleted_report).
  unfold purge. rewrite nmul_int, nsub_int by lia. unfold iso_of, int. rewrite (proj2 (Z.leb_le _ _)) by lia.
  unfold issued, mbind at 1, D_bind, d_lift. unfold purgeObservation.
  assert (str_empty (toISOString (now - days * 86400000)) = false) as ->.
  { unfold toISOString. repeat case_match; try done. by destruct (pad 4 _). }
  exact (issued_send _ _ _ n).
Qed.

Lemma parseInt_digits n : 0 <= n <= 2 ^ 53 -> parseInt (digits n) = int n.
Proof.
  intros Hn. destruct (digits_spec n) as [V D]; [lia|]. pose proof (digits_nonempty n) as N.
  assert (T : trimStart (digits n) = digits n) by (apply trimStart_id; destruct D; [done|by apply digit_not_space]).
  assert (P : sign_prefix (digits n) = (false, digits n)).
  { destruct D as [|c l Hc Hl]; [done|]. unfold is_digit in Hc. bool_to_prop. simpl. repeat (case_match; bool_to_prop; try lia); done. }
  assert (S : span is_digit (digits n) = (digits n, [])) by (rewrite <- (app_nil_r (digits n)) at 1; by rewrite span_all).
  assert (R : signed false (rnd (dval (digits n)) 1) = int n) by (rewrite V, rnd_int by lia; done).
  unfold parseInt. rewrite T, P, S. cbn [fst]. rewrite R. destruct (digits n) as [|c l]; [done|]. cbn [str_empty]. destruct l as [|x l]; [done|].
  assert ((x =? 120) || (x =? 88) = false) as ->; [|by rewrite andb_false_r].
  apply Forall_cons in D as [_ D]. apply Forall_cons in D as [D _]. unfold is_digit in D. bool_to_prop. lia.
Qed.

(** The settings page reads its retention field twice: a plain positive
    number means the same days for saving and for the cleanup button, but an
    exponent is saved in full and cleaned up by its leading digit, and a
    negative number, which cannot be saved, is still sent by the cleanup
    button as a cut-off in the future, so that nothing is too recent. *)
Theorem cleanup_days_reading {Net} `{Fetch Net} f k now n :
  0 < k <= 10 ^ 7 -> retentionDays f = digits k -> 0 <= now <= 4 * 10 ^ 15 ->
  str_to_num (retentionDays f) = int k /\
  issued (onPurge now (cleanup_days f)) n =
    [{| rq_method := js "POST"; rq_target := BASE ++ js "/observation/purge"; rq_params := [];
        rq_body := Some (stringify (JObj [(js "before", JStr (toISOString (now - k * 86400000)))])) |}] /\
  let typed s := {| addr := js "127.0.0.1:8787"; sessionHeaders := []; capture := js "on"; maxBodyKB := js "256"; retentionDays := s |} in
  str_to_num (retentionDays (typed (js "1e3"))) = int 1000 /\ valid (typed (js "1e3")) = true /\ cleanup_days (typed (js "1e3")) = int 1 /\
  valid (typed (js "-5")) = false /\
  issued (onPurge now (cleanup_days (typed (js "-5")))) n =
    [{| rq_method := js "POST"; rq_target := BASE ++ js "/observation/purge"; rq_params := [];
        rq_body := Some (stringify (JObj [(js "before", JStr (toISOString (now + 5 * 86400000)))])) |}].
Proof.
  intros Hk E Hn. assert (C : cleanup_days f = int k).
  { unfold cleanup_days. rewrite E, parseInt_digits by lia. destruct k; [lia|done|lia]. }
  split; [|split; [|cbv zeta; split; [|split; [|split; [|split]]]]]; [| |vm_compute; reflexivity..|].
  - rewrite E, <- num_to_string_int by lia. apply str_to_num_int. lia.
  - rewrite C. apply issued_purge; lia.
  - change (cleanup_days _) with (int (-5)). rewrite issued_purge by lia. by replace (now - -5 * 86400000) with (now + 5 * 86400000) by lia.
Qed.

End Settings.

(** ** API key card *)

Module APIKey.

(** [undefined] and [null] members are [None]. *)
Record state : Type := { view : option json; confirmOpen : bool; rotatedKey : option json }.

Definition first_state : state := {| view := None; confirmOpen := false; rotatedKey := None |}.

(** [v ?? null] *)
Definition or_null (v : unknown) : option json := match v with None | Some JNull => None | Some x => Some x end.

Section Card.
  Context {Net : Type} `{Fetch Net}.

Definition onRotate (st : state) : D Net state := fun w =>
  match rotateAPIKey w with
  | (Ret res, w') =>
      let st1 := {| view := or_null (Some res); confirmOpen := confirmOpen st; rotatedKey := rotatedKey st |} in
      match prop res "key" with
      | Throw e => (_ ← toast_error e; mret st1) w'
      | Ret k =>
          let st2 := {| view := view st1; confirmOpen := confirmOpen st; rotatedKey := or_null k |} in
          (_ ← d_try (v ← d_lift (prop res "warning");
                      if truthy v then emit (ToastWarning (to_string (nullish v JNull))) else mret tt) toast_error;
           mret st2) w'
      end
  | (Throw e, w') => (_ ← toast_error e; mret st) w'
  end.

(** The confirmed rotation: the dialog closes first. *)
Definition confirmRotate (st : state) : D Net state :=
  onRotate {| view := view st; confirmOpen := false; rotatedKey := rotatedKey st |}.

(** The button of the dialog with the new key: [writes] is what the clipboard
    accepts.  It copies; closing is left to the dialog's own controls. *)
Definition copy (accepts : bool) (st : state) : D Net state :=
  _ ← emit (if accepts then ToastSuccess (js "已复制到剪贴板。") else ToastError (js "复制失败，请手动选择复制。"));
  mret st.
End Card.

(** The key the card shows, when its plaintext is known. *)
Definition shown_key (st : state) : option jstr :=
  match view st with
  | Some v => if truthy (opt_prop (Some v) "plaintext_known") && truthy (opt_prop (Some v) "key")
              then as_string (opt_prop (Some v) "key") else None
  | None => None
  end.

Lemma rotate_reply {Net} `{Fetch Net} n log : exists r n' q,
  rotateAPIKey (n, log) = (r, (n', log ++ [Requested q])) /\ rq_target q = BASE ++ js "/apikey/rotate".
Proof.
  destruct (sendJSON_log (js "POST") (js "/apikey/rotate") None n log) as (r & n' & E). by eexists r, n', _.
Qed.

(** Confirming a key rotation closes the question and sends one request; a
    refusal changes nothing on the card and shows an error, and a reply with a
    key puts exactly that key into the dialog and on the card.  Copying it
    leaves the dialog open, whatever the button says. *)
Theorem rotation_shows_key {Net} `{Fetch Net} st n log accepts :
  exists r n' q, rotateAPIKey (n, log) = (r, (n', log ++ [Requested q])) /\ rq_target q = BASE ++ js "/apikey/rotate" /\
  (exists st' toasts, confirmRotate st (n, log) = (Ret st', (n', log ++ Requested q :: toasts)) /\ requests toasts = [] /\
     confirmOpen st' = false /\
     match r with
     | Throw e => view st' = view st /\ rotatedKey st' = rotatedKey st /\ toasts = [ToastError (exn_message e)]
     | Ret (JObj l) => forall k, k <> [] -> lookup_prop (js "key") l = Some (JStr k) -> lookup_prop (js "plaintext_known") l = Some (JBool true) ->
         rotatedKey st' = Some (JStr k) /\ shown_key st' = Some k
     | Ret _ => rotatedKey st' = None \/ rotatedKey st' = rotatedKey st
     end) /\
  exists t, copy accepts st (n, log) = (Ret st, (n, log ++ [t])).
Proof.
  destruct (rotate_reply n log) as (r & n' & q & E & T). exists r, n', q. split_and!; [done|done| |by eexists].
  unfold confirmRotate, onRotate. rewrite E. unfold mbind, D_bind, d_try, d_lift, toast_error, emit. destruct r as [res|e].
  - destruct res as [|b|x|s|l|l]; simpl.
    1: { eexists _, [_]. rewrite <- app_assoc. split_and!; [reflexivity|done|done|by right]. }
    1-4: eexists _, []; split_and!; [reflexivity|done|done|by left].
    destruct (truthy (lookup_prop "warning" l)); simpl.
    + eexists _, [_]. rewrite <- app_assoc. split_and!; [reflexivity|done|done|].
      intros k K Ek Ep. simpl. unfold shown_key. simpl. rewrite Ek, Ep. destruct k; done.
    + eexists _, []. split_and!; [reflexivity|done|done|].
      intros k K Ek Ep. simpl. unfold shown_key. simpl. rewrite Ek, Ep. destruct k; done.
  - eexists _, [_]. simpl. rewrite <- app_assoc. split_and!; [reflexivity|done|done|done|done|done].
Qed.

End APIKey.

(** ** Prompt dialog *)

Module PromptForm.

Record PromptTemplate : Type := {
  id : num; title : jstr; content : jstr; tags : list jstr; session_id : option jstr; source_trace_row_id : option num; note : jstr;
}.

Record prefill : Type := { i_content : jstr; i_session_id : option jstr; i_row : option num }.

(** The properties the parent passes; objects carry their identity. *)
Record props : Type := { open : bool; editRow : option (nat * PromptTemplate); initial : option (nat * prefill) }.

Record fields : Type := { f_title : jstr; f_content : jstr; f_tags : jstr; f_note : jstr }.

Definition blank : fields := {| f_title := []; f_content := []; f_tags := []; f_note := [] |}.

(** What the effect sets the fields to. *)
Definition seed (p : props) : fields :=
  {| f_title := match editRow p with Some (_, r) => title r | None => [] end;
     f_content := match editRow p, initial p with
                  | Some (_, r), _ => content r
                  | None, Some (_, i) => i_content i
                  | None, None => []
                  end;
     f_tags := join (js ", ") (match editRow p with Some (_, r) => tags r | None => [] end);
     f_note := match editRow p with Some (_, r) => note r | None => [] end |}.

(** [[open, editRow, initial]], compared by identity. *)
Definition deps (p : props) : bool * option nat * option nat := (open p, fst <$> editRow p, fst <$> initial p).

Record state : Type := { current : props; ran : option (bool * option nat * option nat); typed : fields }.

Inductive edit : Type := SetTitle (s : jstr) | SetContent (s : jstr) | SetTags (s : jstr) | SetNote (s : jstr).

Definition apply_edit (f : fields) (e : edit) : fields :=
  match e with
  | SetTitle s => {| f_title := s; f_content := f_content f; f_tags := f_tags f; f_note := f_note f |}
  | SetContent s => {| f_title := f_title f; f_content := s; f_tags := f_tags f; f_note := f_note f |}
  | SetTags s => {| f_title := f_title f; f_content := f_content f; f_tags := s; f_note := f_note f |}
  | SetNote s => {| f_title := f_title f; f_content := f_content f; f_tags := f_tags f; f_note := s |}
  end.

Inductive event : Type := Typed (e : edit) | Rendered (p : props).

(** A render with new properties runs the effect when a dependency changed. *)
Definition step (st : state) (ev : event) : state :=
  match ev with
  | Typed e => {| current := current st; ran := ran st; typed := apply_edit (typed st) e |}
  | Rendered p =>
      {| current := p; ran := Some (deps p);
         typed := if bool_decide (ran st = Some (deps p)) then typed st else if open p then seed p else typed st |}
  end.

Definition run (st : state) (evs : list event) : state := foldl step st evs.

Definition opened (p : props) : state := step {| current := p; ran := None; typed := blank |} (Rendered p).

(** The properties the trace viewer passes on a render: [initial] is a new
    object each time. *)
Definition viewer_props (fresh : nat) (i : prefill) : props := {| open := true; editRow := None; initial := Some (fresh, i) |}.

Definition payload (p : props) (f : fields) : json :=
  let '(sid, row) := match editRow p, initial p with
                     | Some (_, r), _ => (session_id r, source_trace_row_id r)
                     | None, Some (_, i) => (i_session_id i, i_row i)
                     | None, None => (None, None)
                     end in
  JObj ([(js "title", JStr (trim (f_title f))); (js "content", JStr (f_content f)); (js "tags", JArr (map JStr (parse_list (f_tags f))));
         (js "note", JStr (f_note f))]
        ++ ProviderForm.opt_member "session_id" JStr sid ++ ProviderForm.opt_member "source_trace_row_id" JNum row).

(** [onSubmit], when nothing is pending; [true] when the dialog closed. *)
Definition onSubmit {Net} `{Fetch Net} (p : props) (f : fields) : D Net bool :=
  if str_empty (trim (f_title f)) || str_empty (trim (f_content f)) then mret false
  else d_try
    (_ ← match editRow p with
         | Some (_, r) => _ ← updatePrompt (id r) (payload p f); emit (ToastSuccess (js "收藏已更新。"))
         | None => _ ← createPrompt (payload p f); emit (ToastSuccess (js "已收藏该 prompt。"))
         end;
     mret true)
    (fun e => _ ← toast_error e; mret false).

(** Typing replayed on the fields. *)
Definition typing (evs : list event) : list edit := omap (fun ev => match ev with Typed e => Some e | Rendered _ => None end) evs.

Lemma run_same st evs : ran st = Some (deps (current st)) ->
  Forall (fun ev => match ev with Rendered p => deps p = deps (current st) | Typed _ => True end) evs ->
  typed (run st evs) = foldl apply_edit (typed st) (typing evs).
Proof.
  revert st. induction evs as [|ev evs IH]; intros st R F; [done|]. apply Forall_cons in F as [F1 F2].
  change (run st (ev :: evs)) with (run (step st ev) evs). destruct ev as [e|p].
  - by rewrite (IH (step st (Typed e))).
  - assert (step st (Rendered p) = {| current := p; ran := Some (deps p); typed := typed st |}) as ->
      by (unfold step; by rewrite bool_decide_true by congruence).
    rewrite IH; [done|done|]. simpl. by rewrite F1.
Qed.

(** Text typed into the prompt dialog survives re-renders of the prompts
    page, which pass the same row again; in the trace viewer, whose render
    passes a new prefill object, the next render while the dialog is open
    throws away whatever was typed. *)
Theorem prompt_dialog_typing p evs i fresh fresh' :
  (Forall (fun ev => match ev with Rendered p' => deps p' = deps p | Typed _ => True end) evs ->
     typed (run (opened p) evs) = foldl apply_edit (typed (opened p)) (typing evs)) /\
  (fresh <> fresh' -> forall es,
     typed (run (opened (viewer_props fresh i)) (map Typed es ++ [Rendered (viewer_props fresh' i)])) =
     {| f_title := []; f_content := i_content i; f_tags := []; f_note := [] |}).
Proof.
  split.
  - intros F. by apply run_same.
  - intros N es. unfold run. rewrite foldl_app. simpl.
    assert (R : ran (foldl step (opened (viewer_props fresh i)) (map Typed es)) = Some (deps (viewer_props fresh i))).
    { generalize (opened (viewer_props fresh i)) (eq_refl : ran (opened (viewer_props fresh i)) = Some (deps (viewer_props fresh i))).
      induction es as [|e es IH]; intros st R; [done|]. simpl. by apply IH. }
    rewrite R, bool_decide_false; [done|]. unfold deps, viewer_props. simpl. congruence.
Qed.

(** A stored prompt, as the dialog accepts it. *)
Record stored (r : PromptTemplate) : Prop := {
  sp_title : ProviderForm.tidy (title r);
  sp_content : trim (content r) <> [];
  sp_tags : Forall (fun x => ProviderForm.tidy x /\ 44 ∉ x) (tags r);
}.

(** Opening a stored prompt and saving it unchanged sends one PUT to its
    address with its title, content, tags in order, note and provenance. *)
Theorem prompt_edit_roundtrip {Net} `{Fetch Net} k r n :
  stored r -> let p := {| open := true; editRow := Some (k, r); initial := None |} in
  issued (onSubmit p (typed (opened p))) n =
    [{| rq_method := js "PUT"; rq_target := BASE ++ js "/prompts/" ++ num_to_string (id r); rq_params := [];
        rq_body := Some (stringify (JObj (
          [(js "title", JStr (title r)); (js "content", JStr (content r)); (js "tags", JArr (map JStr (tags r))); (js "note", JStr (note r))]
          ++ ProviderForm.opt_member "session_id" JStr (session_id r)
          ++ ProviderForm.opt_member "source_trace_row_id" JNum (source_trace_row_id r)))) |}].
Proof.
  intros [[T1 T2] C G] p. change (typed (opened p)) with (seed p). unfold onSubmit, payload. cbn [editRow initial p seed f_title f_content f_tags f_note].
  rewrite T1, parse_list_join by done. destruct (str_empty (title r)) eqn:E1; [by apply str_empty_true in E1|].
  destruct (str_empty (trim (content r))) eqn:E2; [by apply str_empty_true in E2|]. cbn [orb].
  set (call := updatePrompt _ _). transitivity (issued call n); [|exact (issued_send _ _ _ n)].
  unfold issued, d_try, mbind, D_bind. destruct (call (n, [])) as [[res|e] [n' log]]; cbn; by rewrite requests_app, app_nil_r.
Qed.

End PromptForm.

(** ** Playground *)

Module Playground.

Record state : Type := {
  models : option json; model : jstr; prompt : jstr; pending : bool; result_ : option json; error : option jstr;
}.

(** The reply of [listModels], for a list of aliases. *)
Definition models_reply (r : result (list jstr)) (st : state) : state :=
  match r with
  | Ret ms =>
      {| models := Some (JArr (map JStr ms));
         model := match ms with [] => model st | m :: _ => if str_empty (model st) then m else model st end;
         prompt := prompt st; pending := pending st; result_ := result_ st; error := error st |}
  | Throw e =>
      {| models := models st; model := model st; prompt := prompt st; pending := pending st; result_ := result_ st;
         error := Some (exn_message e) |}
  end.

(** [onSend]; the state after the reply. *)
Definition onSend {Net} `{Fetch Net} (st : state) : D Net state :=
  if str_empty (model st) || str_empty (trim (prompt st)) || pending st then mret st
  else d_try
    (res ← playgroundChat (model st) (trim (prompt st));
     mret {| models := models st; model := model st; prompt := prompt st; pending := false; result_ := Some res; error := None |})
    (fun e => mret {| models := models st; model := model st; prompt := prompt st; pending := false; result_ := None;
                      error := Some (exn_message e) |}).

(** The line above a reply's content: what the body shows. *)
Inductive body : Type := Content (s : jstr) | Reasoning (s : jstr) | Nothing.

Definition body_of (content reasoning : jstr) : body :=
  if negb (str_empty content) then Content content
  else if negb (str_empty reasoning) then Reasoning reasoning else Nothing.

(** A test message is sent only when a model is chosen, the prompt is not
    blank and no other one is pending; then one request carries the trimmed
    prompt, and the page ends with the reply and no error or with the failure
    and no reply. *)
Theorem playground_send {Net} `{Fetch Net} st n log :
  if str_empty (model st) || str_empty (trim (prompt st)) || pending st then onSend st (n, log) = (Ret st, (n, log))
  else exists st' n' q, onSend st (n, log) = (Ret st', (n', log ++ [Requested q])) /\
    rq_body q = Some (stringify (JObj [(js "model", JStr (model st)); (js "prompt", JStr (trim (prompt st)))])) /\
    pending st' = false /\ (is_Some (result_ st') /\ error st' = None \/ result_ st' = None /\ is_Some (error st')).
Proof.
  unfold onSend. destruct (_ || _ || _); [done|]. unfold d_try, mbind, D_bind, playgroundChat.
  edestruct (sendJSON_log (js "POST") (js "/playground/chat")) as (r & n' & E). rewrite E.
  destruct r as [res|e]; eexists _, n', _; (split_and!; [reflexivity|done|done|]); [left|right]; done.
Qed.

End Playground.

(** ** Witnesses *)

Definition settings_example : Settings.SettingsView :=
  {| Settings.v_addr := js "127.0.0.1:8787"; Settings.v_session_headers := Some [js "X-Voxeltoad-Session"; js "X-Session"];
     Settings.v_capture := true; Settings.v_max_body_kb := int 256; Settings.v_retention_days := int 30 |}.

Lemma settings_roundtrip_witness : exists b,
  issued (Settings.onSave (H := always {| rs_status := 200; rs_text := js "{}" |}) (Settings.loaded settings_example)) tt =
    [{| rq_method := js "PUT"; rq_target := js "/api/v1/settings"; rq_params := []; rq_body := Some b |}].
Proof.
  eexists. refine (Settings.settings_roundtrip (H := always {| rs_status := 200; rs_text := js "{}" |}) settings_example tt _).
  split; [done| |by exists 256|by exists 30].
  repeat (constructor; [split; [done|by apply (bool_decide_unpack _)]|]). constructor.
Defined.

Lemma cleanup_days_reading_witness :
  str_to_num (Settings.retentionDays Settings.first_form) = int 30 /\
  exists b, issued (Settings.onPurge (H := always {| rs_status := 200; rs_text := js "{}" |}) 1704081600000
                      (Settings.cleanup_days Settings.first_form)) tt =
    [{| rq_method := js "POST"; rq_target := js "/api/v1/observation/purge"; rq_params := []; rq_body := Some b |}].
Proof.
  pose proof (Settings.cleanup_days_reading (H := always {| rs_status := 200; rs_text := js "{}" |}) Settings.first_form 30 1704081600000 tt
    ltac:(lia) eq_refl ltac:(lia)) as (A & B & _).
  split; [exact A|]. eexists. exact B.
Defined.

Lemma prompt_edit_roundtrip_witness : exists b,
  let r := {| PromptForm.id := int 7; PromptForm.title := js "review"; PromptForm.content := js "[]"; PromptForm.tags := [js "system"; js "few-shot"];
              PromptForm.session_id := Some (js "s1"); PromptForm.source_trace_row_id := None; PromptForm.note := [] |} in
  let p := {| PromptForm.open := true; PromptForm.editRow := Some (1%nat, r); PromptForm.initial := None |} in
  issued (PromptForm.onSubmit (H := always {| rs_status := 200; rs_text := js "{}" |}) p (PromptForm.typed (PromptForm.opened p))) tt =
    [{| rq_method := js "PUT"; rq_target := js "/api/v1/prompts/7"; rq_params := []; rq_body := Some b |}].
Proof.
  eexists. refine (PromptForm.prompt_edit_roundtrip (H := always {| rs_status := 200; rs_text := js "{}" |}) 1%nat _ tt _).
  split; [done|done|]. repeat (constructor; [split; [done|by apply (bool_decide_unpack _)]|]). constructor.
Defined.
