(* ===== verification/AdminPages.v ===== *)
(** * Server pages of the Control Panel

    The [page.tsx] files of [web/src/app/[locale]/(dashboard)]: what each
    requests from the admin API and the properties it hands its client
    component, or the notice it renders instead. *)

From S2P Require Import Prelude JsNumber JsString Json AdminRuntime FormActions TenantActions Urls Calendar DateRanges.

(** What a page renders: [ForbiddenNotice], or its client component with the
    properties given. *)
Inductive rendered (P : Type) : Type :=
  | Notice (message : jstr)
  | Page (props : P).
Arguments Notice {P} message.
Arguments Page {P} props.

(** ** Reading replies *)

Definition undefined_prop (k : jstr) : exn := err_type (js "Cannot read properties of undefined (reading '" ++ k ++ js "')").

(** [v.k] *)
Definition member (v : unknown) (k : jstr) : result unknown :=
  match v with None => Throw (undefined_prop k) | Some x => prop x k end.

(** [v.k ?? d] *)
Definition member_or (v : unknown) (k : jstr) (d : json) : result json := x ← member v k; Ret (nullish x d).

(** The array a [.map] or [.find] is called on. *)
Definition elements (v : json) : result (list json) :=
  match v with JArr l => Ret l | _ => Throw (err_type (js "rows.map is not a function")) end.

(** [query.k = v] guarded by [if (v)]. *)
Definition query_if (k : jstr) (v : unknown) : list (jstr * unknown) := if truthy v then [(k, v)] else [].

(** [v ? Number(v) : undefined] *)
Definition number_of (v : unknown) : unknown :=
  match v with Some x => if truthy v then Some (JNum (param_number x)) else None | None => None end.

Definition list_query (sp : params) : list (jstr * unknown) :=
  query_if "cursor" (search_param sp "cursor")
  ++ (if truthy (search_param sp "limit") then [(js "limit", number_of (search_param sp "limit"))] else []).

Definition limit_query (n : Z) : list (jstr * unknown) := [(js "limit", Some (JNum (int n)))].

(** [params.k ?? ""] called as a string: arrays have no [trim]. *)
Definition trim_param (v : unknown) : result jstr :=
  match nullish v (JStr []) with JStr s => Ret (trim s) | _ => Throw (err_type (js "(intermediate value).trim is not a function")) end.

(** [v === s] *)
Definition is_str (v : unknown) (s : jstr) : bool := match v with Some (JStr x) => streq x s | _ => false end.

(** [v === "true" || undefined] *)
Definition true_or_undefined (v : unknown) : unknown := if is_str v "true" then Some (JBool true) else None.

(** [page ? Number(page) : d], and [d] again when not a number from 1. *)
Definition page_number (v : unknown) (d : Z) : num :=
  let n := match v with Some x => if truthy v then param_number x else int d | None => int d end in
  if negb (is_finite n) || nlt n (int 1) then int d else n.

(** Whether the session is of the given scope. *)
Definition in_scope (s : SessionData) (k : jstr) : bool := match scopeKind s with Some x => streq x k | None => false end.
Definition is_super (s : SessionData) : bool := match role s with Some r => streq r (js "super-admin") | None => false end.

(** The last 30 days. *)
Definition thirtyDaysAgo (now : Z) : Z := now - 30 * 24 * 60 * 60 * 1000.

Section Pages.
  Context {St Bk : Type} `{IronSession St} `{AdminApi Bk}.

(** [unwrap(await client.GET(path, { params: { path, query } }))] *)
Definition get_with (client : AdminClient) (path : jstr) (ps : list (jstr * json)) (q : list (jstr * unknown)) : M St Bk unknown :=
  r ← api client GET path {| path_params := ps; query_params := q; body := None |};
  lift (unwrap (Ret r)).
Definition get (client : AdminClient) (path : jstr) (q : list (jstr * unknown)) : M St Bk unknown := get_with client path [] q.

(** [try { ... } catch (err) { handleAdminError ... }] around a page. *)
Definition page_try {P} (body : M St Bk P) : M St Bk (rendered P) :=
  try_catch (Page <$> body)
    (fun err => outcome ← handleAdminError err; match outcome with Forbidden m => mret (Notice m) end).

(** ** Cursor lists *)

Record list_props : Type := { lp_rows : json; lp_nextCursor : json }.

(** The list pages that read one cursor page. *)
Definition cursor_page (path : jstr) (sp : params) : M St Bk (rendered list_props) :=
  page_try (
    client ← serverAdminClient;
    page ← get client path (list_query sp);
    rows ← lift (member_or page "data" (JArr []));
    next ← lift (member_or page "next_cursor" (JStr []));
    mret {| lp_rows := rows; lp_nextCursor := next |}).

Definition ProvidersPage := cursor_page (js "/api/v1/providers").
Definition TenantsPage := cursor_page (js "/api/v1/tenants").
Definition GroupsPage := cursor_page (js "/api/v1/groups").
Definition PluginsPage := cursor_page (js "/api/v1/plugins").
Definition ConfigHistoryPage := cursor_page (js "/api/v1/config/history").

Definition DataPlaneNodesPage : M St Bk (rendered json) :=
  page_try (
    client ← serverAdminClient;
    page ← get client "/api/v1/data-plane-nodes" [];
    lift (member_or page "data" (JArr []))).

Definition SettingsPage : M St Bk (rendered unknown) :=
  page_try (client ← serverAdminClient; get client "/api/v1/gateway-settings" []).

Record route_props : Type := {
  rt_list : list_props;
  rt_models : list (unknown * unknown);
  rt_providers : list unknown;
}.

(** [rows.map((p) => ({ name: p.name }))] *)
Definition names_of (v : json) : result (list unknown) := l ← elements v; map_result (fun p => prop p "name") l.

Definition RoutesPage (sp : params) : M St Bk (rendered route_props) :=
  page_try (
    client ← serverAdminClient;
    page ← get client "/api/v1/routes" (list_query sp);
    rows ← lift (member_or page "data" (JArr []));
    next ← lift (member_or page "next_cursor" (JStr []));
    modelPage ← get client "/api/v1/models" [];
    modelRows ← lift (member_or modelPage "data" (JArr []));
    models ← lift (l ← elements modelRows; map_result (fun m => a ← prop m "alias"; u ← prop m "upstreams"; Ret (a, u)) l);
    providerPage ← get client "/api/v1/providers" [];
    providerRows ← lift (member_or providerPage "data" (JArr []));
    providers ← lift (names_of providerRows);
    mret {| rt_list := {| lp_rows := rows; lp_nextCursor := next |}; rt_models := models; rt_providers := providers |}).

Definition OperatorsPage (sp : params) : M St Bk (rendered (json * json * json)) :=
  page_try (
    client ← serverAdminClient;
    page ← get client "/api/v1/operators" (list_query sp);
    rows ← lift (member_or page "data" (JArr []));
    tenantPage ← get client "/api/v1/tenants" [];
    tenants ← lift (member_or tenantPage "data" (JArr []));
    rolesPage ← get client "/api/v1/roles" [];
    roles ← lift (member_or rolesPage "data" (JArr []));
    mret (rows, tenants, roles)).

Definition RolesPage : M St Bk (rendered (json * json)) :=
  page_try (
    client ← serverAdminClient;
    rolesResp ← get client "/api/v1/roles" [];
    roles ← lift (member_or rolesResp "data" (JArr []));
    permsResp ← get client "/api/v1/permissions" [];
    perms ← lift (member_or permsResp "data" (JArr []));
    mret (roles, perms)).

(** ** Models *)

Record models_props : Type := {
  mp_models : json; mp_providers : list unknown; mp_query : json; mp_capability : json; mp_canWrite : bool;
}.

Definition fetch_models (client : AdminClient) : M St Bk json :=
  page ← get client "/api/v1/models" (limit_query 1000);
  lift (member_or page "data" (JArr [])).

Definition fetch_provider_names (client : AdminClient) : M St Bk (list unknown) :=
  page ← get client "/api/v1/providers" [];
  rows ← lift (member_or page "data" (JArr []));
  lift (names_of rows).

(** A default in a destructuring pattern: only [undefined] takes it. *)
Definition param_default (v : unknown) (d : json) : json := match v with Some x => x | None => d end.

Definition ModelsPage (sp : params) : M St Bk (rendered models_props) :=
  let q := param_default (search_param sp "q") (JStr []) in
  let capability := param_default (search_param sp "capability") (JStr []) in
  session ← getSession;
  let canWrite := in_scope session "global" in
  page_try (
    client ← serverAdminClient;
    models ← fetch_models client;
    providers ← (if canWrite then fetch_provider_names client else mret []);
    mret {| mp_models := models; mp_providers := providers; mp_query := q; mp_capability := capability; mp_canWrite := canWrite |}).

Definition ModelCatalogPage (sp : params) : M St Bk (rendered (json * json * json)) :=
  let q := param_default (search_param sp "q") (JStr []) in
  let capability := param_default (search_param sp "capability") (JStr []) in
  page_try (client ← serverAdminClient; models ← fetch_models client; mret (models, q, capability)).

(** [rows.find((m) => m.alias === decoded) ?? null] *)
Fixpoint find_alias (l : list json) (decoded : jstr) : result unknown :=
  match l with
  | [] => Ret None
  | m :: t => a ← prop m "alias"; if is_str a decoded then Ret (Some m) else find_alias t decoded
  end.

Definition ModelDetailPage (alias : jstr) : M St Bk (rendered (unknown * bool * list unknown)) :=
  decoded ← lift (decodeURIComponent alias);
  session ← getSession;
  let canWrite := in_scope session "global" in
  page_try (
    client ← serverAdminClient;
    all ← fetch_models client;
    model ← lift (l ← elements all; find_alias l decoded);
    providers ← (if canWrite then fetch_provider_names client else mret []);
    mret (model, canWrite, providers)).

Definition CatalogDetailPage (alias : jstr) : M St Bk (rendered unknown) :=
  decoded ← lift (decodeURIComponent alias);
  page_try (
    client ← serverAdminClient;
    all ← fetch_models client;
    lift (l ← elements all; find_alias l decoded)).

(** ** Quotas *)

Record quota_props : Type := { qp_scope : jstr; qp_balance : json; qp_currency : json; qp_fetchError : jstr }.

(** Every failure becomes the text of the page. *)
Definition QuotasPage : M St Bk (rendered quota_props) :=
  session ← getSession;
  let tenantName := default [] (tenantName session) in
  let scope := if str_empty tenantName then [] else js "tenant:" ++ tenantName in
  let props b c e := Page {| qp_scope := scope; qp_balance := b; qp_currency := c; qp_fetchError := e |} in
  if str_empty scope then mret (props (JNum (int 0)) (JStr []) [])
  else try_catch
    (client ← serverAdminClient;
     d ← get client "/api/v1/quotas" [(js "scope", Some (JStr scope))];
     mret (props (nullish (opt_prop d "balance") (JNum (int 0))) (nullish (opt_prop d "currency") (JStr [])) []))
    (fun err => mret (props (JNum (int 0)) (JStr []) (exn_message err))).

(** ** API keys *)

Record option_item : Type := { oi_value : unknown; oi_label : json }.

Definition string_of (v : unknown) : jstr := match v with Some x => to_string x | None => js "undefined" end.

(** [{ value: String(g.id), label: g.name ?? String(g.id) }] *)
Definition id_option (g : json) : result option_item :=
  i ← prop g "id"; n ← prop g "name";
  Ret {| oi_value := Some (JStr (string_of i)); oi_label := nullish n (JStr (string_of i)) |}.

Definition group_options (rows : list json) : result (list option_item) := map_result id_option rows.

(** [rows.filter((a) => a.enabled)] *)
Fixpoint enabled_rows (rows : list json) : result (list json) :=
  match rows with
  | [] => Ret []
  | a :: t => e ← prop a "enabled"; r ← enabled_rows t; Ret (if truthy e then a :: r else r)
  end.

Definition application_options (rows : list json) : result (list option_item) :=
  l ← enabled_rows rows; map_result id_option l.

Definition model_options (rows : list json) : result (list option_item) :=
  map_result (fun m => a ← prop m "alias"; Ret {| oi_value := a; oi_label := nullish a JNull |}) rows.

(** [do { ... } while (cursor)] over the pages of a list; [None] when the
    fuel runs out before the last page. *)
Fixpoint drain (fuel : nat) (client : AdminClient) (path : jstr) (options : list json -> result (list option_item))
  (cursor : unknown) (acc : list option_item) : M St Bk (option (list option_item)) :=
  match fuel with
  | O => mret None
  | S f =>
      res ← get client path [(js "limit", Some (JNum (int 500))); (js "cursor", cursor)];
      data ← lift (member_or res "data" (JArr []));
      items ← lift (l ← elements data; options l);
      next ← lift (member res "next_cursor");
      if truthy next then drain f client path options next (acc ++ items) else mret (Some (acc ++ items))
  end.

Record api_keys_props : Type := {
  kp_list : list_props; kp_models : list option_item; kp_groups : list option_item;
  kp_applications : list option_item; kp_unbound : bool;
}.

Definition api_keys_query (sp : params) : list (jstr * unknown) :=
  [(js "cursor", search_param sp "cursor"); (js "limit", number_of (search_param sp "limit"));
   (js "unbound", true_or_undefined (search_param sp "unbound"))].

(** [None]: a list is still being read. *)
Definition APIKeysPage (fuel : nat) (sp : params) : M St Bk (rendered (option api_keys_props)) :=
  page_try (
    client ← serverAdminClient;
    page ← get client "/api/v1/api-keys" (api_keys_query sp);
    groups ← drain fuel client "/api/v1/groups" group_options None [];
    match groups with
    | None => mret None
    | Some groups =>
        applications ← drain fuel client "/api/v1/applications" application_options None [];
        match applications with
        | None => mret None
        | Some applications =>
            models ← drain fuel client "/api/v1/models" model_options None [];
            match models with
            | None => mret None
            | Some models =>
                rows ← lift (member_or page "data" (JArr []));
                next ← lift (member_or page "next_cursor" (JStr []));
                mret (Some {| kp_list := {| lp_rows := rows; lp_nextCursor := next |}; kp_models := models;
                              kp_groups := groups; kp_applications := applications;
                              kp_unbound := is_str (search_param sp "unbound") "true" |})
            end
        end
    end).

(** ** Trace pages *)

Definition TracePage (sp : params) : M St Bk (rendered (json * bool * json)) :=
  page_try (
    client ← serverAdminClient;
    let query := [(js "page", Some (JNum (int 1))); (js "page_size", Some (JNum (int 100)))]
                 ++ query_if "agent_type" (search_param sp "agent_type")
                 ++ query_if "from" (search_param sp "from") ++ query_if "to" (search_param sp "to") in
    res ← get client "/api/v1/request-logs/sessions" query;
    sessions ← lift (member_or res "data" (JArr []));
    mret (sessions, match sessions with JArr [] => false | JArr _ => true | JStr s => negb (str_empty s) | _ => false end,
          nullish (search_param sp "agent_type") (JStr []))).

Record session_trace_props : Type := { st_sessionID : jstr; st_requests : json; st_costSummary : json }.

Definition SessionTracePage (rawSessionId : jstr) : M St Bk (rendered session_trace_props) :=
  sessionID ← lift (decodeURIComponent rawSessionId);
  page_try (
    client ← serverAdminClient;
    res ← get_with client "/api/v1/request-logs/sessions/{session_id}" [(js "session_id", JStr sessionID)] [];
    requests ← lift (member_or res "requests" (JArr []));
    cost ← lift (member_or res "cost_summary" (JObj []));
    mret {| st_sessionID := sessionID; st_requests := requests; st_costSummary := cost |}).

Record SessionStats : Type := {
  ss_agent_type : json; ss_started_at : json; ss_request_count : nat;
  ss_prompt_tokens : num; ss_completion_tokens : num; ss_total_tokens : num;
}.

(** A token count of a row, at its schema type. *)
Definition token_count (k : jstr) (r : json) : num := match opt_prop (Some r) k with Some (JNum n) => n | _ => int 0 end.

Definition sum_tokens (k : jstr) (rows : list json) : num := foldl (fun s r => nadd s (token_count k r)) (int 0) rows.

Definition session_stats (traceRows metaRows : list json) : SessionStats := {|
  ss_agent_type := nullish (head (omap (fun r => let a := opt_prop (Some r) "agent_type" in if truthy a then a else None) traceRows)) (JStr []);
  ss_started_at := nullish (match traceRows with r :: _ => opt_prop (Some r) "created_at" | [] => None end) (JStr []);
  ss_request_count := length traceRows;
  ss_prompt_tokens := sum_tokens "prompt_tokens" metaRows;
  ss_completion_tokens := sum_tokens "completion_tokens" metaRows;
  ss_total_tokens := sum_tokens "total_tokens" metaRows |}.

Record session_detail_props : Type := {
  sd_sessionID : jstr; sd_traceRows : list json; sd_metaRows : list json; sd_stats : SessionStats; sd_cost : unknown;
}.

Definition SessionDetailPage (rawSessionId : jstr) : M St Bk (rendered session_detail_props) :=
  sessionID ← lift (decodeURIComponent rawSessionId);
  page_try (
    client ← serverAdminClient;
    meta ← try_catch
      (metaRes ← get_with client "/api/v1/request-logs/sessions/{session_id}" [(js "session_id", JStr sessionID)] [];
       requests ← lift (member_or metaRes "requests" (JArr []));
       cs ← lift (member metaRes "cost_summary");
       mret (requests, opt_prop cs "cost"))
      (fun _ : exn => mret (JArr [], None));
    traceRes ← get_with client "/api/v1/trace/sessions/{session_id}" [(js "session_id", JStr sessionID)] [];
    trace ← lift (member_or traceRes "requests" (JArr []));
    traceRows ← lift (elements trace);
    metaRows ← lift (elements meta.1);
    mret {| sd_sessionID := sessionID; sd_traceRows := traceRows; sd_metaRows := metaRows;
            sd_stats := session_stats traceRows metaRows; sd_cost := meta.2 |}).

Record trace_detail_props : Type := {
  td_sessionID : jstr; td_requestID : jstr; td_view : jstr; td_current : unknown; td_previous : unknown;
}.

Definition TraceRawPage (sessionID req : jstr) : M St Bk (rendered trace_detail_props) :=
  let rowID := str_to_num req in
  page_try (
    current ← fetchDetailByRow rowID;
    mret {| td_sessionID := sessionID; td_requestID := num_to_string rowID; td_view := js "raw";
            td_current := current; td_previous := None |}).

(** [row.id === rowID] *)
Definition row_is (rowID : num) (row : json) : result bool :=
  i ← prop row "id"; Ret (match i with Some (JNum n) => neqb n rowID | _ => false end).

(** The [id] of the row before the first one whose id is [rowID]. *)
Fixpoint previous_row (prev : unknown) (rows : list json) (rowID : num) : result unknown :=
  match rows with
  | [] => Ret None
  | r :: t => b ← row_is rowID r; if (b : bool) then Ret prev else i ← prop r "id"; previous_row i t rowID
  end.

Definition TraceMessagesPage (sessionID req : jstr) : M St Bk (rendered trace_detail_props) :=
  let rowID := str_to_num req in
  page_try (
    current ← fetchDetailByRow rowID;
    previous ← (if truthy current then
      client ← serverAdminClient;
      trace ← get_with client "/api/v1/trace/sessions/{session_id}" [(js "session_id", JStr sessionID)] [];
      rows ← lift (member_or trace "requests" (JArr []));
      previousID ← lift (l ← elements rows; previous_row None l rowID);
      if truthy previousID then fetchDetailByRow (match previousID with Some x => param_number x | None => NaN end)
      else mret None
    else mret None);
    mret {| td_sessionID := sessionID; td_requestID := num_to_string rowID; td_view := js "messages";
            td_current := current; td_previous := previous |}).

End Pages.

(** ** Concurrent requests *)

(** Run to the end, keeping the outcome. *)
Definition settled {St Bk A} (m : M St Bk A) : M St Bk (result A) := fun w => let '(r, w') := m w in (Ret r, w').

Definition rejection {A} (r : result A) : list exn := match r with Ret _ => [] | Throw e => [e] end.

(** A page's parameters of the outside world: which of several concurrent
    rejections settles first, and the clock. *)
Section Concurrent.
  Context {St Bk : Type} `{IronSession St} `{AdminApi Bk}.
  Variable first_rejected : exn -> list exn -> exn.
  Variable now : Z.

(** [await Promise.all([a, b, c])]: all three run to the end. *)
Definition promise_all3 {A B C} (a : M St Bk A) (b : M St Bk B) (c : M St Bk C) : M St Bk (A * B * C) :=
  ra ← settled a; rb ← settled b; rc ← settled c;
  lift (match ra, rb, rc with
        | Ret x, Ret y, Ret z => Ret (x, y, z)
        | _, _, _ => match rejection ra ++ rejection rb ++ rejection rc with
                     | e :: es => Throw (first_rejected e es)
                     | [] => Throw (err_error [])
                     end
        end).

(** [client.GET(path, { params: { query } })], not unwrapped. *)
Definition call (client : AdminClient) (path : jstr) (ps : list (jstr * json)) (q : list (jstr * unknown)) : M St Bk api_result :=
  api client GET path {| path_params := ps; query_params := q; body := None |}.

(** *** Applications *)

Inductive attribution : Type :=
  | NotRead
  | Attributed (d : unknown)
  | AttributionError
  | AttributionForbidden.

Record applications_props : Type := { ap_list : list_props; ap_groups : json; ap_attribution : attribution }.

(** [.then(unwrap).catch(...)] of the attribution request. *)
Definition fetch_attribution (client : AdminClient) : M St Bk attribution :=
  let q := [(js "from", Some (JStr (toISOString (now - 24 * 60 * 60 * 1000)))); (js "to", Some (JStr (toISOString now)))] in
  try_catch (Attributed <$> get client "/api/v1/usage/attribution" q)
    (fun err => match err with
                | EAdmin st _ _ => if st =? 401 then throw err
                                   else mret (if st =? 403 then AttributionForbidden else AttributionError)
                | _ => mret AttributionError
                end).

Definition ApplicationsPage (sp : params) : M St Bk (rendered applications_props) :=
  session ← getSession;
  let canReadAttribution := in_scope session "tenant" && has session "usage.read" in
  page_try (
    client ← serverAdminClient;
    '(appsRes, groupsRes, attr) ← promise_all3
      (call client "/api/v1/applications" [] (list_query sp))
      (call client "/api/v1/groups" [] (limit_query 500))
      (if canReadAttribution then fetch_attribution client else mret NotRead);
    page ← lift (unwrap (Ret appsRes));
    groupsPage ← lift (unwrap (Ret groupsRes));
    rows ← lift (member_or page "data" (JArr []));
    next ← lift (member_or page "next_cursor" (JStr []));
    groups ← lift (member_or groupsPage "data" (JArr []));
    mret {| ap_list := {| lp_rows := rows; lp_nextCursor := next |}; ap_groups := groups; ap_attribution := attr |}).

(** *** Usage *)

Definition validDimensions : list jstr :=
  map js ["tenant"; "group_name"; "api_key_id"; "provider"; "model"; "application_id"; "environment"; "currency"].

(** [options.find((d) => d === v) ?? d] *)
Definition one_of (options : list jstr) (v : unknown) (d : jstr) : jstr :=
  match v with Some (JStr s) => if array_includes options s then s else d | _ => d end.

Definition usage_dimension (super : bool) (sp : params) : jstr :=
  one_of validDimensions (Some (nullish (search_param sp "group_by") (JStr (if super then js "tenant" else js "model")))) (js "model").

Definition usage_bucket (sp : params) : jstr := one_of (map js ["hour"; "day"; "week"]) (search_param sp "bucket") (js "day").

Definition usage_filters (super : bool) (sp : params) : list (jstr * unknown) :=
  [(js "from", Some (nullish (search_param sp "from") (JStr (toISOString (thirtyDaysAgo now)))));
   (js "to", Some (nullish (search_param sp "to") (JStr (toISOString now))));
   (js "tenant", if super then search_param sp "tenant" else None);
   (js "provider", search_param sp "provider");
   (js "model", search_param sp "model");
   (js "application_id", number_of (search_param sp "application_id"));
   (js "environment", search_param sp "environment");
   (js "unattributed", true_or_undefined (search_param sp "unattributed"))].

Record usage_props : Type := {
  up_rows : json; up_nextCursor : json; up_summaryRows : json; up_tenants : json; up_timeseriesRows : json;
  up_isSuperAdmin : bool; up_groupBy : jstr;
}.

Definition UsagePage (sp : params) : M St Bk (rendered usage_props) :=
  session ← getSession;
  let super := is_super session in
  let groupBy := usage_dimension super sp in
  let filters := usage_filters super sp in
  page_try (
    client ← serverAdminClient;
    '(listResult, summaryResult, timeseriesResult) ← promise_all3
      (call client "/api/v1/usage" []
         (filters ++ [(js "cursor", search_param sp "cursor"); (js "limit", number_of (search_param sp "limit"))]))
      (call client "/api/v1/usage/summary" [] (filters ++ [(js "group_by", Some (JStr groupBy))]))
      (call client "/api/v1/usage/timeseries" [] (filters ++ [(js "bucket", Some (JStr (usage_bucket sp)))]));
    page ← lift (unwrap (Ret listResult));
    _ ← (match page with
         | Some (JStr _) => throw (err_error (js "Expected JSON usage response"))
         | _ => mret tt
         end);
    summary ← lift (unwrap (Ret summaryResult));
    timeseries ← lift (unwrap (Ret timeseriesResult));
    tenants ← (if super then t ← get client "/api/v1/tenants" []; lift (member_or t "data" (JArr [])) else mret (JArr []));
    rows ← lift (member_or page "data" (JArr []));
    next ← lift (member_or page "next_cursor" (JStr []));
    summaryRows ← lift (member_or summary "data" (JArr []));
    timeseriesRows ← lift (member_or timeseries "data" (JArr []));
    mret {| up_rows := rows; up_nextCursor := next; up_summaryRows := summaryRows; up_tenants := tenants;
            up_timeseriesRows := timeseriesRows; up_isSuperAdmin := super; up_groupBy := groupBy |}).

(** *** Offset-paginated searches *)

Record search_props : Type := { sr_rows : json; sr_total : json; sr_page : json; sr_pageSize : json }.

Definition window_query (sp : params) : list (jstr * unknown) :=
  [(js "page", Some (JNum (page_number (search_param sp "page") 1)));
   (js "page_size", Some (JNum (page_number (search_param sp "page_size") 20)))].

Definition range_query (sp : params) : list (jstr * unknown) :=
  query_if "from" (Some (nullish (search_param sp "from") (JStr (toISOString (thirtyDaysAgo now)))))
  ++ query_if "to" (Some (nullish (search_param sp "to") (JStr (toISOString now)))).

(** The rows and the window the reply says it is. *)
Definition window_props (sp : params) (res : unknown) : result search_props :=
  rows ← member_or res "data" (JArr []);
  total ← member_or res "total" (JNum (int 0));
  page ← member_or res "page" (JNum (page_number (search_param sp "page") 1));
  pageSize ← member_or res "page_size" (JNum (page_number (search_param sp "page_size") 20));
  Ret {| sr_rows := rows; sr_total := total; sr_page := page; sr_pageSize := pageSize |}.

Definition audit_query (sp : params) : list (jstr * unknown) :=
  window_query sp ++ range_query sp
  ++ query_if "resource_type" (search_param sp "resource_type") ++ query_if "action" (search_param sp "action").

(** A failure other than an expired session is rethrown. *)
Definition AuditPage (sp : params) : M St Bk search_props :=
  try_catch
    (client ← serverAdminClient;
     res ← get client "/api/v1/audit" (audit_query sp);
     lift (window_props sp res))
    onAuthExpired.

Definition request_logs_query (super : bool) (sp : params) : list (jstr * unknown) :=
  let p (k : string) := query_if k (search_param sp k) in
  window_query sp ++ range_query sp
  ++ (if super then p "tenant"%string else [])
  ++ p "group_name"%string ++ p "api_key_id"%string ++ p "provider"%string ++ p "model_requested"%string
  ++ p "error_type"%string ++ p "blocked_by"%string ++ p "stream"%string ++ p "fallback"%string
  ++ p "session_id"%string ++ p "agent_type"%string ++ p "ingress_protocol"%string
  ++ (if truthy (search_param sp "application_id") then [(js "application_id", number_of (search_param sp "application_id"))] else [])
  ++ p "environment"%string
  ++ (if is_str (search_param sp "unattributed") "true" then [(js "unattributed", Some (JBool true))] else []).

Definition name_adapter (p : json) : result (jstr * unknown) :=
  n ← prop p "name"; a ← prop p "adapter"; Ret (string_of n, a).

Record request_logs_props : Type := {
  rl_search : search_props; rl_isSuperAdmin : bool; rl_providerAdapters : list (jstr * unknown);
}.

Definition RequestLogsPage (sp : params) : M St Bk (rendered request_logs_props) :=
  session ← getSession;
  let super := is_super session in
  page_try (
    client ← serverAdminClient;
    res ← get client "/api/v1/request-logs" (request_logs_query super sp);
    search ← lift (window_props sp res);
    adapters ← (if super then
      pRes ← get client "/api/v1/providers" (limit_query 1000);
      providers ← lift (member_or pRes "data" (JArr []));
      lift (l ← elements providers; map_result name_adapter l)
    else mret []);
    mret {| rl_search := search; rl_isSuperAdmin := super; rl_providerAdapters := adapters |}).

Definition OverviewPage `{TimeZone} (sp : params) : M St Bk (rendered (json * jstr)) :=
  let rawRange := match search_param sp "range" with Some (JStr s) => Some s | _ => None end in
  page_try (
    client ← serverAdminClient;
    page ← get client "/api/v1/overview" (map (fun kv => (kv.1, Some (JStr kv.2))) (overview_query rawRange now));
    mret (nullish page (JObj []), page_range rawRange)).

End Concurrent.

(** ** Budgets *)

Section Budgets.
  Context {St Bk : Type} `{IronSession St} `{AdminApi Bk}.
  Variable first_rejected : exn -> list exn -> exn.
  (** The translation function of next-intl. *)
  Variable t : jstr -> jstr.

Definition reservation_fields : list jstr :=
  map js ["id"; "request_id"; "status"; "estimate"; "actual"; "currency"; "reason"; "version"; "created_at"].

(** The nine fields of a reservation the page passes on. *)
Definition pick_reservation (r : json) : result (list (jstr * unknown)) :=
  map_result (fun k => v ← prop r k; Ret (k, v)) reservation_fields.

Inductive budget_rows : Type :=
  | Policies (rows : json)
  | Events (rows : json)
  | Reservations (rows : list (list (jstr * unknown))).

Record budgets_props : Type := {
  bp_tenant : jstr; bp_global : bool; bp_tenants : list unknown; bp_view : jstr; bp_status : json;
  bp_rows : option budget_rows; bp_nextCursor : json; bp_canWrite : bool; bp_canResolve : bool;
}.

Definition budget_view (sp : params) : jstr :=
  let v := search_param sp "view" in
  if is_str v "events" then js "events" else if is_str v "reservations" then js "reservations" else js "policies".

(** The tenant whose budgets are shown. *)
Definition budget_tenant (session : SessionData) (sp : params) : result jstr :=
  if in_scope session "global" then trim_param (search_param sp "tenant") else Ret (default [] (tenantName session)).

Definition budget_list_query (global : bool) (tenant : jstr) (sp : params) : list (jstr * unknown) :=
  (if global then [(js "tenant", Some (JStr tenant))] else []) ++ query_if "cursor" (search_param sp "cursor") ++ limit_query 50.

Definition fetch_budget_rows (client : AdminClient) (global : bool) (tenant : jstr) (sp : params) : M St Bk (budget_rows * json) :=
  let query := budget_list_query global tenant sp in
  let status := nullish (search_param sp "status") (JStr (js "unknown")) in
  if streq (budget_view sp) "events" then
    res ← get client "/api/v1/budget-events" query;
    rows ← lift (member_or res "data" (JArr []));
    next ← lift (member_or res "next_cursor" (JStr []));
    mret (Events rows, next)
  else if streq (budget_view sp) "reservations" then
    res ← get client "/api/v1/billing-reservations"
      (query ++ (if truthy (Some status) && negb (is_str (Some status) "all") then [(js "status", Some status)] else []));
    data ← lift (member_or res "data" (JArr []));
    rows ← lift (l ← elements data; map_result pick_reservation l);
    next ← lift (member_or res "next_cursor" (JStr []));
    mret (Reservations rows, next)
  else
    res ← get client "/api/v1/budgets" query;
    rows ← lift (member_or res "data" (JArr []));
    next ← lift (member_or res "next_cursor" (JStr []));
    mret (Policies rows, next).

Definition BudgetsPage (sp : params) : M St Bk (rendered budgets_props) :=
  session ← getSession;
  if negb (has session "budget.read") then mret (Notice (t (js "forbiddenRead")))
  else
    let global := in_scope session "global" in
    tenant ← lift (budget_tenant session sp);
    page_try (
      client ← serverAdminClient;
      tenants ← (if global && has session "tenant.read" then
        list ← get client "/api/v1/tenants" (limit_query 500);
        rows ← lift (member_or list "data" (JArr []));
        lift (names_of rows)
      else mret []);
      shown ← (if negb global || negb (str_empty tenant) then
        r ← fetch_budget_rows client global tenant sp; mret (Some r.1, r.2)
      else mret (None, JStr []));
      mret {| bp_tenant := tenant; bp_global := global; bp_tenants := tenants; bp_view := budget_view sp;
              bp_status := nullish (search_param sp "status") (JStr (js "unknown"));
              bp_rows := shown.1; bp_nextCursor := shown.2;
              bp_canWrite := global && has session "budget.write"; bp_canResolve := global && has session "budget.resolve" |}).

Inductive budget_detail : Type :=
  | SelectTenant
  | Detail (policy : unknown) (accounts : json) (quota : unknown).

Definition quota_request (session : SessionData) (client : AdminClient) (quotaScope : jstr) : M St Bk (option api_result) :=
  if has session "quota.read" then Some <$> call client "/api/v1/quotas" [] [(js "scope", Some (JStr quotaScope))] else mret None.

(** The tenant parameter of the detail page: [tenant?.trim()], [None] when
    absent. *)
Definition detail_tenant (sp : params) : result (option jstr) :=
  match search_param sp "tenant" with
  | None => Ret None
  | Some _ => Some <$> trim_param (search_param sp "tenant")
  end.

Definition BudgetDetail (id : jstr) (sp : params) : M St Bk (rendered budget_detail) :=
  session ← getSession;
  let global := in_scope session "global" in
  trimmed ← (if global then lift (detail_tenant sp) else mret None);
  let query := if global then [(js "tenant", Some (JStr (default [] trimmed)))] else [] in
  if negb (has session "budget.read") then mret (Notice (t (js "forbiddenRead")))
  else if global && str_empty (default [] trimmed) then mret (Page SelectTenant)
  else
    let quotaScope := js "tenant:" ++ default (js "undefined") (if global then trimmed else tenantName session) in
    page_try (
      client ← serverAdminClient;
      '(policyResponse, accountsResponse, quotaResponse) ← promise_all3 first_rejected
        (call client "/api/v1/budgets/{id}" [(js "id", JNum (str_to_num id))] query)
        (call client "/api/v1/budgets/{id}/accounts" [(js "id", JNum (str_to_num id))] query)
        (quota_request session client quotaScope);
      policy ← lift (unwrap (Ret policyResponse));
      accountsRes ← lift (unwrap (Ret accountsResponse));
      accounts ← lift (member_or accountsRes "data" (JArr []));
      quota ← (match quotaResponse with Some r => lift (unwrap (Ret r)) | None => mret None end);
      mret (Detail policy accounts quota)).

End Budgets.
