(* ===== verification/PageProps.v ===== *)
(** * Properties of the server pages

    That the pages of [AdminPages] only read, and what they render depending on
    the replies: [reads] is the exchange of requests and replies of a page,
    [page_outcome] what may follow from it, [page_contract] the two together.
    Then what each page does when the admin API refuses it, and that the
    API-key page reads every page of the lists it offers. *)

From S2P Require Import Prelude JsNumber JsString Json AdminRuntime FormActions TenantActions DesktopApi Urls Calendar DateRanges AdminPages.

(** ** Pages only read *)

Definition is_get (ev : event) : Prop := match ev with Sent _ GET _ _ => True | _ => False end.

Section Reading.
  Context {St Bk : Type} `{IronSession St} `{AdminApi Bk}.

(** [w'] differs from [w] by GET requests only. *)
Definition reads_only (w w' : world St Bk) : Prop :=
  w_env w' = w_env w /\ w_store w' = w_store w /\ exists calls, w_log w' = w_log w ++ calls /\ Forall is_get calls.

#[local] Instance reads_only_preorder : PreOrder reads_only.
Proof.
  split.
  - intros w. split; [done|]. split; [done|]. exists []. by rewrite app_nil_r.
  - intros w1 w2 w3 (E1 & S1 & c1 & L1 & F1) (E2 & S2 & c2 & L2 & F2). split; [congruence|]. split; [congruence|].
    exists (c1 ++ c2). split; [by rewrite L2, L1, app_assoc|by apply Forall_app].
Qed.

Definition reader {A} (m : M St Bk A) : Prop := forall w, reads_only w (m w).2.

Lemma reader_ret {A} (a : A) : reader (mret a).
Proof. intros w. reflexivity. Qed.

Lemma reader_throw {A} e : reader (throw e : M St Bk A).
Proof. intros w. reflexivity. Qed.

Lemma reader_lift {A} (r : result A) : reader (lift r).
Proof. intros w. reflexivity. Qed.

Lemma reader_bind {A B} (m : M St Bk A) (k : A -> M St Bk B) : reader m -> (forall a, reader (k a)) -> reader (m ≫= k).
Proof.
  intros Hm Hk w. unfold mbind, M_bind. specialize (Hm w). destruct (m w) as [[a|e] w']; [|done].
  etransitivity; [exact Hm|exact (Hk a w')].
Qed.

Lemma reader_fmap {A B} (f : A -> B) (m : M St Bk A) : reader m -> reader (f <$> m).
Proof. intros Hm w. unfold fmap, M_fmap. specialize (Hm w). by destruct (m w) as [[a|e] w']. Qed.

Lemma reader_try {A} (m : M St Bk A) h : reader m -> (forall e, reader (h e)) -> reader (try_catch m h).
Proof.
  intros Hm Hh w. unfold try_catch. specialize (Hm w). destruct (m w) as [[a|e] w']; [done|].
  etransitivity; [exact Hm|exact (Hh e w')].
Qed.

Lemma getSession_pure w : (getSession w : _ * world St Bk).2 = w.
Proof.
  unfold getSession, getenv, lift, read_store, mret, M_ret, mbind, M_bind. by destruct (sessionOptions (w_env w)).
Qed.


Lemma reader_handle e : reader (handleAdminError e : M St Bk ForbiddenOutcome).
Proof. unfold handleAdminError, redirect. repeat case_match; first [apply reader_throw|apply reader_ret]. Qed.

End Reading.

(** ** What a page exchanges with the API *)

Section Exchanges.
  Context {St Bk : Type} `{IronSession St} `{PlainFetch Bk}.

(** The run from [w] to [w'] consists of the GET requests answered as listed
    (path and reply), each by the back end as the one before left it. *)
Inductive reads : world St Bk -> world St Bk -> list (jstr * result api_result) -> Prop :=
  | reads_none w : reads w w []
  | reads_one w c p o r b' w' rs :
      api_call c GET p o (w_backend w) = (r, b') ->
      reads {| w_env := w_env w; w_store := w_store w; w_backend := b'; w_log := w_log w ++ [Sent c GET p o] |} w' rs ->
      reads w w' ((p, r) :: rs).

Lemma reads_app w1 w2 w3 rs1 rs2 : reads w1 w2 rs1 -> reads w2 w3 rs2 -> reads w1 w3 (rs1 ++ rs2).
Proof. induction 1; [done|]. intros. cbn [app]. econstructor; eauto. Qed.

(** Every outcome of [m] and the exchange it comes from satisfy [Q]. *)
Definition exchange {A} (m : M St Bk A) (Q : list (jstr * result api_result) -> result A -> Prop) : Prop :=
  forall w x w', m w = (x, w') -> exists rs, reads w w' rs /\ Q rs x.

Lemma exchange_weaken {A} (m : M St Bk A) (Q R : _ -> result A -> Prop) :
  exchange m Q -> (forall rs x, Q rs x -> R rs x) -> exchange m R.
Proof. intros Hm HQ w x w' E. destruct (Hm w x w' E) as (rs & ? & ?). eauto. Qed.

Lemma exchange_bind {A B} (m : M St Bk A) (k : A -> M St Bk B) Q (R : _ -> result B -> Prop) : exchange m Q ->
  (forall rs a, Q rs (Ret a) -> exchange (k a) (fun rs' x => R (rs ++ rs') x)) ->
  (forall rs e, Q rs (Throw e) -> R rs (Throw e)) -> exchange (m ≫= k) R.
Proof.
  intros Hm Hk He w x w'. unfold mbind, M_bind. destruct (m w) as [[a|e] w1] eqn:E; intros E2.
  - destruct (Hm _ _ _ E) as (rs & R1 & Q1). destruct (Hk rs a Q1 _ _ _ E2) as (rs' & R2 & Q2).
    exists (rs ++ rs'). split; [by eapply reads_app|done].
  - injection E2 as <- <-. destruct (Hm _ _ _ E) as (rs & R1 & Q1). eauto.
Qed.

Lemma exchange_try {A} (m : M St Bk A) h Q (R : _ -> result A -> Prop) : exchange m Q ->
  (forall rs a, Q rs (Ret a) -> R rs (Ret a)) ->
  (forall rs e, Q rs (Throw e) -> exchange (h e) (fun rs' x => R (rs ++ rs') x)) -> exchange (try_catch m h) R.
Proof.
  intros Hm Hr Hh w x w'. unfold try_catch. destruct (m w) as [[a|e] w1] eqn:E; intros E2.
  - injection E2 as <- <-. destruct (Hm _ _ _ E) as (rs & R1 & Q1). eauto.
  - destruct (Hm _ _ _ E) as (rs & R1 & Q1). destruct (Hh rs e Q1 _ _ _ E2) as (rs' & R2 & Q2).
    exists (rs ++ rs'). split; [by eapply reads_app|done].
Qed.

Lemma exchange_silent {A} (m : M St Bk A) (Q : _ -> result A -> Prop) :
  (forall w, (m w).2 = w) -> (forall w, Q [] (m w).1) -> exchange m Q.
Proof. intros Hs HQ w x w' E. specialize (Hs w). specialize (HQ w). rewrite E in *. simpl in *. subst w'. eauto using reads_none. Qed.

(** An error of the language or the runtime, as opposed to an API refusal. *)
Definition built_in (e : exn) : Prop := exists n t, e = EError n t.

Definition plainr {A} (r : result A) : Prop := forall e, r = Throw e -> built_in e.

(** The API refused one of the requests with [e]. *)
Definition refusal (rs : list (jstr * result api_result)) (e : exn) : Prop :=
  exists p r, (p, Ret r) ∈ rs /\ unwrap (Ret r) = Throw e.

(** The reply carries data, or its failure is one of the tolerated ones. *)
Definition okay (tol : jstr -> exn -> bool) (pr : jstr * result api_result) : Prop :=
  forall e, unwrap pr.2 = Throw e -> tol pr.1 e = true.

(** A result is only reached when every reply was okay, and an error is built
    in or the refusal of one of the requests. *)
Definition good {A} tol (rs : list (jstr * result api_result)) (x : result A) : Prop :=
  match x with
  | Ret _ => Forall (okay tol) rs
  | Throw e => built_in e \/ refusal rs e
  end.

Definition sound {A} tol (m : M St Bk A) : Prop := exchange m (good tol).

Lemma refusal_app_l rs rs' e : refusal rs e -> refusal (rs ++ rs') e.
Proof. intros (p & r & I & U). exists p, r. rewrite elem_of_app. eauto. Qed.

Lemma refusal_app_r rs rs' e : refusal rs' e -> refusal (rs ++ rs') e.
Proof. intros (p & r & I & U). exists p, r. rewrite elem_of_app. eauto. Qed.

Lemma good_app {A} tol rs rs' (x : result A) : Forall (okay tol) rs -> good tol rs' x -> good tol (rs ++ rs') x.
Proof. intros F. destruct x as [a|e]; simpl; [by rewrite Forall_app|]. intros [?|?]; [by left|right; by apply refusal_app_r]. Qed.

Lemma sound_after {A} tol (m : M St Bk A) rs : sound tol m -> Forall (okay tol) rs ->
  exchange m (fun rs' x => good tol (rs ++ rs') x).
Proof. intros Hm F. eapply exchange_weaken; [exact Hm|]. intros rs' x. by apply good_app. Qed.

Lemma sound_ret {A} tol (a : A) : sound tol (mret a).
Proof. apply exchange_silent; [done|]. intros w. constructor. Qed.

Lemma sound_lift {A} tol (r : result A) : plainr r -> sound tol (lift r).
Proof. intros P. apply exchange_silent; [done|]. intros w. simpl. destruct r as [a|e]; simpl; [constructor|]. left. by apply P. Qed.

Lemma sound_throw {A} tol e : built_in e -> sound tol (throw e : M St Bk A).
Proof. intros P. apply exchange_silent; [done|]. intros w. by left. Qed.

Lemma sound_bind {A B} tol (m : M St Bk A) (k : A -> M St Bk B) : sound tol m -> (forall a, sound tol (k a)) -> sound tol (m ≫= k).
Proof. intros Hm Hk. eapply exchange_bind; [exact Hm| |done]. intros rs a G. by apply sound_after. Qed.

Lemma sound_fmap {A B} tol (f : A -> B) (m : M St Bk A) : sound tol m -> sound tol (f <$> m).
Proof.
  intros Hm w x w'. unfold fmap, M_fmap. destruct (m w) as [[a|e] w1] eqn:E; intros [= <- <-];
    destruct (Hm _ _ _ E) as (rs & R1 & Q1); eauto.
Qed.

Lemma sound_if {A} tol (b : bool) (m1 m2 : M St Bk A) : sound tol m1 -> sound tol m2 -> sound tol (if b then m1 else m2).
Proof. by destruct b. Qed.

Lemma silent_plain {A} tol (m : M St Bk A) : (forall w, (m w).2 = w) -> plain m -> sound tol m.
Proof.
  intros Hs P. apply exchange_silent; [done|]. intros w. specialize (Hs w). destruct (m w) as [[a|e] w1] eqn:E; [constructor|].
  left. destruct (P _ _ _ E) as (n & t & ->). by eexists _, _.
Qed.

Lemma sound_client tol : sound tol (serverAdminClient : M St Bk AdminClient).
Proof. apply silent_plain; [|apply plain_serverAdminClient]. intros w. by destruct (serverAdminClient_pure w) as [r ->]. Qed.

Lemma plain_getSession : plain (getSession : M St Bk SessionData).
Proof.
  intros w e w'. unfold getSession, getenv, lift, mbind, M_bind, sessionOptions, requireSessionSecret.
  destruct (SESSION_SECRET (w_env w)) as [s|]; [destruct (_ || _)|]; simpl; try done; intros [= <- _]; eauto.
Qed.

(** One request: the reply is handed on, a failure of [fetch] is thrown. *)
Lemma exchange_api c p o : exchange (api c GET p o : M St Bk api_result) (fun rs x => rs = [(p, x)] /\
  match x with Ret _ => True | Throw e => built_in e end).
Proof.
  intros w x w'. unfold api. destruct (api_call c GET p o (w_backend w)) as [r b'] eqn:A. intros [= <- <-].
  exists [(p, r)]. split; [by eapply reads_one, reads_none|]. split; [done|]. destruct r; [done|]. by eapply api_throws_plain.
Qed.

Lemma okay_unwrap tol p r : (exists d, unwrap r = Ret d) -> okay tol (p, r).
Proof. intros [d D] e. simpl. by rewrite D. Qed.

(** [unwrap(await client.GET(...))] *)
Lemma sound_unwrapped tol c p o : sound tol (r ← api c GET p o; lift (unwrap (Ret r)) : M St Bk unknown).
Proof.
  eapply exchange_bind; [apply exchange_api| |].
  - intros rs a [-> _]. apply exchange_silent; [done|]. intros w. unfold lift. cbn [fst app].
    destruct (unwrap (Ret a)) as [d|e] eqn:U; cbn [good].
    + constructor; [|constructor]. apply okay_unwrap. eauto.
    + right. exists p, a. split; [by left|done].
  - intros rs e [-> P]. by left.
Qed.

Lemma sound_get tol c p ps q : sound tol (get_with c p ps q : M St Bk unknown).
Proof. apply sound_unwrapped. Qed.

(** Built-in errors of the readers of replies. *)

Lemma plainr_ret {A} (a : A) : plainr (Ret a).
Proof. done. Qed.

Lemma plainr_bind {A B} (r : result A) (k : A -> result B) : plainr r -> (forall a, plainr (k a)) -> plainr (r ≫= k).
Proof. intros Hr Hk e. unfold mbind, result_bind. destruct r as [a|x]; [apply Hk|]. intros [= <-]. by apply Hr. Qed.

Lemma plainr_fmap {A B} (f : A -> B) (r : result A) : plainr r -> plainr (f <$> r).
Proof. intros Hr e. unfold fmap, result_fmap. destruct r as [a|x]; [done|]. intros [= <-]. by apply Hr. Qed.

Lemma plainr_map {A B} (f : A -> result B) l : (forall a, plainr (f a)) -> plainr (map_result f l).
Proof. intros Hf e E. apply map_result_throw in E as (x & _ & E). by apply Hf in E. Qed.

Lemma plainr_prop v k : plainr (prop v k).
Proof. intros e. unfold prop. destruct v; try done. intros [= <-]. by eexists _, _. Qed.

Lemma plainr_member v k : plainr (member v k).
Proof. unfold member. destruct v; [apply plainr_prop|]. intros e [= <-]. by eexists _, _. Qed.

Lemma plainr_member_or v k d : plainr (member_or v k d).
Proof. apply plainr_bind; [apply plainr_member|intros; apply plainr_ret]. Qed.

Lemma plainr_elements v : plainr (elements v).
Proof. unfold elements. intros e. destruct v; try done; intros [= <-]; by eexists _, _. Qed.

Lemma plainr_decode s : plainr (decodeURIComponent s).
Proof. unfold decodeURIComponent. intros e. case_match; [done|]. intros [= <-]. by eexists _, _. Qed.

Lemma plainr_trim v : plainr (trim_param v).
Proof. unfold trim_param. intros e. case_match; try done; intros [= <-]; by eexists _, _. Qed.

Lemma plainr_find_alias l a : plainr (find_alias l a).
Proof. induction l as [|m l IH]; [done|]. cbn [find_alias]. apply plainr_bind; [apply plainr_prop|]. intros x. by case_match. Qed.

Lemma plainr_enabled l : plainr (enabled_rows l).
Proof.
  induction l as [|m l IH]; [done|]. cbn [enabled_rows]. apply plainr_bind; [apply plainr_prop|]. intros x.
  by apply plainr_bind.
Qed.

Lemma plainr_previous prev l n : plainr (previous_row prev l n).
Proof.
  revert prev. induction l as [|m l IH]; intros prev; [done|]. cbn [previous_row]. apply plainr_bind.
  - apply plainr_bind; [apply plainr_prop|done].
  - intros b. case_match; [done|]. by apply plainr_bind; [apply plainr_prop|].
Qed.

End Exchanges.

Create HintDb page discriminated.
#[export] Hint Constants Opaque : page.
#[export] Hint Resolve plainr_ret plainr_prop plainr_member plainr_member_or plainr_elements plainr_decode plainr_trim
  plainr_find_alias plainr_enabled plainr_previous sound_ret sound_client sound_get : page.

(** Follow the reading of a reply down to its property accesses. *)
Ltac solve_plainr :=
  repeat first
    [ progress auto 2 with page
    | match goal with
      | |- plainr (_ <$> _) => apply plainr_fmap
      | |- plainr (_ ≫= _) => apply plainr_bind; [|intros ?]
      | |- plainr (map_result _ _) => apply plainr_map; intros ?
      | |- plainr (match ?x with _ => _ end) => destruct x
      end
    | progress unfold names_of, group_options, application_options, model_options, id_option, window_props, name_adapter,
        pick_reservation, budget_tenant, detail_tenant ].

(** Follow the structure of a page down to its requests. *)
Ltac solve_sound :=
  repeat first
    [ progress auto 2 with page
    | match goal with
      | |- sound _ (_ <$> _) => apply sound_fmap
      | |- sound _ (_ ≫= _) => apply sound_bind; [|intros ?]
      | |- sound _ (lift _) => apply sound_lift; solve [solve_plainr]
      | |- sound _ (throw _) => apply sound_throw; by eexists _, _
      | |- sound _ (if _ then _ else _) => apply sound_if
      | |- sound _ (match ?x with _ => _ end) => destruct x
      end
    | progress unfold get, fetch_models, fetch_provider_names, fetch_budget_rows ].

(** ** Failures a page tolerates *)

Section Tolerated.
  Context {St Bk : Type} `{IronSession St} `{PlainFetch Bk}.

Definition none (_ : jstr) (_ : exn) : bool := false.

Lemma okay_none tol pr : okay none pr -> okay tol pr.
Proof. intros O e E. by apply O in E. Qed.

(** No request, and built-in errors only. *)
Definition local {A} (m : M St Bk A) : Prop :=
  exchange m (fun rs x => rs = [] /\ match x with Ret _ => True | Throw e => built_in e end).

Lemma local_lift {A} (r : result A) : plainr r -> local (lift r).
Proof. intros P. apply exchange_silent; [done|]. intros w. split; [done|]. simpl. destruct r; [done|]. by apply P. Qed.

Lemma local_ret {A} (a : A) : local (mret a).
Proof. by apply exchange_silent. Qed.

Lemma local_plain {A} (m : M St Bk A) : (forall w, (m w).2 = w) -> plain m -> local m.
Proof.
  intros Hs P. apply exchange_silent; [done|]. intros w. split; [done|]. destruct (m w) as [[a|e] w1] eqn:E; [done|].
  by destruct (P _ _ _ E) as (n & t & ->); eexists _, _.
Qed.

Lemma local_session : local (getSession : M St Bk SessionData).
Proof. apply local_plain; [apply getSession_pure|apply plain_getSession]. Qed.

Lemma local_client : local (serverAdminClient : M St Bk AdminClient).
Proof. apply local_plain; [|apply plain_serverAdminClient]. intros w. by destruct (serverAdminClient_pure w) as [r ->]. Qed.

Lemma local_if {A} (b : bool) (m1 m2 : M St Bk A) : local m1 -> local m2 -> local (if b then m1 else m2).
Proof. by destruct b. Qed.

Lemma local_bind {A B} (m : M St Bk A) (k : A -> M St Bk B) : local m -> (forall a, local (k a)) -> local (m ≫= k).
Proof. intros Hm Hk. eapply exchange_bind; [exact Hm| |done]. intros rs a [-> _]. exact (Hk a). Qed.

(** At most one request, for [p]: what is thrown is its failure, or a
    built-in error. *)
Definition one_request {A} (p : jstr) (m : M St Bk A) : Prop :=
  exchange m (fun rs x => match x with
    | Ret _ => Forall (okay none) rs
    | Throw e => (built_in e /\ Forall (okay none) rs) \/ 
                 exists r, rs = [(p, r)] /\ unwrap r = Throw e /\ ((exists y, r = Ret y) \/ built_in e)
    end).

Lemma one_unwrapped c p o : one_request p (r ← api c GET p o; lift (unwrap (Ret r)) : M St Bk unknown).
Proof.
  eapply exchange_bind; [apply exchange_api| |].
  - intros rs a [-> _]. apply exchange_silent; [done|]. intros w. unfold lift. cbn [fst app].
    destruct (unwrap (Ret a)) as [d|e] eqn:U; [|eauto 10]. constructor; [|constructor]. apply okay_unwrap. eauto.
  - intros rs e [-> P]. right. exists (Throw e). eauto.
Qed.

Lemma one_local_then {A B} p (m : M St Bk A) (k : A -> M St Bk B) : local m -> (forall a, one_request p (k a)) -> one_request p (m ≫= k).
Proof.
  intros Hm Hk. eapply exchange_bind; [exact Hm| |].
  - intros rs a [-> _]. exact (Hk a).
  - intros rs e [-> P]. left. split; [done|constructor].
Qed.

Lemma one_then_local {A B} p (m : M St Bk A) (k : A -> M St Bk B) : one_request p m -> (forall a, local (k a)) -> one_request p (m ≫= k).
Proof.
  intros Hm Hk. eapply exchange_bind; [exact Hm| |done]. intros rs a F. eapply exchange_weaken; [apply Hk|].
  intros rs' x [-> P]. rewrite app_nil_r. destruct x; [done|by left].
Qed.

Lemma one_fmap {A B} p (f : A -> B) (m : M St Bk A) : one_request p m -> one_request p (f <$> m).
Proof.
  intros Hm w x w'. unfold fmap, M_fmap. destruct (m w) as [[a|e] w1] eqn:E; intros [= <- <-];
    destruct (Hm _ _ _ E) as (rs & R1 & Q1); eauto.
Qed.

(** A [catch] around one request that returns a value for the failures
    tolerated and rethrows the others. *)
Lemma sound_tolerate {A} tol p (m : M St Bk A) h : one_request p m ->
  (forall e, (exists a, h e = mret a /\ tol p e = true) \/ h e = throw e) -> sound tol (try_catch m h).
Proof.
  intros Hm Hh. assert (Z : forall rs, Forall (okay none) rs -> Forall (okay tol) rs).
  { intros rs F. eapply Forall_impl; [exact F|]. intros pr. apply okay_none. }
  eapply exchange_try; [exact Hm|intros rs a; apply Z|].
  intros rs e Q. apply exchange_silent; [by destruct (Hh e) as [(a & -> & _)| ->]|]. intros w. rewrite app_nil_r.
  destruct (Hh e) as [(a & -> & T)| ->]; cbn [fst mret M_ret throw good].
  - destruct Q as [[_ F]|(r & -> & U & _)]; [by apply Z|]. constructor; [|constructor]. intros e' U'. simpl in *. congruence.
  - destruct Q as [[B _]|(r & -> & U & [[y ->]|B])]; [by left| |by left]. right. exists p, y. split; [by left|done].
Qed.

Lemma one_get c p ps q : one_request p (get_with c p ps q : M St Bk unknown).
Proof. apply one_unwrapped. Qed.

(** The trace row that is gone. *)
Definition row_gone (p : jstr) (e : exn) : bool :=
  streq p "/api/v1/trace/rows/{id}" && match e with EAdmin st _ _ => st =? 404 | _ => false end.

Lemma sound_detail n : sound row_gone (fetchDetailByRow n : M St Bk unknown).
Proof.
  unfold fetchDetailByRow. apply sound_if; [apply sound_ret|]. apply (sound_tolerate _ (js "/api/v1/trace/rows/{id}")).
  - apply one_then_local; [|intros; apply local_ret]. apply one_local_then; [apply local_client|]. intros c. apply one_unwrapped.
  - intros e. destruct e as [|st ty m|]; [by right| |by right]. destruct (st =? 404) eqn:E; [left|by right].
    eexists. split; [reflexivity|]. unfold row_gone. by rewrite streq_refl, E.
Qed.

(** The session's metadata, which only adds to the page. *)
Definition metadata (p : jstr) (_ : exn) : bool := streq p "/api/v1/request-logs/sessions/{session_id}".

(** The attribution panel, which shows its own failures but an expired
    session. *)
Definition attribution_panel (p : jstr) (e : exn) : bool :=
  streq p "/api/v1/usage/attribution" && negb (match e with EAdmin st _ _ => st =? 401 | _ => false end).

(** The balance, whose failure is the text of the page. *)
Definition balance (p : jstr) (_ : exn) : bool := streq p "/api/v1/quotas".

Lemma sound_attribution now c : sound attribution_panel (fetch_attribution now c : M St Bk attribution).
Proof.
  unfold fetch_attribution. cbv zeta. apply (sound_tolerate _ (js "/api/v1/usage/attribution")); [apply one_fmap, one_get|].
  intros e. unfold attribution_panel. rewrite streq_refl. destruct e as [|st ty m|]; [left; by eexists| |left; by eexists].
  destruct (st =? 401) eqn:E; [by right|]. left. by eexists.
Qed.

End Tolerated.

(** ** Concurrent requests *)

Section Together.
  Context {St Bk : Type} `{IronSession St} `{PlainFetch Bk}.
  Variable first_rejected : exn -> list exn -> exn.
  Hypothesis rejects_one : forall x xs, first_rejected x xs ∈ x :: xs.

Definition thrown_by (rs : list (jstr * result api_result)) (e : exn) : Prop := built_in e \/ refusal rs e.

Lemma thrown_app_l rs rs' e : thrown_by rs e -> thrown_by (rs ++ rs') e.
Proof. intros [?|?]; [by left|right; by apply refusal_app_l]. Qed.

Lemma thrown_app_r rs rs' e : thrown_by rs' e -> thrown_by (rs ++ rs') e.
Proof. intros [?|?]; [by left|right; by apply refusal_app_r]. Qed.

Lemma exchange_settled {A} (m : M St Bk A) Q : exchange m Q -> exchange (settled m) (fun rs x => exists y, x = Ret y /\ Q rs y).
Proof.
  intros Hm w x w'. unfold settled. destruct (m w) as [y w1] eqn:E. intros [= <- <-].
  destruct (Hm _ _ _ E) as (rs & R & Qy). eauto.
Qed.

(** All three, when each throws only what its own exchange explains. *)
Lemma exchange_all {A B C} (a : M St Bk A) (b : M St Bk B) (c : M St Bk C) Qa Qb Qc :
  exchange a Qa -> exchange b Qb -> exchange c Qc ->
  (forall rs e, Qa rs (Throw e) -> thrown_by rs e) -> (forall rs e, Qb rs (Throw e) -> thrown_by rs e) ->
  (forall rs e, Qc rs (Throw e) -> thrown_by rs e) ->
  exchange (promise_all3 first_rejected a b c) (fun rs x => match x with
    | Ret (x, y, z) => exists ra rb rc, rs = ra ++ rb ++ rc /\ Qa ra (Ret x) /\ Qb rb (Ret y) /\ Qc rc (Ret z)
    | Throw e => thrown_by rs e
    end).
Proof.
  intros Ha Hb Hc Ta Tb Tc. unfold promise_all3.
  eapply exchange_bind; [by apply exchange_settled| |by intros rs e (y & ? & _)]. intros ra oa (? & [= ->] & QA).
  eapply exchange_bind; [by apply exchange_settled| |by intros rs e (y & ? & _)]. intros rb ob (? & [= ->] & QB).
  eapply exchange_bind; [by apply exchange_settled| |by intros rs e (y & ? & _)]. intros rc oc (? & [= ->] & QC).
  apply exchange_silent; [done|]. intros w. unfold lift. cbn [fst]. rewrite app_nil_r.
  assert (X : forall e es, (forall y, y ∈ e :: es -> thrown_by (ra ++ rb ++ rc) y) -> thrown_by (ra ++ rb ++ rc) (first_rejected e es))
    by eauto.
  assert (TA : forall e, x = Throw e -> thrown_by (ra ++ rb ++ rc) e) by (intros e ->; by apply thrown_app_l, Ta).
  assert (TB : forall e, x0 = Throw e -> thrown_by (ra ++ rb ++ rc) e) by (intros e ->; by apply thrown_app_r, thrown_app_l, Tb).
  assert (TC : forall e, x1 = Throw e -> thrown_by (ra ++ rb ++ rc) e) by (intros e ->; by apply thrown_app_r, thrown_app_r, Tc).
  destruct x as [x|ea], x0 as [y|eb], x1 as [z|ec]; cbn [rejection app]; [eauto 10|..]; apply X; intros e;
    rewrite !elem_of_cons, elem_of_nil; repeat (intros [-> |I]; [by auto|revert I]); by intros [].
Qed.

Definition replied (p : jstr) (rs : list (jstr * result api_result)) (x : result api_result) : Prop :=
  rs = [(p, x)] /\ match x with Ret _ => True | Throw e => built_in e end.

Lemma exchange_call c p ps q : exchange (call c p ps q : M St Bk api_result) (replied p).
Proof. apply exchange_api. Qed.

Lemma replied_thrown p rs e : replied p rs (Throw e) -> thrown_by rs e.
Proof. intros [_ ?]. by left. Qed.

(** Unwrapping a reply received before. *)
Lemma exchange_unwrap {B} tol p r pre (k : unknown -> M St Bk B) : (p, Ret r) ∈ pre ->
  (forall d, unwrap (Ret r) = Ret d -> exchange (k d) (fun rs x => good tol (pre ++ rs) x)) ->
  exchange (lift (unwrap (Ret r)) ≫= k) (fun rs x => good tol (pre ++ rs) x).
Proof.
  intros I Hk. apply (exchange_bind _ _ (fun rs x => rs = [] /\ x = unwrap (Ret r))).
  - by apply exchange_silent.
  - intros rs a [-> E]. by apply Hk.
  - intros rs e [-> E]. rewrite app_nil_r. right. by exists p, r.
Qed.

Lemma exchange_local {A B} tol pre (m : M St Bk A) (k : A -> M St Bk B) : local m ->
  (forall a, exchange (k a) (fun rs x => good tol (pre ++ rs) x)) -> exchange (m ≫= k) (fun rs x => good tol (pre ++ rs) x).
Proof.
  intros Hm Hk. eapply exchange_bind; [exact Hm| |].
  - intros rs a [-> _]. apply Hk.
  - intros rs e [-> P]. by left.
Qed.

End Together.

(** ** The contract of a page *)

Section Contracts.
  Context {St Bk : Type} `{IronSession St} `{PlainFetch Bk}.

(** What a page makes of its exchange.  It renders its component only when
    every reply carried data, the failures of [tol] apart; a notice carries
    the message of a 403 it was answered, or is the page's own before any
    request; a redirect goes to the logout route and answers a 401; any other
    refusal escapes as it came, never a 401 and, where [forbidden] is handled,
    never a 403. *)
Definition page_outcome {P} (tol : jstr -> exn -> bool) (own : option jstr) (forbidden : bool)
  (rs : list (jstr * result api_result)) (x : result (rendered P)) : Prop :=
  match x with
  | Ret (Page _) => Forall (okay tol) rs
  | Ret (Notice m) => (own = Some m /\ rs = []) \/ exists ty, refusal rs (EAdmin 403 ty m)
  | Throw (ERedirect h l) => h = js "/logout" /\ l = None /\ exists ty m, refusal rs (EAdmin 401 ty m)
  | Throw (EAdmin st ty m) => st <> 401 /\ (forbidden = true -> st <> 403) /\ refusal rs (EAdmin st ty m)
  | Throw (EError _ _) => True
  end.

Definition page_contract {P} tol own (pg : M St Bk (rendered P)) : Prop := exchange pg (page_outcome tol own true).

Lemma refusal_admin rs e : refusal rs e -> exists st ty m, e = EAdmin st ty m.
Proof.
  intros (p & r & _ & U). unfold unwrap, mbind, result_bind in U. destruct (_ || _); [|done]. injection U as <-.
  unfold AdminError. eauto.
Qed.

Lemma contract_page_try {P} tol (body : M St Bk P) : sound tol body -> page_contract tol None (page_try body).
Proof.
  intros Hb w x w'. unfold page_try, try_catch, fmap, M_fmap.
  destruct (body w) as [[p|e] w1] eqn:E; destruct (Hb _ _ _ E) as (rs & R & G); [intros [= <- <-]; by exists rs|].
  unfold mbind, M_bind, handleAdminError, redirect, throw. simpl in G. destruct e as [n t|st ty m|h l].
  - intros [= <- <-]. by exists rs.
  - destruct G as [(? & ? & ?)|G]; [done|].
    destruct (Z.eqb_spec st 401) as [-> |N1]; [|destruct (Z.eqb_spec st 403) as [-> |N3]]; intros [= <- <-]; exists rs;
      (split; [done|]); simpl; eauto 10.
  - destruct G as [(? & ? & ?)|G]; [done|]. by apply refusal_admin in G as (? & ? & ? & ?).
Qed.

Lemma contract_shown {P} tol own (p : P) : page_contract tol own (mret (Page p) : M St Bk (rendered P)).
Proof. apply exchange_silent; [done|]. intros w. constructor. Qed.

Lemma contract_notice {P} tol m : page_contract tol (Some m) (mret (Notice m) : M St Bk (rendered P)).
Proof. apply exchange_silent; [done|]. intros w. by left. Qed.

(** Steps before the page's [try]. *)
Lemma contract_bind {A P} tol own (m : M St Bk A) (k : A -> M St Bk (rendered P)) : local m ->
  (forall a, page_contract tol own (k a)) -> page_contract tol own (m ≫= k).
Proof.
  intros Hm Hk. eapply exchange_bind; [exact Hm| |].
  - intros rs a [-> _]. apply Hk.
  - intros rs e [-> (n & t & ->)]. done.
Qed.

(** A page's own notice does not get in the way of the others. *)
Lemma contract_own {P} tol m (pg : M St Bk (rendered P)) : page_contract tol None pg -> page_contract tol (Some m) pg.
Proof.
  intros Hp. eapply exchange_weaken; [exact Hp|]. intros rs [[n|p]|[| |]]; simpl; try done. intros [[? _]|?]; [done|by right].
Qed.

Lemma sound_drain tol fuel client path options cursor acc : (forall l, plainr (options l)) ->
  sound tol (drain fuel client path options cursor acc : M St Bk (option (list option_item))).
Proof.
  intros Ho. revert cursor acc. induction fuel as [|f IH]; intros cursor acc; cbn [drain]; [apply sound_ret|].
  solve_sound; apply IH.
Qed.

Lemma local_decode s : local (lift (decodeURIComponent s) : M St Bk jstr).
Proof. apply local_lift, plainr_decode. Qed.

Lemma local_tenant session sp : local (lift (budget_tenant session sp) : M St Bk jstr).
Proof. apply local_lift. solve_plainr. Qed.

Lemma local_detail_tenant (b : bool) sp : local (if b then lift (detail_tenant sp) else mret None : M St Bk (option jstr)).
Proof. apply local_if; [apply local_lift; solve_plainr|apply local_ret]. Qed.

Lemma contract_audit now sp : exchange (Page <$> (AuditPage now sp : M St Bk search_props)) (page_outcome none None false).
Proof.
  unfold AuditPage. set (body := serverAdminClient ≫= _). assert (B : sound none body) by (subst body; solve_sound).
  intros w x w'. unfold fmap, M_fmap, try_catch.
  destruct (body w) as [[p|e] w1] eqn:E; destruct (B _ _ _ E) as (rs & R & G); [intros [= <- <-]; by exists rs|].
  unfold onAuthExpired, redirect, throw. simpl in G. destruct e as [n t|st ty m|h l].
  - intros [= <- <-]. by exists rs.
  - destruct G as [(? & ? & ?)|G]; [done|].
    destruct (Z.eqb_spec st 401) as [-> |N1]; intros [= <- <-]; exists rs; (split; [done|]); simpl; eauto 10.
  - destruct G as [(? & ? & ?)|G]; [done|]. by apply refusal_admin in G as (? & ? & ? & ?).
Qed.

Lemma contract_quotas : page_contract balance None (QuotasPage : M St Bk (rendered quota_props)).
Proof.
  unfold QuotasPage. apply contract_bind; [apply local_session|]. intros session. cbv zeta.
  destruct (str_empty (default [] (tenantName session))); [apply contract_shown|].
  set (scope := js "tenant:" ++ _). change (str_empty scope) with false. cbv iota.
  set (body := serverAdminClient ≫= _).
  assert (B : one_request (js "/api/v1/quotas") body).
  { apply one_local_then; [apply local_client|]. intros c. apply one_then_local; [apply one_get|]. intros d. apply local_ret. }
  assert (P : forall w r w', body w = (Ret r, w') -> exists p, r = Page p).
  { intros w r w'. unfold body, mbind, M_bind. destruct (serverAdminClient w) as [[c|] w1]; [|done].
    destruct (get _ _ _ w1) as [[d|] w2]; [|done]. intros [= <- _]. by eexists. }
  intros w x w' E. assert (S : sound balance (try_catch body (fun err => mret (Page {| qp_scope := scope; qp_balance := JNum (int 0);
    qp_currency := JStr []; qp_fetchError := exn_message err |})))).
  { apply (sound_tolerate _ _ _ _ B). intros e. left. eexists. split; [reflexivity|]. apply streq_refl. }
  destruct (S _ _ _ E) as (rs & R & G). exists rs. split; [exact R|]. unfold try_catch in E.
  destruct (body w) as [[r|e] w1] eqn:X; injection E as <- <-; [|exact G]. destruct (P _ _ _ X) as [p ->]. exact G.
Qed.

(** The three pages of concurrent requests. *)
Section Joined.
  Variable first_rejected : exn -> list exn -> exn.
  Hypothesis rejects_one : forall x xs, first_rejected x xs ∈ x :: xs.

Lemma sound_joined {A C} tol pa pb (a b : M St Bk api_result) (c : M St Bk C) Qc (k : api_result * api_result * C -> M St Bk A) :
  exchange a (replied pa) -> exchange b (replied pb) -> exchange c Qc -> (forall rs e, Qc rs (Throw e) -> thrown_by rs e) ->
  (forall ra rb y rc, Qc rc (Ret y) -> exchange (k (ra, rb, y)) (fun rs x => good tol (((pa, Ret ra) :: (pb, Ret rb) :: rc) ++ rs) x)) ->
  sound tol (promise_all3 first_rejected a b c ≫= k).
Proof.
  intros Ha Hb Hc Tc Hk.
  eapply exchange_bind; [apply (exchange_all first_rejected rejects_one a b c _ _ _ Ha Hb Hc); [apply replied_thrown..|exact Tc]| |done].
  intros rs [[ra rb] y] (? & ? & rc & -> & [-> _] & [-> _] & Q). cbn [app]. by apply Hk.
Qed.

Lemma contract_applications now sp :
  page_contract attribution_panel None (ApplicationsPage first_rejected now sp : M St Bk (rendered applications_props)).
Proof.
  unfold ApplicationsPage. apply contract_bind; [apply local_session|]. intros session. cbv zeta. apply contract_page_try.
  apply sound_bind; [apply sound_client|]. intros c.
  apply (sound_joined _ (js "/api/v1/applications") (js "/api/v1/groups") _ _ _ (good attribution_panel));
    [apply exchange_call|apply exchange_call|apply sound_if; [apply sound_attribution|apply sound_ret]|done|].
  intros ra rb y rc F.
  apply (exchange_unwrap _ (js "/api/v1/applications")); [by left|]. intros d D.
  apply (exchange_unwrap _ (js "/api/v1/groups")); [by right; left|]. intros d' D'.
  apply sound_after; [solve_sound|]. constructor; [apply okay_unwrap; eauto|]. constructor; [apply okay_unwrap; eauto|exact F].
Qed.

Lemma contract_usage now sp : page_contract none None (UsagePage first_rejected now sp : M St Bk (rendered usage_props)).
Proof.
  unfold UsagePage. apply contract_bind; [apply local_session|]. intros session. cbv zeta. apply contract_page_try.
  apply sound_bind; [apply sound_client|]. intros c.
  apply (sound_joined _ (js "/api/v1/usage") (js "/api/v1/usage/summary") _ _ _ (replied (js "/api/v1/usage/timeseries")));
    [apply exchange_call..|apply replied_thrown|].
  intros ra rb y rc [-> _].
  apply (exchange_unwrap _ (js "/api/v1/usage")); [by left|]. intros d D.
  apply exchange_local.
  { destruct d as [[]|]; try apply local_ret. apply exchange_silent; [done|]. intros w. split; [done|]. by eexists _, _. }
  intros []. apply (exchange_unwrap _ (js "/api/v1/usage/summary")); [by right; left|]. intros d' D'.
  apply (exchange_unwrap _ (js "/api/v1/usage/timeseries")); [by right; right; left|]. intros d'' D''.
  apply sound_after; [solve_sound|]. repeat (constructor; [apply okay_unwrap; eauto|]). constructor.
Qed.

Lemma contract_budget_detail t id sp :
  page_contract none (Some (t (js "forbiddenRead"))) (BudgetDetail first_rejected t id sp : M St Bk (rendered budget_detail)).
Proof.
  unfold BudgetDetail. apply contract_bind; [apply local_session|]. intros session. cbv zeta.
  apply contract_bind; [apply local_detail_tenant|]. intros trimmed.
  destruct (negb (has session "budget.read")); [apply contract_notice|].
  destruct (in_scope session "global" && _); [apply contract_shown|]. apply contract_own, contract_page_try.
  apply sound_bind; [apply sound_client|]. intros c.
  apply (sound_joined _ (js "/api/v1/budgets/{id}") (js "/api/v1/budgets/{id}/accounts") _ _ _ (fun rs x => match x with
    | Ret (Some r) => rs = [(js "/api/v1/quotas", Ret r)] | Ret None => rs = [] | Throw e => thrown_by rs e end));
    [apply exchange_call|apply exchange_call| |done|].
  { unfold quota_request. destruct (has session "quota.read"); [|by apply exchange_silent].
    intros w x w'. unfold fmap, M_fmap. destruct (call _ _ _ _ w) as [r w1] eqn:E.
    destruct (exchange_call _ _ _ _ _ _ _ E) as (rs & R & -> & B). destruct r as [r|e]; intros [= <- <-]; eexists; (split; [exact R|]); [done|by left]. }
  intros ra rb y rc Q.
  apply (exchange_unwrap _ (js "/api/v1/budgets/{id}")); [by left|]. intros d D.
  apply (exchange_unwrap _ (js "/api/v1/budgets/{id}/accounts")); [by right; left|]. intros d' D'.
  apply exchange_local; [apply local_lift; solve_plainr|]. intros accounts.
  destruct y as [r|]; subst rc.
  - apply (exchange_unwrap _ (js "/api/v1/quotas")); [by right; right; left|]. intros q Dq.
    apply sound_after; [solve_sound|]. repeat (constructor; [apply okay_unwrap; eauto|]). constructor.
  - apply sound_after; [solve_sound|]. repeat (constructor; [apply okay_unwrap; eauto|]). constructor.
Qed.

End Joined.

#[local] Hint Resolve local_session local_decode local_tenant sound_detail sound_attribution contract_notice contract_shown : page.

Ltac solve_page := repeat first
  [ apply contract_page_try; solve_sound
  | progress auto 2 with page
  | apply contract_bind; [solve [auto 2 with page]|intros ?]
  | match goal with |- page_contract _ _ (if ?b then _ else _) => destruct b end ].

Lemma contract_session_detail id : page_contract metadata None (SessionDetailPage id : M St Bk (rendered session_detail_props)).
Proof.
  unfold SessionDetailPage. apply contract_bind; [apply local_decode|]. intros sid. apply contract_page_try.
  apply sound_bind; [apply sound_client|]. intros c. apply sound_bind; [|intros meta; solve_sound].
  apply (sound_tolerate _ (js "/api/v1/request-logs/sessions/{session_id}")).
  - apply one_then_local; [apply one_get|]. intros d. apply local_bind; [apply local_lift; solve_plainr|]. intros r.
    apply local_bind; [apply local_lift; solve_plainr|]. intros cs. apply local_ret.
  - intros e. left. eexists. split; [reflexivity|]. apply streq_refl.
Qed.

Lemma contract_api_keys fuel sp : page_contract none None (APIKeysPage fuel sp : M St Bk (rendered (option api_keys_props))).
Proof.
  assert (D : forall c path options, (forall l, plainr (options l)) ->
    sound none (drain fuel c path options None [] : M St Bk (option (list option_item)))) by (intros; by apply sound_drain).
  unfold APIKeysPage. apply contract_page_try. solve_sound; apply D; intros ?; solve_plainr.
Qed.

(** C12: a page of the Control Panel issues GET requests only and leaves the
    session cookie and the caches alone.  It renders its component only when
    every reply carried data; the no-permission notice shows the message of
    a 403 one of its requests was answered, and the redirect goes to the
    logout route after a 401: neither escapes as an exception.  A refusal that
    does escape is one the API answered; errors of the network, of the
    configuration and of malformed addresses or replies are left to the
    framework.  The exceptions are in the statement: a session's metadata, a 404 of a trace row, the attribution
    panel (but for a 401) and the balance of the quota page may fail without
    the page failing; the budget pages have a notice of their own, shown before any
    request; and the audit page lets a 403 escape. *)
Theorem pages_contract (first_rejected : exn -> list exn -> exn) (rejects_one : forall x xs, first_rejected x xs ∈ x :: xs)
  (now : Z) (tz : TimeZone) (t : jstr -> jstr) (sp : params) (id req : jstr) (fuel : nat) :
  (forall path, page_contract none None (cursor_page path sp : M St Bk _)) /\
  page_contract none None (DataPlaneNodesPage : M St Bk _) /\ page_contract none None (SettingsPage : M St Bk _) /\
  page_contract none None (RoutesPage sp : M St Bk _) /\ page_contract none None (OperatorsPage sp : M St Bk _) /\
  page_contract none None (RolesPage : M St Bk _) /\ page_contract none None (ModelsPage sp : M St Bk _) /\
  page_contract none None (ModelCatalogPage sp : M St Bk _) /\ page_contract none None (ModelDetailPage id : M St Bk _) /\
  page_contract none None (CatalogDetailPage id : M St Bk _) /\ page_contract none None (APIKeysPage fuel sp : M St Bk _) /\
  page_contract none None (TracePage sp : M St Bk _) /\ page_contract none None (SessionTracePage id : M St Bk _) /\
  page_contract none None (UsagePage first_rejected now sp : M St Bk _) /\
  page_contract none None (RequestLogsPage now sp : M St Bk _) /\ page_contract none None (OverviewPage now sp : M St Bk _) /\
  page_contract metadata None (SessionDetailPage id : M St Bk _) /\
  page_contract row_gone None (TraceRawPage id req : M St Bk _) /\ page_contract row_gone None (TraceMessagesPage id req : M St Bk _) /\
  page_contract attribution_panel None (ApplicationsPage first_rejected now sp : M St Bk _) /\
  page_contract balance None (QuotasPage : M St Bk _) /\
  page_contract none (Some (t (js "forbiddenRead"))) (BudgetsPage t sp : M St Bk _) /\
  page_contract none (Some (t (js "forbiddenRead"))) (BudgetDetail first_rejected t id sp : M St Bk _) /\
  exchange (Page <$> (AuditPage now sp : M St Bk _)) (page_outcome none None false).
Proof.
  split_and!; intros;
    first [by apply contract_usage|by apply contract_applications|by apply contract_budget_detail|by apply contract_session_detail
          |by apply contract_quotas|by apply contract_audit|by apply contract_api_keys|idtac];
    unfold cursor_page, DataPlaneNodesPage, SettingsPage, RoutesPage, OperatorsPage, RolesPage, ModelsPage, ModelCatalogPage,
      ModelDetailPage, CatalogDetailPage, TracePage, SessionTracePage, TraceRawPage, TraceMessagesPage, RequestLogsPage,
      OverviewPage, BudgetsPage; cbv zeta; solve_page.
  apply contract_own, contract_page_try. solve_sound.
Qed.

End Contracts.

(** ** A refusing back end *)

Section Denied.
  Context {St Bk : Type} `{IronSession St} `{AdminApi Bk}.
  (** Every request is answered by [r], which unwraps to the error [e]. *)
  Variables (r : api_result) (st : Z) (ty msg : jstr).
Let e := EAdmin st ty msg.
  Hypothesis answers : forall c m p o b, exists b', api_call c m p o b = (Ret r, b').
  Hypothesis refused : unwrap (Ret r) = Throw e.

















Section Concurrent.
  Variable first_rejected : exn -> list exn -> exn.
  Hypothesis rejects_one : forall x xs, first_rejected x xs ∈ x :: xs.

















End Concurrent.
End Denied.

(** A back end that refuses everything. *)
Module Refusing.

#[global] Instance refusing : AdminApi unit := fun _ _ _ _ b => (Ret (Reference.reply 403 None (Reference.envelope "no"%string)), b).



End Refusing.


(** A page refused by the API at its second request. *)
Lemma pages_contract_witness :
  let w := Reference.world0 [Reference.reply 200 (Some (JObj [])) None; Reference.reply 403 None (Reference.envelope "no"%string)] in
  (RolesPage w).1 = Ret (Notice (js "no")) /\
  exists rs, reads w (RolesPage w).2 rs /\ exists ty, refusal rs (EAdmin 403 ty (js "no")).
Proof.
  cbv zeta. set (w := Reference.world0 _). split; [reflexivity|].
  destruct (pages_contract (fun x _ => x) (fun x xs => list_elem_of_here x xs) 0 beijing (fun k => k) [] (js "m") (js "7") 1)
    as (_ & _ & _ & _ & _ & R & _).
  destruct (R w (Ret (Notice (js "no"))) (RolesPage w).2) as (rs & Hr & [[? _]|Q]); [reflexivity|discriminate|].
  exists rs. split; [exact Hr|exact Q].
Defined.

(** ** Reading a list to its end *)

Section Drain.
  Context {St Bk : Type} `{IronSession St} `{AdminApi Bk}.
  Variables (client : AdminClient) (path : jstr).

Definition drain_opts (cursor : unknown) : api_opts :=
  {| path_params := []; query_params := [(js "limit", Some (JNum (int 500))); (js "cursor", cursor)]; body := None |}.

(** The pages the back end serves one after the other, from a cursor to the
    first reply without one. *)
Inductive chain : Bk -> unknown -> list (list json) -> Bk -> Prop :=
  | chain_last b cursor res page rows next b' :
      api_call client GET path (drain_opts cursor) b = (Ret res, b') -> unwrap (Ret res) = Ret page ->
      member_or page "data" (JArr []) = Ret (JArr rows) -> member page "next_cursor" = Ret next -> truthy next = false ->
      chain b cursor [rows] b'
  | chain_more b cursor res page rows next b' pages b'' :
      api_call client GET path (drain_opts cursor) b = (Ret res, b') -> unwrap (Ret res) = Ret page ->
      member_or page "data" (JArr []) = Ret (JArr rows) -> member page "next_cursor" = Ret next -> truthy next = true ->
      chain b' next pages b'' -> chain b cursor (rows :: pages) b''.

(** [w] after [n] more requests for the list. *)
Definition advanced (w w' : world St Bk) (b' : Bk) (n : nat) : Prop :=
  w_env w' = w_env w /\ w_store w' = w_store w /\ w_backend w' = b' /\
  exists calls, w_log w' = w_log w ++ calls /\ length calls = n /\ Forall (fun ev => exists o, ev = Sent client GET path o) calls.

Lemma drain_step f options cursor acc (w : world St Bk) res page rows next items b' :
  api_call client GET path (drain_opts cursor) (w_backend w) = (Ret res, b') -> unwrap (Ret res) = Ret page ->
  member_or page "data" (JArr []) = Ret (JArr rows) -> member page "next_cursor" = Ret next -> options rows = Ret items ->
  drain (S f) client path options cursor acc w =
  (if truthy next then drain f client path options next (acc ++ items) else mret (Some (acc ++ items)))
    {| w_env := w_env w; w_store := w_store w; w_backend := b'; w_log := w_log w ++ [Sent client GET path (drain_opts cursor)] |}.
Proof.
  intros A U D N O. cbn [drain]. unfold get, get_with. unfold mbind, M_bind, api, drain_opts in *. rewrite A. unfold lift. rewrite U.
  rewrite D. unfold mbind, result_bind. cbn [elements]. rewrite O, N. done.
Qed.

(** The loop reads every page of a finite list, in order, with one request per
    page, and stops. *)
Lemma drain_complete options fuel cursor pages itemss acc (w : world St Bk) b' :
  chain (w_backend w) cursor pages b' -> Forall2 (fun rows items => options rows = Ret items) pages itemss ->
  (length pages <= fuel)%nat ->
  exists w', drain fuel client path options cursor acc w = (Ret (Some (acc ++ concat itemss)), w') /\
    advanced w w' b' (length pages).
Proof.
  intros C. remember (w_backend w) as b eqn:B. revert w B fuel itemss acc.
  induction C as [b cursor res page rows next b' A U D N T|b cursor res page rows next b' pages b'' A U D N T C IH];
    intros w -> fuel itemss acc F L; apply Forall2_cons_inv_l in F as (items & rest & O & F & ->);
    (destruct fuel as [|f]; [simpl in L; lia|]); (erewrite drain_step by eassumption); rewrite T.
  - apply Forall2_nil_inv_l in F as ->. cbn [concat]. rewrite app_nil_r. eexists. split; [reflexivity|].
    split_and!; try done. eexists. split; [reflexivity|]. split; [done|]. repeat constructor. by eexists.
  - destruct (IH {| w_env := w_env w; w_store := w_store w; w_backend := b';
                    w_log := w_log w ++ [Sent client GET path (drain_opts cursor)] |} eq_refl f rest (acc ++ items) F)
      as (w' & E & E1 & E2 & E3 & calls & L1 & L2 & L3); [simpl in L; lia|].
    exists w'. rewrite E. cbn [concat]. rewrite app_assoc. split; [done|]. split_and!; try done.
    exists (Sent client GET path (drain_opts cursor) :: calls). rewrite L1. cbn [w_log]. rewrite <- app_assoc. simpl.
    split; [done|]. split; [by f_equal|]. constructor; [by eexists|done].
Qed.

End Drain.

Section APIKeys.
  Context {St Bk : Type} `{IronSession St} `{AdminApi Bk}.

(** C26: The API-key page offers every group, every enabled application and
    every model: whenever the three lists are finite chains of pages, its
    loops end (one request per page is enough fuel) and the options it passes
    on are those of all the pages in order. *)
Theorem api_keys_options sp fuel (w : world St Bk) client res page rows next b1 b2 b3 b4 gs as_ ms g a m :
  serverAdminClient w = (Ret client, w) ->
  api_call client GET "/api/v1/api-keys" {| path_params := []; query_params := api_keys_query sp; body := None |} (w_backend w) = (Ret res, b1) ->
  unwrap (Ret res) = Ret page -> member_or page "data" (JArr []) = Ret rows -> member_or page "next_cursor" (JStr []) = Ret next ->
  chain client "/api/v1/groups" b1 None gs b2 -> chain client "/api/v1/applications" b2 None as_ b3 ->
  chain client "/api/v1/models" b3 None ms b4 ->
  Forall2 (fun rows items => group_options rows = Ret items) gs g ->
  Forall2 (fun rows items => application_options rows = Ret items) as_ a ->
  Forall2 (fun rows items => model_options rows = Ret items) ms m ->
  (Nat.max (length gs) (Nat.max (length as_) (length ms)) <= fuel)%nat ->
  exists w', APIKeysPage fuel sp w =
    (Ret (Page (Some {| kp_list := {| lp_rows := rows; lp_nextCursor := next |}; kp_models := concat m; kp_groups := concat g;
                        kp_applications := concat a; kp_unbound := is_str (search_param sp "unbound") "true" |})), w').
Proof.
  intros C A U D N Cg Ca Cm Fg Fa Fm L. unfold APIKeysPage, page_try, try_catch, fmap, M_fmap. unfold mbind, M_bind. rewrite C.
  unfold get, get_with. unfold mbind, M_bind, api. rewrite A. unfold lift. rewrite U.
  set (w1 := {| w_env := _; w_store := _; w_backend := b1; w_log := _ |}).
  destruct (drain_complete client (js "/api/v1/groups") group_options fuel None gs g [] w1 b2 Cg Fg) as (w2 & -> & _ & _ & B2 & _); [lia|].
  destruct (drain_complete client (js "/api/v1/applications") application_options fuel None as_ a [] w2 b3) as (w3 & -> & _ & _ & B3 & _);
    [by rewrite B2|done|lia|].
  destruct (drain_complete client (js "/api/v1/models") model_options fuel None ms m [] w3 b4) as (w4 & -> & _);
    [by rewrite B3|done|lia|].
  rewrite D, N. by exists w4.
Qed.

End APIKeys.

(** Two pages of groups, one application disabled, one model. *)
Module KeyLists.

Definition obj (l : list (string * json)) : json := JObj (map (fun kv => (js kv.1, kv.2)) l).
Definition reply_page (rows : list json) (next : string) : api_result :=
  Reference.reply 200 (Some (obj [("data"%string, JArr rows); ("next_cursor"%string, JStr (js next))])) None.
Definition group1 : json := obj [("id"%string, JNum (int 1)); ("name"%string, JStr (js "a"))].
Definition group2 : json := obj [("id"%string, JNum (int 2))].
Definition app1 : json := obj [("id"%string, JNum (int 3)); ("enabled"%string, JBool false)].
Definition model1 : json := obj [("alias"%string, JStr (js "gpt"))].

Definition key_replies : list api_result :=
  [reply_page [] ""; reply_page [group1] "c"; reply_page [group2] ""; reply_page [app1] ""; reply_page [model1] ""].

End KeyLists.

Lemma api_keys_options_witness : exists w' props,
  APIKeysPage 2 [] (Reference.world0 KeyLists.key_replies) = (Ret (Page (Some props)), w') /\
  map oi_label (kp_groups props) = [JStr (js "a"); JStr (js "2")] /\ kp_applications props = [].
Proof.
  destruct (serverAdminClient (Reference.world0 KeyLists.key_replies)) as [[c|] ?] eqn:C; [|by vm_compute in C].
  edestruct (api_keys_options [] 2 (Reference.world0 KeyLists.key_replies) c) with (as_ := [[KeyLists.app1]])
    (gs := [[KeyLists.group1]; [KeyLists.group2]]) (ms := [[KeyLists.model1]]) as [w' E].
  - injection C as <- <-. reflexivity.
  - reflexivity.
  - reflexivity.
  - reflexivity.
  - reflexivity.
  - eapply chain_more; [reflexivity..|]. eapply chain_last; reflexivity.
  - eapply chain_last; reflexivity.
  - eapply chain_last; reflexivity.
  - repeat constructor.
  - repeat constructor.
  - repeat constructor.
  - simpl. lia.
  - eexists _, _. split; [exact E|]. split; reflexivity.
Defined.

(** ** Addresses *)

Lemma find_alias_some l alias m : Forall (fun x => exists o, x = JObj o) l -> m ∈ l -> opt_prop (Some m) "alias" = Some (JStr alias) ->
  exists x, find_alias l alias = Ret (Some x) /\ x ∈ l /\ opt_prop (Some x) "alias" = Some (JStr alias).
Proof.
  induction 1 as [|y l [o ->] _ IH]; [by rewrite elem_of_nil|]. intros I A. cbn [find_alias]. unfold mbind, result_bind. cbn [prop].
  destruct (is_str (lookup_prop (js "alias") o) alias) eqn:E.
  - exists (JObj o). split; [done|]. split; [by left|]. unfold is_str in E. simpl.
    destruct (lookup_prop (js "alias") o) as [[]|]; try done. by apply streq_true in E as ->.
  - apply elem_of_cons in I as [-> |I].
    + simpl in A. rewrite A in E. simpl in E. by rewrite streq_refl in E.
    + destruct (IH I A) as (x & -> & Ix & Ax). exists x. split; [done|]. split; [by right|done].
Qed.

Section Links.
  Context {St Bk : Type} `{IronSession St} `{AdminApi Bk}.

(** The address of a model card opens that model: encoded into the path
    and decoded by the detail page, any alias of the list comes back, and the
    page shows a model with exactly that alias. *)
Theorem model_link_opens alias l m (w : world St Bk) client s b' :
  isWellFormed alias = true -> wf_str alias -> Forall (fun x => exists o, x = JObj o) l -> m ∈ l ->
  opt_prop (Some m) "alias" = Some (JStr alias) ->
  serverAdminClient w = (Ret client, w) -> getSession w = (Ret s, w) -> scopeKind s <> Some (js "global") ->
  api_call client GET "/api/v1/models" {| path_params := []; query_params := limit_query 1000; body := None |} (w_backend w)
    = (Ret (Reference.reply 200 (Some (JObj [(js "data", JArr l)])) None), b') ->
  exists segment x, encodeURIComponent alias = Ret segment /\
    (ModelDetailPage segment w).1 = Ret (Page (Some x, false, [])) /\ opt_prop (Some x) "alias" = Some (JStr alias).
Proof.
  intros Wf U Hl I A C G Ns R. destruct (component_roundtrip alias Wf U) as (e & E & D).
  destruct (find_alias_some l alias m Hl I A) as (x & F & _ & Ax). exists e, x. split; [done|]. split; [|done].
  assert (Sc : in_scope s (js "global") = false).
  { unfold in_scope. destruct (scopeKind s) as [k|]; [|done]. apply streq_false. congruence. }
  unfold ModelDetailPage. unfold mbind, M_bind, lift at 1. rewrite D, G, Sc. unfold page_try, try_catch, fmap, M_fmap.
  unfold mbind, M_bind. rewrite C. unfold fetch_models, get, get_with. unfold mbind, M_bind, api. rewrite R.
  unfold lift, unwrap. cbn [mbind result_bind Reference.reply]. unfold mbind, result_bind. simpl. by rewrite F.
Qed.

End Links.

(** The message page asks for the session by the text of its address, without
    decoding it as the session page does: the session [a b], whose link is
    [a%20b], is looked up under the name [a%20b]. *)
Theorem messages_page_undecoded :
  let asked (pg : M SessionData (list api_result) (rendered _)) :=
    omap (fun ev => match ev with Sent _ _ p o => head (path_params o) | _ => None end)
      (w_log (pg (Reference.world0 [Reference.reply 200 (Some (JObj [])) None; Reference.reply 200 (Some (JObj [])) None])).2) in
  encodeURIComponent (js "a b") = Ret (js "a%20b") /\
  asked (TraceMessagesPage (js "a%20b") (js "7")) = [(js "id", JNum (int 7)); (js "session_id", JStr (js "a%20b"))] /\
  omap (fun ev => match ev with Sent _ _ p o => head (path_params o) | _ => None end)
    (w_log (SessionDetailPage (js "a%20b") (Reference.world0 [])).2) = [(js "session_id", JStr (js "a b")); (js "session_id", JStr (js "a b"))].
Proof. vm_compute. done. Qed.

Lemma model_link_opens_witness : exists segment x, encodeURIComponent (js "gpt/4 o") = Ret segment /\
  (ModelDetailPage segment {| w_env := Reference.env0; w_store := empty_session;
     w_backend := [Reference.reply 200 (Some (JObj [(js "data", JArr [JObj [(js "alias", JStr (js "gpt/4 o"))]])])) None]; w_log := [] |}).1
  = Ret (Page (Some x, false, [])) /\ opt_prop (Some x) "alias" = Some (JStr (js "gpt/4 o")).
Proof.
  eapply (model_link_opens (js "gpt/4 o") [JObj [(js "alias", JStr (js "gpt/4 o"))]] (JObj [(js "alias", JStr (js "gpt/4 o"))])).
  - reflexivity.
  - repeat constructor; vm_compute; done.
  - repeat constructor. by eexists.
  - by left.
  - reflexivity.
  - reflexivity.
  - reflexivity.
  - done.
  - reflexivity.
Defined.
