(* ===== verification/SearchPages.v ===== *)
(** * Filters and paging through the address

    The client components that keep their filters in the query string —
    request logs, audit log, usage, budgets, models, trace sessions — and the
    next-page buttons of the tables, composed with the server pages of
    [AdminPages] that read the same address. *)

From S2P Require Import Prelude JsNumber Money JsString Json AdminRuntime FormActions DesktopApi Urls Calendar DateRanges AdminPages.

(** ** Addresses *)

(** [`${path}?${params.toString()}`] *)
Definition href (path : jstr) (ps : params) : jstr := path ++ js "?" ++ usp_string ps.

Fixpoint after_question (s : jstr) : jstr :=
  match s with [] => [] | c :: t => if c =? 63 then t else after_question t end.

(** The parameters the page at an address sees. *)
Definition search_of (h : jstr) : params := usp_parse (after_question h).

(** [if (v) params.set(k, v)], one call after the other on a new object. *)
Definition set_all (l : params) (ps : params) : params := foldl (fun ps kv => usp_set_if kv.1 kv.2 ps) ps l.

(** [new URLSearchParams(searchParams.toString())] *)
Definition copy_params (ps : params) : params := usp_parse (usp_string ps).

(** ** Paging *)

Inductive paging : Type := ToPage (p : num) | ToPageSize (s : num).

Definition pushParams (path : jstr) (next : paging) (searchParams : params) : jstr :=
  let ps := copy_params searchParams in
  href path (match next with
             | ToPageSize s => usp_set "page" (js "1") (usp_set "page_size" (num_to_string s) ps)
             | ToPage p => usp_set "page" (num_to_string p) ps
             end).

(** The next-page button of the cursor tables. *)
Definition goNext (path nextCursor : jstr) (searchParams : params) : jstr :=
  href path (usp_set "cursor" nextCursor (copy_params searchParams)).

(** The snapshot list starts from no parameters. *)
Definition loadMore (nextCursor : jstr) : jstr := href "/config/history" (usp_set_if "cursor" nextCursor []).

(** ** Request logs *)

Section Dates.
  Context `{TimeZone}.
  (** Date strings outside the ISO format. *)
  Variable other : jstr -> option Z.

(** [set(k, formData.get(k))] as the pair it sets. *)
Definition entry_pair (fd : FormData) (k : jstr) : jstr * jstr :=
  (k, match fd_get fd k with Some e => entry_string e | None => [] end).

(** [formData.get(k) ? localDatetimeToRfc3339(formData.get(k)) : null] *)
Definition date_pair (fd : FormData) (k : jstr) : jstr * jstr := (k, localDatetimeToRfc3339 other (entry_pair fd k).2).

Definition request_log_keys : list jstr :=
  map js ["tenant"; "group_name"; "api_key_id"; "provider"; "model_requested"; "error_type"; "blocked_by"; "stream";
          "fallback"; "session_id"; "ingress_protocol"; "environment"].

Definition request_log_pairs (unattributed : bool) (fd : FormData) : params :=
  [date_pair fd "from"; date_pair fd "to"] ++ map (entry_pair fd) request_log_keys
  ++ [if unattributed then (js "unattributed", js "true") else entry_pair fd "application_id"].

(** [applyFilter] of the request-log page. *)
Definition applyFilter (pageSize : num) (unattributed : bool) (fd : FormData) : jstr :=
  href "/request-logs" (set_all (request_log_pairs unattributed fd) (usp_set "page_size" (num_to_string pageSize) [])).

(** The values of the form's inputs. *)
Record log_inputs : Type := {
  i_from : jstr; i_to : jstr; i_tenant : jstr; i_group_name : jstr; i_api_key_id : jstr; i_application_id : jstr;
  i_environment : jstr; i_unattributed : bool; i_provider : jstr; i_model_requested : jstr; i_error_type : jstr;
  i_blocked_by : jstr; i_stream : jstr; i_fallback : jstr; i_session_id : jstr; i_ingress_protocol : jstr;
}.

Definition text (k : string) (v : jstr) : jstr * entry := (js k, FText v).

(** What the form submits: no tenant input but for a super-admin, and a
    disabled application input while only unattributed rows are wanted. *)
Definition log_form (super : bool) (i : log_inputs) : FormData :=
  [text "from" (i_from i); text "to" (i_to i)]
  ++ (if super then [text "tenant" (i_tenant i)] else [])
  ++ [text "group_name" (i_group_name i); text "api_key_id" (i_api_key_id i)]
  ++ (if i_unattributed i then [] else [text "application_id" (i_application_id i)])
  ++ [text "environment" (i_environment i)]
  ++ (if i_unattributed i then [text "unattributed" (js "on")] else [])
  ++ [text "provider" (i_provider i); text "model_requested" (i_model_requested i); text "error_type" (i_error_type i);
      text "blocked_by" (i_blocked_by i); text "stream" (i_stream i); text "fallback" (i_fallback i);
      text "session_id" (i_session_id i); text "ingress_protocol" (i_ingress_protocol i)].

(** How the browser fills an input of a kind from its default value. *)
Inductive input_kind : Type := DatetimeInput | TextInput | NumberInput | SelectInput.
Variable sanitize : input_kind -> jstr -> jstr.

(** The form as the address fills it. *)
Definition opened (sp : params) : log_inputs := {|
  i_from := sanitize DatetimeInput (rfc3339ToLocalDatetime other (usp_text sp "from"));
  i_to := sanitize DatetimeInput (rfc3339ToLocalDatetime other (usp_text sp "to"));
  i_tenant := sanitize TextInput (usp_text sp "tenant");
  i_group_name := sanitize TextInput (usp_text sp "group_name");
  i_api_key_id := sanitize TextInput (usp_text sp "api_key_id");
  i_application_id := sanitize NumberInput (usp_text sp "application_id");
  i_environment := usp_text sp "environment";
  i_unattributed := match usp_get sp "unattributed" with Some v => streq v "true" | None => false end;
  i_provider := sanitize TextInput (usp_text sp "provider");
  i_model_requested := sanitize TextInput (usp_text sp "model_requested");
  i_error_type := sanitize TextInput (usp_text sp "error_type");
  i_blocked_by := sanitize TextInput (usp_text sp "blocked_by");
  i_stream := sanitize SelectInput (usp_text sp "stream");
  i_fallback := sanitize SelectInput (usp_text sp "fallback");
  i_session_id := sanitize TextInput (usp_text sp "session_id");
  i_ingress_protocol := sanitize SelectInput (usp_text sp "ingress_protocol") |}.

(** The reset button is shown. *)
Definition hasFilters (sp : params) (environment : jstr) (unattributed : bool) : bool :=
  existsb (fun k => negb (str_empty (usp_text sp (js k))))
    ["from"; "to"; "tenant"; "group_name"; "api_key_id"; "provider"; "model_requested"; "error_type"; "blocked_by";
     "stream"; "fallback"; "session_id"; "ingress_protocol"; "application_id"]%string
  || negb (str_empty environment) || unattributed.

(** ** Audit log *)

Definition auditApplyFilter (pageSize : num) (fd : FormData) : jstr :=
  href "/audit" (set_all [date_pair fd "from"; date_pair fd "to"; entry_pair fd "resource_type"; entry_pair fd "action"]
                   (usp_set "page_size" (num_to_string pageSize) [])).

(** ** Usage *)

(** The environment and the checkbox are read from the component's state. *)
Definition usageApplyFilter (environment : jstr) (unattributed : bool) (fd : FormData) : jstr :=
  href "/usage" (set_all ([date_pair fd "from"; date_pair fd "to"] ++ map (entry_pair fd) (map js ["tenant"; "provider"; "model"; "group_by"])
    ++ [(js "environment", environment);
        if unattributed then (js "unattributed", js "true") else entry_pair fd "application_id"]) []).

End Dates.

(** ** Budgets, models and traces *)

(** [navigate(changes)]: every change but a cursor's drops the cursor. *)
Definition navigate (changes : params) (searchParams : params) : jstr :=
  href "/budgets" (foldl (fun ps kv => usp_assign kv.1 kv.2 ps) (usp_delete "cursor" (copy_params searchParams)) changes).

Definition applyParam (key value : jstr) (searchParams : params) : jstr :=
  href "/models" (usp_assign key value (copy_params searchParams)).

(** The agent filter rewrites the current location. *)
Definition agent_filter (v : jstr) (searchParams : params) : params := usp_assign "agent_type" v searchParams.

(** ** Lemmas: addresses *)

(** Text without lone surrogates. *)
Definition clean (s : jstr) : Prop := wf_str s /\ isWellFormed s = true.
Definition clean_pair (kv : jstr * jstr) : Prop := clean kv.1 /\ clean kv.2.

Lemma ascii_clean s : Forall (fun c => 0 <= c < 128) s -> clean s.
Proof.
  induction 1 as [|c s Hc _ [W I]]; [by split; [constructor|]|]. split.
  - constructor; [unfold unit_ok; lia|done].
  - cbn [isWellFormed]. unfold is_low, is_high. by decide_tests.
Qed.

Lemma clean_param_id kv : clean_pair kv -> clean_param kv = kv.
Proof. destruct kv as [k v]. intros [[W1 I1] [W2 I2]]. unfold clean_param. by rewrite !toWellFormed_id. Qed.

Lemma parse_string_id ps : Forall clean_pair ps -> usp_parse (usp_string ps) = ps.
Proof.
  intros F. rewrite usp_roundtrip.
  - induction F; [done|]. cbn [map]. by rewrite clean_param_id, IHF.
  - eapply Forall_impl; [done|]. intros kv [[W1 _] [W2 _]]. done.
Qed.

Lemma after_question_app p s : 63 ∉ p -> after_question (p ++ 63 :: s) = s.
Proof.
  induction p as [|c p IH]; intros N; [done|]. apply not_elem_of_cons in N as [N1 N2]. cbn [app after_question].
  rewrite (proj2 (Z.eqb_neq c 63)) by congruence. by apply IH.
Qed.

(** The page at an address built by the client sees the parameters set. *)
Lemma search_of_href path ps : 63 ∉ path -> Forall clean_pair ps -> search_of (href path ps) = ps.
Proof. intros N F. unfold search_of, href. change (js "?") with [63]. cbn [app]. by rewrite after_question_app, parse_string_id. Qed.

Lemma usp_set_new k v ps : k ∉ map fst ps -> usp_set k v ps = ps ++ [(k, v)].
Proof.
  induction ps as [|[a w] ps IH]; intros N; [done|]. apply not_elem_of_cons in N as [N1 N2]. cbn [usp_set app fst] in *.
  rewrite (proj2 (streq_false k a)) by done. by rewrite IH.
Qed.

Definition nonempty_pairs (l : params) : params := List.filter (fun kv => negb (str_empty kv.2)) l.

Lemma set_all_filter l ps : NoDup (map fst (ps ++ l)) -> set_all l ps = ps ++ nonempty_pairs l.
Proof.
  revert ps. induction l as [|[k v] l IH]; intros ps N; [symmetry; apply app_nil_r|]. cbn [set_all foldl fst snd nonempty_pairs List.filter].
  fold (set_all l (usp_set_if k v ps)). fold (nonempty_pairs l). unfold usp_set_if. destruct v as [|c v]; cbn [str_empty negb].
  - apply IH. rewrite map_app in *. cbn [map fst] in N. apply NoDup_app in N as (N1 & N2 & N3). apply NoDup_cons in N3 as [_ N3].
    apply NoDup_app. split_and!; [done| |done]. intros x Hx Hy. apply (N2 x Hx). by right.
  - rewrite usp_set_new.
    + rewrite IH; [by rewrite <- app_assoc|]. by rewrite <- app_assoc.
    + rewrite map_app in N. apply NoDup_app in N as (_ & N & _). intros I. apply (N k I). by left.
Qed.

Lemma usp_get_app ps qs k : usp_get (ps ++ qs) k = match usp_get ps k with Some v => Some v | None => usp_get qs k end.
Proof. induction ps as [|[a v] ps IH]; [done|]. cbn [app usp_get]. by destruct (streq k a). Qed.

Lemma usp_get_fst l k : k ∉ map fst l -> usp_get l k = None.
Proof.
  induction l as [|[a v] l IH]; [done|]. cbn [map fst usp_get]. rewrite not_elem_of_cons. intros [N1 N2].
  by rewrite (proj2 (streq_false k a)), IH.
Qed.

Definition set_value (v : jstr) : option jstr := if str_empty v then None else Some v.

Lemma nonempty_fst l k : k ∈ map fst (nonempty_pairs l) -> k ∈ map fst l.
Proof.
  intros I. apply list_elem_of_In, in_map_iff in I as (x & <- & I). apply filter_In in I as [I _]. by apply list_elem_of_In, in_map.
Qed.

Lemma usp_get_nonempty l k : once l -> usp_get (nonempty_pairs l) k = (usp_get l k ≫= set_value).
Proof.
  unfold once. induction l as [|[a v] l IH]; [done|]. cbn [map fst]. intros N. apply NoDup_cons in N as [N1 N2].
  cbn [nonempty_pairs List.filter snd usp_get]. fold (nonempty_pairs l). destruct (streq k a) eqn:E.
  - bool_to_prop. subst a. unfold set_value. cbn [mbind option_bind]. destruct (str_empty v); cbn [negb].
    + apply usp_get_fst. intros I. by apply N1, nonempty_fst.
    + cbn [usp_get]. by rewrite streq_refl.
  - destruct (str_empty v); cbn [negb usp_get]; rewrite ?E; by apply IH.
Qed.

Lemma once_nonempty l : once l -> once (nonempty_pairs l).
Proof.
  unfold once. induction l as [|[a v] l IH]; [done|]. cbn [map fst]. intros N. apply NoDup_cons in N as [N1 N2].
  cbn [nonempty_pairs List.filter snd]. fold (nonempty_pairs l). destruct (str_empty v); cbn [negb map fst]; [by apply IH|].
  constructor; [|by apply IH]. intros I. by apply N1, nonempty_fst.
Qed.

Lemma nonempty_clean l : Forall clean_pair l -> Forall clean_pair (nonempty_pairs l).
Proof. induction 1; [constructor|]. cbn [nonempty_pairs List.filter]. case_match; [by constructor|done]. Qed.

Lemma usp_delete_clean k ps : Forall clean_pair ps -> Forall clean_pair (usp_delete k ps).
Proof. induction 1; [constructor|]. cbn [usp_delete List.filter]. case_match; [by constructor|done]. Qed.

Lemma usp_set_clean k v ps : clean k -> clean v -> Forall clean_pair ps -> Forall clean_pair (usp_set k v ps).
Proof.
  intros Ck Cv. induction 1 as [|[a w] ps Hp Hps IH]; cbn [usp_set]; [by apply Forall_singleton|].
  case_match; constructor; try done. by apply usp_delete_clean.
Qed.

Lemma usp_assign_clean k v ps : clean k -> clean v -> Forall clean_pair ps -> Forall clean_pair (usp_assign k v ps).
Proof. intros. unfold usp_assign. case_match; [by apply usp_delete_clean|by apply usp_set_clean]. Qed.

Lemma digit_ascii c : is_digit c = true -> 0 <= c < 128.
Proof. unfold is_digit. intros. bool_to_prop. lia. Qed.

Lemma pad_ascii n k : 0 <= k -> Forall (fun c => 0 <= c < 128) (pad n k).
Proof.
  intros K. unfold pad. destruct (digits_spec k K) as [_ D]. eapply Forall_impl; [|apply digit_ascii].
  by apply (padStart_digits n).
Qed.

Lemma literal_ascii s : forallb (fun c => (0 <=? c) && (c <? 128)) s = true -> Forall (fun c => 0 <= c < 128) s.
Proof.
  intros E. apply Forall_forall. intros c I. rewrite forallb_forall in E. apply list_elem_of_In, E in I. bool_to_prop. lia.
Qed.

Lemma toISOString_ascii t : Forall (fun c => 0 <= c < 128) (toISOString t).
Proof.
  unfold toISOString. pose proof (monthFromDay_spec (dayOf t)) as [M _]. pose proof (date_bounds (dayOf t)).
  assert (0 <= timeInDay t < msPerDay) by (unfold timeInDay; apply Z.mod_pos_bound; done). unfold msPerDay in *.
  apply Forall_app. split.
  - destruct (Z.leb_spec 0 (yearFromDay (dayOf t))), (Z.leb_spec (yearFromDay (dayOf t)) 9999), (Z.ltb_spec (yearFromDay (dayOf t)) 0);
      cbn [andb]; try lia; rewrite ?Forall_app; split_and?; first [apply pad_ascii; lia | apply literal_ascii; reflexivity].
  - rewrite !Forall_app. split_and!; first [apply pad_ascii; dlia | apply literal_ascii; reflexivity].
Qed.

Lemma pad_nonempty n k : pad n k <> [].
Proof. unfold pad, padStart. intros P. apply app_nil in P as [_ P]. by apply digits_nonempty in P. Qed.

Lemma toISOString_nonempty t : str_empty (toISOString t) = false.
Proof.
  unfold toISOString. destruct (_ && _); [|by destruct (_ <? 0)]. destruct (pad 4 _) eqn:E; [by apply pad_nonempty in E|done].
Qed.

Lemma local_date_clean `{TimeZone} other v : clean (localDatetimeToRfc3339 other v).
Proof.
  unfold localDatetimeToRfc3339. destruct (str_empty v); [by apply ascii_clean; constructor|].
  destruct (date_parse other v); apply ascii_clean; [apply toISOString_ascii|constructor].
Qed.

Lemma int_clean n : 0 <= n <= 2 ^ 53 -> clean (num_to_string (int n)).
Proof.
  intros B. rewrite num_to_string_int by done. apply ascii_clean. eapply Forall_impl; [apply digits_spec; lia|]. apply digit_ascii.
Qed.

Lemma clean_literal s : forallb (fun c => (0 <=? c) && (c <? 128)) s = true -> clean s.
Proof. intros E. by apply ascii_clean, literal_ascii. Qed.

(** ** Properties: request logs *)

Section RequestLogs.
  Context `{TimeZone}.
  Variable other : jstr -> option Z.

(** A filter the operator typed. *)
Definition typed (k : string) (v : jstr) : list (jstr * unknown) := if str_empty v then [] else [(js k, Some (JStr v))].

(** A typed local time in UTC, or the default bound. *)
Definition bound (v : jstr) (d : Z) : unknown :=
  let u := localDatetimeToRfc3339 other v in Some (JStr (if str_empty u then toISOString d else u)).

(** The query the typed filters mean. *)
Definition wanted (super : bool) (now n : Z) (i : log_inputs) : list (jstr * unknown) :=
  [(js "page", Some (JNum (int 1))); (js "page_size", Some (JNum (int n)));
   (js "from", bound (i_from i) (thirtyDaysAgo now)); (js "to", bound (i_to i) now)]
  ++ (if super then typed "tenant" (i_tenant i) else [])
  ++ typed "group_name" (i_group_name i) ++ typed "api_key_id" (i_api_key_id i) ++ typed "provider" (i_provider i)
  ++ typed "model_requested" (i_model_requested i) ++ typed "error_type" (i_error_type i) ++ typed "blocked_by" (i_blocked_by i)
  ++ typed "stream" (i_stream i) ++ typed "fallback" (i_fallback i) ++ typed "session_id" (i_session_id i)
  ++ typed "ingress_protocol" (i_ingress_protocol i)
  ++ (if i_unattributed i || str_empty (i_application_id i) then [] else [(js "application_id", Some (JNum (str_to_num (i_application_id i))))])
  ++ typed "environment" (i_environment i)
  ++ (if i_unattributed i then [(js "unattributed", Some (JBool true))] else []).

Definition log_texts (i : log_inputs) : list jstr :=
  [i_tenant i; i_group_name i; i_api_key_id i; i_application_id i; i_environment i; i_provider i; i_model_requested i;
   i_error_type i; i_blocked_by i; i_stream i; i_fallback i; i_session_id i; i_ingress_protocol i].

(** The pairs the submitted form sets. *)
Definition submitted (super : bool) (i : log_inputs) : params :=
  [(js "from", localDatetimeToRfc3339 other (i_from i)); (js "to", localDatetimeToRfc3339 other (i_to i));
   (js "tenant", if super then i_tenant i else []); (js "group_name", i_group_name i); (js "api_key_id", i_api_key_id i);
   (js "provider", i_provider i); (js "model_requested", i_model_requested i); (js "error_type", i_error_type i);
   (js "blocked_by", i_blocked_by i); (js "stream", i_stream i); (js "fallback", i_fallback i); (js "session_id", i_session_id i);
   (js "ingress_protocol", i_ingress_protocol i); (js "environment", i_environment i);
   if i_unattributed i then (js "unattributed", js "true") else (js "application_id", i_application_id i)].

Lemma pairs_submitted super i : request_log_pairs other (i_unattributed i) (log_form super i) = submitted super i.
Proof.
  unfold request_log_pairs, log_form, submitted, request_log_keys, date_pair, entry_pair.
  generalize (localDatetimeToRfc3339 other). intros f. destruct super, (i_unattributed i); vm_compute; reflexivity.
Qed.

(** The parameters of the address the form opens. *)
Definition log_params (super : bool) (n : Z) (i : log_inputs) : params :=
  (js "page_size", num_to_string (int n)) :: nonempty_pairs (submitted super i).

Lemma submitted_keys super i :
  map fst (submitted super i) = map js ["from"; "to"; "tenant"; "group_name"; "api_key_id"; "provider"; "model_requested";
    "error_type"; "blocked_by"; "stream"; "fallback"; "session_id"; "ingress_protocol"; "environment"]%string
    ++ [if i_unattributed i then js "unattributed" else js "application_id"].
Proof. unfold submitted. by destruct (i_unattributed i). Qed.

Lemma log_keys_once super n i : once ((js "page_size", num_to_string (int n)) :: submitted super i).
Proof.
  unfold once. cbn [map fst]. rewrite submitted_keys. apply (bool_decide_unpack _).
  destruct (i_unattributed i); vm_compute; exact I.
Qed.

Lemma submitted_clean super i : Forall clean (log_texts i) -> Forall clean_pair (submitted super i).
Proof.
  intros F. unfold log_texts in F. repeat (apply Forall_cons in F as [? F]).
  assert (E : clean []) by by apply clean_literal.
  assert (P : forall k v, forallb (fun c => (0 <=? c) && (c <? 128)) k = true -> clean v -> clean_pair (k, v))
    by (intros; split; [by apply clean_literal|done]).
  unfold submitted. repeat apply Forall_cons_2; try apply Forall_nil_2; try (destruct (i_unattributed i));
    apply P; try reflexivity; try apply local_date_clean; try (by destruct super); try done. by apply clean_literal.
Qed.

Lemma applyFilter_search super n i : 0 <= n <= 2 ^ 53 -> Forall clean (log_texts i) ->
  search_of (applyFilter other (int n) (i_unattributed i) (log_form super i)) = log_params super n i.
Proof.
  intros B F. unfold applyFilter. rewrite pairs_submitted. rewrite set_all_filter by apply (log_keys_once super n i).
  apply search_of_href; [by apply (bool_decide_unpack _); vm_compute|]. apply Forall_cons. split.
  - split; [by apply clean_literal|by apply int_clean].
  - by apply nonempty_clean, submitted_clean.
Qed.

(** Reading a parameter of that address. *)
Lemma log_params_get super n i k : once (submitted super i) -> k <> js "page_size" ->
  usp_get (log_params super n i) k = (usp_get (submitted super i) k ≫= set_value).
Proof.
  intros O N. unfold log_params. cbn [usp_get]. rewrite (proj2 (streq_false k _)) by done. by apply usp_get_nonempty.
Qed.

Lemma submitted_once super i : once (submitted super i).
Proof. pose proof (log_keys_once super 0 i) as O. unfold once in *. cbn [map] in O. by apply NoDup_cons in O as [_ O]. Qed.

Lemma log_params_once super n i : once (log_params super n i).
Proof.
  pose proof (log_keys_once super n i) as O. unfold log_params, once in *. cbn [map fst] in *. apply NoDup_cons in O as [N O].
  constructor; [|by apply (once_nonempty (submitted super i))]. intros I. by apply N, nonempty_fst.
Qed.

Lemma log_param super n i k v : usp_get (submitted super i) k = v -> k <> js "page_size" ->
  search_param (log_params super n i) k = JStr <$> (v ≫= set_value).
Proof.
  intros E N. rewrite search_param_get by apply log_params_once. rewrite log_params_get by (done || by apply submitted_once). by rewrite E.
Qed.

(** Look up a literal key in the submitted pairs. *)
Ltac submitted_get :=
  match goal with i : log_inputs |- _ =>
    unfold submitted; generalize (localDatetimeToRfc3339 other); intros; destruct (i_unattributed i); vm_compute; reflexivity
  end.

Lemma query_if_typed (k : string) v : query_if (js k) (JStr <$> (Some v ≫= set_value)) = typed k v.
Proof. unfold query_if, typed, set_value. cbn [mbind option_bind]. by destruct v. Qed.

Lemma window_log super n i : 1 <= n <= 2 ^ 53 ->
  window_query (log_params super n i) = [(js "page", Some (JNum (int 1))); (js "page_size", Some (JNum (int n)))].
Proof.
  intros B. unfold window_query. rewrite (log_param super n i (js "page") None) by (done || submitted_get).
  rewrite (search_param_get _ (js "page_size")) by apply log_params_once. unfold log_params. cbn [usp_get]. rewrite streq_refl.
  unfold page_number. cbn [fmap option_fmap option_map truthy param_number mbind option_bind].
  destruct (num_to_string (int n)) as [|c r] eqn:E.
  { rewrite num_to_string_int in E by lia. by apply digits_nonempty in E. }
  cbn [str_empty negb]. rewrite <- E, str_to_num_int by lia. rewrite !nlt_int, (proj2 (Z.ltb_ge n 1)) by lia. done.
Qed.

Lemma range_log now super n i :
  range_query now (log_params super n i) = [(js "from", bound (i_from i) (thirtyDaysAgo now)); (js "to", bound (i_to i) now)].
Proof.
  unfold range_query, bound. rewrite (log_param super n i (js "from") (Some (localDatetimeToRfc3339 other (i_from i)))) by (done || submitted_get).
  rewrite (log_param super n i (js "to") (Some (localDatetimeToRfc3339 other (i_to i)))) by (done || submitted_get).
  cbn [mbind option_bind]. generalize (localDatetimeToRfc3339 other (i_from i)), (localDatetimeToRfc3339 other (i_to i)). intros f t.
  unfold set_value, query_if. destruct f, t; cbn [str_empty fmap option_fmap option_map nullish truthy];
    rewrite ?toISOString_nonempty; done.
Qed.

(** C14: What the operator types into the request-log filter is what the page
    asks the API for: through the address and back, the query is the first
    page of the current size, the typed times in UTC (the last 30 days where
    none is typed), every other filter that is not empty — the tenant only
    for a super-admin, and the unattributed rows instead of an application
    when that box is ticked — and nothing else. *)
Theorem request_log_filters super now n i : 1 <= n <= 2 ^ 53 -> Forall clean (log_texts i) ->
  request_logs_query now super (search_of (applyFilter other (int n) (i_unattributed i) (log_form super i))) = wanted super now n i.
Proof.
  intros B F. rewrite applyFilter_search by (lia || done). unfold request_logs_query, wanted. cbv zeta.
  rewrite window_log, range_log by done.
  assert (P : forall (k : string) v, usp_get (submitted super i) (js k) = Some v -> js k <> js "page_size" ->
            query_if (js k) (search_param (log_params super n i) (js k)) = typed k v).
  { intros k v E N. by rewrite (log_param super n i (js k) (Some v) E N), query_if_typed. }
  rewrite (P "group_name"%string (i_group_name i)), (P "api_key_id"%string (i_api_key_id i)), (P "provider"%string (i_provider i)),
    (P "model_requested"%string (i_model_requested i)), (P "error_type"%string (i_error_type i)), (P "blocked_by"%string (i_blocked_by i)),
    (P "stream"%string (i_stream i)), (P "fallback"%string (i_fallback i)), (P "session_id"%string (i_session_id i)),
    (P "ingress_protocol"%string (i_ingress_protocol i)), (P "environment"%string (i_environment i)),
    (P "tenant"%string (if super then i_tenant i else [])) by (done || submitted_get).
  rewrite (log_param super n i (js "agent_type") None), (log_param super n i (js "application_id") (if i_unattributed i then None else Some (i_application_id i))),
    (log_param super n i (js "unattributed") (if i_unattributed i then Some (js "true") else None)) by (done || submitted_get).
  destruct super, (i_unattributed i); [reflexivity| |reflexivity|]; by destruct (i_application_id i).
Qed.

(** A time a date input holds: empty, or a minute of a four-digit year that
    the local clocks do not skip. *)
Definition typed_date (v : jstr) : Prop := v = [] \/
  exists d h mi, 1000 <= yearFromDay d <= 9999 /\ 0 <= h < 24 /\ 0 <= mi < 60 /\
    let t := d * msPerDay + h * 3600000 + mi * 60000 in
    LocalTime (UTC t) = t /\ 0 <= yearFromDay (dayOf (UTC t)) <= 9999 /\ v = civil_string (digits (yearFromDay d)) d h mi.

Lemma typed_date_roundtrip v : typed_date v -> rfc3339ToLocalDatetime other (localDatetimeToRfc3339 other v) = v.
Proof. intros [-> |(d & h & mi & Y & Hh & Hm & L & U & ->)]; [done|]. by apply datetime_roundtrip. Qed.

Lemma log_text super n i k v : usp_get (submitted super i) k = Some v -> k <> js "page_size" -> usp_text (log_params super n i) k = v.
Proof.
  intros E N. unfold usp_text. rewrite log_params_get by (done || apply submitted_once). rewrite E. by destruct v.
Qed.

(** The kind and the value of each input. *)
Definition log_values (i : log_inputs) : list (input_kind * jstr) :=
  [(DatetimeInput, i_from i); (DatetimeInput, i_to i); (NumberInput, i_application_id i); (SelectInput, i_stream i);
   (SelectInput, i_fallback i); (SelectInput, i_ingress_protocol i)]
  ++ map (pair TextInput) [i_tenant i; i_group_name i; i_api_key_id i; i_provider i; i_model_requested i; i_error_type i;
                           i_blocked_by i; i_session_id i].

(** The filter survives the address: reopened at the address it produced,
    the form shows again exactly what was submitted — the times in the
    reader's zone — so applying it again changes nothing. *)
Theorem request_log_reopened super n i sanitize : 0 <= n <= 2 ^ 53 -> Forall clean (log_texts i) ->
  typed_date (i_from i) -> typed_date (i_to i) ->
  Forall (fun kv => sanitize kv.1 kv.2 = kv.2) (log_values i) ->
  (super = false -> i_tenant i = []) -> (i_unattributed i = true -> i_application_id i = []) ->
  opened other sanitize (search_of (applyFilter other (int n) (i_unattributed i) (log_form super i))) = i.
Proof.
  intros B F Df Dt S T A. rewrite applyFilter_search by done. unfold opened.
  assert (P : forall (k : string) v, usp_get (submitted super i) (js k) = Some v -> js k <> js "page_size" ->
            usp_text (log_params super n i) (js k) = v) by (intros; by apply log_text).
  rewrite (P "group_name"%string (i_group_name i)), (P "api_key_id"%string (i_api_key_id i)), (P "provider"%string (i_provider i)),
    (P "model_requested"%string (i_model_requested i)), (P "error_type"%string (i_error_type i)), (P "blocked_by"%string (i_blocked_by i)),
    (P "stream"%string (i_stream i)), (P "fallback"%string (i_fallback i)), (P "session_id"%string (i_session_id i)),
    (P "ingress_protocol"%string (i_ingress_protocol i)), (P "environment"%string (i_environment i)),
    (P "tenant"%string (if super then i_tenant i else [])) by (done || submitted_get).
  rewrite (P "from"%string (localDatetimeToRfc3339 other (i_from i))), (P "to"%string (localDatetimeToRfc3339 other (i_to i)))
    by (done || submitted_get).
  rewrite !typed_date_roundtrip by done.
  rewrite (log_params_get super n i (js "unattributed")) by (done || apply submitted_once).
  unfold usp_text at 1. rewrite (log_params_get super n i (js "application_id")) by (done || apply submitted_once).
  replace (usp_get (submitted super i) (js "unattributed")) with (if i_unattributed i then Some (js "true") else None) by (symmetry; submitted_get).
  replace (usp_get (submitted super i) (js "application_id")) with (if i_unattributed i then None else Some (i_application_id i))
    by (symmetry; submitted_get).
  assert (Ea : default [] ((if i_unattributed i then None else Some (i_application_id i)) ≫= set_value) = i_application_id i).
  { destruct (i_unattributed i); [by rewrite A|]. by destruct (i_application_id i). }
  assert (Et : (if super then i_tenant i else []) = i_tenant i) by (destruct super; [done|by rewrite T]).
  assert (Eu : match (if i_unattributed i then Some (js "true") else None) ≫= set_value with
               | Some v => streq v "true" | None => false end = i_unattributed i) by (by destruct (i_unattributed i)).
  rewrite Ea, Et, Eu. unfold log_values in S. cbn [map app] in S. repeat (apply Forall_cons in S as [? S]). cbn [fst snd] in *.
  repeat match goal with E : sanitize _ _ = _ |- _ => rewrite E; clear E end. by destruct i.
Qed.

(** ** Properties: paging *)

End RequestLogs.

(** Paging keeps the filters: moving to another page changes that
    parameter of the address alone, and another page size also starts again
    at the first page. *)
Theorem paging_keeps_filters path sp n : 63 ∉ path -> once sp -> Forall clean_pair sp -> 1 <= n <= 2 ^ 53 ->
  let to_page := search_of (pushParams path (ToPage (int n)) sp) in
  let to_size := search_of (pushParams path (ToPageSize (int n)) sp) in
  (forall k, k <> js "page" -> search_param to_page k = search_param sp k) /\
  page_number (search_param to_page "page") 1 = int n /\
  (forall k, k <> js "page" -> k <> js "page_size" -> search_param to_size k = search_param sp k) /\
  window_query to_size = [(js "page", Some (JNum (int 1))); (js "page_size", Some (JNum (int n)))].
Proof.
  intros N O F B. unfold pushParams, copy_params. rewrite parse_string_id by done.
  assert (Ds : str_empty (num_to_string (int n)) = false).
  { rewrite num_to_string_int by lia. destruct (digits n) eqn:E; [by apply digits_nonempty in E|done]. }
  assert (P : page_number (Some (JStr (num_to_string (int n)))) 1 = int n /\ page_number (Some (JStr (num_to_string (int n)))) 20 = int n).
  { unfold page_number. cbn [truthy param_number]. rewrite Ds. cbn [negb]. rewrite str_to_num_int, nlt_int, (proj2 (Z.ltb_ge n 1)) by lia. done. }
  assert (Cn : clean (num_to_string (int n))) by (apply int_clean; lia).
  cbv zeta. rewrite !search_of_href by (first [done | repeat apply usp_set_clean; first [done | by apply clean_literal]]).
  split_and!.
  - intros k Nk. rewrite !search_param_get by auto with voxel. rewrite usp_get_set. by rewrite (proj2 (streq_false k _)).
  - rewrite search_param_get by auto with voxel. rewrite usp_get_set, streq_refl. apply P.
  - intros k N1 N2. rewrite !search_param_get by auto with voxel. rewrite !usp_get_set.
    by rewrite (proj2 (streq_false k (js "page"))), (proj2 (streq_false k (js "page_size"))).
  - unfold window_query. rewrite !search_param_get by auto with voxel. rewrite !usp_get_set.
    change (streq (js "page") (js "page")) with true. change (streq (js "page_size") (js "page")) with false.
    rewrite streq_refl. cbn [fmap option_fmap option_map]. destruct P as [_ ->]. done.
Qed.

(** A change of one parameter of a clean address. *)
Lemma assign_search k v sp k' : once sp -> search_param (usp_assign k v sp) k' =
  if streq k' k then JStr <$> set_value v else search_param sp k'.
Proof.
  intros O. rewrite !search_param_get by auto with voxel. rewrite usp_get_assign. unfold set_value. by destruct (streq k' k).
Qed.

Lemma delete_search k sp k' : once sp -> search_param (usp_delete k sp) k' = if streq k' k then None else search_param sp k'.
Proof. intros O. rewrite !search_param_get by auto with voxel. rewrite usp_get_delete. by destruct (streq k' k). Qed.

Lemma set_search k v sp k' : once sp -> search_param (usp_set k v sp) k' = if streq k' k then Some (JStr v) else search_param sp k'.
Proof. intros O. rewrite !search_param_get by auto with voxel. rewrite usp_get_set. by destruct (streq k' k). Qed.

(** The next-page button of every cursor list asks for the page after the
    cursor it was given, with the page's own limit; choosing a view, a tenant
    or a status on the budgets page goes back to the first page of it and
    keeps the other choices, and the cursor buttons change the cursor alone. *)
Theorem cursor_navigation path c sp : 63 ∉ path -> once sp -> Forall clean_pair sp -> clean c -> c <> [] ->
  list_query (search_of (goNext path c sp)) =
    (js "cursor", Some (JStr c)) :: (if truthy (search_param sp "limit") then [(js "limit", number_of (search_param sp "limit"))] else []) /\
  (forall k v, clean k -> clean v -> k <> js "cursor" ->
     let sp' := search_of (navigate [(k, v)] sp) in
     search_param sp' "cursor" = None /\ search_param sp' k = JStr <$> set_value v /\
     forall k', k' <> js "cursor" -> k' <> k -> search_param sp' k' = search_param sp k') /\
  (forall v, clean v -> let sp' := search_of (navigate [(js "cursor", v)] sp) in
     search_param sp' "cursor" = JStr <$> set_value v /\
     forall k', k' <> js "cursor" -> search_param sp' k' = search_param sp k').
Proof.
  intros N O F Cc Nc. assert (Cl : clean (js "cursor")) by by apply clean_literal. unfold goNext, navigate, copy_params.
  rewrite !parse_string_id by done. cbn [foldl fst snd]. split_and!.
  - rewrite search_of_href by (done || by apply usp_set_clean). unfold list_query. rewrite !set_search by done.
    rewrite streq_refl. change (streq (js "limit") (js "cursor")) with false. unfold query_if. cbn [truthy].
    by destruct c.
  - cbv zeta. intros k v Ck Cv Nk.
    rewrite search_of_href by (first [by apply usp_assign_clean; [..|apply usp_delete_clean] | by apply (bool_decide_unpack _); vm_compute]).
    assert (Od : once (usp_delete (js "cursor") sp)) by auto with voxel. split_and!.
    + rewrite assign_search, delete_search by done. rewrite (proj2 (streq_false (js "cursor") k)) by congruence. by rewrite streq_refl.
    + rewrite assign_search by done. by rewrite streq_refl.
    + intros k' N1 N2. rewrite assign_search, delete_search by done.
      by rewrite (proj2 (streq_false k' k)), (proj2 (streq_false k' (js "cursor"))).
  - cbv zeta. intros v Cv.
    rewrite search_of_href by (first [by apply usp_assign_clean; [..|apply usp_delete_clean] | by apply (bool_decide_unpack _); vm_compute]).
    assert (Od : once (usp_delete (js "cursor") sp)) by auto with voxel. split.
    + rewrite assign_search by done. by rewrite streq_refl.
    + intros k' N1. rewrite assign_search, delete_search by done. by rewrite (proj2 (streq_false k' (js "cursor"))).
Qed.

(** ** Properties: usage *)

Section UsageFilters.
  Context `{TimeZone}.
  Variable other : jstr -> option Z.

Record usage_inputs : Type := {
  u_from : jstr; u_to : jstr; u_tenant : jstr; u_provider : jstr; u_model : jstr; u_application_id : jstr;
  u_environment : jstr; u_unattributed : bool; u_group_by : jstr;
}.

Definition usage_form (super : bool) (i : usage_inputs) : FormData :=
  [text "from" (u_from i); text "to" (u_to i)] ++ (if super then [text "tenant" (u_tenant i)] else [])
  ++ [text "provider" (u_provider i); text "model" (u_model i)]
  ++ (if u_unattributed i then [] else [text "application_id" (u_application_id i)])
  ++ [text "environment" (u_environment i)]
  ++ (if u_unattributed i then [text "unattributed" (js "on")] else [])
  ++ [text "group_by" (u_group_by i)].

Definition usage_pairs (super : bool) (i : usage_inputs) : params :=
  [(js "from", localDatetimeToRfc3339 other (u_from i)); (js "to", localDatetimeToRfc3339 other (u_to i));
   (js "tenant", if super then u_tenant i else []); (js "provider", u_provider i); (js "model", u_model i);
   (js "group_by", u_group_by i); (js "environment", u_environment i);
   if u_unattributed i then (js "unattributed", js "true") else (js "application_id", u_application_id i)].

Definition usage_texts (i : usage_inputs) : list jstr :=
  [u_tenant i; u_provider i; u_model i; u_application_id i; u_environment i; u_group_by i].

Lemma usage_pairs_once super i : once (usage_pairs super i).
Proof. unfold once, usage_pairs. apply (bool_decide_unpack _). destruct (u_unattributed i); vm_compute; exact I. Qed.

Lemma usage_search super i : Forall clean (usage_texts i) ->
  search_of (usageApplyFilter other (u_environment i) (u_unattributed i) (usage_form super i)) = nonempty_pairs (usage_pairs super i).
Proof.
  intros F. unfold usageApplyFilter.
  match goal with |- context [set_all ?l []] => assert (E : l = usage_pairs super i) end.
  { unfold usage_form, usage_pairs, date_pair, entry_pair. generalize (localDatetimeToRfc3339 other). intros f.
    destruct super, (u_unattributed i); vm_compute; reflexivity. }
  rewrite E, set_all_filter by apply usage_pairs_once. cbn [app]. apply search_of_href; [by apply (bool_decide_unpack _); vm_compute|].
  apply nonempty_clean. unfold usage_texts in F. repeat (apply Forall_cons in F as [? F]).
  assert (E0 : clean []) by by apply clean_literal.
  assert (P : forall k v, forallb (fun c => (0 <=? c) && (c <? 128)) k = true -> clean v -> clean_pair (k, v))
    by (intros; split; [by apply clean_literal|done]).
  unfold usage_pairs. repeat apply Forall_cons_2; try apply Forall_nil_2; try (destruct (u_unattributed i));
    apply P; try reflexivity; try apply local_date_clean; try (by destruct super); try done. by apply clean_literal.
Qed.

(** A filter that may be left out. *)
Definition optional (v : jstr) : unknown := JStr <$> set_value v.

(** The usage page asks for what its filter says: the three requests carry
    the typed times in UTC (the last 30 days where none is typed), the other
    filters where they are not empty — the tenant only for a super-admin —
    and group by the chosen dimension, for every dimension offered. *)
Theorem usage_filter_query super now i : Forall clean (usage_texts i) -> u_group_by i ∈ validDimensions ->
  let sp := search_of (usageApplyFilter other (u_environment i) (u_unattributed i) (usage_form super i)) in
  usage_filters now super sp =
    [(js "from", bound other (u_from i) (thirtyDaysAgo now)); (js "to", bound other (u_to i) now);
     (js "tenant", if super then optional (u_tenant i) else None); (js "provider", optional (u_provider i));
     (js "model", optional (u_model i));
     (js "application_id", if u_unattributed i || str_empty (u_application_id i) then None else Some (JNum (str_to_num (u_application_id i))));
     (js "environment", optional (u_environment i)); (js "unattributed", if u_unattributed i then Some (JBool true) else None)] /\
  usage_dimension super sp = u_group_by i /\ search_param sp "cursor" = None.
Proof.
  intros F G sp. subst sp. rewrite usage_search by done.
  assert (P : forall k, search_param (nonempty_pairs (usage_pairs super i)) k = JStr <$> (usp_get (usage_pairs super i) k ≫= set_value)).
  { intros k. rewrite search_param_get by (apply once_nonempty, usage_pairs_once). by rewrite usp_get_nonempty by apply usage_pairs_once. }
  unfold usage_filters, usage_dimension. rewrite !P.
  assert (Q : forall k v, usp_get (usage_pairs super i) k = v -> usp_get (usage_pairs super i) k ≫= set_value = v ≫= set_value) by (by intros k v ->).
  rewrite (Q (js "from") (Some (localDatetimeToRfc3339 other (u_from i)))), (Q (js "to") (Some (localDatetimeToRfc3339 other (u_to i)))),
    (Q (js "tenant") (Some (if super then u_tenant i else []))), (Q (js "provider") (Some (u_provider i))),
    (Q (js "model") (Some (u_model i))), (Q (js "environment") (Some (u_environment i))), (Q (js "group_by") (Some (u_group_by i))),
    (Q (js "cursor") None), (Q (js "application_id") (if u_unattributed i then None else Some (u_application_id i))),
    (Q (js "unattributed") (if u_unattributed i then Some (js "true") else None))
    by (unfold usage_pairs; generalize (localDatetimeToRfc3339 other); intros; destruct (u_unattributed i); vm_compute; reflexivity).
  split_and!; [| |done].
  - cbn [mbind option_bind]. unfold bound, optional.
    generalize (localDatetimeToRfc3339 other (u_from i)), (localDatetimeToRfc3339 other (u_to i)). intros f t.
    do 2 (f_equal; [by destruct f, t|]). f_equal; [by destruct super|]. do 2 f_equal.
    destruct (u_unattributed i); [done|]. by destruct (u_application_id i).
  - cbn [mbind option_bind]. apply array_includes_spec in G. unfold one_of, set_value. destruct (u_group_by i) as [|c r] eqn:E; [done|].
    cbn [str_empty fmap option_fmap option_map nullish]. by rewrite G.
Qed.

End UsageFilters.

(** ** Witnesses *)

Definition sample_inputs : log_inputs := {|
  i_from := js "2024-02-29T07:05"; i_to := []; i_tenant := js "acme & co"; i_group_name := []; i_api_key_id := [];
  i_application_id := js "7"; i_environment := js "prod"; i_unattributed := false; i_provider := js "openai";
  i_model_requested := []; i_error_type := []; i_blocked_by := []; i_stream := js "true"; i_fallback := []; i_session_id := [];
  i_ingress_protocol := [] |}.

Lemma sample_clean : Forall clean (log_texts sample_inputs).
Proof. repeat apply Forall_cons_2; try apply Forall_nil_2; by apply clean_literal. Qed.

Lemma request_log_filters_witness :
  request_logs_query 1704081600000 true
    (search_of (@applyFilter beijing (fun _ => None) (int 50) false (log_form true sample_inputs))) =
  [(js "page", Some (JNum (int 1))); (js "page_size", Some (JNum (int 50)));
   (js "from", Some (JStr (js "2024-02-28T23:05:00.000Z"))); (js "to", Some (JStr (js "2024-01-01T04:00:00.000Z")));
   (js "tenant", Some (JStr (js "acme & co"))); (js "provider", Some (JStr (js "openai"))); (js "stream", Some (JStr (js "true")));
   (js "application_id", Some (JNum (int 7))); (js "environment", Some (JStr (js "prod")))].
Proof.
  etransitivity; [apply (@request_log_filters beijing (fun _ => None) true 1704081600000 50 sample_inputs ltac:(lia) sample_clean)|].
  vm_compute. reflexivity.
Defined.

Lemma sample_date : @typed_date beijing (i_from sample_inputs).
Proof. right. exists (makeDay 2024 1 29), 7, 5. split_and!; try (vm_compute; done || congruence). Qed.

Lemma request_log_reopened_witness :
  @opened beijing (fun _ => None) (fun _ v => v)
    (search_of (@applyFilter beijing (fun _ => None) (int 50) false (log_form true sample_inputs))) = sample_inputs.
Proof.
  apply (@request_log_reopened beijing (fun _ => None) true 50 sample_inputs (fun _ v => v)).
  - lia.
  - exact sample_clean.
  - exact sample_date.
  - by left.
  - repeat apply Forall_cons_2; try apply Forall_nil_2; done.
  - done.
  - done.
Defined.

Definition sample_search : params := [(js "tenant", js "acme"); (js "page", js "3"); (js "limit", js "20")].

Lemma sample_search_ok : once sample_search /\ Forall clean_pair sample_search.
Proof.
  split; [apply (bool_decide_unpack _); vm_compute; exact I|].
  repeat apply Forall_cons_2; try apply Forall_nil_2; split; by apply clean_literal.
Qed.

Lemma paging_keeps_filters_witness :
  search_param (search_of (pushParams (js "/audit") (ToPage (int 4)) sample_search)) (js "tenant") = Some (JStr (js "acme")).
Proof.
  rewrite (proj1 (paging_keeps_filters (js "/audit") sample_search 4 ltac:(by apply (bool_decide_unpack _); vm_compute)
    (proj1 sample_search_ok) (proj2 sample_search_ok) ltac:(lia))); [reflexivity|by vm_compute].
Defined.

Lemma cursor_navigation_witness :
  list_query (search_of (goNext (js "/tenants") (js "c+1") sample_search)) =
  [(js "cursor", Some (JStr (js "c+1"))); (js "limit", Some (JNum (int 20)))].
Proof.
  rewrite (proj1 (cursor_navigation (js "/tenants") (js "c+1") sample_search ltac:(by apply (bool_decide_unpack _); vm_compute)
    (proj1 sample_search_ok) (proj2 sample_search_ok) ltac:(by apply clean_literal) ltac:(by vm_compute))).
  vm_compute. reflexivity.
Defined.

Lemma usage_filter_query_witness :
  usage_dimension false (search_of (@usageApplyFilter beijing (fun _ => None) (js "dev") true
    (usage_form false {| u_from := []; u_to := []; u_tenant := []; u_provider := []; u_model := js "m"; u_application_id := [];
                         u_environment := js "dev"; u_unattributed := true; u_group_by := js "currency" |}))) = js "currency".
Proof.
  refine (proj1 (proj2 (@usage_filter_query beijing (fun _ => None) false 0 {| u_from := []; u_to := []; u_tenant := []; u_provider := [];
    u_model := js "m"; u_application_id := []; u_environment := js "dev"; u_unattributed := true; u_group_by := js "currency" |} _ _))).
  - repeat apply Forall_cons_2; try apply Forall_nil_2; by apply clean_literal.
  - apply (bool_decide_unpack _). vm_compute. exact I.
Defined.
