(* ===== verification/AdminForms.v ===== *)
(** * Forms of the Control Panel

    The client forms of [web/src/app/[locale]/(dashboard)] — their state, its
    updates and the [FormData] they submit — composed with the server actions
    of [ConfigActions] and [TenantActions].  An input that React does not
    control has its default value when it is mounted and what the operator
    types afterwards. *)

From S2P Require Import Prelude JsNumber Money JsString Json AdminRuntime FormActions ConfigActions TenantActions.

Definition text (k : string) (v : jstr) : jstr * entry := (js k, FText v).

(** ** Dynamic rows

    The model form and the route form keep two arrays in step: the rendered
    rows and the provider chosen in each row. *)
Module Rows.

Section Rows.
  (** What a row is mounted with. *)
  Context {X : Type}.

Record state : Type := { rows : list (nat * X); providerValues : list jstr }.

Definition addRow (key : nat) (x : X) (st : state) : state :=
  {| rows := rows st ++ [(key, x)]; providerValues := providerValues st ++ [[]] |}.

(** [rows.findIndex((r) => r.key === key)] *)
Fixpoint findIndex (key : nat) (l : list (nat * X)) : option nat :=
  match l with
  | [] => None
  | (k, _) :: t => if (k =? key)%nat then Some O else S <$> findIndex key t
  end.

Definition removeRow (key : nat) (st : state) : state :=
  match findIndex key (rows st) with
  | None => st
  | Some i => {| rows := List.filter (fun r => negb (r.1 =? key)%nat) (rows st); providerValues := delete i (providerValues st) |}
  end.

(** [onProviderChange] of the row at an index. *)
Definition onProviderChange (index : nat) (v : jstr) (st : state) : state :=
  {| rows := rows st; providerValues := <[index := v]> (providerValues st) |}.

(** What the operator does: add a row, remove one, choose the provider of one. *)
Inductive event : Type :=
  | Add (key : nat) (x : X)
  | Remove (key : nat)
  | Choose (key : nat) (v : jstr).

Definition handle (st : state) (e : event) : state :=
  match e with
  | Add k x => addRow k x st
  | Remove k => removeRow k st
  | Choose k v => match findIndex k (rows st) with Some i => onProviderChange i v st | None => st end
  end.

(** *** Specification: a list of rows, each with its own provider *)

Definition spec : Type := list (nat * X * jstr).

Definition spec_handle (a : spec) (e : event) : spec :=
  match e with
  | Add k x => a ++ [(k, x, [])]
  | Remove k => List.filter (fun r => negb (r.1.1 =? k)%nat) a
  | Choose k v => map (fun r => if (r.1.1 =? k)%nat then (r.1, v) else r) a
  end.

Definition keys (a : spec) : list nat := map (fun r => r.1.1) a.

(** Keys are fresh when a row is added ([crypto.randomUUID]). *)
Fixpoint fresh (a : spec) (evs : list event) : Prop :=
  match evs with
  | [] => True
  | e :: t => match e with Add k _ => k ∉ keys a | _ => True end /\ fresh (spec_handle a e) t
  end.

Definition refines (st : state) (a : spec) : Prop :=
  rows st = map fst a /\ providerValues st = map snd a /\ NoDup (keys a).

Lemma findIndex_spec k (a : spec) i : findIndex k (map fst a) = Some i -> exists x v, a !! i = Some (k, x, v).
Proof.
  revert i. induction a as [|[[k' x] v] a IH]; intros i; [done|]. cbn [map fst findIndex].
  destruct (Nat.eqb_spec k' k) as [-> |]; [intros [= <-]; by eexists _, _|].
  destruct (findIndex k (map fst a)) as [j|]; [|done]. intros [= <-]. by apply IH.
Qed.

Lemma findIndex_none k (a : spec) : findIndex k (map fst a) = None -> k ∉ keys a.
Proof.
  induction a as [|[[k' x] v] a IH]; [intros _; apply not_elem_of_nil|]. cbn [map fst findIndex keys].
  destruct (Nat.eqb_spec k' k); [done|]. destruct (findIndex k (map fst a)); [done|]. intros _.
  rewrite elem_of_cons. intros [-> |I]; [done|]. by apply IH.
Qed.

Lemma filter_absent k (a : spec) : k ∉ keys a -> List.filter (fun r => negb (r.1.1 =? k)%nat) a = a.
Proof.
  induction a as [|r a IH]; [done|]. cbn [keys map List.filter]. rewrite not_elem_of_cons. intros [N I].
  destruct (Nat.eqb_spec r.1.1 k); [congruence|]. by rewrite IH.
Qed.

Lemma map_absent k (v : jstr) (a : spec) : k ∉ keys a -> map (fun r => if (r.1.1 =? k)%nat then (r.1, v) else r) a = a.
Proof.
  induction a as [|r a IH]; [done|]. cbn [keys map]. rewrite not_elem_of_cons. intros [N I].
  destruct (Nat.eqb_spec r.1.1 k); [congruence|]. by rewrite IH.
Qed.

(** Removing by key and removing by index agree while keys are distinct. *)
Lemma filter_delete k (a : spec) i x v : NoDup (keys a) -> a !! i = Some (k, x, v) ->
  List.filter (fun r => negb (r.1.1 =? k)%nat) a = delete i a.
Proof.
  revert i. induction a as [|r a IH]; intros i N E; [done|]. cbn [keys map] in N. apply NoDup_cons in N as [N1 N2].
  destruct i as [|i]; [|change ((r :: a) !! S i) with (a !! i) in E]; cbn [List.filter].
  - injection E as ->. cbn [fst]. rewrite Nat.eqb_refl. by apply filter_absent.
  - destruct (Nat.eqb_spec r.1.1 k) as [Ek|].
    + exfalso. apply N1. rewrite Ek. unfold keys. apply list_elem_of_lookup. exists i. by rewrite list_lookup_fmap, E.
    + cbn [negb delete list_delete]. f_equal. by apply IH.
Qed.

Lemma map_insert k (w : jstr) (a : spec) i x v : NoDup (keys a) -> a !! i = Some (k, x, v) ->
  map (fun r => if (r.1.1 =? k)%nat then (r.1, w) else r) a = <[i := (k, x, w)]> a.
Proof.
  revert i. induction a as [|r a IH]; intros i N E; [done|]. cbn [keys map] in N. apply NoDup_cons in N as [N1 N2].
  destruct i as [|i]; [|change ((r :: a) !! S i) with (a !! i) in E]; cbn [map].
  - injection E as ->. cbn [fst]. rewrite Nat.eqb_refl. rewrite map_absent by done. done.
  - destruct (Nat.eqb_spec r.1.1 k) as [Ek|].
    + exfalso. apply N1. rewrite Ek. unfold keys. apply list_elem_of_lookup. exists i. by rewrite list_lookup_fmap, E.
    + by rewrite (IH i N2 E).
Qed.

Lemma map_fst_filter k (a : spec) : List.filter (fun r : nat * X => negb (r.1 =? k)%nat) (map fst a) =
  map fst (List.filter (fun r : nat * X * jstr => negb (r.1.1 =? k)%nat) a).
Proof. induction a as [|r a IH]; [done|]. cbn [map List.filter]. rewrite IH. by destruct (r.1.1 =? k)%nat. Qed.

Lemma keys_filter k (a : spec) : NoDup (keys a) -> NoDup (keys (List.filter (fun r => negb (r.1.1 =? k)%nat) a)).
Proof.
  induction a as [|r a IH]; [done|]. cbn [keys map List.filter]. intros N. apply NoDup_cons in N as [N1 N2].
  destruct (negb _); [|by apply IH]. cbn [map]. constructor; [|by apply IH]. intros I. apply N1.
  unfold keys. apply list_elem_of_In, in_map_iff in I as (y & <- & I). apply filter_In in I as [I _]. by apply list_elem_of_In, (in_map (fun r => r.1.1)).
Qed.

Lemma keys_choose k (v : jstr) (a : spec) : keys (map (fun r => if (r.1.1 =? k)%nat then (r.1, v) else r) a) = keys a.
Proof. unfold keys. rewrite map_map. apply map_ext. intros r. by destruct (r.1.1 =? k)%nat. Qed.

Lemma refines_step st a e : refines st a -> match e with Add k _ => k ∉ keys a | _ => True end ->
  refines (handle st e) (spec_handle a e).
Proof.
  intros (R & V & N) F. destruct e as [k x|k|k v]; cbn [handle spec_handle].
  - unfold refines, addRow, keys. cbn [rows providerValues]. rewrite R, V, !map_app. split_and!; try done.
    apply NoDup_app. split_and!; [done| |apply NoDup_singleton]. intros y Hy. cbn. rewrite list_elem_of_singleton. by intros ->.
  - unfold removeRow. rewrite R. destruct (findIndex k (map fst a)) as [i|] eqn:E.
    + destruct (findIndex_spec k a i E) as (x & v & L). split_and!; cbn [rows providerValues]; [by apply map_fst_filter| |by apply keys_filter].
      rewrite V, (filter_delete k a i x v N L). symmetry. apply (list_fmap_delete snd).
    + apply findIndex_none in E. rewrite filter_absent by done. done.
  - rewrite R. destruct (findIndex k (map fst a)) as [i|] eqn:E.
    + destruct (findIndex_spec k a i E) as (x & w & L). unfold onProviderChange, refines. cbn [rows providerValues]. rewrite keys_choose.
      rewrite (map_insert k v a i x w N L). split_and!; [| |done].
      * rewrite R. symmetry. etransitivity; [apply (list_fmap_insert fst)|]. cbn [fst]. apply list_insert_id. rewrite list_lookup_fmap. exact (f_equal (fmap fst) L).
      * rewrite V. symmetry. apply (list_fmap_insert snd).
    + apply findIndex_none in E. unfold refines. rewrite keys_choose, map_absent by done. done.
Qed.

(** The two arrays of the form implement the list of rows: after any sequence
    of edits, the provider kept at each position is the one chosen in the row
    rendered there. *)
Lemma refines_run st a evs : refines st a -> fresh a evs -> refines (fold_left handle evs st) (fold_left spec_handle evs a).
Proof.
  revert st a. induction evs as [|e evs IH]; intros st a R F; [done|]. destruct F as [F1 F2]. cbn [fold_left].
  apply IH; [by apply refines_step|done].
Qed.

End Rows.
End Rows.

(** ** Models *)
Module ModelForm.

(** The uncontrolled inputs of an upstream row. *)
Record row_inputs : Type := { ri_model : jstr; ri_max_tokens : jstr; ri_prompt : jstr; ri_completion : jstr; ri_cache : jstr }.

Definition no_inputs : row_inputs := {| ri_model := []; ri_max_tokens := []; ri_prompt := []; ri_completion := []; ri_cache := [] |}.

(** What a row is mounted with: [row.idx >= 0 ? upstreamDefaults[row.idx] : undefined]. *)
Definition row_defaults (us : list ModelUpstream) (idx : option nat) : row_inputs :=
  match i ← idx; us !! i with
  | Some u => {| ri_model := upstream_model u; ri_max_tokens := maxTokensVal u; ri_prompt := promptPriceVal u;
                 ri_completion := completionPriceVal u; ri_cache := cacheHitMulVal u |}
  | None => no_inputs
  end.

Definition row_entries (p : jstr) (r : row_inputs) : FormData :=
  [text "upstream_provider" p; text "upstream_model" (ri_model r); text "upstream_max_tokens" (ri_max_tokens r);
   text "upstream_prompt_price" (ri_prompt r); text "upstream_completion_price" (ri_completion r);
   text "upstream_cache_hit_multiplier" (ri_cache r)].

(** The rows of a stored model, or none. *)
Definition opened_rows (us : list ModelUpstream) : Rows.state :=
  {| Rows.rows := imap (fun i _ => (i, Some i)) us; Rows.providerValues := map provider us |}.

(** The entries of the rows, in the order they are rendered; [inp] is what
    the inputs of the row with a key hold. *)
Definition rows_data (st : Rows.state) (inp : nat -> row_inputs) : FormData :=
  concat (imap (fun i (r : nat * option nat) => row_entries (default [] (Rows.providerValues st !! i)) (inp r.1)) (Rows.rows st)).

Record ModelRow : Type := {
  alias : jstr; description : option jstr; context_length : option num; capabilities : option (list jstr);
  tags : option (list jstr); upstreams : option (list ModelUpstream);
}.

(** The default values of the model's own inputs. *)
Definition head_data (m : ModelRow) : FormData :=
  [text "alias" (alias m); text "description" (default [] (description m));
   text "context_length" (match context_length m with Some n => if num_truthy n then num_to_string n else [] | None => [] end);
   text "capabilities" (join (js ", ") (default [] (capabilities m))); text "tags" (join (js ", ") (default [] (tags m)))].

(** What the edit form submits when nothing was changed. *)
Definition unchanged (m : ModelRow) : FormData :=
  let us := default [] (upstreams m) in head_data m ++ rows_data (opened_rows us) (fun k => row_defaults us (Some k)).

(** *** Lemmas *)

Lemma imap_spec {B} (f : jstr -> nat -> FormData) (a : list (nat * B * jstr)) (st : Rows.state) : Rows.refines st a ->
  concat (imap (fun i (r : nat * B) => f (default [] (Rows.providerValues st !! i)) r.1) (Rows.rows st)) =
  flat_map (fun r => f r.2 r.1.1) a.
Proof.
  intros (R & V & _). rewrite R, V. rewrite flat_map_concat_map. f_equal. apply list_eq. intros i.
  rewrite list_lookup_imap, !list_lookup_fmap. by destruct (a !! i) as [[[k x] v]|].
Qed.

Lemma opened_refines us : Rows.refines (opened_rows us) (imap (fun i u => (i, Some i, provider u)) us).
Proof.
  unfold Rows.refines, opened_rows, Rows.keys. cbn [Rows.rows Rows.providerValues]. split_and!.
  - apply list_eq. intros i. rewrite list_lookup_fmap, !list_lookup_imap. by destruct (us !! i).
  - apply list_eq. intros i. rewrite !list_lookup_fmap, list_lookup_imap. by destruct (us !! i).
  - apply NoDup_alt. intros i j x. rewrite !list_lookup_fmap, !list_lookup_imap.
    destruct (us !! i), (us !! j); cbn; congruence.
Qed.

(** C16: However rows are added, removed and edited, the model form submits for
    each remaining row, in order, the provider chosen in that row next to the
    values typed in that row. *)
Theorem model_rows_submitted us evs inp : Rows.fresh (imap (fun i u => (i, Some i, provider u)) us) evs ->
  rows_data (fold_left Rows.handle evs (opened_rows us)) inp =
  flat_map (fun r => row_entries r.2 (inp r.1.1)) (fold_left Rows.spec_handle evs (imap (fun i u => (i, Some i, provider u)) us)).
Proof.
  intros F. unfold rows_data. apply (imap_spec (fun p k => row_entries p (inp k))). apply Rows.refines_run; [apply opened_refines|done].
Qed.

Lemma unchanged_rows us : rows_data (opened_rows us) (fun k => row_defaults us (Some k)) = flat_map UpstreamRow us.
Proof.
  unfold rows_data. rewrite (imap_spec (fun p k => row_entries p (row_defaults us (Some k))) _ _ (opened_refines us)).
  rewrite !flat_map_concat_map. f_equal. apply list_eq. intros i. rewrite !list_lookup_fmap, list_lookup_imap.
  destruct (us !! i) as [u|] eqn:E; [|done]. cbn [fmap option_fmap option_map fst snd]. unfold row_defaults. cbn [mbind option_bind].
  by rewrite E.
Qed.

(** An item of a comma-separated list. *)
Definition list_item (w : jstr) : Prop := w <> [] /\ Forall (fun c => (c =? 44) || is_space c = false) w.

Lemma split_runs_word p w cur b r : Forall (fun c => p c = false) w -> w <> [] ->
  split_runs_go p cur b (w ++ r) = split_runs_go p (reverse w ++ cur) false r.
Proof.
  intros F. revert cur b. induction F as [|c w Hc F IH]; intros cur b N; [done|]. cbn [app split_runs_go]. rewrite Hc.
  destruct w as [|d w]; [done|]. rewrite IH by done. rewrite (reverse_cons (d :: w) c), <- app_assoc. done.
Qed.

Lemma parseList_join l : Forall list_item l -> parseList (join (js ", ") l) = l.
Proof.
  set (p := fun c => (c =? 44) || is_space c). intros F.
  assert (G : forall b w l, list_item w -> Forall list_item l -> split_runs_go p [] b (join (js ", ") (w :: l)) = w :: l).
  { clear. intros b w l. revert b w. induction l as [|v l IH]; intros b w [N W] F.
    - cbn [join]. rewrite <- (app_nil_r w) at 1. rewrite split_runs_word by done. cbn [split_runs_go]. by rewrite app_nil_r, reverse_involutive.
    - apply Forall_cons in F as [Fv F]. rewrite join_cons by done. rewrite split_runs_word by done.
      change (js ", ") with [44; 32] at 1. cbn [app split_runs_go]. change (p 44) with true. change (p 32) with true. cbv iota.
      rewrite IH by done. by rewrite app_nil_r, reverse_involutive. }
  unfold parseList, split_runs. destruct l as [|w l]; [done|]. apply Forall_cons in F as [Fw F]. rewrite G by done.
  assert (T : Forall list_item (w :: l)) by by constructor. clear -T. induction T as [|x t [N W] _ IH]; [done|].
  cbn [map filter_truthy List.filter]. rewrite trim_id.
  - destruct x; [done|]. cbn [str_empty negb]. f_equal. exact IH.
  - eapply Forall_impl; [done|]. intros c Hc. by apply orb_false_elim in Hc as [_ ?].
Qed.

(** Joining a list with commas and splitting it again cuts each item at its
    own commas and spaces. *)
Lemma parseList_pieces l : parseList (join (js ", ") l) = flat_map parseList l.
Proof.
  set (p := fun c => (c =? 44) || is_space c). set (F := fun l => filter_truthy (map trim l)).
  assert (Fa : forall x y, F (x ++ y) = F x ++ F y) by (intros x y; unfold F, filter_truthy; by rewrite map_app, List.filter_app).
  assert (Sep : forall c y x cur b, p c = true -> (b = true -> cur = []) ->
    F (split_runs_go p cur b (x ++ c :: y)) = F (split_runs_go p cur b x) ++ F (split_runs_go p [] true y)).
  { intros c y x. induction x as [|d x IH]; intros cur b Hc Hb; cbn [app split_runs_go].
    - rewrite Hc. destruct b; [by rewrite Hb|]. apply (Fa [reverse cur]).
    - destruct (p d); [destruct b|]; [by apply IH| |by apply IH].
      change (F ([reverse cur] ++ split_runs_go p [] true (x ++ c :: y)) =
              F ([reverse cur] ++ split_runs_go p [] true x) ++ F (split_runs_go p [] true y)).
      rewrite !Fa, IH by done. by rewrite app_assoc. }
  assert (St : forall y, F (split_runs_go p [] true y) = F (split_runs_go p [] false y)).
  { intros [|c y]; [done|]. cbn [split_runs_go]. by destruct (p c). }
  induction l as [|w l IH]; [done|]. destruct l as [|v l]; [cbn [join flat_map]; by rewrite app_nil_r|].
  cbn [flat_map] in *. rewrite <- IH, join_cons by done. change (js ", ") with [44; 32] at 1. cbn [app].
  change (F (split_runs_go p [] false (w ++ 44 :: 32 :: join (js ", ") (v :: l))) =
          F (split_runs_go p [] false w) ++ F (split_runs_go p [] false (join (js ", ") (v :: l)))).
  rewrite Sep by done. f_equal. rewrite <- St. done.
Qed.

(** A model the admin API stores: an alias without surrounding spaces, a
    context length that is a natural number, upstreams as documented. *)
Record stored_model (m : ModelRow) : Prop := {
  sm_alias : trim (alias m) = alias m /\ alias m <> [];
  sm_context : forall n, context_length m = Some n -> exists k, n = int k /\ 0 <= k <= 2 ^ 53;
  sm_upstreams : Forall stored_upstream (default [] (upstreams m));
}.

Lemma head_fields m fd k : k ∉ map js ["alias"; "description"; "context_length"; "capabilities"; "tags"]%string ->
  fields (head_data m ++ fd) k = fields fd k.
Proof.
  cbn [map]. rewrite !not_elem_of_cons. intros (N1 & N2 & N3 & N4 & N5 & _). unfold fields, fd_getAll, head_data, text. cbn [app List.filter fst].
  by rewrite (proj2 (streq_false k _) N1), (proj2 (streq_false k _) N2), (proj2 (streq_false k _) N3), (proj2 (streq_false k _) N4),
    (proj2 (streq_false k _) N5).
Qed.

Lemma parse_head m fd : parse_upstreams (head_data m ++ fd) = parse_upstreams fd.
Proof.
  unfold parse_upstreams, parse_upstream.
  rewrite !head_fields by (apply (bool_decide_unpack _); vm_compute; exact I). done.
Qed.

(** What saving the model unchanged sends: the description trimmed, the items
    of the lists cut at their commas and spaces, the upstreams rewritten. *)
Definition resaved (m : ModelRow) : json :=
  JObj [(js "description", JStr (trim (default [] (description m))));
        (js "capabilities", JStrs (flat_map parseList (default [] (capabilities m))));
        (js "tags", JStrs (flat_map parseList (default [] (tags m))));
        (js "upstreams", JArr (map upstream_json (map round_upstream (default [] (upstreams m)))));
        (js "context_length", JNum (default (int 0) (context_length m)))].

(** C17: Opening a model for editing and saving it unchanged, when the browser
    accepts the percentages shown, sends one PATCH to that model.  The
    context length, the list items without commas or spaces and each upstream's
    provider, model and token limit are sent as they are stored; prices are
    rounded to the hundredths the form shows and the currency becomes USD
    whatever it was.  An upstream survives the edit exactly when it is
    unpriced, or priced in USD at whole hundredths with a non-zero cache
    multiplier, if any. *)
Theorem model_saved_unchanged {St Bk} `{IronSession St} `{AdminApi Bk} m : stored_model m ->
  forallb step_ok (default [] (upstreams m)) = true ->
  updateModel (unchanged m) = (submit PATCH (js "/api/v1/models/{alias}")
    (path_body (js "alias") (JStr (alias m)) (resaved m)) (js "update failed") [js "/models"] : M St Bk FormResult) /\
  (forall l, Forall list_item l -> flat_map parseList l = l) /\
  (forall u, u ∈ default [] (upstreams m) -> (round_upstream u = u <->
     forall p, pricing u = Some p -> currency p = js "USD" /\
       (exists c, prompt_per_1m p = int (10000 * c)) /\ (exists c, completion_per_1m p = int (10000 * c)) /\
       cache_hit_multiplier p <> Some (int 0))).
Proof.
  intros [[Ta Na] Hc Hu] Hk. split_and!.
  2:{ intros l Hl. rewrite <- parseList_pieces. by apply parseList_join. }
  2:{ intros u I. apply round_upstream_id. rewrite Forall_forall in Hu. by apply Hu. }
  unfold unchanged. cbv zeta. rewrite unchanged_rows. unfold updateModel.
  assert (Fd : forall (k : string) v, fd_get (head_data m ++ flat_map UpstreamRow (default [] (upstreams m))) (js k) = Some (FText v) ->
            field (head_data m ++ flat_map UpstreamRow (default [] (upstreams m))) (js k) = v) by (intros k v E; unfold field; by rewrite E).
  rewrite (Fd "alias"%string (alias m)), (Fd "description"%string (default [] (description m))),
    (Fd "capabilities"%string (join (js ", ") (default [] (capabilities m)))), (Fd "tags"%string (join (js ", ") (default [] (tags m)))) by reflexivity.
  rewrite (Fd "context_length"%string (match context_length m with Some n => if num_truthy n then num_to_string n else [] | None => [] end)) by reflexivity.
  rewrite Ta, !parseList_pieces. rewrite parse_head, model_edit_roundtrip by done.
  destruct (alias m) as [|c al] eqn:Ea; [done|]. cbn [str_empty]. unfold resaved. do 5 f_equal. cbn [fst snd]. do 6 f_equal.
  destruct (context_length m) as [n|]; [|done]. destruct (Hc n eq_refl) as (k & -> & Hn). destruct (Z.eq_dec k 0) as [-> |Nk]; [done|].
  assert (num_truthy (int k) = true) as -> by (by destruct k). cbn [default].
  assert (T : trim (num_to_string (int k)) = num_to_string (int k)).
  { rewrite num_to_string_int by lia. apply trim_id. eapply Forall_impl; [apply digits_spec; lia|]. apply digit_not_space. }
  rewrite T, str_to_num_int, nlt_int by lia. rewrite (proj2 (Z.ltb_lt 0 k)) by lia.
  destruct (num_to_string (int k)) eqn:E; [|done]. rewrite num_to_string_int in E by lia. by apply digits_nonempty in E.
Qed.

End ModelForm.

(** ** Routes *)
Module RouteForm.

Record RouteRow : Type := { model_alias : jstr; providers : option (list RouteProvider); strategy : option jstr }.

Record ModelOption : Type := { mo_alias : jstr; mo_upstreams : option (list jstr) }.

(** The providers offered once a model is chosen. *)
Definition allowedProviders (selectedModel : jstr) (models : list ModelOption) (all : list jstr) : list jstr :=
  if str_empty selectedModel then all
  else match List.find (fun m => streq (mo_alias m) selectedModel) models with
       | Some m => match mo_upstreams m with
                   | Some us => List.filter (fun p => array_includes us p) all
                   | None => all
                   end
       | None => all
       end.

(** The weight a row at an index is mounted with. *)
Definition weight_default (stored : list RouteProvider) (index : nat) : jstr :=
  match stored !! index with Some p => match rp_weight p with Some n => num_to_string n | None => [] end | None => [] end.

Definition row_entries (name weight : jstr) : FormData := [text "route_provider_name" name; text "route_provider_weight" weight].

(** The rows with what their weight inputs hold, by key. *)
Record state : Type := { arrays : Rows.state (X := unit); weights : nat -> jstr }.

Definition opened (stored : list RouteProvider) : state :=
  {| arrays := {| Rows.rows := imap (fun i _ => (i, tt)) stored; Rows.providerValues := map rp_name stored |};
     weights := weight_default stored |}.

(** A new row is mounted at the end of the list. *)
Definition addRow (stored : list RouteProvider) (key : nat) (st : state) : state :=
  let index := length (Rows.rows (arrays st)) in
  {| arrays := Rows.addRow key tt (arrays st); weights := fun k => if (k =? key)%nat then weight_default stored index else weights st k |}.

Definition removeRow (key : nat) (st : state) : state := {| arrays := Rows.removeRow key (arrays st); weights := weights st |}.

Definition rows_data (st : state) : FormData :=
  concat (imap (fun i (r : nat * unit) => row_entries (default [] (Rows.providerValues (arrays st) !! i)) (weights st r.1))
            (Rows.rows (arrays st))).

(** The edit form: the alias is a hidden input. *)
Definition edit_data (r : RouteRow) (strategy : jstr) (st : state) : FormData :=
  [text "model_alias" (model_alias r); text "strategy" strategy] ++ rows_data st.

Definition unchanged (r : RouteRow) : FormData :=
  edit_data r (default [] (strategy r)) (opened (default [] (providers r))).

(** *** Lemmas *)

Lemma route_rows_opened stored : Rows.refines (arrays (opened stored)) (imap (fun i p => (i, tt, rp_name p)) stored).
Proof.
  unfold Rows.refines, opened, Rows.keys. cbn [Rows.rows Rows.providerValues arrays]. split_and!.
  - apply list_eq. intros i. rewrite list_lookup_fmap, !list_lookup_imap. by destruct (stored !! i).
  - apply list_eq. intros i. rewrite !list_lookup_fmap, list_lookup_imap. by destruct (stored !! i).
  - apply NoDup_alt. intros i j x. rewrite !list_lookup_fmap, !list_lookup_imap. destruct (stored !! i), (stored !! j); cbn; congruence.
Qed.

Definition row_of (p : RouteProvider) : FormData :=
  row_entries (rp_name p) (match rp_weight p with Some n => num_to_string n | None => [] end).

Lemma opened_rows stored : rows_data (opened stored) = flat_map row_of stored.
Proof.
  unfold rows_data. rewrite (ModelForm.imap_spec (fun p k => row_entries p (weights (opened stored) k)) _ _ (route_rows_opened stored)).
  rewrite !flat_map_concat_map. f_equal. apply list_eq. intros i. rewrite !list_lookup_fmap, list_lookup_imap.
  destruct (stored !! i) as [p|] eqn:E; [|done]. cbn [fmap option_fmap option_map fst snd weights opened]. unfold weight_default, row_of.
  by rewrite E.
Qed.

(** Stored candidates have names and natural weights. *)
Definition stored_provider (p : RouteProvider) : Prop :=
  rp_name p <> [] /\ forall n, rp_weight p = Some n -> exists k, n = int k /\ 0 <= k <= 2 ^ 53.

Lemma weight_back p : stored_provider p ->
  (let s := match rp_weight p with Some n => num_to_string n | None => [] end in
   if negb (str_empty s) && negb (is_nan (str_to_num s)) then Some (str_to_num s) else None) = rp_weight p.
Proof.
  intros [_ W]. destruct (rp_weight p) as [n|]; [|done]. destruct (W n eq_refl) as (k & -> & Hk). cbv zeta.
  rewrite str_to_num_int by lia. rewrite num_to_string_int by lia.
  destruct (digits k) eqn:E; [by apply digits_nonempty in E|]. done.
Qed.

Lemma route_providers_back fd stored : Forall stored_provider stored -> fields fd "route_provider_name" = map rp_name stored ->
  fields fd "route_provider_weight" = map (fun p => match rp_weight p with Some n => num_to_string n | None => [] end) stored ->
  route_providers fd = stored.
Proof.
  intros F N W. unfold route_providers. rewrite N, W.
  match goal with |- List.filter _ ?l = _ => assert (E : l = stored) end.
  { apply list_eq. intros i. rewrite list_lookup_imap, list_lookup_fmap. unfold at_index. rewrite list_lookup_fmap.
    destruct (stored !! i) as [p|] eqn:L; [|done]. cbn [fmap option_fmap option_map]. f_equal.
    assert (Hp : stored_provider p) by by eapply Forall_lookup_1. pose proof (weight_back p Hp) as Hw. cbv zeta in Hw |- *.
    rewrite Hw. by destruct p. }
  rewrite E. clear -F. induction F as [|p l [N _] _ IH]; [done|]. cbn [List.filter]. destruct (rp_name p); [done|]. cbn. by rewrite IH.
Qed.

(** Opening a route for editing and saving it unchanged sends one PATCH to
    that route with its candidates in order, each with its weight or without
    one, and its strategy. *)
Theorem route_saved_unchanged {St Bk} `{IronSession St} `{AdminApi Bk} r :
  trim (model_alias r) = model_alias r -> model_alias r <> [] -> trim (default [] (strategy r)) = default [] (strategy r) ->
  Forall stored_provider (default [] (providers r)) ->
  updateRoute (unchanged r) = (submit PATCH (js "/api/v1/routes/{alias}")
    (path_body (js "alias") (JStr (model_alias r))
       (JObj ([(js "providers", JArr (map route_provider_json (default [] (providers r))))]
              ++ set_text (js "strategy") (default [] (strategy r)))))
    (js "update failed") [js "/routes"] : M St Bk FormResult).
Proof.
  intros Ta Na Ts F. unfold updateRoute, unchanged, edit_data. rewrite opened_rows.
  rewrite (route_providers_back _ (default [] (providers r))) by first
    [ done | rewrite fields_app; by rewrite (fields_rows row_of _ rp_name)
    | rewrite fields_app; by rewrite (fields_rows row_of _ (fun p => match rp_weight p with Some n => num_to_string n | None => [] end)) ].
  change (field _ "model_alias") with (model_alias r). change (field _ "strategy") with (default [] (strategy r)). rewrite Ta, Ts.
  by destruct (model_alias r).
Qed.

(** A row added after one was removed is mounted with the weight of the stored
    candidate at that position, which belongs to another provider. *)
Theorem added_row_inherits_weight :
  let stored := [{| rp_name := js "a"; rp_weight := Some (int 1) |}; {| rp_name := js "b"; rp_weight := Some (int 9) |}] in
  let st := addRow stored 2 (removeRow 0 (opened stored)) in
  rows_data st = row_entries (js "b") (js "9") ++ row_entries [] (js "9").
Proof. vm_compute. done. Qed.

End RouteForm.

(** ** Providers *)
Module AdminProvider.

Definition PRESET_BRANDS : list jstr :=
  map js ["openai"; "tencent"; "zhipu"; "anthropic"; "google"; "azure"; "deepseek"; "bedrock"].

Definition DB_PROVIDER_REF_PREFIX : jstr := "db://provider/".

Inductive CredMode : Type := Ref | Key.

Record EndpointRow : Type := { er_id : jstr; er_adapter : jstr; er_base_url : jstr }.

Definition blank_endpoint : EndpointRow := {| er_id := []; er_adapter := js "openai"; er_base_url := [] |}.

(** An endpoint as the API returns it, with the timeouts it may override. *)
Record ApiEndpoint : Type := { ae_id : option jstr; ae_adapter : jstr; ae_base_url : jstr; ae_timeouts : option json }.

Definition api_endpoint_fields (e : ApiEndpoint) : list (jstr * json) :=
  match ae_id e with Some i => [(js "id", JStr i)] | None => [] end
  ++ [(js "adapter", JStr (ae_adapter e)); (js "base_url", JStr (ae_base_url e))]
  ++ match ae_timeouts e with Some v => [(js "timeouts", v)] | None => [] end.

(** [dvEndpoints.map((ep) => ({ id, adapter, base_url }))] *)
Definition endpoint_of (ep : ApiEndpoint) : EndpointRow :=
  {| er_id := default [] (ae_id ep); er_adapter := ae_adapter ep; er_base_url := ae_base_url ep |}.

(** A provider as the list page passes it on; the API masks the reference. *)
Record ProviderRow : Type := {
  pr_name : jstr; pr_type : jstr; pr_endpoints : list ApiEndpoint; pr_api_key_ref : jstr;
}.

(** The form's state, with the text of the mounted credential input. *)
Record state : Type := {
  selectedType : jstr; customType : jstr; showCustom : bool; endpoints : list EndpointRow;
  credMode : CredMode; credential : jstr;
}.

Definition is_preset (ty : jstr) : bool := array_includes PRESET_BRANDS ty.

Definition opened (p : option ProviderRow) : state :=
  let dvType := match p with Some p => pr_type p | None => [] end in
  let dvApiKeyRef := match p with Some p => pr_api_key_ref p | None => [] end in
  let custom := negb (is_preset dvType) && negb (str_empty dvType) in
  let mode := if startsWith DB_PROVIDER_REF_PREFIX dvApiKeyRef then Key else Ref in
  {| selectedType := if is_preset dvType then dvType else []; customType := if custom then dvType else []; showCustom := custom;
     endpoints := match p with Some {| pr_endpoints := (_ :: _) as l |} => map endpoint_of l | _ => [blank_endpoint] end;
     credMode := mode; credential := match mode with Ref => dvApiKeyRef | Key => [] end |}.

Definition typeValue (st : state) : jstr := if str_empty (selectedType st) then customType st else selectedType st.

Inductive event : Type :=
  | SelectType (v : jstr)
  | TypeCustom (v : jstr)
  | AddEndpoint
  | RemoveEndpoint (i : nat)
  | SetAdapter (i : nat) (v : jstr)
  | SetBaseUrl (i : nat) (v : jstr)
  | SetCredMode (m : CredMode)
  | TypeCredential (v : jstr).

Definition with_types (st : state) (s c : jstr) (b : bool) : state :=
  {| selectedType := s; customType := c; showCustom := b; endpoints := endpoints st; credMode := credMode st; credential := credential st |}.
Definition with_endpoints (st : state) (l : list EndpointRow) : state :=
  {| selectedType := selectedType st; customType := customType st; showCustom := showCustom st; endpoints := l;
     credMode := credMode st; credential := credential st |}.
Definition with_credential (st : state) (m : CredMode) (c : jstr) : state :=
  {| selectedType := selectedType st; customType := customType st; showCustom := showCustom st; endpoints := endpoints st;
     credMode := m; credential := c |}.

Definition same_mode (a b : CredMode) : bool := match a, b with Ref, Ref | Key, Key => true | _, _ => false end.

(** [dvApiKeyRef] is the default of the reference input whenever it is
    mounted; the remove button is shown while there are two endpoints. *)
Definition handle (dvApiKeyRef : jstr) (st : state) (e : event) : state :=
  match e with
  | SelectType v => if streq v "_custom_" then with_types st [] (customType st) true else with_types st v [] false
  | TypeCustom v => if showCustom st then with_types st (selectedType st) v true else st
  | AddEndpoint => with_endpoints st (endpoints st ++ [blank_endpoint])
  | RemoveEndpoint i => if (1 <? length (endpoints st))%nat then with_endpoints st (delete i (endpoints st)) else st
  | SetAdapter i v => with_endpoints st (alter (fun r => {| er_id := er_id r; er_adapter := v; er_base_url := er_base_url r |}) i (endpoints st))
  | SetBaseUrl i v => with_endpoints st (alter (fun r => {| er_id := er_id r; er_adapter := er_adapter r; er_base_url := v |}) i (endpoints st))
  | SetCredMode m => if same_mode m (credMode st) then st
                     else with_credential st m (match m with Ref => dvApiKeyRef | Key => [] end)
  | TypeCredential v => with_credential st (credMode st) v
  end.

Definition endpoint_entries (r : EndpointRow) : FormData :=
  [text "endpoint_id" (er_id r); text "endpoint_adapter" (er_adapter r); text "endpoint_base_url" (er_base_url r)].

Definition cred_name (m : CredMode) : jstr := match m with Ref => js "api_key_ref" | Key => js "api_key" end.

(** What the form submits; [name] is the typed name, or the hidden input of
    the edit form. *)
Definition form_data (name : jstr) (st : state) : FormData :=
  [text "name" name;
   text "_type_select" (if str_empty (selectedType st) then if showCustom st then js "_custom_" else [] else selectedType st);
   text "type" (typeValue st)]
  ++ flat_map endpoint_entries (endpoints st)
  ++ [text "_cred_mode" (match credMode st with Ref => js "ref" | Key => js "key" end);
      (cred_name (credMode st), FText (credential st))].

(** A masked reference, as the API returns them. *)
Definition masked (ref : jstr) : bool := streq ref "***" || endsWith (js "://***") ref.

(** The spec [runFormTest] probes, [None] when the first endpoint is not
    filled in. *)
Definition test_spec (isEdit : bool) (mode : CredMode) (fd : FormData) : option ProviderTestSpec :=
  let adapterValue := trim (nth_field (fields fd "endpoint_adapter") 0) in
  let baseUrl := trim (nth_field (fields fd "endpoint_base_url") 0) in
  if str_empty adapterValue || str_empty baseUrl then None
  else
    let name := trim (field fd "name") in
    let cred := trim (field fd (cred_name mode)) in
    Some {| ts_name := if isEdit && negb (str_empty name) then Some name else None;
            ts_adapter := adapterValue; ts_baseUrl := baseUrl;
            ts_apiKey := match mode with Key => if str_empty cred then None else Some cred | Ref => None end;
            ts_apiKeyRef := match mode with Ref => if str_empty cred || masked cred then None else Some cred | Key => None end |}.

Section Test.
  Context {St Bk : Type} `{IronSession St} `{AdminApi Bk}.
  Variable t : jstr -> jstr.

Definition runFormTest (isEdit : bool) (mode : CredMode) (fd : FormData) : M St Bk ProviderTestOutcome :=
  match test_spec isEdit mode fd with
  | None => mret (TestFailed (t (js "test.missingFields")) None)
  | Some spec => testProviderConnection spec
  end.

(** The submit handler: the state of the form after a save; the reference
    input is back at its default. *)
Definition save (isEdit : bool) (dvApiKeyRef name : jstr) (st : state) : M St Bk (FormResult * state) :=
  result ← (if isEdit then updateProvider (form_data name st) else createProvider (form_data name st));
  mret (result, match result with
                | FOk => {| selectedType := []; customType := []; showCustom := false; endpoints := [blank_endpoint];
                            credMode := Ref; credential := dvApiKeyRef |}
                | FErr _ _ => st
                end).

End Test.

(** *** Properties *)

(** One kind of type and at least one endpoint. *)
Definition form_ok (st : state) : Prop :=
  endpoints st <> [] /\ (selectedType st = [] \/ (customType st = [] /\ showCustom st = false)).

Lemma opened_ok p : form_ok (opened p).
Proof.
  split.
  - unfold opened. cbn [endpoints]. destruct p as [[? ? [|? ?] ?]|]; done.
  - unfold opened. cbn [selectedType customType showCustom]. destruct (is_preset _); [right; done|by left].
Qed.

Lemma handle_ok dv st e : form_ok st -> form_ok (handle dv st e).
Proof.
  intros [E T]. destruct e as [v|v| |i|i v|i v|m|v]; cbn [handle].
  - case_match; (split; [done|]); cbn; [by left|by right].
  - destruct T as [T|[T S]]; [|rewrite S; split; auto]. case_match; split; auto.
  - split; [|done]. cbn. by destruct (endpoints st).
  - destruct (Nat.ltb_spec 1 (length (endpoints st))) as [L|L]; [|by split]. split; [|done]. cbn. intros D.
    destruct (endpoints st) as [|x [|y l]]; simpl in L; [lia..|]. by destruct i as [|[|i]].
  - split; [|done]. cbn. intros D. apply (f_equal length) in D. rewrite length_alter in D. by destruct (endpoints st).
  - split; [|done]. cbn. intros D. apply (f_equal length) in D. rewrite length_alter in D. by destruct (endpoints st).
  - destruct (same_mode m (credMode st)); by split.
  - by split.
Qed.

Lemma past_endpoints l r k : k ∉ map js ["endpoint_id"; "endpoint_adapter"; "endpoint_base_url"]%string ->
  fd_get (flat_map endpoint_entries l ++ r) k = fd_get r k.
Proof.
  cbn [map]. rewrite !not_elem_of_cons. intros (N1 & N2 & N3 & _). induction l as [|x l IH]; [done|].
  cbn [flat_map app endpoint_entries fd_get text].
  by rewrite (proj2 (streq_false k _) N1), (proj2 (streq_false k _) N2), (proj2 (streq_false k _) N3).
Qed.

Lemma no_weight name st : field (form_data name st) "weight" = [].
Proof.
  unfold field, form_data. cbn. rewrite past_endpoints; [by destruct (credMode st)|].
  apply (bool_decide_unpack _); vm_compute; exact I.
Qed.

Lemma cred_field name st k : k = js "api_key" \/ k = js "api_key_ref" ->
  field (form_data name st) k = if streq k (cred_name (credMode st)) then credential st else [].
Proof.
  intros K. unfold field, form_data.
  destruct K as [-> | ->]; cbn; (rewrite past_endpoints; [by destruct (credMode st)|apply (bool_decide_unpack _); vm_compute; exact I]).
Qed.

(** The provider form always has an endpoint to fill in and at most one
    source for the vendor type, and whatever was clicked it submits one
    credential field: the plaintext key and the reference never go out
    together. *)
Theorem provider_form_invariant p evs name :
  let st := fold_left (handle (match p with Some p => pr_api_key_ref p | None => [] end)) evs (opened p) in
  form_ok st /\
  (field (form_data name st) "api_key" = [] \/ field (form_data name st) "api_key_ref" = []).
Proof.
  intros st. split.
  - subst st. generalize (opened_ok p). generalize (opened p). induction evs as [|e evs IH]; intros s H; [done|].
    cbn [fold_left]. apply IH. by apply handle_ok.
  - rewrite !cred_field by auto. destruct (credMode st); [by left|by right].
Qed.

(** The connection test never sends the mask of a stored reference as if it
    were one: the request's reference is typed text. *)
Theorem test_never_sends_mask isEdit mode fd spec r : test_spec isEdit mode fd = Some spec -> ts_apiKeyRef spec = Some r ->
  masked r = false /\ r <> [] /\ ts_apiKey spec = None.
Proof.
  unfold test_spec. generalize (trim (field fd (cred_name mode))). intros cred.
  destruct (_ || _); [done|]. intros [= <-]. cbn [ts_apiKeyRef ts_apiKey]. destruct mode; [|done].
  destruct cred as [|c cred]; [done|]. cbn [str_empty orb]. destruct (masked (c :: cred)) eqn:M; [done|]. intros [= <-]. by split_and!.
Qed.

(** *** Saving an unchanged provider *)

Definition sent_endpoint (r : EndpointRow) : endpoint :=
  {| ep_id := if str_empty (er_id r) then None else Some (er_id r); ep_adapter := er_adapter r; ep_base_url := er_base_url r |}.

Definition stored_endpoint (r : EndpointRow) : Prop :=
  trim (er_id r) = er_id r /\ trim (er_adapter r) = er_adapter r /\ trim (er_base_url r) = er_base_url r /\ er_adapter r <> [].

Lemma form_fields name st k (g : EndpointRow -> jstr) : k ∉ map js ["name"; "_type_select"; "type"; "_cred_mode"; "api_key"; "api_key_ref"]%string ->
  (forall r, fields (endpoint_entries r) k = [g r]) -> fields (form_data name st) k = map g (endpoints st).
Proof.
  cbn [map]. rewrite !not_elem_of_cons. intros (N1 & N2 & N3 & N4 & N5 & N6 & _) G. unfold form_data. rewrite !fields_app, (fields_rows _ _ g _ G).
  assert (Z1 : fields [text "name" name; text "_type_select" (if str_empty (selectedType st) then if showCustom st then js "_custom_" else [] else selectedType st);
                       text "type" (typeValue st)] k = []).
  { unfold fields, fd_getAll, text. cbn [List.filter fst].
    by rewrite (proj2 (streq_false k _) N1), (proj2 (streq_false k _) N2), (proj2 (streq_false k _) N3). }
  rewrite Z1. cbn [app]. assert (Z2 : forall v w, fields [text "_cred_mode" v; (cred_name (credMode st), FText w)] k = []).
  { intros v w. unfold fields, fd_getAll, text. cbn [List.filter fst]. rewrite (proj2 (streq_false k _) N4).
    by destruct (credMode st); cbn [cred_name]; rewrite ?(proj2 (streq_false k _) N5), ?(proj2 (streq_false k _) N6). }
  by rewrite Z2, app_nil_r.
Qed.

Lemma endpoints_back name st : Forall stored_endpoint (endpoints st) -> collectEndpoints (form_data name st) = map sent_endpoint (endpoints st).
Proof.
  intros F. unfold collectEndpoints. rewrite collectEndpoints_from_spec.
  assert (Fa : fields (form_data name st) "endpoint_adapter" = map er_adapter (endpoints st)) by (apply form_fields; [apply (bool_decide_unpack _); vm_compute; exact I|done]).
  assert (Fb : fields (form_data name st) "endpoint_base_url" = map er_base_url (endpoints st)) by (apply form_fields; [apply (bool_decide_unpack _); vm_compute; exact I|done]).
  assert (Fi : fields (form_data name st) "endpoint_id" = map er_id (endpoints st)) by (apply form_fields; [apply (bool_decide_unpack _); vm_compute; exact I|done]).
  rewrite Fa, length_map.
  assert (E : map (endpoint_row (form_data name st)) (seq 0 (length (endpoints st))) = map sent_endpoint (endpoints st)).
  { apply list_eq. intros i. rewrite !list_lookup_fmap. destruct (endpoints st !! i) as [r|] eqn:L.
    - assert (Li : (i < length (endpoints st))%nat) by (by apply lookup_lt_is_Some_1; eexists).
      rewrite lookup_seq_lt by done. cbn [fmap option_fmap option_map]. f_equal. unfold endpoint_row, nth_field, at_index.
      rewrite Fa, Fb, Fi, !list_lookup_fmap. cbn [Nat.add]. rewrite L. cbn [fmap option_fmap option_map].
      destruct (proj1 (Forall_lookup _ _) F i r L) as (-> & -> & -> & _). done.
    - rewrite lookup_seq_ge by (by apply lookup_ge_None). done. }
  rewrite E. clear -F. induction F as [|r l (_ & _ & _ & N) _ IH]; [done|]. cbn [map List.filter sent_endpoint ep_adapter].
  destruct (er_adapter r); [done|]. cbn. by rewrite IH.
Qed.

(** A provider as the API stores it: trimmed texts, a name, endpoints whose id
    is absent or not empty. *)
Definition stored_provider (p : ProviderRow) : Prop :=
  trim (pr_name p) = pr_name p /\ pr_name p <> [] /\ trim (pr_type p) = pr_type p /\
  trim (pr_api_key_ref p) = pr_api_key_ref p /\ pr_endpoints p <> [] /\
  Forall (fun e => stored_endpoint (endpoint_of e) /\ ae_id e <> Some []) (pr_endpoints p).

(** The body of an unchanged save; [timeouts] is left out of every endpoint. *)
Definition unchanged_body (p : ProviderRow) : list (jstr * json) :=
  set_text (js "type") (pr_type p)
  ++ [(js "endpoints", JArr (map (fun e =>
        JObj (List.filter (fun kv => negb (streq kv.1 (js "timeouts"))) (api_endpoint_fields e))) (pr_endpoints p)))]
  ++ (if startsWith DB_PROVIDER_REF_PREFIX (pr_api_key_ref p) then [] else set_text (js "api_key_ref") (pr_api_key_ref p)).

Lemma sent_endpoint_json e : ae_id e <> Some [] ->
  endpoint_json (sent_endpoint (endpoint_of e)) =
  JObj (List.filter (fun kv => negb (streq kv.1 (js "timeouts"))) (api_endpoint_fields e)).
Proof.
  intros N. unfold endpoint_json, sent_endpoint, endpoint_of, api_endpoint_fields. cbn [er_id er_adapter er_base_url ep_id ep_adapter ep_base_url].
  f_equal. rewrite !List.filter_app.
  assert (T : List.filter (fun kv => negb (streq kv.1 (js "timeouts"))) (match ae_timeouts e with Some v => [(js "timeouts", v)] | None => [] end) = [])
    by (destruct (ae_timeouts e); [cbn [List.filter fst]; by rewrite streq_refl|done]).
  rewrite T, app_nil_r. destruct (ae_id e) as [[|c i]|]; [done|reflexivity..].
Qed.

(** The generic fields of an unchanged save. *)
Lemma patch_unchanged p : stored_provider p -> provider_patch (form_data (pr_name p) (opened (Some p))) = unchanged_body p.
Proof.
  intros (_ & _ & Tt & Tr & Ne & F). unfold provider_patch, unchanged_body.
  rewrite (cred_field _ _ (js "api_key")), (cred_field _ _ (js "api_key_ref")) by auto.
  assert (Ee : endpoints (opened (Some p)) = map endpoint_of (pr_endpoints p)) by (destruct p as [? ? [|? ?] ?]; done).
  rewrite endpoints_back.
  2:{ rewrite Ee. apply Forall_map. eapply Forall_impl; [exact F|]. by intros e []. }
  rewrite Ee.
  assert (Ej : map (fun e => JObj (List.filter (fun kv => negb (streq kv.1 (js "timeouts"))) (api_endpoint_fields e))) (pr_endpoints p) =
               map endpoint_json (map sent_endpoint (map endpoint_of (pr_endpoints p)))).
  { rewrite !map_map. apply map_ext_Forall. eapply Forall_impl; [exact F|]. intros e [_ N]. by rewrite sent_endpoint_json. }
  rewrite Ej. clear Ej.
  assert (Ft : field (form_data (pr_name p) (opened (Some p))) "type" = pr_type p).
  { change (field _ "type") with (typeValue (opened (Some p))). unfold typeValue, opened. cbn [selectedType customType].
    destruct (is_preset (pr_type p)) eqn:Pz; destruct (pr_type p); done. }
  rewrite Ft, Tt.
  rewrite no_weight. cbn [credMode credential opened]. unfold set_endpoints.
  destruct (startsWith DB_PROVIDER_REF_PREFIX (pr_api_key_ref p)) eqn:S; cbn [cred_name].
  - change (streq (js "api_key") (js "api_key")) with true. change (streq (js "api_key_ref") (js "api_key")) with false.
    destruct (pr_endpoints p) eqn:L; [done|]. cbn. by rewrite ?app_nil_r.
  - change (streq (js "api_key") (js "api_key_ref")) with false. change (streq (js "api_key_ref") (js "api_key_ref")) with true.
    destruct (pr_endpoints p) eqn:L; [done|]. cbn [trim str_empty]. change (trim []) with (@nil Z). cbn [str_empty]. rewrite Tr.
    cbn [map prop_if]. unfold set_number. change (trim []) with (@nil Z). cbn [str_empty negb prop_if]. by rewrite ?app_nil_r.
Qed.

Lemma no_plain_key p : trim (field (form_data (pr_name p) (opened (Some p))) "api_key") = [].
Proof.
  rewrite cred_field by auto. cbn [credMode credential opened].
  by destruct (startsWith DB_PROVIDER_REF_PREFIX (pr_api_key_ref p)).
Qed.

(** C18: An unchanged save of a provider sends one request, the generic PATCH,
    whatever the API answers: no credential is rotated.  Its body holds the
    type, the endpoints as they are stored but for their timeouts, which are
    dropped, and, when the credential is a reference, that reference as the API
    returned it — a mask such as [env://***], so that the stored reference is
    overwritten by its mask.  With a credential in the database no credential
    field is sent. *)
Theorem provider_saved_unchanged {St Bk} `{IronSession St} `{AdminApi Bk} p (w : world St Bk) : stored_provider p ->
  updateProvider (form_data (pr_name p) (opened (Some p))) w =
  submit PATCH (js "/api/v1/providers/{name}") (path_body (js "name") (JStr (pr_name p)) (JObj (unchanged_body p)))
    (js "update failed") [js "/providers"] w.
Proof.
  intros P. pose proof P as (Tn & Nn & _). unfold updateProvider.
  change (field (form_data (pr_name p) (opened (Some p))) "name") with (pr_name p). rewrite Tn.
  destruct (str_empty (pr_name p)) eqn:En; [by apply str_empty_true in En|]. cbv zeta.
  rewrite no_plain_key, (patch_unchanged p P). unfold submit, try_form, try_catch, call_block, and_then, rotate_credential.
  cbn [str_empty]. unfold mbind, M_bind. destruct (serverAdminClient w) as [[c|e] w1]; [|done].
  unfold patch_provider. destruct (unchanged_body p) as [|kv b] eqn:B.
  - apply (f_equal length) in B. unfold unchanged_body in B. rewrite !length_app in B. cbn [length] in B. lia.
  - unfold mbind, M_bind. destruct (api c PATCH _ _ w1) as [[r|e] w2]; [|done]. unfold mret, M_ret. by destruct (check_result r _).
Qed.

End AdminProvider.

(** ** Witnesses *)
Module Stored.

Lemma cheap_stored : stored_upstream cheap_upstream.
Proof.
  split.
  - intros n [= <-]. exists 4096. split; [reflexivity|lia].
  - intros p [= <-]. split; [exists 75000; split; [reflexivity|lia]|].
    split; [exists 600000; split; [reflexivity|lia]|]. intros m [= <-]. exists 500000. split; [reflexivity|lia].
Qed.

Definition model : ModelForm.ModelRow :=
  {| ModelForm.alias := js "mini"; ModelForm.description := None; ModelForm.context_length := Some (int 128000);
     ModelForm.capabilities := Some [js "chat"; js "tools"]; ModelForm.tags := None; ModelForm.upstreams := Some [cheap_upstream] |}.

Definition route : RouteForm.RouteRow :=
  {| RouteForm.model_alias := js "mini"; RouteForm.strategy := None;
     RouteForm.providers := Some [{| rp_name := js "a"; rp_weight := Some (int 3) |}; {| rp_name := js "b"; rp_weight := None |}] |}.

(** A provider read back from the API, its reference masked. *)
Definition provider : AdminProvider.ProviderRow :=
  {| AdminProvider.pr_name := js "main"; AdminProvider.pr_type := js "openai"; AdminProvider.pr_api_key_ref := js "env://***";
     AdminProvider.pr_endpoints := [{| AdminProvider.ae_id := Some (js "1"); AdminProvider.ae_adapter := js "openai";
                                       AdminProvider.ae_base_url := js "https://api";
                                       AdminProvider.ae_timeouts := Some (JObj [(js "connect_ms", JNum (int 500))]) |}] |}.

End Stored.

Lemma model_rows_submitted_witness :
  let inp k := ModelForm.row_defaults [cheap_upstream; cheap_upstream] (Some k) in
  ModelForm.rows_data (fold_left Rows.handle [Rows.Remove 0; Rows.Add 5 None; Rows.Choose 5 (js "zhipu")]
    (ModelForm.opened_rows [cheap_upstream; cheap_upstream])) inp =
  ModelForm.row_entries (js "openai") (inp 1%nat) ++ ModelForm.row_entries (js "zhipu") (inp 5%nat).
Proof.
  intros inp. refine (ModelForm.model_rows_submitted [cheap_upstream; cheap_upstream] [Rows.Remove 0; Rows.Add 5 None; Rows.Choose 5 (js "zhipu")] inp _).
  cbn. split_and!; try done. apply (bool_decide_unpack _). vm_compute. exact I.
Defined.

Lemma model_saved_unchanged_witness :
  w_log (updateModel (ModelForm.unchanged Stored.model) (Reference.world0 [Reference.reply 200 None None])).2 =
  w_log ((submit PATCH (js "/api/v1/models/{alias}") (path_body (js "alias") (JStr (js "mini")) (ModelForm.resaved Stored.model))
    (js "update failed") [js "/models"] : M SessionData (list api_result) FormResult) (Reference.world0 [Reference.reply 200 None None])).2.
Proof.
  destruct (ModelForm.model_saved_unchanged (St := SessionData) (Bk := list api_result) Stored.model) as [E _];
    [|reflexivity|by rewrite E]. split.
  - split; [reflexivity|done].
  - intros n [= <-]. exists 128000. split; [reflexivity|lia].
  - constructor; [apply Stored.cheap_stored|constructor].
Defined.

Lemma route_saved_unchanged_witness :
  (updateRoute (RouteForm.unchanged Stored.route) (Reference.world0 [Reference.reply 200 None None])).1 = Ret FOk.
Proof.
  rewrite (RouteForm.route_saved_unchanged Stored.route); [reflexivity|reflexivity|done|reflexivity|].
  constructor; [|constructor; [|constructor]]; (split; [done|]); cbn; [|done]. intros n [= <-]. exists 3. split; [reflexivity|lia].
Defined.

Lemma test_never_sends_mask_witness :
  let fd := AdminProvider.form_data (js "main") (AdminProvider.handle [] (AdminProvider.opened (Some Stored.provider))
              (AdminProvider.TypeCredential (js "env://KEY"))) in
  exists spec, AdminProvider.test_spec true AdminProvider.Ref fd = Some spec /\ ts_apiKeyRef spec = Some (js "env://KEY") /\
    AdminProvider.masked (js "env://KEY") = false /\ ts_apiKey spec = None.
Proof.
  eexists. split; [reflexivity|]. split; [reflexivity|].
  destruct (AdminProvider.test_never_sends_mask true AdminProvider.Ref
    (AdminProvider.form_data (js "main") (AdminProvider.handle [] (AdminProvider.opened (Some Stored.provider)) (AdminProvider.TypeCredential (js "env://KEY"))))
    _ (js "env://KEY") eq_refl eq_refl) as (M & _ & K). by split.
Defined.

Lemma provider_saved_unchanged_witness :
  let w := Reference.world0 [Reference.reply 200 None None] in
  let out := updateProvider (AdminProvider.form_data (js "main") (AdminProvider.opened (Some Stored.provider))) w in
  out.1 = Ret FOk /\
  out = submit PATCH (js "/api/v1/providers/{name}") (path_body (js "name") (JStr (js "main")) (JObj
    [(js "type", JStr (js "openai"));
     (js "endpoints", JArr [JObj [(js "id", JStr (js "1")); (js "adapter", JStr (js "openai")); (js "base_url", JStr (js "https://api"))]]);
     (js "api_key_ref", JStr (js "env://***"))])) (js "update failed") [js "/providers"] w.
Proof.
  split; [reflexivity|].
  refine (AdminProvider.provider_saved_unchanged Stored.provider (Reference.world0 [Reference.reply 200 None None]) _).
  split_and!; [reflexivity|discriminate|reflexivity|reflexivity|discriminate|].
  constructor; [|constructor]. split; [by repeat split|discriminate].
Defined.
