(* ===== verification/AccessForms.v ===== *)
(** * Access and billing forms of the Control Panel

    The forms of [roles], [operators], [api-keys], [plugins], [budgets],
    [settings] and [quotas] ([web/src/app/[locale]/(dashboard)]), composed with
    their server actions. *)

From S2P Require Import Prelude JsNumber Money JsString Json JsonPretty AdminRuntime FormActions ConfigActions TenantActions Widgets AdminForms.

(** ** Grouping and sorting

    Rows grouped in a [Map] by a key, in order of first appearance. *)
Section Groups.
  Context {A : Type}.

(** [groups.get(r) ?? []], [push], then [groups.set(r, list)]. *)
Fixpoint group_add (r : jstr) (p : A) (groups : list (jstr * list A)) : list (jstr * list A) :=
  match groups with
  | [] => [(r, [p])]
  | (k, l) :: t => if streq k r then (k, l ++ [p]) :: t else (k, l) :: group_add r p t
  end.

Fixpoint group_get (r : jstr) (groups : list (jstr * list A)) : list A :=
  match groups with [] => [] | (k, l) :: t => if streq k r then l else group_get r t end.

Definition group_by (key : A -> jstr) (rows : list A) : list (jstr * list A) :=
  fold_left (fun groups p => group_add (key p) p groups) rows [].

Lemma group_add_all r (p : A) g : concat (map snd (group_add r p g)) ≡ₚ p :: concat (map snd g).
Proof.
  induction g as [|[k l] g IH]; [done|]. cbn [group_add]. destruct (streq k r); cbn [map concat snd].
  - rewrite <- app_assoc. cbn [app]. by rewrite <- Permutation_middle.
  - rewrite IH. by rewrite <- Permutation_middle.
Qed.

Lemma group_add_keys r (p : A) g : map fst (group_add r p g) = if array_includes (map fst g) r then map fst g else map fst g ++ [r].
Proof.
  induction g as [|[k l] g IH]; [done|]. cbn [group_add map fst array_includes existsb].
  destruct (streq k r) eqn:E.
  - apply streq_true in E as ->. by rewrite streq_refl.
  - cbn [map fst]. rewrite IH. assert (streq r k = false) as -> by (apply streq_false; intros ->; by rewrite streq_refl in E).
    cbn [orb]. fold (array_includes (map fst g) r). by destruct (array_includes (map fst g) r).
Qed.

Lemma group_add_nodup r (p : A) g : NoDup (map fst g) -> NoDup (map fst (group_add r p g)).
Proof.
  intros N. rewrite group_add_keys. destruct (array_includes (map fst g) r) eqn:E; [done|]. apply NoDup_app. split_and!; [done| |apply NoDup_singleton].
  intros x X. rewrite list_elem_of_singleton. intros ->. apply array_includes_spec in X. congruence.
Qed.

Lemma groups_all (key : A -> jstr) (perms : list A) g : NoDup (map fst g) ->
  let g' := fold_left (fun groups p => group_add (key p) p groups) perms g in
  NoDup (map fst g') /\ concat (map snd g') ≡ₚ perms ++ concat (map snd g).
Proof.
  revert g. induction perms as [|p perms IH]; intros g N; [done|]. cbn [fold_left]. destruct (IH (group_add (key p) p g)) as [N' P]; [by apply group_add_nodup|].
  split; [done|]. rewrite P, group_add_all. cbn [app]. by rewrite <- Permutation_middle.
Qed.

Lemma group_get_all (g : list (jstr * list A)) : NoDup (map fst g) -> flat_map (fun r => group_get r g) (map fst g) = concat (map snd g).
Proof.
  induction g as [|[k l] g IH]; [done|]. cbn [map fst]. rewrite NoDup_cons. intros [N D]. cbn [flat_map map snd concat group_get].
  rewrite streq_refl. f_equal. rewrite <- IH by done. clear IH D. revert N. generalize (map fst g) as ks. induction ks as [|x ks IHk]; [done|].
  rewrite not_elem_of_cons. intros [Nx Nk]. cbn [flat_map]. rewrite (proj2 (streq_false k x) Nx). by rewrite IHk.
Qed.

(** Grouping neither loses nor repeats a row. *)
Lemma group_by_all key rows : NoDup (map fst (group_by key rows)) /\ concat (map snd (group_by key rows)) ≡ₚ rows.
Proof.
  destruct (groups_all key rows [] NoDup_nil_2) as [N P]. cbn [map concat] in P. rewrite app_nil_r in P. done.
Qed.

End Groups.

(** The code-unit order of [Array.prototype.sort]. *)
Fixpoint str_le (a b : jstr) : bool :=
  match a, b with
  | [], _ => true
  | _ :: _, [] => false
  | x :: a', y :: b' => (x <? y) || ((x =? y) && str_le a' b')
  end.

Fixpoint sort_insert (x : jstr) (l : list jstr) : list jstr :=
  match l with [] => [x] | y :: t => if str_le x y then x :: l else y :: sort_insert x t end.

Definition sort_strings (l : list jstr) : list jstr := foldr sort_insert [] l.

Lemma sort_insert_perm x l : sort_insert x l ≡ₚ x :: l.
Proof. induction l as [|y l IH]; [done|]. cbn [sort_insert]. destruct (str_le x y); [done|]. rewrite IH. by constructor. Qed.

Lemma sort_strings_perm l : sort_strings l ≡ₚ l.
Proof. induction l as [|x l IH]; [done|]. cbn [sort_strings foldr]. fold (sort_strings l). by rewrite sort_insert_perm, IH. Qed.

(** Splitting undoes joining. *)
Lemma split_char_join c l : l <> [] -> Forall (fun w => c ∉ w) l -> split_char c (join [c] l) = l.
Proof.
  induction l as [|w l IH]; intros N F; [done|]. apply Forall_cons in F as [W F].
  destruct l as [|v l]; [by apply split_char_none|]. rewrite join_cons by done. cbn [app]. rewrite split_char_app by done. by rewrite IH.
Qed.

(** ** Roles *)
Module RoleForm.

Record RoleRow : Type := {
  id : num; name : jstr; scope_kind : jstr; is_builtin : bool; description : jstr; permissions : list jstr;
}.

Record PermissionItem : Type := { perm : jstr; pscope : jstr; plabel : jstr }.

(** *** The permission grid *)

(** [p.perm.split(".")[0]] *)
Definition resource_of (p : PermissionItem) : jstr := match split_char 46 (perm p) with r :: _ => r | [] => [] end.

Definition groupPermissions (perms : list PermissionItem) : list (jstr * list PermissionItem) :=
  group_by resource_of perms.

Definition sorted_keys (groups : list (jstr * list PermissionItem)) : list jstr := sort_strings (map fst groups).

Definition is_read (p : PermissionItem) : bool := endsWith (js ".read") (perm p).
Definition is_write (p : PermissionItem) : bool := endsWith (js ".write") (perm p).

(** The checkboxes of a resource: reads, writes, others. *)
Definition boxes (items : list PermissionItem) : list PermissionItem :=
  List.filter is_read items ++ List.filter is_write items ++ List.filter (fun p => negb (is_read p) && negb (is_write p)) items.

Definition grid (perms : list PermissionItem) : list (jstr * list PermissionItem) :=
  let grouped := groupPermissions perms in map (fun r => (r, boxes (group_get r grouped))) (sorted_keys grouped).

(** *** The form *)

(** [checked] is a [Set]: members in insertion order, each once. *)
Record state : Type := { scopeKind : jstr; sdescription : jstr; checked : list jstr; wildcard : bool }.

Definition set_add (s : list jstr) (x : jstr) : list jstr := if array_includes s x then s else s ++ [x].
Definition set_delete (s : list jstr) (x : jstr) : list jstr := List.filter (fun y => negb (streq y x)) s.
Definition set_of (l : list jstr) : list jstr := fold_left set_add l [].

Definition opened (d : option RoleRow) : state :=
  match d with
  | Some r => {| scopeKind := scope_kind r; sdescription := description r; checked := set_of (permissions r);
                 wildcard := array_includes (permissions r) (js "*") |}
  | None => {| scopeKind := js "tenant"; sdescription := []; checked := []; wildcard := false |}
  end.

Definition with_checked (st : state) (c : list jstr) (w : bool) : state :=
  {| scopeKind := scopeKind st; sdescription := sdescription st; checked := c; wildcard := w |}.

Definition toggle (p : jstr) (st : state) : state :=
  with_checked st (if array_includes (checked st) p then set_delete (checked st) p else set_add (checked st) p) (wildcard st).

Definition toggleWildcard (st : state) : state :=
  let newVal := negb (wildcard st) in with_checked st (if newVal then [js "*"] else []) newVal.

Definition permsValue (st : state) : jstr := if wildcard st then js "*" else join (js ",") (checked st).

Inductive event : Type :=
  | Toggle (p : jstr)
  | ToggleWildcard
  | Describe (d : jstr)
  | SetScope (k : jstr).

(** The grid is rendered without the wildcard, the scope select for a role
    that is not built in. *)
Definition handle (builtin : bool) (st : state) (e : event) : state :=
  match e with
  | Toggle p => if wildcard st then st else toggle p st
  | ToggleWildcard => toggleWildcard st
  | Describe d => {| scopeKind := scopeKind st; sdescription := d; checked := checked st; wildcard := wildcard st |}
  | SetScope k => if builtin then st else {| scopeKind := k; sdescription := sdescription st; checked := checked st; wildcard := wildcard st |}
  end.

(** What is submitted; a disabled name input is not. *)
Definition form_data (d : option RoleRow) (typed_name : jstr) (st : state) : FormData :=
  match d with Some r => [text "role_id" (num_to_string (id r))] | None => [] end
  ++ (if match d with Some r => is_builtin r | None => false end then [] else [text "name" typed_name])
  ++ [text "scope_kind" (scopeKind st); text "description" (sdescription st); text "permissions" (permsValue st)].

(** *** Properties of the grid *)

Lemma sorted_keys_perm g : sorted_keys g ≡ₚ map fst g.
Proof. apply sort_strings_perm. Qed.

Lemma read_not_write p : is_read p = true -> is_write p = false.
Proof.
  unfold is_read, is_write, endsWith. intros R. apply startsWith_spec in R as [r E]. rewrite E. done.
Qed.

Lemma boxes_perm l : boxes l ≡ₚ l.
Proof.
  unfold boxes. induction l as [|p l IH]; [done|]. cbn [List.filter].
  destruct (is_read p) eqn:R; [rewrite (read_not_write p R); cbn [negb andb app]; by constructor|].
  destruct (is_write p); cbn [negb andb].
  - cbn [app]. rewrite <- Permutation_middle. by rewrite IH.
  - rewrite app_assoc, <- Permutation_middle, <- app_assoc. by rewrite IH.
Qed.

(** The permission grid shows every permission of the API exactly once:
    grouping by resource, sorting the resources and splitting each group into
    reads, writes and others neither loses nor repeats one. *)
Theorem role_grid_complete perms : concat (map snd (grid perms)) ≡ₚ perms.
Proof.
  unfold grid. rewrite map_map. cbn [snd]. rewrite <- flat_map_concat_map.
  destruct (group_by_all resource_of perms) as [N P]. fold (groupPermissions perms) in N, P.
  rewrite <- P at 2. rewrite <- (group_get_all _ N). rewrite (sorted_keys_perm (groupPermissions perms)).
  clear N P. induction (map fst (groupPermissions perms)) as [|k ks IH]; [done|]. cbn [flat_map]. by rewrite boxes_perm, IH.
Qed.

(** *** Properties of the permissions sent *)

Definition perm_token (p : jstr) : Prop := p <> [] /\ (44 ∉ p) /\ Forall (fun c => is_space c = false) p.

Lemma join_not_space l : Forall perm_token l -> Forall (fun c => is_space c = false) (join [44] l).
Proof.
  intros F. induction F as [|w l (_ & _ & W) F IH]; [done|]. destruct l as [|v l]; [done|]. rewrite join_cons by done.
  apply Forall_app. split; [done|]. by constructor.
Qed.

Lemma filter_truthy_id l : Forall perm_token l -> filter_truthy l = l.
Proof. intros F. induction F as [|w l (N & _) F IH]; [done|]. unfold filter_truthy in *. cbn [List.filter]. destruct w; [done|]. cbn. by rewrite IH. Qed.

(** The action reads back the set the form wrote. *)
Lemma permissions_sent d n st : (wildcard st = false -> Forall perm_token (checked st)) ->
  role_permissions (form_data d n st) = if wildcard st then [js "*"] else checked st.
Proof.
  intros F. unfold role_permissions.
  assert (E : field (form_data d n st) "permissions" = permsValue st) by (unfold field, form_data; destruct d as [[? ? ? [] ? ?]|]; reflexivity).
  rewrite E. unfold permsValue. destruct (wildcard st); [done|]. specialize (F eq_refl). change (js ",") with [44].
  rewrite trim_id by (by apply join_not_space). destruct (checked st) as [|w l]; [done|].
  rewrite split_char_join by first [done|eapply Forall_impl; [exact F|]; by intros ? (_ & ? & _)].
  rewrite filter_truthy_id by done. apply Forall_cons in F as [(N & _ & _) _]. destruct w; [done|]. by destruct l.
Qed.

Lemma set_add_elem s x y : y ∈ set_add s x <-> y = x \/ y ∈ s.
Proof.
  unfold set_add. destruct (array_includes s x) eqn:E; [apply array_includes_spec in E; split; [tauto|]; by intros [-> |?]|].
  rewrite elem_of_app, list_elem_of_singleton. tauto.
Qed.

Lemma set_add_nodup s x : NoDup s -> NoDup (set_add s x).
Proof.
  intros N. unfold set_add. destruct (array_includes s x) eqn:E; [done|]. apply NoDup_app. split_and!; [done| |apply NoDup_singleton].
  intros y Y. rewrite list_elem_of_singleton. intros ->. apply array_includes_spec in Y. congruence.
Qed.

Lemma set_delete_elem s x y : y ∈ set_delete s x <-> y <> x /\ y ∈ s.
Proof.
  unfold set_delete. rewrite !list_elem_of_In, filter_In. rewrite negb_true_iff, streq_false. tauto.
Qed.

Lemma set_delete_nodup s x : NoDup s -> NoDup (set_delete s x).
Proof.
  induction 1 as [|y s N D IH]; [constructor|]. unfold set_delete. cbn [List.filter]. destruct (negb _); [|done].
  constructor; [|done]. fold (set_delete s x). rewrite set_delete_elem. tauto.
Qed.

Lemma set_of_spec l : NoDup (set_of l) /\ forall x, x ∈ set_of l <-> x ∈ l.
Proof.
  unfold set_of. assert (G : forall s, NoDup s -> NoDup (fold_left set_add l s) /\ forall x, x ∈ fold_left set_add l s <-> x ∈ s \/ x ∈ l).
  { induction l as [|y l IH]; intros s N; [split; [done|]; intros x; rewrite elem_of_nil; tauto|]. cbn [fold_left].
    destruct (IH (set_add s y) (set_add_nodup s y N)) as [N' E]. split; [done|]. intros x. rewrite E, set_add_elem, elem_of_cons. clear. tauto. }
  destruct (G [] NoDup_nil_2) as [N E]. split; [done|]. intros x. rewrite E, elem_of_nil. tauto.
Qed.

Lemma set_of_id l : NoDup l -> set_of l = l.
Proof.
  unfold set_of. assert (G : forall s, NoDup (s ++ l) -> fold_left set_add l s = s ++ l).
  { induction l as [|x l IH]; intros s N; [by rewrite app_nil_r|]. cbn [fold_left].
    assert (E : set_add s x = s ++ [x]).
    { unfold set_add. destruct (array_includes s x) eqn:E; [|done]. apply array_includes_spec in E. apply NoDup_app in N as (_ & N & _).
      exfalso. apply (N x E). set_solver. }
    rewrite E, IH by (by rewrite <- app_assoc). by rewrite <- app_assoc. }
  intros N. by apply (G []).
Qed.

(** *** Specification: the wildcard, or a set of permissions *)

Record spec : Type := { all : bool; granted : jstr -> Prop }.

Definition spec_handle (s : spec) (e : event) : spec :=
  match e with
  | Toggle p => if all s then s else {| all := false; granted := fun q => (q = p /\ ~ granted s q) \/ (q <> p /\ granted s q) |}
  | ToggleWildcard => {| all := negb (all s); granted := fun _ => False |}
  | _ => s
  end.

Definition spec_opened (d : option RoleRow) : spec :=
  match d with
  | Some r => {| all := array_includes (permissions r) (js "*"); granted := fun q => q ∈ permissions r |}
  | None => {| all := false; granted := fun _ => False |}
  end.

Definition refines (st : state) (s : spec) : Prop :=
  wildcard st = all s /\ NoDup (checked st) /\
  (all s = false -> Forall perm_token (checked st) /\ forall q, q ∈ checked st <-> granted s q).

Definition listed (e : event) : Prop := match e with Toggle p => perm_token p | _ => True end.

Lemma role_refines_step b st s e : listed e -> refines st s -> refines (handle b st e) (spec_handle s e).
Proof.
  intros L (W & N & R). destruct e as [p| | |k]; cbn [handle spec_handle].
  - rewrite W. destruct (all s) eqn:A; [by unfold refines; rewrite A|]. destruct (R eq_refl) as [F G].
    unfold refines, toggle, with_checked. cbn [wildcard checked all granted]. split; [congruence|].
    destruct (array_includes (checked st) p) eqn:I.
    + apply array_includes_spec in I. split; [by apply set_delete_nodup|]. intros _. split.
      * rewrite Forall_forall in F |- *. intros q Q. apply set_delete_elem in Q as [_ Q]. by apply F.
      * intros q. rewrite set_delete_elem, G. rewrite G in I. split; [tauto|]. intros [[-> ?]|?]; [done|tauto].
    + assert (I' : p ∉ checked st) by (intros X; apply array_includes_spec in X; congruence).
      split; [by apply set_add_nodup|]. intros _. split.
      * rewrite Forall_forall in F |- *. intros q Q. apply set_add_elem in Q as [-> |Q]; [done|by apply F].
      * intros q. rewrite set_add_elem, G. rewrite G in I'. destruct (decide (q = p)) as [-> |]; tauto.
  - unfold refines, toggleWildcard, with_checked. cbn [wildcard checked all granted]. rewrite W. destruct (all s); cbn [negb].
    + split_and!; [done|constructor|]. intros _. split; [constructor|]. intros q. split; [by intros ?%elem_of_nil|done].
    + split_and!; [done|apply NoDup_singleton|done].
  - done.
  - by destruct b.
Qed.

Lemma refines_opened d : Forall (fun p => p = js "*" \/ perm_token p) (match d with Some r => permissions r | None => [] end) ->
  refines (opened d) (spec_opened d).
Proof.
  destruct d as [r|]; intros F; [|split_and!; [done|constructor|]; intros _; split; [constructor|]; intros q; split; [by intros ?%elem_of_nil|done]].
  destruct (set_of_spec (permissions r)) as [N E]. unfold refines, opened, spec_opened. cbn [wildcard checked all granted]. split_and!; [done..|].
  intros A. split; [|done]. rewrite Forall_forall in F |- *. intros q Q. apply E in Q. destruct (F q Q) as [-> |]; [|done].
  apply array_includes_spec in Q. congruence.
Qed.

(** C19: Whatever boxes are clicked, the role form sends the wildcard alone when
    it is on, and otherwise exactly the permissions whose boxes are ticked,
    each once: it implements a set with an "all" flag, through the
    comma-separated field that the action splits again. *)
Theorem role_form_refines d n evs :
  Forall (fun p => p = js "*" \/ perm_token p) (match d with Some r => permissions r | None => [] end) -> Forall listed evs ->
  let sent := role_permissions (form_data d n
                (fold_left (handle (match d with Some r => is_builtin r | None => false end)) evs (opened d))) in
  let s := fold_left spec_handle evs (spec_opened d) in
  if all s then sent = [js "*"] else NoDup sent /\ forall q, q ∈ sent <-> granted s q.
Proof.
  intros F L. cbv zeta. set (b := match d with Some r => is_builtin r | None => false end).
  assert (R : refines (fold_left (handle b) evs (opened d)) (fold_left spec_handle evs (spec_opened d))).
  { generalize (refines_opened d F). generalize (opened d), (spec_opened d). clear F. induction L as [|e evs He L IH]; intros st s R; [done|].
    cbn [fold_left]. apply IH. by apply role_refines_step. }
  destruct R as (W & N & R). rewrite permissions_sent by (intros X; rewrite W in X; by apply R). rewrite W.
  destruct (all _); [done|]. destruct (R eq_refl) as [_ G]. by split.
Qed.

(** What the form of a stored role sends. *)
Lemma update_sends {St Bk} `{IronSession St} `{AdminApi Bk} r n st k : id r = int k -> 1 <= k <= 2 ^ 53 ->
  (wildcard st = false -> Forall perm_token (checked st)) ->
  updateRole (form_data (Some r) n st) = (try_catch
    (_ ← call_unwrap PATCH (js "/api/v1/roles/{id}")
           (path_body (js "id") (JNum (id r))
              (JObj ([(js "permissions", JStrs (if wildcard st then [js "*"] else checked st))]
                     ++ prop_if (negb (str_empty (trim (sdescription st)))) (js "description") (JStr (trim (sdescription st))))));
     revalidate_ok [js "/roles"]) role_error : M St Bk FormResult).
Proof.
  intros Ei Hk F. unfold updateRole. rewrite permissions_sent by done.
  assert (Ed : field (form_data (Some r) n st) "description" = sdescription st) by (unfold field, form_data; destruct (is_builtin r); reflexivity).
  assert (En : field_number (form_data (Some r) n st) "role_id" = id r).
  { unfold field_number, form_data. cbn. rewrite Ei. apply str_to_num_int. lia. }
  rewrite Ed, En, Ei. destruct k; [lia|done|lia].
Qed.

(** A role without the wildcard is opened with its permissions ticked. *)
Lemma opened_checked r : NoDup (permissions r) -> js "*" ∉ permissions r ->
  checked (opened (Some r)) = permissions r /\ wildcard (opened (Some r)) = false.
Proof.
  intros N W. split; [by apply set_of_id|]. cbn. destruct (array_includes (permissions r) (js "*")) eqn:E; [by apply array_includes_spec in E|done].
Qed.

(** Saving a custom or built-in role unchanged sends one PATCH to it with
    the permissions it has in their order; the name and scope shown in the
    form are not part of it, and neither is a description that was cleared. *)
Theorem role_saved_unchanged {St Bk} `{IronSession St} `{AdminApi Bk} r k d : id r = int k -> 1 <= k <= 2 ^ 53 -> NoDup (permissions r) ->
  Forall perm_token (permissions r) -> js "*" ∉ permissions r ->
  updateRole (form_data (Some r) (name r) (handle (is_builtin r) (opened (Some r)) (Describe d))) = (try_catch
    (_ ← call_unwrap PATCH (js "/api/v1/roles/{id}")
           (path_body (js "id") (JNum (id r))
              (JObj ([(js "permissions", JStrs (permissions r))] ++ prop_if (negb (str_empty (trim d))) (js "description") (JStr (trim d)))));
     revalidate_ok [js "/roles"]) role_error : M St Bk FormResult).
Proof.
  intros Ei Hk N F W. destruct (opened_checked r N W) as [Ec Ew].
  rewrite (update_sends _ _ _ _ Ei Hk); cbn [handle checked wildcard sdescription]; rewrite Ec, ?Ew; done.
Qed.

End RoleForm.

(** ** Operators *)
Module OperatorForm.

Record RoleOption : Type := { ro_id : num; ro_name : jstr; ro_scope_kind : jstr }.
Record OperatorRow : Type := { op_id : num; op_email : jstr; op_role : jstr; op_tenant_id : option num }.

Record state : Type := { roleId : jstr; tenantId : jstr }.

Definition opened (d : option OperatorRow) : state :=
  {| roleId := []; tenantId := match d with Some {| op_tenant_id := Some n |} => num_to_string n | _ => [] end |}.

Definition selectedRole (roles : list RoleOption) (st : state) : option RoleOption :=
  List.find (fun r => streq (num_to_string (ro_id r)) (roleId st)) roles.

Definition is_builtin_role (r : RoleOption) : bool := streq (ro_name r) "super-admin" || streq (ro_name r) "tenant-admin".

(** Built-in roles come first. *)
Definition roleOptions (t : jstr -> jstr) (roles : list RoleOption) : list MultiSelect.Option :=
  map (fun r => {| MultiSelect.opt_value := num_to_string (ro_id r);
                   MultiSelect.opt_label := if streq (ro_name r) "super-admin" then t (js "roles.super-admin")
                                            else if streq (ro_name r) "tenant-admin" then t (js "roles.tenant-admin") else ro_name r |})
    (List.filter is_builtin_role roles)
  ++ map (fun r => {| MultiSelect.opt_value := num_to_string (ro_id r); MultiSelect.opt_label := ro_name r |}) (List.filter (fun r => negb (is_builtin_role r)) roles).

(** The tenant select is rendered for a tenant-scoped role. *)
Definition tenant_shown (roles : list RoleOption) (st : state) : bool :=
  match selectedRole roles st with Some r => streq (ro_scope_kind r) "tenant" | None => false end.

Inductive event : Type :=
  | ChooseRole (v : jstr)
  | ChooseTenant (v : jstr).

(** The role select is part of the create form only. *)
Definition handle (isEdit : bool) (roles : list RoleOption) (st : state) (e : event) : state :=
  match e with
  | ChooseRole v => if isEdit then st else {| roleId := v; tenantId := tenantId st |}
  | ChooseTenant v => if tenant_shown roles st then {| roleId := roleId st; tenantId := v |} else st
  end.

Definition form_data (d : option OperatorRow) (roles : list RoleOption) (email password : jstr) (st : state) : FormData :=
  match d with Some r => [text "id" (num_to_string (op_id r))] | None => [] end
  ++ [text "email" email; text "password" password; text "role_id" (roleId st)]
  ++ match d with Some _ => [] | None => [text "_role_select" (roleId st)] end
  ++ (if tenant_shown roles st then [text "tenant_id" (tenantId st)] else []).

(** *** Properties *)

(** Every role is offered once. *)
Lemma role_options_all t roles : map MultiSelect.opt_value (roleOptions t roles) ≡ₚ map (fun r => num_to_string (ro_id r)) roles.
Proof. unfold roleOptions. rewrite map_app, !map_map. cbn [MultiSelect.opt_value]. rewrite <- map_app. by rewrite <- (filter_split is_builtin_role). Qed.

Definition int_id (n : num) : Prop := exists k, n = int k /\ 1 <= k <= 2 ^ 53.

Lemma int_id_inj n m : int_id n -> int_id m -> num_to_string n = num_to_string m -> n = m.
Proof.
  intros (k & -> & Hk) (j & -> & Hj) E. apply (f_equal str_to_num) in E. rewrite !str_to_num_int in E by lia. done.
Qed.

Lemma selected_role roles r st : Forall (fun r => int_id (ro_id r)) roles -> NoDup (map ro_id roles) -> r ∈ roles ->
  roleId st = num_to_string (ro_id r) -> selectedRole roles st = Some r.
Proof.
  intros F N I E. unfold selectedRole. rewrite E. clear E. revert F N I. induction roles as [|x l IH]; intros F N I; [by apply elem_of_nil in I|].
  apply Forall_cons in F as [Fx F]. cbn [map] in N. apply NoDup_cons in N as [Nx N]. cbn [List.find].
  apply elem_of_cons in I as [-> |I]; [by rewrite streq_refl|]. destruct (streq _ _) eqn:S; [|by apply IH].
  exfalso. apply Nx. apply streq_true in S. rewrite Forall_forall in F. rewrite (int_id_inj _ _ Fx (F r I) S).
  apply list_elem_of_In, in_map. by apply list_elem_of_In.
Qed.

(** A form without a role chosen never gets one, nor a tenant select. *)
Lemma edit_state roles evs st : roleId st = [] -> Forall (fun r => int_id (ro_id r)) roles ->
  roleId (fold_left (handle true roles) evs st) = [] /\ tenant_shown roles (fold_left (handle true roles) evs st) = false.
Proof.
  intros E F. assert (Z : forall s, roleId s = [] -> tenant_shown roles s = false).
  { clear -F. intros s E. unfold tenant_shown, selectedRole. rewrite E. induction F as [|r l (k & Ek & Hk) F IH]; [done|]. cbn [List.find].
    destruct (streq _ []) eqn:S; [|done]. apply streq_true in S. rewrite Ek, num_to_string_int in S by lia. by apply digits_nonempty in S. }
  revert st E. induction evs as [|e evs IH]; intros st E; [split; [done|by apply Z]|]. cbn [fold_left]. apply IH.
  destruct e; cbn [handle]; [done|]. by rewrite Z.
Qed.

(** Creating an operator sends the chosen role, and the chosen tenant
    exactly when that role is tenant-scoped: a tenant picked for one role is
    not sent along with a global role chosen afterwards. *)
Theorem operator_created {St Bk} `{IronSession St} `{AdminApi Bk} roles r email pw (tid : Z) :
  Forall (fun r => int_id (ro_id r)) roles -> NoDup (map ro_id roles) -> r ∈ roles ->
  trim email = email -> trim pw = pw -> email <> [] -> pw <> [] -> 1 <= tid <= 2 ^ 53 ->
  createOperator (form_data None roles email pw {| roleId := num_to_string (ro_id r); tenantId := num_to_string (int tid) |}) =
  (submit POST (js "/api/v1/operators")
    (with_body (JObj ([(js "email", JStr email); (js "password", JStr pw); (js "role_id", JNum (ro_id r))]
       ++ (if streq (ro_scope_kind r) "tenant" then [(js "tenant_id", JNum (int tid))] else []))))
    (js "create failed") [js "/operators"] : M St Bk FormResult).
Proof.
  intros F N I Te Tp Ne Np Ht. set (st := {| roleId := _ |}).
  pose proof (selected_role roles r st F N I eq_refl) as S.
  destruct (proj1 (Forall_forall _ _) F r I) as (k & Ek & Hk).
  assert (D : forall k, 1 <= k <= 2 ^ 53 -> trim (num_to_string (int k)) = num_to_string (int k) /\ str_empty (num_to_string (int k)) = false).
  { intros j Hj. rewrite num_to_string_int by lia. split; [apply trim_id; eapply Forall_impl; [apply digits_spec; lia|apply digit_not_space]|].
    pose proof (digits_nonempty j). by destruct (digits j). }
  destruct (D k Hk) as [T1 E1], (D tid Ht) as [T2 E2]. unfold createOperator.
  change (field _ "email") with email. change (field _ "password") with pw. change (field _ "role_id") with (num_to_string (ro_id r)).
  rewrite Te, Tp, Ek, T1, E1, str_to_num_int by lia.
  assert (Ft : field (form_data None roles email pw st) "tenant_id" = if streq (ro_scope_kind r) "tenant" then num_to_string (int tid) else []).
  { unfold field, form_data, tenant_shown. rewrite S. cbn [app]. destruct (streq (ro_scope_kind r) "tenant"); reflexivity. }
  rewrite Ft. destruct email; [done|]. destruct pw; [done|]. cbn [str_empty orb]. destruct (streq _ "tenant").
  - by rewrite T2, E2, str_to_num_int by lia.
  - done.
Qed.

(** The edit form has no role select, so its tenant select never shows: an
    operator's tenant cannot be changed there. *)
Theorem operator_edit_fields d roles email pw evs : Forall (fun r => int_id (ro_id r)) roles ->
  let st := fold_left (handle true roles) evs (opened (Some d)) in
  form_data (Some d) roles email pw st =
  [text "id" (num_to_string (op_id d)); text "email" email; text "password" pw; text "role_id" []].
Proof.
  intros F. cbv zeta. destruct (edit_state roles evs (opened (Some d)) eq_refl F) as [E Z]. unfold form_data. rewrite Z, E. done.
Qed.

End OperatorForm.

(** ** API keys *)
Module APIKeyForm.

Record KeyRow : Type := {
  key_id : jstr; group_id : option num; application_id : option num; environment : option jstr; allowed : option (list jstr);
}.

Record state : Type := { selectedModels : list jstr; groupId : jstr; applicationId : jstr; senvironment : jstr }.

Definition num_text (n : option num) : jstr := match n with Some n => num_to_string n | None => [] end.
Definition truthy_num (n : option num) : bool := match n with Some n => num_truthy n | None => false end.
Definition truthy_str (s : option jstr) : bool := match s with Some s => negb (str_empty s) | None => false end.

Definition dvModels (d : option KeyRow) : list jstr := match d with Some r => default [] (allowed r) | None => [] end.

Definition opened (d : option KeyRow) : state :=
  {| selectedModels := dvModels d; groupId := num_text (d ≫= group_id); applicationId := num_text (d ≫= application_id);
     senvironment := default [] (d ≫= environment) |}.

(** Which identity fields the key already has. *)
Definition has_group (d : option KeyRow) : bool := truthy_num (d ≫= group_id).
Definition has_application (d : option KeyRow) : bool := truthy_num (d ≫= application_id).
Definition has_environment (d : option KeyRow) : bool := truthy_str (d ≫= environment).

Definition bound (d : option KeyRow) : bool := has_group d && has_application d && has_environment d.

Inductive event : Type :=
  | SetGroup (v : jstr)
  | SetApplication (v : jstr)
  | SetEnvironment (v : jstr)
  | SetModels (l : list jstr).

(** A field the key has is shown as text, without a select; the model list is
    rendered when there are models to choose from. *)
Definition handle (d : option KeyRow) (models : list jstr) (st : state) (e : event) : state :=
  match e with
  | SetGroup v => if has_group d then st else
      {| selectedModels := selectedModels st; groupId := v; applicationId := applicationId st; senvironment := senvironment st |}
  | SetApplication v => if has_application d then st else
      {| selectedModels := selectedModels st; groupId := groupId st; applicationId := v; senvironment := senvironment st |}
  | SetEnvironment v => if has_environment d then st else
      {| selectedModels := selectedModels st; groupId := groupId st; applicationId := applicationId st; senvironment := v |}
  | SetModels l => match models with
                   | [] => st
                   | _ => {| selectedModels := l; groupId := groupId st; applicationId := applicationId st; senvironment := senvironment st |}
                   end
  end.

(** The hidden input of an identity field: none for a field of a bound key. *)
Definition identity_entry (d : option KeyRow) (has : bool) (k : string) (v : jstr) : FormData :=
  if has && bound d then [] else [text k v].

Definition form_data (d : option KeyRow) (typed_id : jstr) (models : list jstr) (st : state) : FormData :=
  match d with
  | Some r => [text "key_id" (key_id r); text "had_models" (if nonempty (dvModels d) then js "true" else js "false")]
              ++ (if bound d then [] else [text "bind_identity" (js "true")])
  | None => [text "key_id" typed_id]
  end
  ++ identity_entry d (has_group d) "group_id" (groupId st)
  ++ identity_entry d (has_application d) "application_id" (applicationId st)
  ++ identity_entry d (has_environment d) "environment" (senvironment st)
  ++ match models with [] => [] | _ => map (text "allowed_models") (selectedModels st) end.

Definition submit_enabled (pending : bool) (st : state) : bool :=
  negb (pending || str_empty (groupId st) || str_empty (applicationId st) || str_empty (senvironment st)).

(** *** Properties *)

(** The identity a key has never changes in the form. *)
Definition keeps (d : option KeyRow) (st : state) : Prop :=
  (has_group d = true -> groupId st = num_text (d ≫= group_id)) /\
  (has_application d = true -> applicationId st = num_text (d ≫= application_id)) /\
  (has_environment d = true -> Some (senvironment st) = d ≫= environment).

Lemma opened_keeps d : keeps d (opened d).
Proof.
  split_and!; [done..|]. by destruct d as [[? ? ? [e|] ?]|].
Qed.

Lemma handle_keeps d models st e : keeps d st -> keeps d (handle d models st e).
Proof.
  intros (G & A & E). destruct e as [v|v|v|l]; cbn [handle].
  - case_eq (has_group d); intros H; [done|]. split_and!; cbn; (done || congruence).
  - case_eq (has_application d); intros H; [done|]. split_and!; cbn; (done || congruence).
  - case_eq (has_environment d); intros H; [done|]. split_and!; cbn; (done || congruence).
  - by destruct models.
Qed.

Lemma models_sent models sel : Forall (fun m => m <> []) sel ->
  filter_truthy (fields (match models : list jstr with [] => [] | _ => map (text "allowed_models") sel end) "allowed_models") =
  if nonempty models then sel else [].
Proof.
  intros F. destruct models; [done|]. cbn [nonempty]. induction F as [|m l N F IH]; [done|].
  change (fields (map (text "allowed_models") (m :: l)) "allowed_models") with (m :: fields (map (text "allowed_models") l) "allowed_models").
  unfold filter_truthy in *. cbn [List.filter]. destruct m; [done|]. cbn [str_empty negb]. by rewrite IH.
Qed.

Lemma no_identity_fields d h (k : string) v : streq (js "allowed_models") (js k) = false ->
  fields (identity_entry d h k v) "allowed_models" = [].
Proof. intros N. unfold identity_entry. destruct (h && bound d); [done|]. unfold fields, fd_getAll, text. cbn [List.filter fst]. by rewrite N. Qed.

Lemma form_models r n models st : Forall (fun m => m <> []) (selectedModels st) ->
  allowed_models (form_data (Some r) n models st) = if nonempty models then selectedModels st else [].
Proof.
  intros F. unfold allowed_models, form_data. cbv beta iota. rewrite !fields_app, !no_identity_fields by reflexivity. cbn [app].
  destruct (bound (Some r)); exact (models_sent models _ F).
Qed.

Definition identity_body (st : state) : obj :=
  [(js "group_id", JNum (str_to_num (groupId st))); (js "application_id", JNum (str_to_num (applicationId st)));
   (js "environment", JStr (senvironment st))].

(** C20: Editing a key: whatever was clicked, a key bound to a group,
    application and environment keeps them — the PATCH carries none of the
    three — while for an unbound key it carries all three, the ones the key
    had already unchanged.  The models sent are the selected ones. *)
Theorem api_key_edit {St Bk} `{IronSession St} `{AdminApi Bk} r models evs :
  let st := fold_left (handle (Some r) models) evs (opened (Some r)) in
  models <> [] -> trim (key_id r) = key_id r -> Forall (fun m => m <> []) (selectedModels st) ->
  keeps (Some r) st /\
  updateAPIKey (form_data (Some r) (key_id r) models st) = (try_catch
    (_ ← call_unwrap PATCH (js "/api/v1/api-keys/{key_id}")
           (path_body (js "key_id") (JStr (key_id r))
              (JObj (prop_if (nonempty (selectedModels st) || nonempty (dvModels (Some r)) || bound (Some r))
                       (js "allowed_models") (JStrs (selectedModels st))
                     ++ (if bound (Some r) then [] else identity_body st))));
     revalidate_ok [js "/api-keys"]) formError : M St Bk FormResult).
Proof.
  cbv zeta. set (st := fold_left _ _ _). intros Nm Tk F. split.
  { subst st. clear F Nm. generalize (opened_keeps (Some r)). generalize (opened (Some r)). induction evs as [|e evs IH]; intros s K; [done|].
    cbn [fold_left]. by apply IH, handle_keeps. }
  unfold updateAPIKey. change (field _ "key_id") with (key_id r). rewrite Tk.
  assert (A : allowed_models (form_data (Some r) (key_id r) models st) = selectedModels st).
  { rewrite form_models by done. by destruct models. }
  rewrite A.
  assert (Hm : field_is (form_data (Some r) (key_id r) models st) "had_models" "true" = nonempty (dvModels (Some r)))
    by (unfold field_is, form_data; destruct (nonempty (dvModels (Some r))); reflexivity).
  assert (Hb : field_is (form_data (Some r) (key_id r) models st) "bind_identity" "true" = negb (bound (Some r))).
  { unfold field_is, form_data, identity_entry. destruct (bound (Some r)) eqn:B; [|reflexivity]. unfold bound in B.
    apply andb_prop in B as [B E]. apply andb_prop in B as [G P]. rewrite G, P, E. destruct models; [done|]. cbn [andb app].
    assert (X : fd_get (map (text "allowed_models") (selectedModels st)) (js "bind_identity") = None)
      by (generalize (selectedModels st); clear; intros sel; induction sel as [|m l IH]; [done|exact IH]).
    change (match fd_get (map (text "allowed_models") (selectedModels st)) (js "bind_identity") with
            | Some (FText s) => streq s (js "true") | _ => false end = false). by rewrite X. }
  rewrite Hm, Hb, negb_involutive. destruct (bound (Some r)) eqn:B; cbn [negb]; [by rewrite app_nil_r|].
  assert (I : field_number (form_data (Some r) (key_id r) models st) "group_id" = str_to_num (groupId st) /\
              field_number (form_data (Some r) (key_id r) models st) "application_id" = str_to_num (applicationId st) /\
              field (form_data (Some r) (key_id r) models st) "environment" = senvironment st).
  { unfold field_number, field, form_data, identity_entry. rewrite B, !andb_false_r. done. }
  destruct I as (-> & -> & ->). done.
Qed.

(** Without any model to choose from, the form renders no model inputs, and
    saving a restricted key clears its list of allowed models. *)
Theorem no_models_clears_allowlist :
  let r := {| key_id := js "k"; group_id := Some (int 1); application_id := Some (int 2); environment := Some (js "prod");
              allowed := Some [js "gpt-4o"] |} in
  let w' := (updateAPIKey (form_data (Some r) (js "k") [] (opened (Some r))) (Reference.world0 [Reference.reply 200 None None])).2 in
  exists c, w_log w' = [Sent c PATCH (js "/api/v1/api-keys/{key_id}")
                          (path_body (js "key_id") (JStr (js "k")) (JObj [(js "allowed_models", JArr [])])); Revalidated (js "/api-keys")].
Proof. eexists. vm_compute. reflexivity. Qed.

End APIKeyForm.

(** ** Plugins *)
Module PluginForm.

Record PluginRow : Type := {
  pl_name : jstr; pl_phase : option jstr; pl_enabled : option bool; pl_scope : option jstr; pl_params : option obj;
}.

Record state : Type := { paramsText : jstr; paramsError : option exn; phase : jstr; enabled : bool; scope : jstr }.

Definition opened (d : option PluginRow) : state :=
  {| paramsText := match d with Some {| pl_params := Some l |} => stringify_pretty 0 (JObj l) | _ => [] end; paramsError := None;
     phase := default [] (d ≫= pl_phase); enabled := default false (d ≫= pl_enabled); scope := default [] (d ≫= pl_scope) |}.

(** The message shown under the editor while the text is not JSON. *)
Definition handleParamsChange (value : jstr) (st : state) : state :=
  {| paramsText := value;
     paramsError := if str_empty (trim value) then None else match json_parse value with Ret _ => None | Throw e => Some e end;
     phase := phase st; enabled := enabled st; scope := scope st |}.

Definition form_data (d : option PluginRow) (typed_name : jstr) (st : state) : FormData :=
  [text "name" (match d with Some r => pl_name r | None => typed_name end); text "phase" (phase st)]
  ++ (if enabled st then [text "enabled" (js "true")] else [])
  ++ [text "scope" (scope st); text "params_text" (paramsText st); text "params_json" (paramsText st)].

(** *** Properties *)

Lemma trim_delimited c m d : is_space c = false -> is_space d = false -> trim (c :: m ++ [d]) = c :: m ++ [d].
Proof.
  intros C D. unfold trim. rewrite (trimStart_id (c :: m ++ [d])) by exact C. rewrite app_comm_cons. by apply trimEnd_snoc.
Qed.

Lemma trim_object l : trim (stringify_pretty 0 (JObj l)) = stringify_pretty 0 (JObj l) /\ stringify_pretty 0 (JObj l) <> [].
Proof.
  destruct l as [|x l]; [done|]. split; [|done]. rewrite pretty_obj. rewrite !app_assoc. rewrite <- !(app_assoc [123]). cbn [app].
  by apply trim_delimited.
Qed.

Lemma form_params d n st : plugin_params (form_data d n st) =
  if str_empty (trim (paramsText st)) then Some []
  else match json_parse (trim (paramsText st)) with Ret v => Some [(js "params", v)] | Throw _ => None end.
Proof. unfold plugin_params. assert (field (form_data d n st) "params_json" = paramsText st) as -> by (by unfold field, form_data; destruct (enabled st)). done. Qed.

Lemma unchanged_params r : (forall l, pl_params r = Some l -> wf_json (JObj l)) ->
  plugin_params (form_data (Some r) [] (opened (Some r))) = Some (match pl_params r with Some l => [(js "params", JObj l)] | None => [] end).
Proof.
  intros W. rewrite form_params. destruct r as [? ? ? ? [l|]]; [|done]. cbn [opened paramsText pl_params]. destruct (trim_object l) as [-> N].
  rewrite (json_parse_pretty (JObj l)) by (by apply W). destruct (stringify_pretty 0 (JObj l)); done.
Qed.

(** C21: Saving a plugin unchanged sends one PATCH addressed to its name and
    scope whose parameters, printed in the editor and parsed again by the
    action, are the stored ones. *)
Theorem plugin_saved_unchanged {St Bk} `{IronSession St} `{AdminApi Bk} r :
  trim (pl_name r) = pl_name r -> pl_name r <> [] -> trim (default [] (pl_phase r)) = default [] (pl_phase r) ->
  trim (default [] (pl_scope r)) = default [] (pl_scope r) -> (forall l, pl_params r = Some l -> wf_json (JObj l)) ->
  updatePlugin (form_data (Some r) [] (opened (Some r))) = (submit PATCH (js "/api/v1/plugins/{name}")
    {| path_params := [(js "name", JStr (pl_name r))]; query_params := scope_query (default [] (pl_scope r));
       body := Some (JObj (set_text (js "phase") (default [] (pl_phase r)) ++ [(js "enabled", JBool (default false (pl_enabled r)))]
                           ++ match pl_params r with Some l => [(js "params", JObj l)] | None => [] end)) |}
    (js "update failed") [js "/plugins"] : M St Bk FormResult).
Proof.
  intros Tn Nn Tp Ts W. unfold updatePlugin. rewrite unchanged_params by done. set (fd := form_data (Some r) [] (opened (Some r))).
  assert (E : field fd "name" = pl_name r /\ field fd "phase" = default [] (pl_phase r) /\ field fd "scope" = default [] (pl_scope r) /\
              field_is fd "enabled" "true" = default false (pl_enabled r)).
  { subst fd. unfold field, field_is, form_data. cbn [opened enabled mbind option_bind]. by destruct (default false (pl_enabled r)). }
  destruct E as (-> & -> & -> & ->). rewrite Tn, Tp, Ts.
  by destruct (pl_name r).
Qed.

(** Clearing the editor does not clear the parameters: the request has none. *)
Theorem cleared_params_kept d n st : plugin_params (form_data d n (handleParamsChange [] st)) = Some [].
Proof. by rewrite form_params. Qed.

End PluginForm.

(** ** Reviewing before sending

    The budget edit form and the reservation form send what was submitted only
    after a confirmation; a new budget is sent at once. *)
Module Review.

Section Review.
  (** next-intl's translator for the [errors] namespace. *)
  Variable te : jstr -> jstr.
  (** Whether the form asks for a confirmation. *)
  Variable reviewed : bool.

(** [sent] lists the requests made so far. *)
Record state : Type := { confirmation : option FormData; pending : bool; error : jstr; closed : bool; sent : list FormData }.

Definition opened : state := {| confirmation := None; pending := false; error := []; closed := false; sent := [] |}.

Inductive event : Type :=
  | Submit (form : FormData)
  | Confirm
  | Cancel
  | Reply (r : FormResult).

(** [setError(""); startTransition(...)] up to the request. *)
Definition save (form : FormData) (st : state) : state :=
  {| confirmation := confirmation st; pending := true; error := []; closed := closed st; sent := sent st ++ [form] |}.

(** The transition after the reply. *)
Definition replied (r : FormResult) (st : state) : state :=
  match r with
  | FErr e k => {| confirmation := confirmation st; pending := false; error := match k with Some k => te k | None => e end;
                   closed := closed st; sent := sent st |}
  | FOk => {| confirmation := confirmation st; pending := false; error := error st; closed := true; sent := sent st |}
  end.

(** The submit and confirm buttons are disabled while a request is pending;
    [onClose] unmounts the form. *)
Definition handle (st : state) (e : event) : state :=
  if closed st then st else
  match e with
  | Submit form => if pending st then st
                   else if reviewed then {| confirmation := Some form; pending := false; error := error st; closed := false; sent := sent st |}
                   else save form st
  | Confirm => if pending st then st else match confirmation st with Some form => save form st | None => st end
  | Cancel => if pending st then st else {| confirmation := None; pending := false; error := []; closed := false; sent := sent st |}
  | Reply r => if pending st then replied r st else st
  end.

(** The confirmations among the events. *)
Definition confirms (evs : list event) : nat := length (List.filter (fun e => match e with Confirm => true | _ => false end) evs).

(** What holds after the events [evs]. *)
Definition reviewed_ok (evs : list event) (st : state) : Prop :=
  (forall fd, confirmation st = Some fd -> Submit fd ∈ evs) /\
  Forall (fun fd => Submit fd ∈ evs) (sent st) /\
  (length (sent st) <= confirms evs)%nat.

Lemma confirms_snoc evs e : (confirms evs <= confirms (evs ++ [e]))%nat.
Proof. unfold confirms. rewrite List.filter_app, length_app. lia. Qed.

Lemma reviewed_snoc evs st e : reviewed_ok evs st -> reviewed_ok (evs ++ [e]) st.
Proof.
  intros (C & S & L). split_and!; [intros fd E; apply elem_of_app; left; by apply C| |pose proof (confirms_snoc evs e); lia].
  eapply Forall_impl; [exact S|]. intros fd I. apply elem_of_app. by left.
Qed.

Lemma reviewed_step evs st e : reviewed = true -> reviewed_ok evs st -> reviewed_ok (evs ++ [e]) (handle st e).
Proof.
  intros R I. apply (reviewed_snoc _ _ e) in I as J. pose proof J as (C & S & L). unfold handle.
  destruct (closed st); [done|]. destruct e as [fd| | |[|m k]]; destruct (pending st) eqn:P; try done; rewrite ?R.
  - split_and!; try done. intros fd' [= <-]. apply elem_of_app. right. by apply list_elem_of_singleton.
  - destruct (confirmation st) as [fd|] eqn:E; [|done]. split_and!.
    + intros fd' E'. cbn in E'. apply C. congruence.
    + apply Forall_app. split; [done|]. constructor; [by apply C|constructor].
    + destruct I as (_ & _ & L'). cbn [save sent]. unfold confirms in *. rewrite List.filter_app, !length_app. cbn. lia.
Qed.

Lemma reviewed_run : reviewed = true -> forall evs pre st, reviewed_ok pre st -> reviewed_ok (pre ++ evs) (fold_left handle evs st).
Proof.
  intros R evs. induction evs as [|e evs IH]; intros pre st I; [by rewrite app_nil_r|]. cbn [fold_left].
  change (e :: evs) with ([e] ++ evs). rewrite app_assoc. apply IH. by apply reviewed_step.
Qed.

Lemma closed_run evs st : closed st = true -> fold_left handle evs st = st.
Proof. intros C. induction evs as [|e evs IH]; [done|]. cbn [fold_left]. unfold handle at 2. by rewrite C. Qed.

(** A second request starts only after the first was answered. *)
Lemma one_in_flight st e : pending st = true -> match e with Reply _ => False | _ => True end -> sent (handle st e) = sent st.
Proof. intros P E. unfold handle. destruct (closed st); [done|]. destruct e; by rewrite ?P. Qed.

End Review.

(** C22: A budget edit or a reservation resolution is sent only as it was
    submitted and only after a confirmation, one confirmation per request; and
    once a request has succeeded the form is closed and sends nothing more. *)
Theorem review_before_send te evs more :
  let st := fold_left (handle te true) evs opened in
  Forall (fun fd => Submit fd ∈ evs) (sent st) /\ (length (sent st) <= confirms evs)%nat /\
  (pending st = true -> sent (fold_left (handle te true) (Reply FOk :: more) st) = sent st).
Proof.
  cbv zeta. set (st := fold_left _ _ _).
  assert (I : reviewed_ok evs st) by (apply (reviewed_run te true eq_refl evs []); split_and!; done).
  destruct I as (_ & S & L). split_and!; [done..|]. intros P. cbn [fold_left]. unfold handle at 2. rewrite P.
  destruct (closed st) eqn:C; [by rewrite closed_run|]. by rewrite closed_run.
Qed.

End Review.

(** ** Budgets *)
Module BudgetForm.

Record BudgetPolicy : Type := { bp_id : num; bp_name : jstr; bp_currency : jstr; bp_enabled : bool; bp_limit : num; bp_version : num }.

(** The selects and the limit, and the typed texts of the create form. *)
Record state : Type := {
  scope : jstr; environment : jstr; period : jstr; currency : jstr; mode : jstr; enabled : jstr; limit : jstr;
  typed_name : jstr; typed_ref : jstr; timezone : jstr; typed_thresholds : jstr;
}.

Definition bool_text (b : bool) : jstr := if b then js "true" else js "false".

Definition opened (p : option BudgetPolicy) : state :=
  {| scope := js "tenant"; environment := js "prod"; period := js "monthly"; currency := js "usd"; mode := js "enforce";
     enabled := bool_text (match p with Some p => bp_enabled p | None => true end);
     limit := match p with Some p => Web.microToDisplay (bp_limit p) | None => [] end;
     typed_name := []; typed_ref := []; timezone := js "UTC"; typed_thresholds := js "80,100" |}.

Definition form_data (p : option BudgetPolicy) (st : state) : FormData :=
  match p with
  | Some p => [text "enabled" (enabled st); text "limitChanged" (bool_text (negb (streq (limit st) (Web.microToDisplay (bp_limit p)))))]
  | None =>
      [text "name" (typed_name st); text "scope_kind" (scope st)]
      ++ (if negb (streq (scope st) "tenant") then [text "scope_ref" (typed_ref st)] else [])
      ++ (if streq (scope st) "application_env" then [text "environment" (environment st)] else [])
      ++ [text "period" (period st); text "timezone" (timezone st); text "currency" (currency st); text "mode" (mode st);
          text "thresholds" (typed_thresholds st)]
  end
  ++ [text "limit" (limit st)].

Definition toggle_enabled (v : jstr) (st : state) : state :=
  {| scope := scope st; environment := environment st; period := period st; currency := currency st; mode := mode st; enabled := v;
     limit := limit st; typed_name := typed_name st; typed_ref := typed_ref st; timezone := timezone st; typed_thresholds := typed_thresholds st |}.

Definition set_limit (v : jstr) (st : state) : state :=
  {| scope := scope st; environment := environment st; period := period st; currency := currency st; mode := mode st; enabled := enabled st;
     limit := v; typed_name := typed_name st; typed_ref := typed_ref st; timezone := timezone st; typed_thresholds := typed_thresholds st |}.

Section Save.
  Context {St Bk : Type} `{IronSession St} `{AdminApi Bk}.
  Variable t : jstr -> jstr.

(** The request of [save]. *)
Definition save (tenant : jstr) (p : option BudgetPolicy) (st : state) : M St Bk FormResult :=
  match p with
  | Some p' => updateBudget t tenant (bp_id p') (bp_version p') (form_data p st)
  | None => createBudget t tenant (form_data p st)
  end.

(** The PATCH of a policy, with the limit in micro-units when there is one. *)
Definition patch_policy (tenant : jstr) (p : BudgetPolicy) (en : bool) (lim : result (list (jstr * json))) : M St Bk FormResult :=
  budget_action t tenant (js "budget.write")
    (l ← lift lim;
     call_unwrap PATCH (js "/api/v1/budgets/{id}")
       {| path_params := [(js "id", JNum (bp_id p))]; query_params := tenant_query tenant;
          body := Some (JObj ([(js "version", JNum (bp_version p)); (js "enabled", JBool en)] ++ l)) |}).

Lemma text_bool (b : bool) : streq (bool_text b) "true" = b.
Proof. by destruct b. Qed.

(** Editing a budget sends its version and whether it is enabled; the
    limit goes along only when its text was changed, so a limit with more than
    two decimals survives an edit that does not touch it, and a changed text
    is parsed exactly or refused. *)
Theorem budget_edit_limit tenant p b v :
  save tenant (Some p) (toggle_enabled (bool_text b) (opened (Some p))) = patch_policy tenant p b (Ret []) /\
  (v <> Web.microToDisplay (bp_limit p) ->
   save tenant (Some p) (set_limit v (opened (Some p))) =
   patch_policy tenant p (bp_enabled p)
     (m ← Web.displayToMicro v;
      if negb (is_safe_integer m) then Throw (err_range (js "unsafe monetary amount")) else Ret [(js "limit", JNum m)])).
Proof.
  unfold save, patch_policy, updateBudget. split.
  - assert (E1 : field_is (form_data (Some p) (toggle_enabled (bool_text b) (opened (Some p)))) "limitChanged" "true" = false).
    { change (field_is _ "limitChanged" "true") with (streq (bool_text (negb (streq (Web.microToDisplay (bp_limit p)) (Web.microToDisplay (bp_limit p))))) "true").
      by rewrite text_bool, streq_refl. }
    rewrite E1. change (field_is _ "enabled" "true") with (streq (bool_text b) "true"). by rewrite text_bool.
  - intros N. assert (E1 : field_is (form_data (Some p) (set_limit v (opened (Some p)))) "limitChanged" "true" = true).
    { change (field_is _ "limitChanged" "true") with (streq (bool_text (negb (streq v (Web.microToDisplay (bp_limit p))))) "true").
      by rewrite text_bool, (proj2 (streq_false _ _) N). }
    rewrite E1. change (field_is _ "enabled" "true") with (streq (bool_text (bp_enabled p)) "true"). rewrite text_bool.
    unfold amount. change (field _ (js "limit")) with v. destruct (Web.displayToMicro v) as [m|e]; [|done].
    cbn [mbind result_bind]. by destruct (negb (is_safe_integer m)).
Qed.

(** A new budget names a scope reference unless it covers the tenant, and an
    environment only for an application's environment. *)
Lemma budget_scope st :
  field (form_data None st) "scope_ref" = (if streq (scope st) "tenant" then [] else typed_ref st) /\
  field (form_data None st) "environment" = (if streq (scope st) "application_env" then environment st else []) /\
  field_null (form_data None st) "scope_kind" = scope st.
Proof.
  unfold field, field_null, form_data. destruct (streq (scope st) "tenant") eqn:E; destruct (streq (scope st) "application_env") eqn:A; try done.
Qed.

End Save.

End BudgetForm.

(** ** Reservations *)
Module ResolveForm.

Definition actions (status : jstr) : list jstr :=
  if streq status "released_unknown" then [js "settle"] else map js ["settle"; "release"; "release_unknown"]%string.

(** The amount is asked for when settling. *)
Definition form_data (action actual reason evidence : jstr) : FormData :=
  [text "action" action] ++ (if streq action "settle" then [text "actual" actual] else [])
  ++ [text "reason" reason; text "evidence" evidence].

Definition confirm_title (action : jstr) : jstr := if streq action "release_unknown" then js "riskTitle" else js "confirmResolve".
Definition confirm_message (action : jstr) : jstr :=
  if streq action "release_unknown" then js "riskNote" else if streq action "release" then js "releaseNote" else js "settleNote".

(** Resolving a reservation sends the action that was reviewed; an amount
    goes along when the reservation is settled and never when it is released,
    and an amount that does not parse is refused before any request.  A
    reservation released as unknown can only be settled. *)
Theorem resolution_request {St Bk} `{IronSession St} `{AdminApi Bk} t tenant id version action actual reason evidence :
  (forall a, a ∈ actions (js "released_unknown") <-> a = js "settle") /\
  resolveReservation t tenant id version (form_data action actual reason evidence) = (budget_action t tenant (js "budget.resolve")
    (a ← lift (if streq action "settle"
               then m ← Web.displayToMicro actual;
                    if negb (is_safe_integer m) then Throw (err_range (js "unsafe monetary amount")) else Ret [(js "actual", JNum m)]
               else Ret []);
     call_unwrap POST (js "/api/v1/billing-reservations/{id}/resolve")
       {| path_params := [(js "id", JStr id)]; query_params := tenant_query tenant;
          body := Some (JObj ([(js "version", JNum version); (js "action", JStr action); (js "reason", JStr (trim reason));
                               (js "evidence", JStr (trim evidence))] ++ a)) |}) : M St Bk FormResult).
Proof.
  split; [intros a; apply list_elem_of_singleton|].
  unfold resolveReservation, form_data. cbv zeta. change (field_null _ "action") with action.
  destruct (streq action "settle") eqn:E.
  - apply streq_true in E as ->. change (streq (js "settle") (js "settle")) with true. cbv iota.
    change (field _ "reason") with reason. change (field _ "evidence") with evidence.
    unfold amount. change (field _ (js "actual")) with actual. destruct (Web.displayToMicro actual) as [m|e]; [|done].
    cbn [mbind result_bind]. by destruct (negb (is_safe_integer m)).
  - done.
Qed.

End ResolveForm.

(** ** Gateway settings *)
Module SettingsForm.

Record TraceSettings : Type := { capture_payload_enabled : option bool; max_body_kb : option num; retention_days : option num }.
Record GatewaySettings : Type := { trace : option TraceSettings; anthropic_disabled : option bool }.

Definition checkbox (k : string) (b : option bool) : FormData := if default false b then [text k (js "true")] else [].

(** The form as it is opened. *)
Definition opened (s : GatewaySettings) : FormData :=
  checkbox "capture_enabled" (trace s ≫= capture_payload_enabled)
  ++ [text "max_body_kb" (num_to_string (default (int 0) (trace s ≫= max_body_kb)));
      text "retention_days" (num_to_string (default (int 7) (trace s ≫= retention_days)))]
  ++ checkbox "anthropic_disabled" (anthropic_disabled s).

Definition stored_number (n : option num) : Prop := forall v, n = Some v -> exists k, v = int k /\ 0 <= k <= 2 ^ 53.

Lemma setting_back n d : stored_number n -> 0 <= d <= 2 ^ 53 ->
  str_to_num (num_to_string (default (int d) n)) = default (int d) n /\ is_nan (default (int d) n) = false.
Proof.
  intros S D. destruct n as [v|].
  - destruct (S v eq_refl) as (k & -> & Hk). change (default (int d) (Some (int k))) with (int k). by rewrite str_to_num_int.
  - change (default (int d) None) with (int d). by rewrite str_to_num_int.
Qed.

(** Saving the gateway settings unchanged writes every stored setting
    back as it is: the two switches, the body limit (0 when unset) and the
    retention (7 days when unset). *)
Theorem settings_saved_unchanged s : stored_number (trace s ≫= max_body_kb) -> stored_number (trace s ≫= retention_days) ->
  settings_body (opened s) =
  JObj [(js "trace", JObj [(js "capture_payload_enabled", JBool (default false (trace s ≫= capture_payload_enabled)));
                           (js "max_body_kb", JNum (default (int 0) (trace s ≫= max_body_kb)));
                           (js "retention_days", JNum (default (int 7) (trace s ≫= retention_days)))]);
        (js "ingress", JObj [(js "anthropic_disabled", JBool (default false (anthropic_disabled s)))])].
Proof.
  intros Sm Sr. unfold settings_body. set (fd := opened s).
  assert (E : field_is fd "capture_enabled" "true" = default false (trace s ≫= capture_payload_enabled) /\
              field_is fd "anthropic_disabled" "true" = default false (anthropic_disabled s) /\
              fd_get fd "max_body_kb" = Some (FText (num_to_string (default (int 0) (trace s ≫= max_body_kb)))) /\
              fd_get fd "retention_days" = Some (FText (num_to_string (default (int 7) (trace s ≫= retention_days))))).
  { subst fd. unfold field_is, opened, checkbox.
    destruct (default false (trace s ≫= capture_payload_enabled)), (default false (anthropic_disabled s)); done. }
  destruct E as (-> & -> & Em & Er). unfold field_number_or. rewrite Em, Er.
  destruct (setting_back _ 0 Sm ltac:(lia)) as [-> N1], (setting_back _ 7 Sr ltac:(lia)) as [-> N2].
  assert (Z : forall n : num, stored_number (Some n) -> (if num_truthy n then n else int 0) = n).
  { intros n S. destruct (S n eq_refl) as (k & -> & Hk). by destruct k. }
  rewrite !Z; [done| |]; intros v [= <-].
  - destruct (trace s ≫= retention_days) as [v|]; [by apply Sr|]. by exists 7.
  - destruct (trace s ≫= max_body_kb) as [v|]; [by apply Sm|]. by exists 0.
Qed.

End SettingsForm.

(** ** Witnesses *)
Module Samples.

Definition viewer : RoleForm.RoleRow :=
  {| RoleForm.id := int 4; RoleForm.name := js "viewer"; RoleForm.scope_kind := js "tenant"; RoleForm.is_builtin := false;
     RoleForm.description := js "reads"; RoleForm.permissions := [js "usage.read"; js "api_key.read"] |}.

Lemma token_ok p : (forallb (fun c => negb (c =? 44) && negb (is_space c)) p && negb (str_empty p) = true) -> RoleForm.perm_token p.
Proof.
  intros H. apply andb_prop in H as [F N]. rewrite forallb_forall in F. split_and!.
  - by intros ->.
  - intros I. apply list_elem_of_In in I. by specialize (F 44 I).
  - apply Forall_forall. intros c I. apply list_elem_of_In in I. apply F, andb_prop in I as [_ I]. by apply negb_true_iff in I.
Qed.

Definition admin_role : OperatorForm.RoleOption :=
  {| OperatorForm.ro_id := int 1; OperatorForm.ro_name := js "super-admin"; OperatorForm.ro_scope_kind := js "global" |}.
Definition tenant_role : OperatorForm.RoleOption :=
  {| OperatorForm.ro_id := int 2; OperatorForm.ro_name := js "tenant-admin"; OperatorForm.ro_scope_kind := js "tenant" |}.

(** A key whose group was set before identities were required. *)
Definition old_key : APIKeyForm.KeyRow :=
  {| APIKeyForm.key_id := js "k1"; APIKeyForm.group_id := Some (int 7); APIKeyForm.application_id := None;
     APIKeyForm.environment := None; APIKeyForm.allowed := Some [js "gpt"] |}.

Definition limiter : PluginForm.PluginRow :=
  {| PluginForm.pl_name := js "rate-limit"; PluginForm.pl_phase := Some (js "pre"); PluginForm.pl_enabled := Some true;
     PluginForm.pl_scope := None; PluginForm.pl_params := Some [(js "rpm", JNum (int 60)); (js "keys", JArr [JStr (js "a"); JNull])] |}.

Definition policy : BudgetForm.BudgetPolicy :=
  {| BudgetForm.bp_id := int 3; BudgetForm.bp_name := js "team"; BudgetForm.bp_currency := js "usd"; BudgetForm.bp_enabled := true;
     BudgetForm.bp_limit := int 1234567; BudgetForm.bp_version := int 2 |}.

End Samples.

Lemma role_form_refines_witness :
  let evs := [RoleForm.Toggle (js "usage.read"); RoleForm.Toggle (js "role.write")] in
  js "role.write" ∈ role_permissions (RoleForm.form_data (Some Samples.viewer) []
    (fold_left (RoleForm.handle false) evs (RoleForm.opened (Some Samples.viewer)))).
Proof.
  intros evs. pose proof (RoleForm.role_form_refines (Some Samples.viewer) [] evs) as R. cbv zeta in R.
  assert (A : RoleForm.all (fold_left RoleForm.spec_handle evs (RoleForm.spec_opened (Some Samples.viewer))) = false) by reflexivity.
  rewrite A in R. apply R.
  - constructor; [|constructor; [|constructor]]; right; by apply Samples.token_ok.
  - constructor; [|constructor; [|constructor]]; by apply Samples.token_ok.
  - cbn. left. split; [done|]. intros [[? _]|[_ Q]]; [done|]. revert Q. apply (bool_decide_unpack _). vm_compute. exact I.
Defined.

Lemma operator_created_witness :
  (createOperator (OperatorForm.form_data None [Samples.admin_role; Samples.tenant_role] (js "a@b") (js "secret")
     {| OperatorForm.roleId := js "2"; OperatorForm.tenantId := js "9" |}) (Reference.world0 [Reference.reply 200 None None])).1 = Ret FOk.
Proof.
  change (js "2") with (num_to_string (OperatorForm.ro_id Samples.tenant_role)). change (js "9") with (num_to_string (int 9)).
  rewrite (OperatorForm.operator_created [Samples.admin_role; Samples.tenant_role] Samples.tenant_role (js "a@b") (js "secret") 9).
  - reflexivity.
  - repeat constructor; [by exists 1|by exists 2].
  - apply (bool_decide_unpack _). vm_compute. exact I.
  - right. left.
  - reflexivity.
  - reflexivity.
  - done.
  - done.
  - lia.
Defined.

Lemma api_key_edit_witness :
  let st := fold_left (APIKeyForm.handle (Some Samples.old_key) [js "gpt"])
    [APIKeyForm.SetGroup (js "8"); APIKeyForm.SetApplication (js "2"); APIKeyForm.SetEnvironment (js "dev")] (APIKeyForm.opened (Some Samples.old_key)) in
  APIKeyForm.groupId st = js "7" /\ APIKeyForm.keeps (Some Samples.old_key) st /\
  (updateAPIKey (APIKeyForm.form_data (Some Samples.old_key) (js "k1") [js "gpt"] st) (Reference.world0 [Reference.reply 200 (Some JNull) None])).1 = Ret FOk.
Proof.
  cbv zeta. split; [reflexivity|].
  destruct (APIKeyForm.api_key_edit Samples.old_key [js "gpt"]
    [APIKeyForm.SetGroup (js "8"); APIKeyForm.SetApplication (js "2"); APIKeyForm.SetEnvironment (js "dev")]
    (St := SessionData) (Bk := list api_result)) as [K E]; [done|reflexivity|repeat constructor; done|].
  split; [exact K|]. change (js "k1") with (APIKeyForm.key_id Samples.old_key). rewrite E. reflexivity.
Defined.

Lemma plugin_saved_unchanged_witness :
  w_log (updatePlugin (PluginForm.form_data (Some Samples.limiter) [] (PluginForm.opened (Some Samples.limiter)))
    (Reference.world0 [Reference.reply 200 None None])).2 <> [].
Proof.
  rewrite (PluginForm.plugin_saved_unchanged Samples.limiter); [by vm_compute|reflexivity|done|reflexivity|reflexivity|].
  intros l [= <-]. cbn. repeat split; try lia; repeat constructor; unfold unit_ok; lia.
Defined.

Lemma review_before_send_witness :
  let evs := [Review.Submit [text "a" []]; Review.Confirm] in
  let st := fold_left (Review.handle (fun k => k) true) evs Review.opened in
  Review.sent st = [[text "a" []]] /\
  Review.sent (fold_left (Review.handle (fun k => k) true) [Review.Reply FOk; Review.Confirm; Review.Submit []] st) = Review.sent st.
Proof.
  split; [reflexivity|].
  apply (Review.review_before_send (fun k => k) [Review.Submit [text "a" []]; Review.Confirm] [Review.Confirm; Review.Submit []]). reflexivity.
Defined.

Lemma budget_edit_limit_witness :
  BudgetForm.save (St := SessionData) (Bk := list api_result) (fun k => k) (js "acme") (Some Samples.policy)
    (BudgetForm.set_limit (js "2.5") (BudgetForm.opened (Some Samples.policy))) =
  BudgetForm.patch_policy (fun k => k) (js "acme") Samples.policy true (Ret [(js "limit", JNum (int 2500000))]).
Proof.
  rewrite (proj2 (BudgetForm.budget_edit_limit (fun k => k) (js "acme") Samples.policy true (js "2.5"))); [reflexivity|].
  apply (bool_decide_unpack _). vm_compute. exact I.
Defined.

Lemma settings_saved_unchanged_witness :
  settings_body (SettingsForm.opened {| SettingsForm.trace := Some {| SettingsForm.capture_payload_enabled := Some true;
    SettingsForm.max_body_kb := Some (int 64); SettingsForm.retention_days := None |}; SettingsForm.anthropic_disabled := None |}) =
  JObj [(js "trace", JObj [(js "capture_payload_enabled", JBool true); (js "max_body_kb", JNum (int 64)); (js "retention_days", JNum (int 7))]);
        (js "ingress", JObj [(js "anthropic_disabled", JBool false)])].
Proof.
  rewrite SettingsForm.settings_saved_unchanged; [reflexivity| |done]. intros v [= <-]. by exists 64.
Defined.
