(* ===== verification/AdminTables.v ===== *)
(** * Tables and client pages of the Control Panel

    The interactive parts of the list pages in
    [web/src/app/[locale]/(dashboard)]: the confirmed row actions
    ([Confirmed] is one dialog, [StatusTable] a table with two of them and an
    immediate button), the configuration history, the model grid, the usage summary and the session
    page. *)

From Stdlib Require Import Sorting.Sorted.
From S2P Require Import Prelude JsNumber Money JsString Json AdminRuntime FormActions ConfigActions TenantActions Format Urls AdminPages AdminForms AccessForms.

(** ** Confirmed row actions

    The tables delete, disable or revoke a row after a [ConfirmModal]; the
    reply of the server action arrives later. *)
Module Confirmed.

Section Confirmed.
  Context {Row : Type}.
  (** Whether opening the dialog clears the error: the models page and the
      model page do not, the tables do. *)
  Variable clears_error : bool.

(** [calls] and [answered] record the requests made and the replies received. *)
Record state : Type := {
  target : option Row; loading : bool; failure : option jstr; refreshed : nat; calls : list Row; answered : nat;
}.

Definition idle : state := {| target := None; loading := false; failure := None; refreshed := 0; calls := []; answered := 0 |}.

Inductive event : Type :=
  | Ask (row : Row)
  | Confirm
  | Cancel
  | Reply (r : FormResult).

Definition ask (row : Row) (st : state) : state :=
  {| target := Some row; loading := loading st; failure := if clears_error then None else failure st;
     refreshed := refreshed st; calls := calls st; answered := answered st |}.

(** The handler up to its [await]. *)
Definition confirm (st : state) : state :=
  match target st with
  | None => st
  | Some row => {| target := Some row; loading := true; failure := None; refreshed := refreshed st; calls := calls st ++ [row]; answered := answered st |}
  end.

(** The rest of the handler. *)
Definition replied (r : FormResult) (st : state) : state :=
  match r with
  | FOk => {| target := None; loading := false; failure := failure st; refreshed := S (refreshed st); calls := calls st; answered := S (answered st) |}
  | FErr e _ => {| target := target st; loading := false; failure := Some e; refreshed := refreshed st; calls := calls st; answered := S (answered st) |}
  end.

(** The dialog's confirm button is disabled while a request is under way, its
    cancel button is not. *)
Definition handle (st : state) (e : event) : state :=
  match e with
  | Ask row => ask row st
  | Confirm => if loading st then st else confirm st
  | Cancel => {| target := None; loading := loading st; failure := failure st; refreshed := refreshed st; calls := calls st; answered := answered st |}
  | Reply r => if loading st then replied r st else st
  end.

Definition confirms (evs : list event) : nat := length (List.filter (fun e => match e with Confirm => true | _ => false end) evs).

(** After the events [evs]: rows acted on were asked about, one request is
    under way at most, and there are no more requests than confirmations. *)
Definition orderly (evs : list event) (st : state) : Prop :=
  (forall r, target st = Some r -> Ask r ∈ evs) /\ Forall (fun r => Ask r ∈ evs) (calls st) /\
  length (calls st) = (answered st + if loading st then 1 else 0)%nat /\ (length (calls st) <= confirms evs)%nat.

Lemma orderly_snoc evs st e : orderly evs st -> orderly (evs ++ [e]) st.
Proof.
  intros (T & C & L & N). split_and!; [intros r E; apply elem_of_app; left; by apply T| |done|].
  - eapply Forall_impl; [exact C|]. intros r I. apply elem_of_app. by left.
  - unfold confirms in *. rewrite List.filter_app, length_app. lia.
Qed.

Lemma orderly_step evs st e : orderly evs st -> orderly (evs ++ [e]) (handle st e).
Proof.
  intros O. pose proof (orderly_snoc _ _ e O) as (T & C & L & N). destruct e as [row| | |r]; cbn [handle].
  - split_and!; try done. intros r [= <-]. apply elem_of_app. right. by apply list_elem_of_singleton.
  - case_eq (loading st); intros Ld; [by apply orderly_snoc|]. unfold confirm. destruct (target st) as [row|] eqn:E; [|by apply orderly_snoc].
    rewrite Ld in L. split_and!; cbn [target calls answered loading].
    + intros r [= <-]. by apply T.
    + apply Forall_app. split; [done|]. constructor; [by apply T|constructor].
    + rewrite length_app. simpl. lia.
    + destruct O as (_ & _ & _ & N'). unfold confirms in *. rewrite List.filter_app, !length_app. simpl. lia.
  - by split_and!.
  - case_eq (loading st); intros Ld; [|by apply orderly_snoc]. rewrite Ld in L. destruct r as [|m k]; split_and!; cbn [replied target calls answered loading]; done || lia.
Qed.

Lemma orderly_run evs pre st : orderly pre st -> orderly (pre ++ evs) (fold_left handle evs st).
Proof.
  revert pre st. induction evs as [|e evs IH]; intros pre st O; [by rewrite app_nil_r|]. cbn [fold_left].
  change (e :: evs) with ([e] ++ evs). rewrite app_assoc. apply IH. by apply orderly_step.
Qed.

(** However clicks and replies interleave, a dialog acts only on rows it was
    opened for, makes at most one request per confirmation, and never has two
    under way: every request but the last has been answered. *)
Lemma dialog_orderly evs : orderly evs (fold_left handle evs idle).
Proof. apply (orderly_run evs []). split_and!; simpl; done || lia. Qed.

(** Without a change of mind, the reply concerns the dialog that is open. *)
Lemma confirm_sequence row r : fold_left handle [Ask row; Confirm; Reply r] idle =
  {| target := match r with FOk => None | FErr _ _ => Some row end; loading := false;
     failure := match r with FOk => None | FErr e _ => Some e end; refreshed := match r with FOk => 1 | FErr _ _ => 0 end;
     calls := [row]; answered := 1 |}.
Proof. unfold ask. by destruct r, clears_error. Qed.

(** A dialog cancelled while its request is under way still receives the
    reply: it closes the dialog of another row, or shows its error there. *)
Theorem reply_reaches_other_dialog a b e k :
  let st := fold_left handle [Ask a; Confirm; Cancel; Ask b] idle in
  target st = Some b /\ calls st = [a] /\
  target (handle st (Reply FOk)) = None /\
  target (handle st (Reply (FErr e k))) = Some b /\ failure (handle st (Reply (FErr e k))) = Some e.
Proof. done. Qed.

(** Where it is not cleared, the error of one row is shown in the dialog
    opened for the next. *)
Theorem error_shown_for_next a b e k :
  let st := fold_left handle [Ask a; Confirm; Reply (FErr e k); Cancel; Ask b] idle in
  target st = Some b /\ failure st = if clears_error then None else Some e.
Proof. cbn. by destruct clears_error. Qed.

End Confirmed.
End Confirmed.

(** ** Tables with a status

    The tenant, group and application tables: a disable and (but for tenants)
    a delete dialog, each with its own loading flag, and an enable button that
    asks nothing. *)
Module StatusTable.

Section StatusTable.
  Context {Row : Type}.
  Variables (name : Row -> jstr) (enabled : Row -> bool).

(** [enables] and [enabled_back] record the enable requests made and the
    replies received. *)
Record state : Type := {
  disable : Confirmed.state (Row := Row);
  delete : Confirmed.state (Row := Row);
  enablingName : option jstr;
  enables : list Row;
  enabled_back : nat;
}.

Definition first_state : state :=
  {| disable := Confirmed.idle; delete := Confirmed.idle; enablingName := None; enables := []; enabled_back := 0 |}.

Inductive event : Type :=
  | OnDisable (e : Confirmed.event (Row := Row))
  | OnDelete (e : Confirmed.event (Row := Row))
  | Enable (row : Row)
  | EnableReply (r : FormResult).

(** The row's button is the disable button or the enable button. *)
Definition offered (e : Confirmed.event (Row := Row)) : bool :=
  match e with Confirmed.Ask row => enabled row | _ => true end.

(** [enable], up to its [await]. *)
Definition enable (row : Row) (st : state) : state :=
  {| disable := disable st; delete := delete st; enablingName := Some (name row); enables := enables st ++ [row];
     enabled_back := enabled_back st |}.

(** The rest of [enable]: the result is not looked at. *)
Definition enable_replied (st : state) : state :=
  {| disable := disable st; delete := delete st; enablingName := None; enables := enables st; enabled_back := S (enabled_back st) |}.

(** The enable button is disabled while [enablingName] is its row's name. *)
Definition handle (st : state) (e : event) : state :=
  match e with
  | OnDisable e =>
      if offered e
      then {| disable := Confirmed.handle true (disable st) e; delete := delete st; enablingName := enablingName st;
              enables := enables st; enabled_back := enabled_back st |}
      else st
  | OnDelete e =>
      {| disable := disable st; delete := Confirmed.handle true (delete st) e; enablingName := enablingName st;
         enables := enables st; enabled_back := enabled_back st |}
  | Enable row =>
      if enabled row || match enablingName st with Some n => streq n (name row) | None => false end then st else enable row st
  | EnableReply _ => if (enabled_back st <? length (enables st))%nat then enable_replied st else st
  end.

(** What each dialog saw of a run. *)
Definition disable_events (evs : list event) : list Confirmed.event :=
  omap (fun e => match e with OnDisable e => if offered e then Some e else None | _ => None end) evs.
Definition delete_events (evs : list event) : list Confirmed.event :=
  omap (fun e => match e with OnDelete e => Some e | _ => None end) evs.

Lemma disable_run evs st : disable (fold_left handle evs st) = fold_left (Confirmed.handle true) (disable_events evs) (disable st).
Proof.
  revert st. induction evs as [|e evs IH]; intros st; [done|]. cbn [fold_left]. rewrite IH.
  destruct e as [e|e|row|r]; cbn [handle disable_events omap list_omap].
  - by destruct (offered e).
  - done.
  - by destruct (_ || _).
  - by destruct (_ <? _)%nat.
Qed.

Lemma delete_run evs st : delete (fold_left handle evs st) = fold_left (Confirmed.handle true) (delete_events evs) (delete st).
Proof.
  revert st. induction evs as [|e evs IH]; intros st; [done|]. cbn [fold_left]. rewrite IH.
  destruct e as [e|e|row|r]; cbn [handle delete_events omap list_omap].
  - by destruct (offered e).
  - done.
  - by destruct (_ || _).
  - by destruct (_ <? _)%nat.
Qed.

(** The enable requests of a run from [st]: those made before, then rows that
    were disabled when their button was pressed. *)
Lemma enables_run evs st : exists l, enables (fold_left handle evs st) = enables st ++ l /\
  Forall (fun r => Enable r ∈ evs /\ enabled r = false) l.
Proof.
  revert st. induction evs as [|e evs IH]; intros st; [exists []; by rewrite app_nil_r|]. cbn [fold_left].
  destruct (IH (handle st e)) as (l & E & F). rewrite E.
  assert (F' : Forall (fun r => Enable r ∈ e :: evs /\ enabled r = false) l).
  { eapply Forall_impl; [exact F|]. intros r [I D]. split; [by right|done]. }
  destruct e as [e|e|row|r]; cbn [handle].
  - destruct (offered e); by exists l.
  - by exists l.
  - destruct (enabled row) eqn:R; cbn [orb]; [by exists l|]. destruct (match enablingName st with Some n => _ | None => false end); [by exists l|].
    exists (row :: l). cbn [enable enables]. rewrite <- app_assoc. split; [done|]. constructor; [|done]. split; [by left|done].
  - destruct (_ <? _)%nat; by exists l.
Qed.

Lemma asked_enabled r evs : Confirmed.Ask r ∈ disable_events evs -> OnDisable (Confirmed.Ask r) ∈ evs /\ enabled r = true.
Proof.
  unfold disable_events. rewrite list_elem_of_omap. intros ([e|e|row|x] & I & E); try done.
  destruct (offered e) eqn:O; [|done]. by injection E as ->.
Qed.

Lemma asked_delete r evs : Confirmed.Ask r ∈ delete_events evs -> OnDelete (Confirmed.Ask r) ∈ evs.
Proof. unfold delete_events. rewrite list_elem_of_omap. intros ([e|e|row|x] & I & E); try done. by injection E as ->. Qed.

(** C23: However clicks and replies interleave, the tenant, group and
    application tables send a disable request only for an enabled row and a
    delete request only for a row whose dialog of that kind was opened, at most one
    per confirmation; each dialog has at most one request under way.  Enabling
    asks nothing: its requests are for rows that are disabled.  The dialogs do
    not wait for each other, so a disable and a delete request can be
    under way together. *)
Theorem rows_confirmed evs :
  let st := fold_left handle evs first_state in
  Forall (fun r => OnDisable (Confirmed.Ask r) ∈ evs /\ enabled r = true) (Confirmed.calls (disable st)) /\
  Forall (fun r => OnDelete (Confirmed.Ask r) ∈ evs) (Confirmed.calls (delete st)) /\
  (length (Confirmed.calls (disable st)) <= Confirmed.confirms (disable_events evs))%nat /\
  (length (Confirmed.calls (delete st)) <= Confirmed.confirms (delete_events evs))%nat /\
  (length (Confirmed.calls (disable st)) =
     Confirmed.answered (disable st) + if Confirmed.loading (disable st) then 1 else 0)%nat /\
  (length (Confirmed.calls (delete st)) =
     Confirmed.answered (delete st) + if Confirmed.loading (delete st) then 1 else 0)%nat /\
  Forall (fun r => Enable r ∈ evs /\ enabled r = false) (enables st) /\
  (forall a b, enabled a = true -> exists evs', let st' := fold_left handle evs' first_state in
     Confirmed.calls (disable st') = [a] /\ Confirmed.loading (disable st') = true /\
     Confirmed.calls (delete st') = [b] /\ Confirmed.loading (delete st') = true).
Proof.
  cbv zeta. rewrite disable_run, delete_run. cbn [disable delete first_state].
  destruct (Confirmed.dialog_orderly true (disable_events evs)) as (_ & C1 & L1 & N1).
  destruct (Confirmed.dialog_orderly true (delete_events evs)) as (_ & C2 & L2 & N2). split_and!; try done.
  - eapply Forall_impl; [exact C1|]. intros r. apply asked_enabled.
  - eapply Forall_impl; [exact C2|]. intros r. apply asked_delete.
  - by destruct (enables_run evs first_state) as (l & -> & F).
  - intros a b A. exists [OnDisable (Confirmed.Ask a); OnDisable Confirmed.Confirm; OnDelete (Confirmed.Ask b); OnDelete Confirmed.Confirm].
    cbn. rewrite A. by cbn.
Qed.

(** One [enablingName] serves all rows: once a second row is being enabled, the
    button of the first works again and sends its request twice. *)
Theorem enable_sent_twice a b : enabled a = false -> enabled b = false -> name a <> name b ->
  enables (fold_left handle [Enable a; Enable b; Enable a] first_state) = [a; b; a].
Proof.
  intros A B N. cbn [fold_left first_state handle enablingName]. rewrite A, B. cbn [orb enable enablingName].
  rewrite (proj2 (streq_false (name a) (name b)) N). cbn [orb enable enablingName].
  by rewrite (proj2 (streq_false (name b) (name a)) (not_eq_sym N)).
Qed.

End StatusTable.
End StatusTable.

(** ** The rows' actions *)
Module RowActions.

(** [String(row.k ?? "")] *)
Definition row_text (row : unknown) (k : jstr) : jstr := to_string (nullish (opt_prop row k) (JStr [])).

(** The tables and their confirmed action. *)
Inductive action : Type :=
  | DeleteProvider | DeleteModel | DeleteRoute | DeletePlugin | DisableTenant | DisableGroup | DeleteGroup
  | DisableApplication | DeleteApplication | DeleteOperator | RevokeKey | DeleteRole.

Section Actions.
  Context {St Bk : Type} `{IronSession St} `{AdminApi Bk}.

(** An identifier typed as a number. *)
Definition row_id (row : unknown) : num := match opt_prop row "id" with Some (JNum n) => n | _ => NaN end.

Definition row_state : Type := Confirmed.state (Row := unknown).

(** The shape all confirm handlers share: nothing without a target, else the
    server action for the row, then its result. *)
Definition confirming (act : unknown -> M St Bk FormResult) (st : row_state) : M St Bk row_state :=
  match Confirmed.target st with
  | None => mret st
  | Some row => res ← act row; mret (Confirmed.replied res (Confirmed.confirm st))
  end.

(** The handlers, one per table. *)
Definition confirmDelete_provider : row_state -> M St Bk row_state :=
  confirming (fun row => deleteProvider (row_text row "name")).
Definition confirmDelete_model : row_state -> M St Bk row_state :=
  confirming (fun row => deleteModel (row_text row "alias")).
Definition confirmDelete_route : row_state -> M St Bk row_state :=
  confirming (fun row => deleteRoute (row_text row "model_alias")).
Definition confirmDelete_plugin : row_state -> M St Bk row_state :=
  confirming (fun row => deletePlugin (row_text row "name") (row_text row "scope")).
Definition confirmDisable_tenant : row_state -> M St Bk row_state :=
  confirming (fun row => setTenantEnabled (row_text row "name") false).
Definition confirmDisable_group : row_state -> M St Bk row_state :=
  confirming (fun row => setGroupEnabled (row_text row "name") false).
Definition confirmDelete_group : row_state -> M St Bk row_state :=
  confirming (fun row => deleteGroup (row_text row "name")).
Definition confirmDisable_application : row_state -> M St Bk row_state :=
  confirming (fun row => setApplicationEnabled (row_text row "name") false).
Definition confirmDelete_application : row_state -> M St Bk row_state :=
  confirming (fun row => deleteApplication (row_text row "name")).
Definition confirmDelete_operator : row_state -> M St Bk row_state :=
  confirming (fun row => deleteOperator (row_id row)).
Definition confirmRevoke : row_state -> M St Bk row_state :=
  confirming (fun row => revokeAPIKey (row_text row "key_id")).
(** The roles page has a dialog per row; its target is that row while it is open. *)
Definition onConfirm_role : row_state -> M St Bk row_state :=
  confirming (fun row => deleteRole (row_id row)).

Definition confirmed (a : action) : row_state -> M St Bk row_state :=
  match a with
  | DeleteProvider => confirmDelete_provider
  | DeleteModel => confirmDelete_model
  | DeleteRoute => confirmDelete_route
  | DeletePlugin => confirmDelete_plugin
  | DisableTenant => confirmDisable_tenant
  | DisableGroup => confirmDisable_group
  | DeleteGroup => confirmDelete_group
  | DisableApplication => confirmDisable_application
  | DeleteApplication => confirmDelete_application
  | DeleteOperator => confirmDelete_operator
  | RevokeKey => confirmRevoke
  | DeleteRole => onConfirm_role
  end.

(** The [enable] handlers need no confirmation and do not look at the result. *)
Definition enable_tenant (row : unknown) : M St Bk unit := _ ← setTenantEnabled (row_text row "name") true; mret tt.
Definition enable_group (row : unknown) : M St Bk unit := _ ← setGroupEnabled (row_text row "name") true; mret tt.
Definition enable_application (row : unknown) : M St Bk unit := _ ← setApplicationEnabled (row_text row "name") true; mret tt.

(** The method, address and parameters of each request. *)
Definition action_request (a : action) (row : unknown) : http_method * jstr * api_opts :=
  let by_name (p : string) (k : jstr) (body : unknown) :=
    {| path_params := [(js p, JStr (row_text row k))]; query_params := []; body := body |} in
  let disabled := Some (JObj [(js "enabled", JBool false)]) in
  match a with
  | DeleteProvider => (DELETE, js "/api/v1/providers/{name}", by_name "name" (js "name") None)
  | DeleteModel => (DELETE, js "/api/v1/models/{alias}", by_name "alias" (js "alias") None)
  | DeleteRoute => (DELETE, js "/api/v1/routes/{alias}", by_name "alias" (js "model_alias") None)
  | DeletePlugin => (DELETE, js "/api/v1/plugins/{name}",
      {| path_params := [(js "name", JStr (row_text row "name"))]; query_params := scope_query (row_text row "scope"); body := None |})
  | DisableTenant => (PATCH, js "/api/v1/tenants/{name}", by_name "name" (js "name") disabled)
  | DisableGroup => (PATCH, js "/api/v1/groups/{name}", by_name "name" (js "name") disabled)
  | DeleteGroup => (DELETE, js "/api/v1/groups/{name}", by_name "name" (js "name") None)
  | DisableApplication => (PATCH, js "/api/v1/applications/{name}", by_name "name" (js "name") disabled)
  | DeleteApplication => (DELETE, js "/api/v1/applications/{name}", by_name "name" (js "name") None)
  | DeleteOperator => (DELETE, js "/api/v1/operators/{id}", with_path (js "id") (JNum (row_id row)))
  | RevokeKey => (DELETE, js "/api/v1/api-keys/{key_id}", by_name "key_id" (js "key_id") None)
  | DeleteRole => (DELETE, js "/api/v1/roles/{id}", with_path (js "id") (JNum (row_id row)))
  end.

(** An action makes one request, and otherwise revalidates pages. *)
Definition sends (c : AdminClient) (q : http_method * jstr * api_opts) (act : M St Bk FormResult) : Prop :=
  forall w, serverAdminClient w = (Ret c, w) -> exists ps, w_log (act w).2 = w_log w ++ Sent c q.1.1 q.1.2 q.2 :: map Revalidated ps.

Lemma sends_submit c m p o d ps : sends c (m, p, o) (submit m p o d ps).
Proof.
  intros w C. rewrite (submit_eq _ _ _ _ _ _ _ C). destruct (api_call c m p o (w_backend w)) as [[r|e] b']; cbv zeta.
  - destruct (check_result r d); [by exists []|]. exists ps. rewrite revalidate_ok_eq. cbn [snd w_log fst]. by rewrite <- app_assoc.
  - exists []. match goal with |- context [toFormError e ?w1] => destruct (toFormError_cases e w1) as [(k & x & ->)|(t & k & -> & [(z & _ & ->)|(x & _ & ->)])] end; done.
Qed.

Lemma sends_unwrapped c m p o ps h : (forall e w, w_log (h e w : result FormResult * world St Bk).2 = w_log w) ->
  sends c (m, p, o) (try_catch (_ ← call_unwrap m p o; revalidate_ok ps) h).
Proof.
  intros Hh w C. unfold try_catch, call_unwrap, mbind, M_bind. rewrite C. unfold api.
  destruct (api_call c m p o (w_backend w)) as [[r|e] b']; [|exists []; by rewrite Hh].
  unfold lift. destruct (unwrap (Ret r)); [|exists []; by rewrite Hh].
  exists ps. rewrite revalidate_ok_eq. cbn [snd w_log fst]. by rewrite <- app_assoc.
Qed.

(** Every handler runs its server action on the chosen row. *)
Lemma confirmed_sends c a row : exists act, confirmed a = confirming act /\ sends c (action_request a row) (act row).
Proof.
  destruct a; eexists; (split; [reflexivity|]); try apply sends_submit; apply sends_unwrapped; try done.
  intros e w0. apply (handler_log _ handler_formError).
Qed.

(** C24: The confirm button of a row sends exactly one request, for that row:
    the delete, disable or revoke of the resource the row names — a plugin by
    name and scope — whatever the backend answers; without a chosen row
    nothing is sent. *)
Theorem row_action_request a row st w c clears : serverAdminClient w = (Ret c, w) -> Confirmed.target st = Some row ->
  let '(m, p, o) := action_request a row in
  (exists ps, w_log (confirmed a st w).2 = w_log w ++ Sent c m p o :: map Revalidated ps) /\
  confirmed a (Confirmed.handle clears st Confirmed.Cancel) w = (Ret (Confirmed.handle clears st Confirmed.Cancel), w).
Proof.
  intros C T. destruct (confirmed_sends c a row) as (act & -> & S), (action_request a row) as [[m p] o]. split; [|done]. destruct (S w C) as [ps L]. exists ps.
  unfold confirming. rewrite T. unfold mbind, M_bind. by destruct (act row w) as [[r|e] w'].
Qed.

End Actions.
End RowActions.

(** ** Configuration history *)
Module History.

Record Snapshot : Type := { version : num; created_at : option jstr }.

(** [rows[0]?.version] *)
Definition latestVersion (rows : list Snapshot) : option num := version <$> head rows.

(** [latestVersion === row.version] *)
Definition isLatest (latest : option num) (v : num) : bool := match latest with Some l => neqb l v | None => false end.

Inductive DiffState : Type :=
  | DiffIdle
  | DiffLoading
  | DiffLoaded (added removed : list json)
  | DiffError.

Inductive PreviewState : Type :=
  | PreviewIdle
  | PreviewLoading
  | PreviewLoaded (result : unknown)
  | PreviewError.

(** [...(data.k ?? [])] *)
Definition spread (data : unknown) (k : jstr) : result (list json) :=
  v ← member_or data k (JArr []);
  match v with JArr l => Ret l | _ => Throw (err_type (js "Spread syntax requires ...iterable[Symbol.iterator] to be a function")) end.

Definition spreads (data : unknown) (prefix : jstr) : result (list json) :=
  a ← spread data (prefix ++ js "providers"); b ← spread data (prefix ++ js "models");
  c ← spread data (prefix ++ js "routes"); d ← spread data (prefix ++ js "plugins"); Ret (a ++ b ++ c ++ d).

Section Client.
  Context {St Bk : Type} `{IronSession St} `{AdminApi Bk}.

(** The state of the diff panel after [viewDiff]. *)
Definition viewDiff (latest : option num) (v : num) : M St Bk DiffState :=
  match latest with
  | None => mret (DiffLoaded [] [])
  | Some l =>
      if neqb l v then mret (DiffLoaded [] [])
      else try_catch
             (data ← diffAction v l;
              added ← lift (spreads data (js "added_")); removed ← lift (spreads data (js "deleted_"));
              mret (DiffLoaded added removed))
             (fun _ => mret DiffError)
  end.

(** The candidate configuration built from a snapshot. *)
Definition preview_body (snapshot : unknown) : result json :=
  p ← member_or snapshot (js "providers") (JArr []); m ← member_or snapshot (js "models") (JArr []);
  r ← member_or snapshot (js "routes") (JArr []); g ← member_or snapshot (js "plugins") (JArr []);
  Ret (JObj [(js "providers", p); (js "models", m); (js "routes", r); (js "plugins", g)]).

Definition viewPreview (v : num) : M St Bk PreviewState :=
  try_catch
    (snapshot ← snapshotAction v;
     b ← lift (preview_body snapshot);
     res ← previewAction b;
     mret (PreviewLoaded res))
    (fun _ => mret PreviewError).

(** [confirmVersion], before and after the confirm button. *)
Definition rollback (confirmVersion : option num) : M St Bk (option num) :=
  match confirmVersion with
  | None => mret None
  | Some v => _ ← rollbackAction v; mret None
  end.

Lemma client_same (w w' : world St Bk) c : serverAdminClient w = (Ret c, w) -> w_env w' = w_env w -> w_store w' = w_store w ->
  serverAdminClient w' = (Ret c, w').
Proof.
  intros C E S. destruct w as [e s b l], w' as [e' s' b' l']. cbn [w_env w_store] in E, S. subst e' s'. revert C.
  unfold serverAdminClient, getToken, getSession, getenv, lift, mbind, M_bind. cbn [w_env].
  destruct (ADMIN_URL e) as [base|]; [|done]. destruct (str_empty base); [done|]. cbn. destruct (sessionOptions e) as [o|x]; [|done].
  cbn. by intros [= <-].
Qed.

(** Previewing a version reads that snapshot and dry-runs its providers,
    models, routes and plugins — two requests, neither of them a write — and
    shows the backend's verdict; a refused request shows an error instead. *)
Theorem preview_dry_run v (l : obj) w c b1 b2 r1 r2 : serverAdminClient w = (Ret c, w) ->
  let get := with_path (js "version") (JNum v) in
  let body := JObj (map (fun k => (js k, nullish (lookup_prop (js k) l) (JArr []))) ["providers"; "models"; "routes"; "plugins"]%string) in
  api_call c GET (js "/api/v1/config/history/{version}") get (w_backend w) = (Ret r1, b1) -> unwrap (Ret r1) = Ret (Some (JObj l)) ->
  api_call c POST (js "/api/v1/config/preview") (with_body body) b1 = (Ret r2, b2) ->
  viewPreview v w =
    (Ret (match unwrap (Ret r2) with Ret res => PreviewLoaded res | Throw _ => PreviewError end),
     {| w_env := w_env w; w_store := w_store w; w_backend := b2;
        w_log := w_log w ++ [Sent c GET (js "/api/v1/config/history/{version}") get; Sent c POST (js "/api/v1/config/preview") (with_body body)] |}).
Proof.
  intros C get body A1 U1 A2. subst get.
  set (w1 := {| w_env := w_env w; w_store := w_store w; w_backend := b1;
                w_log := w_log w ++ [Sent c GET (js "/api/v1/config/history/{version}") (with_path (js "version") (JNum v))] |}).
  assert (C1 : serverAdminClient w1 = (Ret c, w1)) by (by apply (client_same w)).
  assert (S1 : snapshotAction v w = (Ret (Some (JObj l)), w1)).
  { unfold snapshotAction, try_catch. by rewrite (call_unwrap_eq _ _ _ _ _ _ _ C A1), U1. }
  set (w2 := {| w_env := w_env w; w_store := w_store w; w_backend := b2; w_log := w_log w ++ _ |}).
  assert (P1 : exists x, previewAction body w1 = (match unwrap (Ret r2) with Ret res => Ret res | Throw _ => Throw x end, w2)).
  { unfold previewAction, try_catch. rewrite (call_unwrap_eq _ _ _ _ _ _ _ C1 A2). subst w1 w2. cbn [w_env w_store w_log]. rewrite <- app_assoc.
    destruct (unwrap (Ret r2)) as [res|e]; [by exists (err_type [])|]. unfold mbind, M_bind.
    destruct e as [k m|st k m|h lc]; cbn; [eexists; reflexivity| |eexists; reflexivity]. destruct (st =? 401); eexists; reflexivity. }
  destruct P1 as [x P1]. unfold viewPreview, try_catch, mbind, M_bind. rewrite S1.
  change (lift (preview_body (Some (JObj l))) w1) with (@Ret json body, w1). cbv beta iota. rewrite P1.
  by destruct (unwrap (Ret r2)).
Qed.

End Client.

(** On a later page of the history the first row counts as the current
    version: it cannot be rolled back to, and the others are compared with it. *)
Theorem later_page_current :
  let rows := map (fun n => {| version := int n; created_at := None |}) [3; 2] in
  isLatest (latestVersion rows) (int 3) = true /\ latestVersion rows = Some (int 3).
Proof. done. Qed.

End History.

(** ** The model grid

    Shared by the models page and the model catalogue. *)
Module ModelGrid.
Import ModelForm.

(** The capabilities of all models, once each, sorted. *)
Definition allCapabilities (models : list ModelRow) : list jstr :=
  sort_strings (RoleForm.set_of (flat_map (fun m => default [] (capabilities m)) models)).

Section Filter.
  (** [String.prototype.toLowerCase] *)
  Variable lower : jstr -> jstr.

Definition haystack (m : ModelRow) : jstr :=
  lower (join (js " ") ([alias m; default [] (description m)] ++ default [] (tags m))).

Definition shown (q capability : jstr) (m : ModelRow) : bool :=
  if negb (str_empty capability) && negb (array_includes (default [] (capabilities m)) capability) then false
  else if str_empty q then true
  else includes q (haystack m).

Definition filtered (models : list ModelRow) (query capability : jstr) : list ModelRow :=
  let q := lower (trim query) in List.filter (shown q capability) models.

(** The lowest prompt price of the upstreams that have one. *)
Definition startingPrice (us : list ModelUpstream) : option num :=
  foldl (fun min v => match min with None => Some v | Some m => if nlt v m then Some v else min end) None
    (omap (fun u => prompt_per_1m <$> pricing u) us).

(** The chips of the card: at most four, and how many are left out. *)
Definition card_chips (cs : list jstr) : list jstr * option nat :=
  (take 4 cs, if (4 <? length cs)%nat then Some (length cs - 4)%nat else None).

Definition knownCapabilities : list jstr := map js ["vision"; "function_calling"; "streaming"; "code"]%string.

(** [known[c] ?? c]; [t] translates the [capabilities] keys. *)
Definition capabilityLabel (t : jstr -> jstr) (c : jstr) : label :=
  if array_includes knownCapabilities c then Text (t (js "capabilities." ++ c))
  else if array_includes inherited_names c then Inherited c else Text c.

(** The filter chips of the model grid are exactly the capabilities some
    model has, once each; every chip leads to a non-empty grid, and with no
    search it shows the models that have that capability and no others. *)
Theorem capability_chips models : lower [] = [] -> Forall (fun m => Forall (fun c => c <> []) (default [] (capabilities m))) models ->
  NoDup (allCapabilities models) /\
  forall c, (c ∈ allCapabilities models <-> exists m, m ∈ models /\ c ∈ default [] (capabilities m)) /\
    (c ∈ allCapabilities models -> filtered models [] c <> [] /\
       forall m, m ∈ filtered models [] c <-> m ∈ models /\ c ∈ default [] (capabilities m)).
Proof.
  intros L F. unfold allCapabilities. destruct (RoleForm.set_of_spec (flat_map (fun m => default [] (capabilities m)) models)) as [N E].
  rewrite sort_strings_perm. split; [done|]. intros c.
  assert (I : c ∈ sort_strings (RoleForm.set_of (flat_map (fun m => default [] (capabilities m)) models)) <-> exists m, m ∈ models /\ c ∈ default [] (capabilities m)).
  { rewrite sort_strings_perm, E, list_elem_of_In, in_flat_map. by setoid_rewrite list_elem_of_In. }
  split; [done|]. intros C. apply I in C as (m0 & M0 & C0).
  assert (Nc : c <> []) by (rewrite Forall_forall in F; specialize (F m0 M0); rewrite Forall_forall in F; by apply F).
  assert (G : forall m, m ∈ filtered models [] c <-> m ∈ models /\ c ∈ default [] (capabilities m)).
  { intros m. unfold filtered. change (trim []) with (@nil Z). rewrite L, list_elem_of_In, filter_In, <- list_elem_of_In. unfold shown. cbn [str_empty].
    destruct c as [|z c]; [done|]. cbn [str_empty negb andb]. rewrite <- array_includes_spec.
    by destruct (array_includes (default [] (capabilities m)) (z :: c)); split; intros [? ?]. }
  split; [|done]. intros Z. assert (X : m0 ∈ filtered models [] c) by (by apply G). rewrite Z in X. by apply elem_of_nil in X.
Qed.

End Filter.

(** The starting price is the least of the prices. *)
Lemma startingPrice_least us (ps : list Z) : omap (fun u => prompt_per_1m <$> pricing u) us = map int ps ->
  match startingPrice us with
  | None => ps = []
  | Some p => exists k, p = int k /\ k ∈ ps /\ Forall (fun q => k <= q) ps
  end.
Proof.
  intros E. unfold startingPrice. rewrite E. clear E.
  assert (G : forall ps done m, (exists k, m = int k /\ k ∈ done /\ Forall (fun q => k <= q) done) ->
    match foldl (fun min v => match min with None => Some v | Some m => if nlt v m then Some v else min end) (Some m) (map int ps) with
    | None => False | Some p => exists k, p = int k /\ k ∈ done ++ ps /\ Forall (fun q => k <= q) (done ++ ps) end).
  { clear. induction ps as [|q ps IH]; intros dn m (k & -> & K & L); [exists k; by rewrite app_nil_r|]. cbn [map foldl].
    rewrite nlt_int. change (q :: ps) with ([q] ++ ps). rewrite app_assoc. destruct (Z.ltb_spec q k); apply IH.
    - exists q. split_and!; [done|set_solver|]. apply Forall_app. split; [|repeat constructor; lia]. eapply Forall_impl; [exact L|]. simpl. lia.
    - exists k. split_and!; [done|set_solver|]. apply Forall_app. split; [done|]. repeat constructor. lia. }
  destruct ps as [|q ps]; [done|]. cbn [map foldl]. specialize (G ps [q] (int q)).
  destruct (foldl _ _ _) as [p|]; [|exfalso]; apply G; exists q; split_and!; [done|set_solver|repeat constructor; lia|done|set_solver|repeat constructor; lia].
Qed.

End ModelGrid.

(** ** The usage summary *)
Module UsageSummary.

(** [Number(row.k ?? 0)] *)
Definition row_number (k : jstr) (row : json) : num := param_number (nullish (opt_prop (Some row) k) (JNum (int 0))).

Definition total (k : jstr) (rows : list json) : num := foldl (fun sum row => nadd sum (row_number k row)) (int 0) rows.

(** The figures of the three cards. *)
Definition cards (rows : list json) : list num := map (fun k => total k rows) (map js ["request_count"; "prompt_tokens"; "completion_tokens"]%string).

(** [String(row.currency ?? "")] *)
Definition row_currency (row : json) : jstr := to_string (nullish (opt_prop (Some row) "currency") (JStr [])).

Definition byCurrency (rows : list json) : list (jstr * list json) := group_by row_currency rows.

(** [b.cost - a.cost] is positive. *)
Definition after (a b : json) : bool := nlt (int 0) (nsub (row_number (js "cost") b) (row_number (js "cost") a)).

Fixpoint rank_insert (x : json) (l : list json) : list json :=
  match l with [] => [x] | y :: t => if after x y then y :: rank_insert x t else x :: l end.

(** The sort by descending cost, stable as [Array.prototype.sort]. *)
Definition ranked (rows : list json) : list json := foldr rank_insert [] rows.

Definition top (rows : list json) : list json := take 5 (ranked rows).

Definition maxCost (rows : list json) : num := match top rows with [] => int 0 | r :: _ => row_number (js "cost") r end.

(** The width of a row's bar, in percent. *)
Definition bar (rows : list json) (row : json) : num :=
  if nlt (int 0) (maxCost rows) then nmul (ndiv (row_number (js "cost") row) (maxCost rows)) (int 100) else int 0.

(** One panel per currency: its total and its five dearest groups. *)
Definition panels (rows : list json) : list (jstr * num * list json) :=
  map (fun g => (g.1, total (js "cost") g.2, top g.2)) (byCurrency rows).

(** *** Properties *)

Definition costs (cost : json -> Z) (rows : list json) : Prop :=
  Forall (fun r => row_number (js "cost") r = int (cost r) /\ 0 <= cost r <= 2 ^ 52) rows.

Lemma after_cost cost a b : costs cost [a; b] -> after a b = (cost a <? cost b).
Proof.
  intros C. apply Forall_cons in C as [[A Ha] C]. apply Forall_cons in C as [[B Hb] _]. unfold after. rewrite A, B.
  rewrite nsub_int by lia. rewrite nlt_int. destruct (Z.ltb_spec (cost a) (cost b)), (Z.ltb_spec 0 (cost b - cost a)); lia || done.
Qed.

Lemma rank_insert_perm x l : rank_insert x l ≡ₚ x :: l.
Proof. induction l as [|y l IH]; [done|]. cbn [rank_insert]. destruct (after x y); [|done]. rewrite IH. by constructor. Qed.

Lemma ranked_perm rows : ranked rows ≡ₚ rows.
Proof. induction rows as [|x l IH]; [done|]. cbn [ranked foldr]. fold (ranked l). by rewrite rank_insert_perm, IH. Qed.

Definition descending (cost : json -> Z) (l : list json) : Prop := StronglySorted (fun a b => cost b <= cost a) l.

Lemma rank_insert_sorted cost x l : costs cost (x :: l) -> descending cost l -> descending cost (rank_insert x l).
Proof.
  intros C D. apply Forall_cons in C as [Cx C]. induction D as [|y l D IH Y]; [repeat constructor|]. apply Forall_cons in C as [Cy C]. cbn [rank_insert].
  rewrite (after_cost cost) by (constructor; [done|constructor; [done|constructor]]). destruct (Z.ltb_spec (cost x) (cost y)).
  - constructor; [by apply IH|]. rewrite rank_insert_perm. constructor; [lia|done].
  - constructor; [by constructor|]. constructor; [lia|]. eapply Forall_impl; [exact Y|]. simpl. lia.
Qed.

Lemma ranked_sorted cost rows : costs cost rows -> descending cost (ranked rows).
Proof.
  intros C. induction C as [|x l Cx C IH]; [constructor|]. cbn [ranked foldr]. fold (ranked l). apply rank_insert_sorted; [|done].
  constructor; [done|]. unfold costs. by rewrite ranked_perm.
Qed.

Lemma sorted_app {A} (R : A -> A -> Prop) l1 l2 : StronglySorted R (l1 ++ l2) ->
  StronglySorted R l1 /\ Forall (fun x => Forall (R x) l2) l1.
Proof.
  induction l1 as [|x l1 IH]; intros S; [by repeat constructor|]. apply StronglySorted_inv in S as [S F]. destruct (IH S) as [S1 F1].
  apply Forall_app in F as [Fa Fb]. split; by constructor.
Qed.

(** The usage summary partitions the rows by currency, and in each panel
    the groups shown are the dearest: at most five, in descending order of
    cost, and no group left out costs more than one shown. *)
Theorem usage_top rows cost : costs cost rows ->
  concat (map snd (byCurrency rows)) ≡ₚ rows /\
  Forall (fun g => exists rest, top g.2 ++ rest ≡ₚ g.2 /\ (length (top g.2) <= 5)%nat /\ descending cost (top g.2) /\
    Forall (fun r => Forall (fun s => cost r <= cost s) (top g.2)) rest) (byCurrency rows).
Proof.
  intros C. destruct (group_by_all row_currency rows) as [_ P]. split; [done|]. rewrite Forall_forall. intros g G.
  assert (Cg : costs cost g.2).
  { unfold costs in *. rewrite <- P in C. rewrite Forall_forall in C |- *. intros r R. apply C. apply list_elem_of_In, in_concat. exists g.2.
    split; [apply in_map, list_elem_of_In, G|by apply list_elem_of_In]. }
  pose proof (ranked_sorted cost g.2 Cg) as D. exists (drop 5 (ranked g.2)). unfold top. split_and!.
  - rewrite take_drop. apply ranked_perm.
  - rewrite length_take. lia.
  - rewrite <- (take_drop 5 (ranked g.2)) in D. by apply sorted_app in D as [? _].
  - rewrite <- (take_drop 5 (ranked g.2)) in D. apply sorted_app in D as [_ X]. rewrite Forall_forall in X.
    rewrite Forall_forall. intros r R. rewrite Forall_forall. intros s S. specialize (X s S). rewrite Forall_forall in X. by apply X.
Qed.

End UsageSummary.

(** ** The one-time display of a new key *)
Module KeyReveal.

Record state : Type := { createOpen : bool; createdKey : option jstr }.

Definition closed : state := {| createOpen := false; createdKey := None |}.

(** [Dismiss] is Escape, the close button or the backdrop of the dialog;
    [Saved] the button under the displayed key; [Created] the form's
    [onSuccess]; [FormCancel] its cancel button. *)
Inductive event : Type :=
  | Open
  | Created (plaintext : option jstr)
  | FormCancel
  | Dismiss
  | Saved.

(** The dialog with the form, or the one with the key. *)
Definition shows_form (st : state) : bool := createOpen st && match createdKey st with None => true | Some _ => false end.
Definition shows_key (st : state) : option jstr := if createOpen st then createdKey st else None.

Definition onClose (st : state) : state := closed.

(** [if (plaintext) setCreatedKey(plaintext)] *)
Definition handleCreated (plaintext : option jstr) (st : state) : state :=
  match plaintext with
  | Some k => if str_empty k then st else {| createOpen := createOpen st; createdKey := Some k |}
  | None => st
  end.

(** The dialog of the key has an empty [onClose]. *)
Definition handle (st : state) (e : event) : state :=
  match e with
  | Open => if createOpen st then st else {| createOpen := true; createdKey := createdKey st |}
  | Created p => if shows_form st then handleCreated p st else st
  | FormCancel => if shows_form st then onClose st else st
  | Dismiss => if shows_form st then onClose st else st
  | Saved => match shows_key st with Some _ => onClose st | None => st end
  end.

(** A key is kept only while its dialog is open. *)
Definition sound (st : state) : Prop := createOpen st = false -> createdKey st = None.

Lemma handle_sound st e : sound st -> sound (handle st e).
Proof.
  intros S. destruct e as [|[k|]| | |]; cbn [handle]; unfold shows_form, shows_key, handleCreated; destruct st as [[] [c|]]; cbn; try done;
    try (by specialize (S eq_refl)). by destruct (str_empty k).
Qed.

(** A new key stays on display until the operator says it is saved —
    neither Escape nor the backdrop nor another event dismisses it — and
    afterwards it is forgotten: no later event shows it again without creating
    it again. *)
Theorem key_shown_until_saved evs k :
  let st := fold_left handle evs closed in
  shows_key st = Some k ->
  (forall e, e <> Saved -> shows_key (handle st e) = Some k) /\
  handle st Saved = closed /\
  (forall more, Created (Some k) ∉ more -> shows_key (fold_left handle more (handle st Saved)) <> Some k).
Proof.
  cbv zeta. generalize (fold_left handle evs closed). intros st K. destruct st as [[] [c|]]; try done. injection K as ->. split_and!.
  - intros e N. destruct e as [|[?|]| | |]; done.
  - done.
  - intros more. change (handle _ Saved) with closed.
    assert (G : forall st, createdKey st <> Some k -> Created (Some k) ∉ more -> createdKey (fold_left handle more st) <> Some k).
    { induction more as [|e more IH]; intros st C N; [done|]. apply not_elem_of_cons in N as [Ne N]. cbn [fold_left]. apply IH; [|done].
      destruct e as [|[p|]| | |]; cbn [handle]; unfold handleCreated; repeat case_match; cbn; congruence. }
    intros N. specialize (G closed ltac:(done) N). unfold shows_key. by case_match.
Qed.

End KeyReveal.

(** ** The session page *)
Module SessionPage.

Record TraceRow : Type := { tr_id : option num; tr_status : option num }.
Record MetaRow : Type := { model_requested : option jstr; duration_ms : option num; meta_status : option num }.
Record RequestItem : Type := { seq : nat; rowID : num; model : jstr; status : num; durationMs : num }.

(** The list on the left: trace rows, with the metadata of the same position. *)
Definition requests (traceRows : list TraceRow) (metaRows : list MetaRow) : list RequestItem :=
  imap (fun i tr =>
    let meta := metaRows !! i in
    {| seq := S i; rowID := default (int 0) (tr_id tr); model := default [] (meta ≫= model_requested);
       status := match tr_status tr with Some s => s | None => default (int 0) (meta ≫= meta_status) end;
       durationMs := default (int 0) (meta ≫= duration_ms) |}) traceRows.

(** [requests[seq - 1]?.rowID ?? 0] and that of the request before. *)
Definition wanted (reqs : list RequestItem) (s : nat) : num * num :=
  let idx := (s - 1)%nat in
  let id i := match reqs !! i with Some r => rowID r | None => int 0 end in
  (id idx, if (0 <? idx)%nat then id (idx - 1)%nat else int 0).

Inductive Panel : Type :=
  | Loading
  | Loaded (current previous : unknown)
  | Failed
  | Denied.

Definition panel_of (r : result PairResult) : Panel :=
  match r with
  | Ret (PairOk c p) => Loaded c p
  | Ret (PairFailed forbidden) => if forbidden then Denied else Failed
  | Throw _ => Failed
  end.

(** [queue]: the requests not answered yet, oldest first; [shown_for]: the
    request whose answer the panel received last. *)
Record state : Type := { selectedSeq : nat; panel : Panel; queue : list (num * num); shown_for : option (num * num) }.

Definition loadSelected (q : num * num) (st : state) : state :=
  {| selectedSeq := selectedSeq st; panel := Loading; queue := queue st ++ [q]; shown_for := shown_for st |}.

(** The page once its initial load has started. *)
Definition mounted (reqs : list RequestItem) : state :=
  let st := {| selectedSeq := if nonempty reqs then 1 else 0; panel := Loading; queue := []; shown_for := None |} in
  match reqs with r :: _ => if num_truthy (rowID r) then loadSelected (rowID r, int 0) st else st | [] => st end.

Inductive event : Type :=
  | Select (s : nat)
  | Answer (r : result PairResult).

(** Server actions of one page run one after the other, so answers come in the
    order of the requests.  A row without an id is disabled. *)
Definition handle (reqs : list RequestItem) (st : state) (e : event) : state :=
  match e with
  | Select s =>
      match reqs !! (s - 1)%nat with
      | Some r => if (0 <? s)%nat && num_truthy (rowID r) && negb (s =? selectedSeq st)%nat
                  then loadSelected (wanted reqs s) {| selectedSeq := s; panel := panel st; queue := queue st; shown_for := shown_for st |}
                  else st
      | None => st
      end
  | Answer r => match queue st with
                | [] => st
                | q :: rest => {| selectedSeq := selectedSeq st; panel := panel_of r; queue := rest; shown_for := Some q |}
                end
  end.

(** The last request made is for the row selected. *)
Definition follows (reqs : list RequestItem) (st : state) : Prop :=
  last (option_list (shown_for st) ++ queue st) = Some (wanted reqs (selectedSeq st)).

Lemma handle_follows reqs st e : follows reqs st -> follows reqs (handle reqs st e).
Proof.
  intros F. destruct e as [s|r]; cbn [handle].
  - destruct (reqs !! (s - 1)%nat) as [r|]; [|done]. destruct (_ && _); [|done]. unfold follows, loadSelected. cbn [shown_for queue selectedSeq].
    by rewrite app_assoc, last_snoc.
  - destruct (queue st) as [|q rest] eqn:Q; [done|]. unfold follows in *. rewrite Q, last_app in F.
    change (last (q :: rest) = Some (wanted reqs (selectedSeq st))). destruct (last (q :: rest)) eqn:L; [done|]. by apply last_None in L.
Qed.

(** Once every request has been answered, the panel shows the detail of
    the selected request next to the one before it, in whatever order requests
    were selected meanwhile. *)
Theorem panel_settles rows meta evs r : head (requests rows meta) = Some r -> num_truthy (rowID r) = true ->
  let reqs := requests rows meta in
  let st := fold_left (handle reqs) evs (mounted reqs) in
  queue st = [] -> shown_for st = Some (wanted reqs (selectedSeq st)).
Proof.
  intros Hr T. cbv zeta. set (reqs := requests rows meta) in *.
  assert (F : follows reqs (mounted reqs)).
  { unfold mounted, follows. destruct reqs as [|r0 reqs]; [done|]. injection Hr as ->. rewrite T. done. }
  assert (G : follows reqs (fold_left (handle reqs) evs (mounted reqs))).
  { revert F. generalize (mounted reqs). induction evs as [|e evs IH]; intros st F; [done|]. cbn [fold_left]. by apply IH, handle_follows. }
  intros Q. unfold follows in G. rewrite Q, app_nil_r in G. by destruct (shown_for _).
Qed.

(** Until then an earlier answer is shown under the later selection. *)
Theorem earlier_answer_shown c p :
  let rows := [{| tr_id := Some (int 7); tr_status := None |}; {| tr_id := Some (int 8); tr_status := None |}] in
  let reqs := requests rows [] in
  let st := fold_left (handle reqs) [Select 2; Answer (Ret (PairOk c p))] (mounted reqs) in
  selectedSeq st = 2%nat /\ panel st = Loaded c p /\ shown_for st = Some (int 7, int 0).
Proof. done. Qed.

End SessionPage.

(** ** Cells *)
Module Cells.

(** The request log's badge: whether the provider's adapter speaks the
    protocol the request came in with. *)
Definition passthrough (adapters : list (jstr * jstr)) (proto : jstr) (provider : option jstr) : option bool :=
  adapter ← (p ← provider; if str_empty p then None else snd <$> List.find (fun kv => streq kv.1 p) adapters);
  if str_empty adapter then None
  else Some (streq proto "anthropic" && streq adapter "claude" || streq proto "openai" && streq adapter "openai").

Definition action_variant (v : jstr) : jstr :=
  if streq v "delete" then js "destructive" else if streq v "create" then js "success"
  else if streq v "read" then js "secondary" else js "info".

(** The commit of a data-plane node, when it is known. *)
Definition commit_text (commit : jstr) : option jstr :=
  if str_empty commit || streq commit "unknown" then None else Some (take 8 commit).

Definition superAdminCount (rows : list OperatorForm.OperatorRow) : nat :=
  length (List.filter (fun r => streq (OperatorForm.op_role r) "super-admin") rows).

Definition isLastSuperAdmin (rows : list OperatorForm.OperatorRow) (r : OperatorForm.OperatorRow) : bool :=
  streq (OperatorForm.op_role r) "super-admin" && (superAdminCount rows <=? 1)%nat.

(** A cell of the providers table: [String(cell.getValue() ?? "")], where only
    a column with an accessor has a value. *)
Definition provider_cell (accessor : option jstr) (row : json) : jstr :=
  match accessor with Some k => RowActions.row_text (Some row) k | None => [] end.

Definition provider_columns : list (option jstr) := [Some (js "name"); Some (js "type"); None; Some (js "base_url")].

(** The session list's own formats. *)
Definition formatTokens (n : num) : jstr :=
  if nle (int 1000000) n then toFixed 1 (ndiv n (int 1000000)) ++ js "M"
  else if nle (int 1000) n then toFixed 1 (ndiv n (int 1000)) ++ js "k"
  else num_to_string n.

Definition formatDuration (ms : num) : jstr :=
  if nle ms (int 0) then js "—"
  else if nlt ms (int 60000) then toFixed 1 (ndiv ms (int 1000)) ++ js "s"
  else
    let m := nfloor (ndiv ms (int 60000)) in
    let s := nfloor (ndiv (nmod ms (int 60000)) (int 1000)) in
    num_to_string m ++ js "m" ++ num_to_string s ++ js "s".

(** Both consoles format a session the same way. *)
Theorem session_formats_agree v : formatTokens v = Format.formatTokens (Some v) /\ formatDuration v = Format.formatDurationCompact (Some v).
Proof. done. Qed.

(** Two minutes are "2m0s". *)
Theorem two_minutes : formatDuration (int 120000) = js "2m0s".
Proof. vm_compute. done. Qed.

(** The adapter column of the providers table is empty whatever the endpoints. *)
Theorem adapter_column_empty row : nth 2 (map (fun a => provider_cell a row) provider_columns) [] = [].
Proof. done. Qed.

(** A super-admin can be deleted exactly when the page lists another one. *)
Lemma super_admin_deletable rows r : r ∈ rows -> OperatorForm.op_role r = js "super-admin" ->
  isLastSuperAdmin rows r = false <-> (2 <= superAdminCount rows)%nat.
Proof. intros _ E. unfold isLastSuperAdmin. rewrite E, streq_refl. cbn [andb]. rewrite Nat.leb_gt. lia. Qed.

End Cells.

(** ** Witness *)

Lemma row_action_request_witness :
  let row := Some (JObj [(js "name", JStr (js "limit")); (js "scope", JStr (js "acme"))]) in
  let st := Confirmed.handle true Confirmed.idle (Confirmed.Ask row) in
  exists c ps, w_log (RowActions.confirmed RowActions.DeletePlugin st (Reference.world0 [Reference.reply 409 None (Reference.envelope "busy"%string)])).2 =
    [Sent c DELETE (js "/api/v1/plugins/{name}")
       {| path_params := [(js "name", JStr (js "limit"))]; query_params := [(js "scope", Some (JStr (js "acme")))]; body := None |}]
    ++ map Revalidated ps.
Proof.
  cbv zeta. set (row := Some (JObj _)). set (w := Reference.world0 _).
  destruct (serverAdminClient w) as [[c|] w1] eqn:C; [|by vm_compute in C].
  assert (W : w1 = w) by (by injection C as _ <-). subst w1. exists c.
  destruct (RowActions.row_action_request RowActions.DeletePlugin row (Confirmed.handle true Confirmed.idle (Confirmed.Ask row)) w c true C eq_refl) as [[ps L] _].
  exists ps. rewrite L. reflexivity.
Defined.
