(* ===== verification/AdminDialogs.v ===== *)
(** * Dialogs and read-only views of the Control Panel

    The dialogs the client pages open ([Modal] of [web/src/components/modal.tsx]
    around the forms), changing the password, topping up a quota, and the
    pages that only show numbers: overview, session summary, usage chart and
    raw trace. *)

From S2P Require Import Prelude JsNumber Money JsString Json JsonPretty AdminRuntime FormActions ConfigActions TenantActions Trace Calendar DateRanges DesktopApi Urls AdminPages SearchPages AdminForms AccessForms AdminTables.

(** ** Create and edit dialogs

    The operators, roles, models and API-key pages keep a flag and a row for
    the edit dialog, the providers, plugins and routes pages the row alone.
    A form takes its fields from the row it is mounted with; the row it
    addresses on submit is the one it is rendered with. *)
Module Shell.

Section Shell.
  Context {Row : Type}.

(** [editForm]: the row the mounted edit form was mounted with. *)
Record state : Type := { createOpen : bool; editOpen : bool; editTarget : option Row; editForm : option Row }.

Definition closed : state := {| createOpen := false; editOpen := false; editTarget := None; editForm := None |}.

Inductive event : Type :=
  | Create
  | CloseCreate
  | Edit (row : Row)
  | CloseEdit
  | Escape.

Definition openCreate (st : state) : state :=
  {| createOpen := true; editOpen := editOpen st; editTarget := editTarget st; editForm := editForm st |}.

(** [onClose], [onCancel] and [onSuccess] of the create dialog. *)
Definition closeCreate (st : state) : state :=
  {| createOpen := false; editOpen := editOpen st; editTarget := editTarget st; editForm := editForm st |}.

(** React keeps a form that is already mounted. *)
Definition onEdit (row : Row) (st : state) : state :=
  {| createOpen := createOpen st; editOpen := true; editTarget := Some row;
     editForm := match editForm st with Some r => Some r | None => Some row end |}.

Definition closeEdit (st : state) : state :=
  {| createOpen := createOpen st; editOpen := false; editTarget := None; editForm := None |}.

(** Every open dialog listens for Escape. *)
Definition handle (st : state) (e : event) : state :=
  match e with
  | Create => openCreate st
  | CloseCreate => closeCreate st
  | Edit row => onEdit row st
  | CloseEdit => closeEdit st
  | Escape => closeEdit (closeCreate st)
  end.

(** The row the visible edit form submits to: [editTarget && <Modal open={editOpen}>]. *)
Definition edited (st : state) : option Row := if editOpen st then editTarget st else None.

(** The pages with the row alone: [<Modal open={!!editRow}>]. *)
Definition handle_row (st : bool * option Row) (e : event) : bool * option Row :=
  match e with
  | Create => (true, st.2)
  | CloseCreate => (false, st.2)
  | Edit row => (st.1, Some row)
  | CloseEdit => (st.1, None)
  | Escape => (false, None)
  end.

(** The flag is redundant: both kinds of page show the same dialogs. *)
Lemma kinds_agree evs : let st := fold_left handle evs closed in
  fold_left handle_row evs (false, None) = (createOpen st, edited st) /\ (editOpen st = true <-> editTarget st <> None).
Proof.
  assert (G : forall st, (editOpen st = true <-> editTarget st <> None) ->
    fold_left handle_row evs (createOpen st, edited st) = (createOpen (fold_left handle evs st), edited (fold_left handle evs st)) /\
    (editOpen (fold_left handle evs st) = true <-> editTarget (fold_left handle evs st) <> None)).
  { induction evs as [|e evs IH]; intros st I; [done|]. cbn [fold_left].
    assert (S : handle_row (createOpen st, edited st) e = (createOpen (handle st e), edited (handle st e)) /\
                (editOpen (handle st e) = true <-> editTarget (handle st e) <> None)) by (by destruct e).
    destruct S as [-> S]. by apply IH. }
  apply (G closed). done.
Qed.

(** Edit buttons lie under the open dialog: with the mouse they are reached
    only while none is open. *)
Fixpoint by_mouse (st : state) (evs : list event) : Prop :=
  match evs with
  | [] => True
  | e :: t => match e with Edit _ => edited st = None | _ => True end /\ by_mouse (handle st e) t
  end.

(** The edit form was filled from the row it submits to. *)
Definition consistent (st : state) : Prop := editForm st = editTarget st /\ (editOpen st = true <-> editTarget st <> None).

(** With the mouse, the form always shows the row it edits, *)
Theorem form_shows_edited evs : by_mouse closed evs -> consistent (fold_left handle evs closed).
Proof.
  assert (G : forall st, consistent st -> by_mouse st evs -> consistent (fold_left handle evs st)).
  { induction evs as [|e evs IH]; intros st C B; [done|]. destruct B as [B0 B]. cbn [fold_left]. apply IH; [|done].
    destruct C as [F O]. destruct e as [| |row| |]; try done. split; [|done]. cbn.
    unfold edited in B0. rewrite F. destruct (editTarget st); [|done]. by rewrite (proj2 O ltac:(done)) in B0. }
  by apply G.
Qed.

(** but the dialog does not hold the keyboard focus: an edit button reached
    with it while a form is open sends that form's fields to another row. *)
Theorem keyboard_edit_mixes a b : let st := fold_left handle [Edit a; Edit b] closed in
  edited st = Some b /\ editForm st = Some a.
Proof. done. Qed.

End Shell.
End Shell.

(** For roles: the permissions of [a] are written to [b]. *)
Theorem role_overwritten {St Bk} `{IronSession St} `{AdminApi Bk} (a b : RoleForm.RoleRow) k :
  RoleForm.id b = int k -> 1 <= k <= 2 ^ 53 -> NoDup (RoleForm.permissions a) ->
  Forall RoleForm.perm_token (RoleForm.permissions a) -> js "*" ∉ RoleForm.permissions a ->
  let st := fold_left Shell.handle [Shell.Edit a; Shell.Edit b] Shell.closed in
  updateRole (RoleForm.form_data (Shell.edited st) (RoleForm.name a) (RoleForm.opened (Shell.editForm st))) = (try_catch
    (_ ← call_unwrap PATCH (js "/api/v1/roles/{id}")
           (path_body (js "id") (JNum (RoleForm.id b))
              (JObj ([(js "permissions", JStrs (RoleForm.permissions a))]
                     ++ prop_if (negb (str_empty (trim (RoleForm.description a)))) (js "description") (JStr (trim (RoleForm.description a))))));
     revalidate_ok [js "/roles"]) role_error : M St Bk FormResult).
Proof.
  intros Ei Hk N F W st. destruct (RoleForm.opened_checked a N W) as [Ec Ew].
  change (Shell.edited st) with (Some b). change (Shell.editForm st) with (Some a).
  rewrite (RoleForm.update_sends _ _ _ _ Ei Hk), Ec, Ew; [done|]. by rewrite Ec.
Qed.

(** ** Changing the password

    [web/src/components/change-password-button.tsx] *)
Module ChangePassword.

(** [result] is the state of [useActionState]; as every reply is a new object,
    [replies] stands for its identity.  [timer]: the time-out that closes the
    dialog is set. *)
Record state : Type := { isOpen : bool; result : option FormResult; replies : nat; success : bool; timer : bool }.

Definition mounted : state := {| isOpen := false; result := None; replies := 0; success := false; timer := false |}.

Definition with_success (st : state) (s t : bool) : state :=
  {| isOpen := isOpen st; result := result st; replies := replies st; success := s; timer := t |}.

(** [state?.ok] *)
Definition succeeded (st : state) : bool := match result st with Some FOk => true | _ => false end.

(** The cleanup of the last run, then the body. *)
Definition effect (st : state) : state :=
  if succeeded st && negb (success st) then with_success st true true else with_success st (success st) false.

(** Its dependencies, [[state, success]]. *)
Definition deps (st : state) : nat * bool := (replies st, success st).

(** Commits until the dependencies are those of the last run. *)
Fixpoint commit (fuel : nat) (old : nat * bool) (st : state) : state :=
  match fuel with
  | O => st
  | S f => if bool_decide (deps st = old) then st else commit f (deps st) (effect st)
  end.

Inductive event : Type :=
  | Click
  | Reply (r : FormResult)
  | Close
  | Fire.

Definition handleClose (st : state) : state :=
  {| isOpen := false; result := result st; replies := replies st; success := false; timer := false |}.

Definition handler (st : state) (e : event) : state :=
  match e with
  | Click => {| isOpen := true; result := result st; replies := replies st; success := success st; timer := timer st |}
  | Reply r => {| isOpen := isOpen st; result := Some r; replies := S (replies st); success := success st; timer := timer st |}
  | Close => handleClose st
  | Fire => if timer st then handleClose st else st
  end.

Definition step (st : state) (e : event) : state := commit 3 (deps st) (handler st e).

(** Two runs of the effect are enough: the third commit changes nothing. *)
Lemma commit_settles old st f : commit (3 + f) old st = commit 3 old st.
Proof.
  assert (E : forall g st', succeeded st' && negb (success st') = false -> commit (S g) (deps st') (effect st') = effect st').
  { intros g st' F. unfold effect. rewrite F. cbn [commit]. by rewrite bool_decide_eq_true_2. }
  cbn [commit Nat.add]. case_bool_decide; [done|]. destruct (succeeded st && negb (success st)) eqn:F.
  - set (st1 := effect st). assert (F1 : succeeded st1 && negb (success st1) = false).
    { subst st1. unfold effect. rewrite F. cbn. by rewrite andb_false_r. }
    case_bool_decide; [done|]. pose proof (E 0%nat _ F1) as E0. pose proof (E f _ F1) as Ef. cbn [commit] in E0, Ef. by rewrite E0, Ef.
  - unfold effect. rewrite F. by rewrite !bool_decide_eq_true_2.
Qed.

(** Between events no time-out is set, and a success is on display. *)
Definition settled (st : state) : Prop := timer st = false /\ (succeeded st = true -> success st = true).

Ltac commits :=
  repeat (cbn; first [ rewrite bool_decide_eq_true_2 by reflexivity
                     | rewrite bool_decide_eq_false_2 by (unfold deps; cbn; intros [=]; lia) ]).

Lemma step_settled st e : settled st -> settled (step st e).
Proof.
  destruct st as [o res n su ti]. intros [T R]. cbn in T, R. subst ti. unfold step, settled.
  destruct e as [|r| |]; cbn [handler timer handleClose].
  - by commits.
  - destruct r, su; by commits.
  - destruct su, res as [[|]|]; by commits.
  - by commits.
Qed.

Lemma password_run_settled evs st : settled st -> settled (fold_left step evs st).
Proof. revert st. induction evs as [|e evs IH]; intros st S; [done|]. apply IH. by apply step_settled. Qed.

Lemma step_isOpen st e : isOpen (step st e) = isOpen (handler st e).
Proof.
  assert (C : forall f old st', isOpen (commit f old st') = isOpen st').
  { induction f as [|f IH]; intros old st'; [done|]. cbn [commit]. case_bool_decide; [done|]. rewrite IH. unfold effect. by case_match. }
  apply C.
Qed.

(** The time-out never closes the dialog: the run of the effect that follows
    [setSuccess(true)] cancels it.  Only the operator closes the dialog, *)
Theorem password_dialog_stays evs : let st := fold_left step evs mounted in
  timer st = false /\ step st Fire = st /\ (isOpen (fold_left step (evs ++ [Click; Reply FOk; Fire]) mounted) = true).
Proof.
  intros st. assert (S : settled st) by (by apply password_run_settled). split; [apply S|]. split.
  - destruct S as [T _]. unfold step. cbn [handler]. rewrite T. cbn [commit]. by rewrite bool_decide_eq_true_2.
  - rewrite fold_left_app. fold st. cbn [fold_left]. set (st2 := step (step st Click) (Reply FOk)).
    assert (S2 : settled st2) by (do 2 apply step_settled; done). rewrite step_isOpen. cbn [handler]. rewrite (proj1 S2).
    subst st2. rewrite step_isOpen. cbn [handler isOpen]. by rewrite step_isOpen.
Qed.

(** and when it is opened again the message of the earlier success is there. *)
Theorem success_shown_again : let st := fold_left step [Click; Reply FOk; Close; Click] mounted in
  isOpen st = true /\ success st = true.
Proof. by vm_compute. Qed.

End ChangePassword.

(** ** Topping up a quota

    [QuotasPageClient] of [quotas/client.tsx] *)
Module Topup.

(** The row of the table: scope, balance, currency. *)
Definition balance_row (scope : jstr) (balance : num) (currency : jstr) : list jstr :=
  [scope; Web.microToDisplay balance; if str_empty currency then js "—" else currency].

(** The dialog's entries; the scope and currency inputs start as below. *)
Definition form_data (scope amount currency : jstr) : FormData :=
  [text "scope" scope; text "amount" amount; text "currency" currency].

Definition default_currency (currency : jstr) : jstr := if str_empty currency then js "USD" else currency.

(** [topupOpen] and the action's state, which outlives the dialog. *)
Record state : Type := { topupOpen : bool; result : option FormResult }.

Inductive event : Type :=
  | Open
  | Close
  | Reply (r : FormResult).

(** The effect on the action's state closes the dialog after a success. *)
Definition handle (st : state) (e : event) : state :=
  match e with
  | Open => {| topupOpen := true; result := result st |}
  | Close => {| topupOpen := false; result := result st |}
  | Reply r => {| topupOpen := match r with FOk => false | FErr _ _ => topupOpen st end; result := Some r |}
  end.

(** The error in the dialog. *)
Definition shown_error (tErr : jstr -> jstr) (st : state) : option jstr :=
  match topupOpen st, result st with
  | true, Some (FErr e k) => Some (match k with Some k => tErr k | None => e end)
  | _, _ => None
  end.

(** A whole number of units typed into the dialog, scope and currency left as
    they are, tops that scope up by exactly that amount in its currency. *)
Theorem topup_request {St Bk} `{IronSession St} `{AdminApi Bk} scope currency n :
  trim scope = scope -> scope <> [] -> trim currency = currency -> 1 <= n -> n * 1000000 <= 2 ^ 53 ->
  topupQuota (form_data scope (num_to_string (int n)) (default_currency currency)) =
    (submit POST (js "/api/v1/quotas/topup")
       (with_body (JObj [(js "scope", JStr scope); (js "delta", JNum (int (n * 1000000))); (js "currency", JStr (default_currency currency))]))
       (js "top-up failed") [js "/quotas"] : M St Bk FormResult).
Proof.
  intros Ts Ns Tc H1 Hn. unfold topupQuota.
  change (field (form_data _ _ _) "scope") with scope. change (field (form_data _ _ _) "currency") with (default_currency currency).
  assert (Ea : field_number (form_data scope (num_to_string (int n)) (default_currency currency)) "amount" = int n).
  { unfold field_number, form_data. cbn. apply str_to_num_int. lia. }
  rewrite Ea, Ts. assert (Ed : trim (default_currency currency) = default_currency currency) by (unfold default_currency; by destruct (str_empty currency)).
  rewrite Ed. assert (Nd : str_empty (default_currency currency) = false) by (unfold default_currency; by destruct currency).
  rewrite Nd. destruct scope; [done|]. cbn [str_empty].
  rewrite nle_int, (proj2 (Z.leb_gt n 0)) by lia. unfold topup_delta. rewrite nmul_int by lia. destruct n; [lia|done|lia].
Qed.

(** The message of a failed attempt is still there when the dialog is opened
    again. *)
Theorem topup_error_stays tErr e k :
  shown_error tErr (fold_left handle [Open; Reply (FErr e k); Close; Open] {| topupOpen := false; result := None |}) =
    Some (match k with Some k => tErr k | None => e end).
Proof. done. Qed.

End Topup.

(** ** The overview

    [overview/client.tsx] *)
Module OverviewView.

Section View.
  (** [n.toLocaleString()] and [s.toUpperCase()]. *)
  Variables (locale : num -> jstr) (upper : jstr -> jstr).

(** [num] *)
Definition num_of (v : unknown) : num := match v with Some (JNum (Fin m k)) => Fin m k | _ => int 0 end.

(** [StatCard] *)
Record card : Type := { value : jstr; warn : bool }.

(** [typeof v === "number" ? show(v) : "—"] *)
Definition stat (show : num -> jstr) (warns : bool) (v : unknown) : card :=
  match v with
  | Some (JNum n) => {| value := show n; warn := warns && nlt (int 0) n |}
  | _ => {| value := js "—"; warn := false |}
  end.

Definition cards (data : unknown) : list card :=
  let nodes := opt_prop data "nodes" in
  let stats := opt_prop data "recent_stats" in
  [stat num_to_string false (opt_prop nodes "online"); stat num_to_string false (opt_prop stats "total_requests");
   stat num_to_string true (opt_prop stats "total_errors"); stat num_to_string true (opt_prop stats "total_blocked");
   stat locale false (opt_prop stats "total_tokens_in"); stat locale false (opt_prop stats "total_tokens_out")].

(** A row of [AgentStatsTable], and whether its errors are marked. *)
Definition agent_row (row : json) : list jstr * bool :=
  let count k := num_of (opt_prop (Some row) k) in
  let agent := match opt_prop (Some row) "agent_type" with Some (JStr a) => if str_empty a then js "—" else a | _ => js "—" end in
  (agent :: map locale [count (js "request_count"); count (js "prompt_tokens"); count (js "completion_tokens"); count (js "total_tokens");
                        count (js "error_count")],
   nlt (int 0) (count (js "error_count"))).

(** A row of [TopTenantsTable]. *)
Definition tenant_row (row : json) : list jstr :=
  let count k := num_of (opt_prop (Some row) k) in
  let currency := match opt_prop (Some row) "currency" with Some (JStr c) => if str_empty c then js "—" else upper c | _ => js "—" end in
  [match opt_prop (Some row) "group_key" with Some (JStr k) => k | _ => js "—" end;
   locale (count (js "request_count"));
   locale (nadd (count (js "prompt_tokens")) (count (js "completion_tokens")));
   Web.microToDisplay (count (js "cost")) ++ js " " ++ currency].

(** [RangeTabs]: each tab with its address and whether it is the current one. *)
Definition tab_href (r : jstr) : jstr := js "/overview?range=" ++ r.
Definition RangeTabs (range : jstr) : list (jstr * jstr * bool) := map (fun r => (r, tab_href r, streq r range)) RANGE_OPTIONS.

(** The range a page opened at an address shows. *)
Definition range_at (href : jstr) : jstr := page_range (as_string (search_param (search_of href) (js "range"))).

(** Every tab leads to the page for its range, on which it is the one current
    tab. *)
Theorem tabs_lead_to_ranges : Forall (fun r => range_at (tab_href r) = r /\
  map (fun t => t.1.1) (List.filter (fun t => t.2) (RangeTabs (range_at (tab_href r)))) = [r]) RANGE_OPTIONS.
Proof. repeat constructor; vm_compute; reflexivity. Qed.

(** The error and block counts are marked exactly when there are any. *)
Theorem counts_marked data n k : k = 2%nat \/ k = 3%nat ->
  opt_prop (opt_prop data "recent_stats") (if (k =? 2)%nat then "total_errors"%string else "total_blocked"%string) = Some (JNum (int n)) -> 0 <= n ->
  warn <$> cards data !! k = Some (bool_decide (n <> 0)).
Proof.
  intros [-> | ->] E Hn; cbn [Nat.eqb] in E; unfold cards; cbn; rewrite E; cbn [stat warn andb]; rewrite nlt_int; f_equal;
    case_bool_decide; lia.
Qed.

End View.
End OverviewView.

(** ** The session summary

    [request-logs/sessions/[session_id]/client.tsx] *)
Module SessionSummary.

Section Summary.
  (** [new Date(v).getTime()] and the translator. *)
  Variables (getTime : jstr -> num) (t : jstr -> jstr).

Definition has_error (r : json) : bool := truthy (opt_prop (Some r) "error_type") || truthy (opt_prop (Some r) "blocked_by").
Definition fell_back (r : json) : bool := match opt_prop (Some r) "fallback" with Some (JBool true) => true | _ => false end.

Definition errorCount (rs : list json) : nat := length (List.filter has_error rs).
Definition fallbackCount (rs : list json) : nat := length (List.filter fell_back rs).

Definition times (rs : list json) : list num :=
  omap (fun r => match opt_prop (Some r) "created_at" with
                 | Some (JStr s) => if str_empty s then None else Some (getTime s)
                 | _ => None
                 end) rs.

(** [times.length >= 2 ? Math.max(...times) - Math.min(...times) : 0] *)
Definition spanMs (rs : list json) : num :=
  match times rs with
  | x :: y :: l => nsub (fold_left nmax (y :: l) x) (fold_left nmin (y :: l) x)
  | _ => int 0
  end.

Definition totalTokens (costSummary : unknown) : num :=
  let count k := match nullish (opt_prop costSummary k) (JNum (int 0)) with JNum n => n | _ => NaN end in
  nadd (count (js "prompt_tokens")) (count (js "completion_tokens")).

Definition formatDuration (ms : num) : jstr :=
  if nle ms (int 0) then js "—"
  else if nlt ms (int 60000) then toFixed 1 (ndiv ms (int 1000)) ++ js "s"
  else if nlt ms (int 3600000) then toFixed 1 (ndiv ms (int 60000)) ++ js "m"
  else toFixed 1 (ndiv ms (int 3600000)) ++ js "h".

(** The status cell: its text and colour. *)
Inductive tone : Type := Destructive | Warning | Success.

Definition status_cell (r : json) : jstr * tone :=
  if has_error r then
    (if truthy (opt_prop (Some r) "blocked_by")
     then t (js "timeline.fallback") ++ js ": " ++ to_string (nullish (opt_prop (Some r) "blocked_by") JNull)
     else match opt_prop (Some r) "error_type" with Some (JStr e) => e | _ => [] end, Destructive)
  else if fell_back r then (t (js "timeline.fallback"), Warning)
  else (t (js "timeline.success"), Success).

(** The summary cards: count, tokens, cost, errors, fallbacks, time span. *)
Definition summary (locale : num -> jstr) (rs : list json) (costSummary : unknown) : list jstr :=
  let cost := match nullish (opt_prop costSummary "cost") (JNum (int 0)) with JNum n => n | _ => NaN end in
  [num_to_string (int (Z.of_nat (length rs))); locale (totalTokens costSummary); Web.microToDisplay cost;
   num_to_string (int (Z.of_nat (errorCount rs))); num_to_string (int (Z.of_nat (fallbackCount rs))); formatDuration (spanMs rs)].

Definition toned (c : tone) (rs : list json) : nat :=
  length (List.filter (fun r => match (status_cell r).2, c with
                                | Destructive, Destructive | Warning, Warning | Success, Success => true
                                | _, _ => false
                                end) rs).

(** The cards agree with the table below them: the errors are the red rows,
    the fallbacks the amber rows and the red ones that also fell back, and the
    three colours partition the requests. *)
Theorem summary_matches_rows rs :
  errorCount rs = toned Destructive rs /\
  fallbackCount rs = (toned Warning rs + length (List.filter (fun r => has_error r && fell_back r) rs))%nat /\
  length rs = (toned Destructive rs + toned Warning rs + toned Success rs)%nat.
Proof.
  unfold errorCount, fallbackCount, toned. induction rs as [|r rs (E & F & L)]; [done|]. cbn [List.filter].
  assert (S : (status_cell r).2 = if has_error r then Destructive else if fell_back r then Warning else Success)
    by (unfold status_cell; by destruct (has_error r), (fell_back r)).
  rewrite S. destruct (has_error r), (fell_back r); cbn [andb length]; lia.
Qed.

Lemma fold_max zs z : fold_left nmax (map int zs) (int z) = int (fold_left Z.max zs z) /\ fold_left nmin (map int zs) (int z) = int (fold_left Z.min zs z).
Proof. revert z. induction zs as [|x zs IH]; intros z; [done|]. cbn [map fold_left]. rewrite nmax_int, nmin_int. split; apply IH. Qed.

Lemma fold_bounds zs a b : a <= b -> fold_left Z.min zs a <= a /\ b <= fold_left Z.max zs b /\
  Forall (fun x => fold_left Z.min zs a <= x <= fold_left Z.max zs b) zs /\
  fold_left Z.min zs a ∈ a :: zs /\ fold_left Z.max zs b ∈ b :: zs.
Proof.
  revert a b. induction zs as [|x zs IH]; intros a b H; cbn [fold_left]; [split_and!; try lia; by constructor|].
  destruct (IH (Z.min a x) (Z.max b x) ltac:(lia)) as (L & U & F & M & X). split_and!; try lia.
  - constructor; [lia|done].
  - rewrite elem_of_cons in M. rewrite !elem_of_cons. destruct (Z.min_spec a x) as [[_ E]|[_ E]]; rewrite E in M |- *; tauto.
  - rewrite elem_of_cons in X. rewrite !elem_of_cons. destruct (Z.max_spec b x) as [[_ E]|[_ E]]; rewrite E in X |- *; tauto.
Qed.

(** The time span is the distance between two of the requests, and no two are
    further apart. *)
Theorem span_widest rs zs : times rs = map int zs -> (2 <= length zs)%nat -> Forall (fun z => 0 <= z <= 2 ^ 53) zs ->
  exists lo hi, lo ∈ zs /\ hi ∈ zs /\ spanMs rs = int (hi - lo) /\ forall x y, x ∈ zs -> y ∈ zs -> y - x <= hi - lo.
Proof.
  intros E N B. destruct zs as [|a [|b zs]]; [cbn in N; lia..|]. unfold spanMs. rewrite E. cbn [map].
  change (int b :: map int zs) with (map int (b :: zs)). destruct (fold_max (b :: zs) a) as [-> ->].
  destruct (fold_bounds (b :: zs) a a ltac:(lia)) as (L & U & F & M & X). set (lo := fold_left Z.min _ a) in *. set (hi := fold_left Z.max _ a) in *.
  exists lo, hi. split_and!; [done|done| |].
  - rewrite Forall_forall in B. pose proof (B _ M). pose proof (B _ X). apply nsub_int. lia.
  - assert (G : forall x, x ∈ a :: b :: zs -> lo <= x <= hi).
    { intros x I. apply elem_of_cons in I as [-> |I]; [lia|]. rewrite Forall_forall in F. by apply F. }
    intros x y Ix Iy. pose proof (G x Ix). pose proof (G y Iy). lia.
Qed.

(** A blocked request is labelled as a fallback. *)
Theorem blocked_labelled_fallback : status_cell (JObj [(js "blocked_by", JStr (js "ratelimit"))]) = (t (js "timeline.fallback") ++ js ": ratelimit", Destructive).
Proof. done. Qed.

End Summary.
End SessionSummary.

(** ** The usage chart

    [usage/timeseries-chart.tsx] *)
Module UsageChart.

Record Bucket : Type := {
  bucket_start : option jstr; prompt_tokens : option num; completion_tokens : option num; cost : option num; currency : option jstr;
  request_count : option num;
}.

(** A chart of one currency, the notice for an unknown one, or the empty chart. *)
Inductive panel : Type :=
  | CurrencyChart (currency : jstr) (rows : list Bucket)
  | UnknownCurrency
  | NoData.

Definition currency_of (r : Bucket) : jstr := default [] (currency r).
Definition in_currency (c : jstr) (r : Bucket) : bool := match currency r with Some x => streq x c | None => false end.

Definition UsageTimeseriesChart (rows : list Bucket) : list panel :=
  match rows with
  | [] => [NoData]
  | _ => map (fun c => if str_empty c then UnknownCurrency else CurrencyChart c (List.filter (in_currency c) rows))
             (RoleForm.set_of (map currency_of rows))
  end.

(** A point of a chart; [label] formats the bucket's start. *)
Definition point (label : option jstr -> jstr) (r : Bucket) : jstr * num * num * num :=
  (label (bucket_start r), default (int 0) (cost r), nadd (default (int 0) (prompt_tokens r)) (default (int 0) (completion_tokens r)),
   default (int 0) (request_count r)).

Definition drawn (p : panel) : list Bucket := match p with CurrencyChart _ rows => rows | _ => [] end.

Lemma filter_disjoint {A} (f g : A -> bool) l : (forall x, f x && g x = false) ->
  List.filter f l ++ List.filter g l ≡ₚ List.filter (fun x => f x || g x) l.
Proof.
  intros D. induction l as [|x l IH]; [done|]. cbn [List.filter]. specialize (D x).
  destruct (f x), (g x); cbn [andb orb app] in *; [discriminate D|by constructor|rewrite <- Permutation_middle; by constructor|done].
Qed.

Definition shown_in (cs : list jstr) (r : Bucket) : bool := negb (str_empty (currency_of r)) && array_includes cs (currency_of r).

Lemma drawn_panels cs rows : NoDup cs ->
  concat (map (fun c => drawn (if str_empty c then UnknownCurrency else CurrencyChart c (List.filter (in_currency c) rows))) cs)
    ≡ₚ List.filter (shown_in cs) rows.
Proof.
  assert (K : forall c r, str_empty c = false -> in_currency c r = negb (str_empty (currency_of r)) && streq (currency_of r) c).
  { intros c r N. unfold in_currency, currency_of. destruct (currency r) as [x|]; cbn; [|done].
    destruct (streq x c) eqn:E; [apply streq_true in E as ->; by rewrite N|by rewrite andb_false_r]. }
  induction cs as [|c cs IH]; intros N.
  - cbn. induction rows as [|r rows IH]; [done|]. cbn [List.filter]. unfold shown_in at 1. cbn. by rewrite andb_false_r.
  - apply NoDup_cons in N as [Nc N]. cbn [map concat]. rewrite (IH N). destruct (str_empty c) eqn:E; cbn [drawn app].
    + apply str_empty_true in E as ->. erewrite List.filter_ext; [done|]. intros r. unfold shown_in. cbn [array_includes].
      destruct (currency_of r); done.
    + rewrite filter_disjoint.
      * erewrite List.filter_ext; [done|]. intros r. cbn. rewrite (K c r E). unfold shown_in. cbn.
        destruct (str_empty (currency_of r)); cbn; done.
      * intros r. rewrite (K c r E). unfold shown_in. destruct (streq (currency_of r) c) eqn:S; [|by rewrite andb_false_r].
        apply streq_true in S. rewrite S. destruct (array_includes cs c) eqn:I; [by apply array_includes_spec in I|]. by rewrite !andb_false_r.
Qed.

(** The charts show every bucket with a currency once, in the chart of its
    currency, and no chart is empty; the notice says whether there are others. *)
Theorem charts_partition rows : rows <> [] ->
  concat (map drawn (UsageTimeseriesChart rows)) ≡ₚ List.filter (fun r => negb (str_empty (currency_of r))) rows /\
  (forall c l, CurrencyChart c l ∈ UsageTimeseriesChart rows -> l <> [] /\ Forall (fun r => currency r = Some c) l) /\
  (UnknownCurrency ∈ UsageTimeseriesChart rows <-> exists r, r ∈ rows /\ currency_of r = []).
Proof.
  intros N. destruct (RoleForm.set_of_spec (map currency_of rows)) as [D E].
  assert (U : UsageTimeseriesChart rows = map (fun c => if str_empty c then UnknownCurrency else CurrencyChart c (List.filter (in_currency c) rows))
             (RoleForm.set_of (map currency_of rows))) by (by destruct rows).
  rewrite U. split_and!.
  - rewrite map_map, drawn_panels by done. erewrite List.filter_ext_in; [done|]. intros r I. unfold shown_in.
    assert (A : array_includes (RoleForm.set_of (map currency_of rows)) (currency_of r) = true).
    { apply array_includes_spec, E, list_elem_of_In, in_map. done. }
    by rewrite A, andb_true_r.
  - intros c l I. apply list_elem_of_fmap in I as (c' & Q & I). destruct (str_empty c') eqn:Ec; [done|]. injection Q as -> ->.
    apply E, list_elem_of_fmap in I as (r & -> & I). split.
    + intros Z. apply list_elem_of_In in I. assert (X : In r (List.filter (in_currency (currency_of r)) rows)); [|by rewrite Z in X].
      apply filter_In. split; [done|]. revert Ec. unfold in_currency, currency_of. destruct (currency r); cbn; [|done]. intros _. apply streq_refl.
    + apply Forall_forall. intros x X. apply list_elem_of_In, filter_In in X as [_ X]. unfold in_currency in X.
      destruct (currency x); [|done]. by apply streq_true in X as ->.
  - rewrite list_elem_of_fmap. split.
    + intros (c & Q & I). destruct (str_empty c) eqn:Ec; [|done]. apply str_empty_true in Ec as ->. apply E, list_elem_of_fmap in I as (r & Q' & I).
      by exists r.
    + intros (r & I & Q). exists []. split; [done|]. apply E, list_elem_of_fmap. by exists r.
Qed.

End UsageChart.

(** ** The raw trace view

    [trace/sessions/[session_id]/[req]/detail-client.tsx] *)
Module RawView.

Definition isEmpty (v : unknown) : bool :=
  match v with
  | None | Some JNull | Some (JStr []) | Some (JArr []) | Some (JObj []) => true
  | _ => false
  end.

(** [text ? String(value) : JSON.stringify(value ?? null, null, 2)] *)
Definition content (as_text : bool) (v : unknown) : jstr :=
  if as_text then match v with Some x => to_string x | None => js "undefined" end
  else stringify_pretty 0 (nullish v JNull).

Definition RawBlock (t : jstr -> jstr) (as_text : bool) (v : unknown) : jstr :=
  if isEmpty v then t (js "raw.empty") else content as_text v.

(** The blocks of a detail: request, response, and the error if there is one. *)
Definition blocks (t : jstr -> jstr) (detail : unknown) : list jstr :=
  [RawBlock t false (opt_prop detail "request_raw"); RawBlock t true (opt_prop detail "response_raw")]
  ++ (if truthy (opt_prop detail "error_raw") then [RawBlock t true (opt_prop detail "error_raw")] else []).

(** The addresses of the view switch and of the way back. *)
Definition base (sessionID requestID : jstr) : result jstr :=
  s ← encodeURIComponent sessionID; r ← encodeURIComponent requestID; Ret (js "/trace/sessions/" ++ s ++ js "/" ++ r).
Definition back (sessionID : jstr) : result jstr := s ← encodeURIComponent sessionID; Ret (js "/trace/sessions/" ++ s).

(** The request shown, and copied by its button, is the stored one: it parses
    back to it; a response of text is shown as it is. *)
Theorem raw_view_faithful t v s : wf_json v -> isEmpty (Some v) = false -> s <> [] ->
  json_parse (RawBlock t false (Some v)) = Ret v /\ RawBlock t true (Some (JStr s)) = s.
Proof.
  intros W E N. unfold RawBlock. rewrite E. split; [|by destruct s].
  assert (Q : content false (Some v) = stringify_pretty 0 v) by (by destruct v). rewrite Q. by apply json_parse_pretty.
Qed.

(** The pages hand the session over as it stands in the address, so the links
    encode it once more: back from the messages of session [a b], the session
    page opens the session named [a%20b]. *)
Theorem back_link_reencodes : let segment := js "a%20b" in
  encodeURIComponent (js "a b") = Ret segment /\ decodeURIComponent segment = Ret (js "a b") /\
  back segment = Ret (js "/trace/sessions/a%2520b") /\ decodeURIComponent (js "a%2520b") = Ret (js "a%20b") /\
  base segment (js "7") = Ret (js "/trace/sessions/a%2520b/7").
Proof. vm_compute. done. Qed.

End RawView.
