(* ===== verification/I18n.v ===== *)
(** * Message catalogues

    [web/src/i18n/request.ts] and [routing.ts]: the namespaces found in the
    default locale's directory, the locale of a request, and the tree of
    messages built from that locale's files.  The file system is a parameter: a
    directory of entries per locale. *)

From S2P Require Import Prelude JsNumber JsString Json Format AdminForms AccessForms.

(** ** Directories *)

(** What [readdirSync] lists; a file holds the value its text denotes. *)
Inductive entry : Type :=
  | File (name : jstr) (content : json)
  | Dir (name : jstr) (entries : list entry).

Section EntryInd.
  Context (P : entry -> Prop) (HF : forall n c, P (File n c)) (HD : forall n es, Forall P es -> P (Dir n es)).

Fixpoint entry_ind_nested (e : entry) : P e :=
  match e with
  | File n c => HF n c
  | Dir n es =>
      HD n es ((fix go es : Forall P es :=
        match es with [] => Forall_nil_2 _ | x :: t => Forall_cons_2 _ _ _ (entry_ind_nested x) (go t) end) es)
  end.
End EntryInd.

Definition JSON_EXT : jstr := js ".json".

(** [entry.name.slice(0, -".json".length)] *)
Definition stem (n : jstr) : jstr := take (length n - 5) n.

(** One pass of the loop of [discoverNamespaces]. *)
Fixpoint discover (prefix : jstr) (e : entry) : list jstr :=
  match e with
  | Dir n es => flat_map (discover (prefix ++ n ++ [46])) es
  | File n _ => if endsWith JSON_EXT n then [prefix ++ stem n] else []
  end.

Definition discoverNamespaces (dir : list entry) (prefix : jstr) : list jstr := flat_map (discover prefix) dir.

(** The directory of each locale, [src/locales/<locale>]. *)
Definition filesystem : Type := jstr -> list entry.

Definition namespaces (fs : filesystem) : list jstr := sort_strings (discoverNamespaces (fs (js "en")) []).

(** ** The locale of a request *)

Definition locales : list jstr := [js "en"; js "zh"].
Definition defaultLocale : jstr := js "en".

Definition chosen (requestLocale : option jstr) : jstr :=
  match requestLocale with
  | Some l => if str_empty l || negb (array_includes locales l) then defaultLocale else l
  | None => defaultLocale
  end.

(** ** Importing a file *)

Definition file_named (n : jstr) (es : list entry) : option json :=
  head (omap (fun e => match e with File m c => if streq m n then Some c else None | Dir _ _ => None end) es).

Definition dir_named (n : jstr) (es : list entry) : option (list entry) :=
  head (omap (fun e => match e with Dir m d => if streq m n then Some d else None | File _ _ => None end) es).

Fixpoint read_file (es : list entry) (segments : list jstr) : option json :=
  match segments with
  | [] => None
  | [n] => file_named n es
  | d :: rest => match dir_named d es with Some es' => read_file es' rest | None => None end
  end.

(** [import(`../locales/${locale}/${parts.join("/")}.json`)]: the path below
    the locale's directory, empty segments dropped. *)
Definition import_messages (fs : filesystem) (locale : jstr) (parts : list jstr) : result json :=
  let path := join [47] parts ++ JSON_EXT in
  match read_file (fs locale) (filter_truthy (split_char 47 path)) with
  | Some v => Ret v
  | None => Throw (EError (js "Error") (js "Cannot find module '../locales/" ++ locale ++ [47] ++ path ++ js "'"))
  end.

(** ** Building the tree *)
Section Build.
  (** What assigning below an array or an inherited property does: such a
      catalogue leaves plain objects. *)
  Context (exotic : json -> list jstr -> json -> result json).

(** The walk of [cursor] from an object, and the assignment of the last part.
    Assigning to a property of a primitive or of [null] is a TypeError (its
    message is abridged). *)
Fixpoint insert_at (parts : list jstr) (v : json) (cursor : json) : result json :=
  match parts with
  | [] => Ret cursor
  | k :: rest =>
      match cursor with
      | JObj l =>
          match rest with
          | [] => if streq k (js "__proto__") then exotic cursor parts v else Ret (JObj (obj_set k v l))
          | _ :: _ =>
              match lookup_prop k l with
              | Some child => new ← insert_at rest v child; Ret (JObj (obj_set k new l))
              | None =>
                  if array_includes inherited_names k then exotic cursor parts v
                  else new ← insert_at rest v (JObj []); Ret (JObj (obj_set k new l))
              end
          end
      | JArr _ => exotic cursor parts v
      | _ => Throw (err_type (js "Cannot create property '" ++ k ++ js "'"))
      end
  end.

(** The loop over the namespaces. *)
Fixpoint load (fs : filesystem) (locale : jstr) (nss : list jstr) (messages : json) : result json :=
  match nss with
  | [] => Ret messages
  | ns :: rest =>
      let parts := split_char 46 ns in
      loaded ← import_messages fs locale parts;
      messages' ← insert_at parts loaded messages;
      load fs locale rest messages'
  end.

Definition getRequestConfig (fs : filesystem) (requestLocale : option jstr) : result (jstr * json) :=
  let locale := chosen requestLocale in
  messages ← load fs locale (namespaces fs) (JObj []);
  Ret (locale, messages).

End Build.

(** ** Catalogues

    The message files of a directory with their paths, the specification the
    tree is compared with. *)

Fixpoint catalogue (e : entry) : list (list jstr * json) :=
  match e with
  | File n c => if endsWith JSON_EXT n then [([stem n], c)] else []
  | Dir n es => map (fun pc => (n :: pc.1, pc.2)) (flat_map catalogue es)
  end.

Definition files (es : list entry) : list (list jstr * json) := flat_map catalogue es.

(** [messages.a.b.c] *)
Fixpoint get_path (p : list jstr) (v : json) : option json :=
  match p with
  | [] => Some v
  | k :: r => match v with JObj l => match lookup_prop k l with Some x => get_path r x | None => None end | _ => None end
  end.

(** Two paths that part at some level. *)
Fixpoint apart (p q : list jstr) : Prop :=
  match p, q with
  | a :: p', b :: q' => a <> b \/ apart p' q'
  | _, _ => False
  end.

(** Well-formed directories: names of namespaces without dot or slash and
    other than the inherited names, and within a directory no two that give
    the same part of a namespace. *)
Definition plain (n : jstr) : bool :=
  negb (str_empty n) && negb (existsb (Z.eqb 46) n) && negb (existsb (Z.eqb 47) n) && negb (array_includes inherited_names n).

Definition key (e : entry) : option jstr :=
  match e with File n _ => if endsWith JSON_EXT n then Some (stem n) else None | Dir n _ => Some n end.

Fixpoint wf_entry (e : entry) : bool :=
  match e with
  | File n _ => if endsWith JSON_EXT n then plain (stem n) else true
  | Dir n es => plain n && bool_decide (NoDup (omap key es)) && forallb wf_entry es
  end.

Definition wf_dir (es : list entry) : bool := bool_decide (NoDup (omap key es)) && forallb wf_entry es.

(** ** Lemmas on the tree *)

Lemma lookup_obj_insert k v k' l : lookup_prop k l = None -> lookup_prop k' (obj_insert k v l) = if streq k' k then Some v else lookup_prop k' l.
Proof.
  induction l as [|[a x] l IH]; [done|]. cbn [lookup_prop]. destruct (streq k a) eqn:E; [done|]. intros N. cbn [obj_insert].
  assert (lookup_prop k' ((k, v) :: (a, x) :: l) = if streq k' k then Some v else lookup_prop k' ((a, x) :: l)) as A by done.
  assert (lookup_prop k' ((a, x) :: obj_insert k v l) = if streq k' k then Some v else lookup_prop k' ((a, x) :: l)) as B.
  { cbn [lookup_prop]. rewrite (IH N). destruct (streq k' a) eqn:F; [|done]. apply streq_true in F as ->.
    destruct (streq a k) eqn:G; [|done]. apply streq_true in G as ->. by rewrite streq_refl in E. }
  destruct (index_key k) as [n|], (index_key a) as [n'|]; try destruct (n <? n'); first [exact A|exact B].
Qed.

Lemma lookup_obj_update k v k' l : lookup_prop k' (map (fun kv => if streq k kv.1 then (kv.1, v) else kv) l)
  = if streq k' k then (fun _ => v) <$> lookup_prop k' l else lookup_prop k' l.
Proof.
  induction l as [|[a x] l IH]; [by destruct (streq k' k)|]. cbn [map fst].
  destruct (streq k a) eqn:E; cbn [lookup_prop fst]; rewrite IH.
  - apply streq_true in E as ->. by destruct (streq k' a).
  - destruct (streq k' a) eqn:F; [|done]. apply streq_true in F as ->. destruct (streq a k) eqn:G; [|done].
    apply streq_true in G as ->. by rewrite streq_refl in E.
Qed.

Lemma lookup_obj_set k v k' l : lookup_prop k' (obj_set k v l) = if streq k' k then Some v else lookup_prop k' l.
Proof.
  unfold obj_set. destruct (lookup_prop k l) as [x|] eqn:E; [|by apply lookup_obj_insert]. rewrite lookup_obj_update.
  destruct (streq k' k) eqn:F; [|done]. apply streq_true in F as ->. by rewrite E.
Qed.

Lemma apart_sym p q : apart p q -> apart q p.
Proof. revert q. induction p as [|a p IH]; intros [|b q]; try done. intros [N|A]; [left; congruence|right; by apply IH]. Qed.

(** The walk along [p] meets only objects. *)
Fixpoint open_at (p : list jstr) (m : json) : Prop :=
  match p, m with
  | [], _ => True
  | k :: rest, JObj l => match rest, lookup_prop k l with _ :: _, Some c => open_at rest c | _, _ => True end
  | _ :: _, _ => False
  end.

Lemma open_empty p : open_at p (JObj []).
Proof. by destruct p as [|? [|? ?]]. Qed.

Lemma open_cons k k' p l : open_at (k :: k' :: p) (JObj l) <-> open_at (k' :: p) (default (JObj []) (lookup_prop k l)).
Proof. cbn. destruct (lookup_prop k l); [done|]. cbn [default]. pose proof (open_empty (k' :: p)). done. Qed.

Lemma get_cons k k' p l : get_path (k :: k' :: p) (JObj l) = get_path (k' :: p) (default (JObj []) (lookup_prop k l)).
Proof. cbn [get_path]. by destruct (lookup_prop k l). Qed.

Lemma apart_cons_same k p q : apart (k :: p) (k :: q) -> apart p q.
Proof. by intros [?|?]. Qed.

Section Insert.
  Context (exotic : json -> list jstr -> json -> result json).

(** Along an open walk the insertion succeeds, the new value is found at its
    path, and every path that parts from it keeps its value and its walk. *)
Lemma insert_open p v m : p <> [] -> Forall (fun k => k ∉ inherited_names) p -> open_at p m ->
  exists m', insert_at exotic p v m = Ret m' /\ get_path p m' = Some v
    /\ forall q, apart p q -> get_path q m' = get_path q m /\ (open_at q m -> open_at q m').
Proof.
  revert m. induction p as [|k rest IH]; intros m N F O; [done|]. apply Forall_cons in F as [K F]. clear N.
  destruct m as [| | | | |l]; cbn in O; try done. destruct rest as [|k' rest].
  - exists (JObj (obj_set k v l)). cbn [insert_at]. rewrite (proj2 (streq_false k (js "__proto__"))) by (intros ->; by apply K, array_includes_spec).
    split_and!; [done|by cbn; rewrite lookup_obj_set, streq_refl|]. intros [|b q]; [done|]. intros [D|[]].
    cbn. rewrite lookup_obj_set, (proj2 (streq_false b k)) by congruence. done.
  - set (c := default (JObj []) (lookup_prop k l)).
    destruct (IH c) as (m' & E & G & Q); [done|done|by apply open_cons, O|].
    exists (JObj (obj_set k m' l)). assert (insert_at exotic (k :: k' :: rest) v (JObj l) = Ret (JObj (obj_set k m' l))) as ->.
    { remember (k' :: rest) as p. cbn [insert_at]. rewrite Heqp at 1. subst c. destruct (lookup_prop k l); unfold default, from_option, id in E.
      - by rewrite E.
      - destruct (array_includes inherited_names k) eqn:A; [by apply array_includes_spec in A|]. by rewrite E. }
    rewrite get_cons, lookup_obj_set, streq_refl. split_and!; [done|done|]. intros [|b q]; [done|]. intros A.
    destruct (decide (b = k)) as [->|D].
    + apply apart_cons_same in A. destruct q as [|b q]; [done|]. rewrite !get_cons, !open_cons, lookup_obj_set, streq_refl. by apply Q.
    + cbn. by rewrite lookup_obj_set, (proj2 (streq_false b k)).
Qed.

End Insert.

(** ** Lemmas on directories *)

Lemma endsWith_app s e : endsWith e (s ++ e) = true.
Proof. unfold endsWith. rewrite reverse_app. apply startsWith_app. Qed.

Lemma stem_app n : stem (n ++ JSON_EXT) = n.
Proof. unfold stem. rewrite length_app. change (length JSON_EXT) with 5%nat. rewrite Nat.add_sub. apply take_app_length. Qed.

Lemma endsWith_stem n : endsWith JSON_EXT n = true -> n = stem n ++ JSON_EXT.
Proof.
  intros E. apply startsWith_spec in E as [r E]. apply (f_equal reverse) in E. rewrite reverse_involutive, reverse_app, reverse_involutive in E.
  subst n. by rewrite stem_app.
Qed.

Lemma plain_spec n : plain n = true -> n <> [] /\ (46 ∉ n) /\ (47 ∉ n) /\ n ∉ inherited_names.
Proof.
  assert (forall c l, existsb (Z.eqb c) l = false -> c ∉ l) as X.
  { intros c l E M. enough (existsb (Z.eqb c) l = true) by congruence. apply existsb_exists. exists c. split; [by apply list_elem_of_In|apply Z.eqb_refl]. }
  unfold plain. rewrite !andb_true_iff, !negb_true_iff. intros [[[E D] S] I]. split_and!; [by destruct n|by apply X|by apply X|].
  intros M. apply array_includes_spec in M. congruence.
Qed.

(** A path of a message file starts with the key of its entry. *)
Lemma catalogue_head e p c : (p, c) ∈ catalogue e -> exists k r, key e = Some k /\ p = k :: r.
Proof.
  destruct e as [n v|n es]; cbn [catalogue key].
  - destruct (endsWith JSON_EXT n); [|by intros ?%elem_of_nil]. rewrite list_elem_of_singleton. intros [= -> ->]. eauto.
  - intros ([p' c'] & [= -> ->] & _)%list_elem_of_fmap. eauto.
Qed.

Lemma files_head es p c : (p, c) ∈ files es -> exists k r, k ∈ omap key es /\ p = k :: r.
Proof.
  unfold files. rewrite list_elem_of_In, in_flat_map. intros (e & M & C). apply list_elem_of_In in C.
  destruct (catalogue_head _ _ _ C) as (k & r & K & ->). exists k, r. split; [|done]. apply list_elem_of_omap. exists e. split; [by apply list_elem_of_In|done].
Qed.

Lemma discover_catalogue e prefix : discover prefix e = map (fun pc => prefix ++ join [46] pc.1) (catalogue e).
Proof.
  revert prefix. induction e as [n c|n es IH] using entry_ind_nested; intros prefix; cbn [discover catalogue].
  - by destruct (endsWith JSON_EXT n).
  - induction IH as [|e es E _ IHs]; [done|]. cbn [flat_map]. rewrite !map_app. f_equal; [|done]. clear IHs.
    rewrite E, map_map. apply map_ext_in. intros [p c] M. cbn [fst]. apply list_elem_of_In, catalogue_head in M as (k & r & _ & ->).
    rewrite (join_cons [46] n) by done. by rewrite <- !app_assoc.
Qed.

(** The namespaces are the paths of the message files, written with dots. *)
Lemma discover_files es : discoverNamespaces es [] = map (fun pc => join [46] pc.1) (files es).
Proof.
  unfold discoverNamespaces, files. induction es as [|e es IH]; [done|]. cbn [flat_map]. by rewrite map_app, IH, discover_catalogue.
Qed.

Lemma wf_plain e p c : wf_entry e = true -> (p, c) ∈ catalogue e -> Forall (fun k => plain k = true) p.
Proof.
  revert p. induction e as [n v|n es IH] using entry_ind_nested; intros p; cbn [wf_entry catalogue].
  - destruct (endsWith JSON_EXT n); [|by intros _ ?%elem_of_nil]. rewrite list_elem_of_singleton. by intros W [= -> ->]; constructor.
  - rewrite !andb_true_iff. intros [[P _] W] ([p' c'] & [= -> ->] & M)%list_elem_of_fmap. constructor; [done|].
    apply list_elem_of_In, in_flat_map in M as (e & E & M). rewrite Forall_forall in IH. rewrite forallb_forall in W.
    eapply IH; [by apply list_elem_of_In|by apply W|by apply list_elem_of_In].
Qed.

Lemma wf_files_plain es p c : wf_dir es = true -> (p, c) ∈ files es -> p <> [] /\ Forall (fun k => plain k = true) p.
Proof.
  unfold wf_dir. rewrite andb_true_iff, forallb_forall. intros [_ W] M. split; [by apply files_head in M as (? & ? & _ & ->)|].
  apply list_elem_of_In, in_flat_map in M as (e & E & M). eapply wf_plain; [by apply W|by apply list_elem_of_In].
Qed.

(** *** Message files lie apart *)

Lemma pairs_app {A} (R : A -> A -> Prop) l1 l2 : ForallOrdPairs R l1 -> ForallOrdPairs R l2 -> (forall x y, x ∈ l1 -> y ∈ l2 -> R x y) ->
  ForallOrdPairs R (l1 ++ l2).
Proof.
  induction 1 as [|x l1 X _ IH]; intros P2 C; [done|]. cbn [app]. constructor.
  - apply Forall_app. split; [done|]. apply Forall_forall. intros y Y. apply C; [left|done].
  - apply IH; [done|]. intros; apply C; [by right|done].
Qed.

Lemma pairs_perm {A} (R : A -> A -> Prop) l1 l2 : (forall x y, R x y -> R y x) -> l1 ≡ₚ l2 -> ForallOrdPairs R l1 -> ForallOrdPairs R l2.
Proof.
  intros S. induction 1 as [|x l1 l2 P IH|x y l|l1 l2 l3 _ IH1 _ IH2]; auto.
  - inversion_clear 1. constructor; [by rewrite <- P|auto].
  - intros H. inversion_clear H as [|? ? X T]. inversion_clear T as [|? ? Y L]. apply Forall_cons in X as [XY X]. repeat constructor; auto.
Qed.

Lemma pairs_map {A B} (f : A -> B) (R : A -> A -> Prop) (S : B -> B -> Prop) l : (forall x y, R x y -> S (f x) (f y)) ->
  ForallOrdPairs R l -> ForallOrdPairs S (map f l).
Proof.
  intros H. induction 1 as [|x l X _ IH]; [constructor|]. cbn [map]. constructor; [|done]. apply Forall_map. eapply Forall_impl; [exact X|]. naive_solver.
Qed.

Lemma dir_apart es : NoDup (omap key es) -> Forall (fun e => ForallOrdPairs apart (map fst (catalogue e))) es -> ForallOrdPairs apart (map fst (files es)).
Proof.
  intros N F. induction F as [|e es E _ IH]; [constructor|]. unfold files. cbn [flat_map]. rewrite map_app.
  assert (NoDup (omap key es)) as N' by (cbn in N; destruct (key e); [by apply NoDup_cons in N as []|done]).
  apply pairs_app; [done|by apply IH|]. intros p q ([p' c] & -> & P)%list_elem_of_fmap ([q' d] & -> & Q)%list_elem_of_fmap. cbn [fst].
  apply catalogue_head in P as (k & r & K & ->). apply (files_head es) in Q as (k' & r' & K' & ->). left. intros ->.
  cbn in N. rewrite K in N. by apply NoDup_cons in N as [].
Qed.

Lemma wf_apart e : wf_entry e = true -> ForallOrdPairs apart (map fst (catalogue e)).
Proof.
  induction e as [n c|n es IH] using entry_ind_nested; cbn [wf_entry catalogue].
  - destruct (endsWith JSON_EXT n); repeat constructor.
  - rewrite !andb_true_iff. intros [[_ N] W]. apply bool_decide_eq_true in N. rewrite forallb_forall in W.
    rewrite map_map, <- (map_map (@fst (list jstr) json) (cons n)). apply (pairs_map _ apart); [by right|]. apply dir_apart; [done|].
    rewrite Forall_forall in IH |- *. intros e E. by apply IH, W, list_elem_of_In.
Qed.

Lemma wf_files_apart es : wf_dir es = true -> ForallOrdPairs apart (map fst (files es)).
Proof.
  unfold wf_dir. rewrite andb_true_iff, forallb_forall, bool_decide_eq_true. intros [N W]. apply dir_apart; [done|].
  apply Forall_forall. intros e E. by apply wf_apart, W, list_elem_of_In.
Qed.

(** *** Importing finds the message files *)

Lemma head_omap_unique {A B K} (f : A -> option B) (g : A -> option K) (k : K) (l : list A) (c : B) :
  (forall e, is_Some (f e) -> g e = Some k) -> NoDup (omap g l) -> head (omap f l) = Some c <-> exists e, e ∈ l /\ f e = Some c.
Proof.
  intros G N. split.
  - intros H. destruct (omap f l) as [|x t] eqn:E; [done|]. injection H as ->. apply list_elem_of_omap. rewrite E. left.
  - intros (e & M & F). induction l as [|a l IH]; [by apply elem_of_nil in M|]. cbn in *.
    destruct (f a) as [b|] eqn:Fa; cbn.
    + rewrite (G a) in N by eauto. apply NoDup_cons in N as [N _]. apply elem_of_cons in M as [->|M]; [congruence|].
      exfalso. apply N, list_elem_of_omap. exists e. split; [done|]. apply G. eauto.
    + apply elem_of_cons in M as [->|M]; [congruence|]. apply IH; [|done]. destruct (g a); [by apply NoDup_cons in N as []|done].
Qed.

Lemma file_named_spec n es c : NoDup (omap key es) -> file_named (n ++ JSON_EXT) es = Some c <-> File (n ++ JSON_EXT) c ∈ es.
Proof.
  intros N. unfold file_named. rewrite (head_omap_unique _ key n es c); [|intros [m v|m d] [x E]; [|done]|done].
  - split; [|intros M; exists (File (n ++ JSON_EXT) c); by rewrite streq_refl].
    intros ([m v|m d] & M & E); [|done]. destruct (streq m (n ++ JSON_EXT)) eqn:S; [|done]. apply streq_true in S as ->. by injection E as ->.
  - destruct (streq m (n ++ JSON_EXT)) eqn:S; [|done]. apply streq_true in S as ->. cbn [key]. by rewrite endsWith_app, stem_app.
Qed.

Lemma dir_named_spec n es d : NoDup (omap key es) -> dir_named n es = Some d <-> Dir n d ∈ es.
Proof.
  intros N. unfold dir_named. rewrite (head_omap_unique _ key n es d); [|intros [m v|m d'] [x E]; [done|]|done].
  - split; [|intros M; exists (Dir n d); by rewrite streq_refl].
    intros ([m v|m d'] & M & E); [done|]. destruct (streq m n) eqn:S; [|done]. apply streq_true in S as ->. by injection E as ->.
  - destruct (streq m n) eqn:S; [|done]. by apply streq_true in S as ->.
Qed.

Fixpoint with_ext (p : list jstr) : list jstr :=
  match p with [] => [] | [n] => [n ++ JSON_EXT] | n :: r => n :: with_ext r end.

Lemma files_file n es c : ([n], c) ∈ files es <-> File (n ++ JSON_EXT) c ∈ es.
Proof.
  unfold files. rewrite (list_elem_of_In _ ([n], c)), in_flat_map. split.
  - intros ([m v|m d] & M & C); apply list_elem_of_In in M, C; cbn [catalogue] in C.
    + destruct (endsWith JSON_EXT m) eqn:E; [|by apply elem_of_nil in C]. apply list_elem_of_singleton in C as [= -> ->]. by rewrite <- endsWith_stem.
    + apply list_elem_of_fmap in C as ([p v] & [= -> <- ->] & C). apply (files_head d) in C as (? & ? & _ & ?). done.
  - intros M. exists (File (n ++ JSON_EXT) c). split; [by apply list_elem_of_In|]. cbn [catalogue]. rewrite endsWith_app, stem_app. by left.
Qed.

Lemma files_dir n k p es c : (n :: k :: p, c) ∈ files es <-> exists d, Dir n d ∈ es /\ (k :: p, c) ∈ files d.
Proof.
  unfold files at 1. rewrite (list_elem_of_In _ (n :: k :: p, c)), in_flat_map. split.
  - intros ([m v|m d] & M & C); apply list_elem_of_In in M, C; cbn [catalogue] in C.
    + destruct (endsWith JSON_EXT m); [by apply list_elem_of_singleton in C|by apply elem_of_nil in C].
    + apply list_elem_of_fmap in C as ([p' v] & [= -> <- ->] & C). eauto.
  - intros (d & M & C). exists (Dir n d). split; [by apply list_elem_of_In|]. apply list_elem_of_In, list_elem_of_fmap. by exists (k :: p, c).
Qed.

Lemma wf_dir_inside n d es : wf_dir es = true -> Dir n d ∈ es -> wf_dir d = true.
Proof.
  unfold wf_dir. rewrite andb_true_iff, forallb_forall. intros [_ W] M. specialize (W _ (proj1 (list_elem_of_In _ _) M)). cbn [wf_entry] in W.
  rewrite !andb_true_iff in *. tauto.
Qed.

(** The import of a path reads the file catalogued under it. *)
Lemma read_files es p c : wf_dir es = true -> p <> [] -> read_file es (with_ext p) = Some c <-> (p, c) ∈ files es.
Proof.
  revert es. induction p as [|n p IH]; intros es W N; [done|]. pose proof W as D. unfold wf_dir in D. rewrite andb_true_iff, bool_decide_eq_true in D.
  destruct D as [D _]. destruct p as [|k p].
  - cbn [with_ext read_file]. by rewrite files_file, file_named_spec.
  - rewrite files_dir. change (with_ext (n :: k :: p)) with (n :: with_ext (k :: p)).
    assert (read_file es (n :: with_ext (k :: p)) = match dir_named n es with Some es' => read_file es' (with_ext (k :: p)) | None => None end) as ->
      by (cbn; by destruct p). split.
    + destruct (dir_named n es) as [d|] eqn:E; [|done]. apply dir_named_spec in E; [|done]. intros R. exists d. split; [done|].
      apply IH; [by eapply wf_dir_inside|done|done].
    + intros (d & M & F). rewrite (proj2 (dir_named_spec n es d D) M). apply IH; [by eapply wf_dir_inside|done|done].
Qed.

Lemma join_with_ext p : p <> [] -> join [47] p ++ JSON_EXT = join [47] (with_ext p).
Proof.
  induction p as [|n p IH]; [done|]. intros _. destruct p as [|k p]; [done|]. rewrite join_cons by done.
  change (with_ext (n :: k :: p)) with (n :: with_ext (k :: p)). rewrite (join_cons _ n) by (by destruct p). rewrite <- !app_assoc. by rewrite <- IH.
Qed.

Lemma with_ext_plain p : p <> [] -> Forall (fun k => plain k = true) p -> with_ext p <> [] /\ Forall (fun w => w <> [] /\ 47 ∉ w) (with_ext p).
Proof.
  induction p as [|n p IH]; intros N F; [done|]. apply Forall_cons in F as [P F]. apply plain_spec in P as (P1 & _ & P2 & _).
  destruct p as [|k p].
  - split; [done|]. cbn. constructor; [|done]. split; [by destruct n|]. rewrite elem_of_app. intros [?|X]; [done|].
    apply (bool_decide_eq_true (47 ∈ JSON_EXT)) in X. by vm_compute in X.
  - change (with_ext (n :: k :: p)) with (n :: with_ext (k :: p)). split; [done|]. constructor; [done|]. by apply IH.
Qed.

Lemma import_path p : p <> [] -> Forall (fun k => plain k = true) p -> filter_truthy (split_char 47 (join [47] p ++ JSON_EXT)) = with_ext p.
Proof.
  intros N F. destruct (with_ext_plain p N F) as [X Y]. rewrite join_with_ext by done. rewrite split_char_join; [|done|eapply Forall_impl; [exact Y|by intros ? []]].
  clear X. induction Y as [|w l [W _] _ IH]; [done|]. unfold filter_truthy in *. cbn [List.filter]. destruct w; [done|]. cbn. by rewrite IH.
Qed.

Lemma split_namespace p : p <> [] -> Forall (fun k => plain k = true) p -> split_char 46 (join [46] p) = p.
Proof. intros N F. apply split_char_join; [done|]. eapply Forall_impl; [exact F|]. intros k P. by apply plain_spec in P as (_ & ? & _). Qed.

(** ** The messages of a request *)
Section Load.
  Context (exotic : json -> list jstr -> json -> result json) (fs : filesystem) (locale : jstr) (W : wf_dir (fs locale) = true).

Lemma import_spec p : p <> [] -> Forall (fun k => plain k = true) p ->
  match import_messages fs locale p with Ret c => (p, c) ∈ files (fs locale) | Throw _ => forall c, (p, c) ∉ files (fs locale) end.
Proof.
  intros N F. unfold import_messages. rewrite import_path by done. destruct (read_file (fs locale) (with_ext p)) as [c|] eqn:E.
  - by apply read_files.
  - intros c M. apply read_files in M; [|done|done]. congruence.
Qed.

Lemma load_spec ps m : Forall (fun p => p <> [] /\ Forall (fun k => plain k = true) p /\ open_at p m) ps -> ForallOrdPairs apart ps ->
  match load exotic fs locale (map (join [46]) ps) m with
  | Ret m' => (forall p, p ∈ ps -> exists c, (p, c) ∈ files (fs locale) /\ get_path p m' = Some c)
      /\ forall q, Forall (fun p => apart p q) ps -> get_path q m' = get_path q m
  | Throw _ => exists p, p ∈ ps /\ forall c, (p, c) ∉ files (fs locale)
  end.
Proof.
  intros G A. revert m G. induction A as [|p ps P A IH]; intros m G; [by split; [intros ? ?%elem_of_nil|]|].
  apply Forall_cons in G as ((N & F & O) & G). cbn [map load]. rewrite split_namespace by done.
  pose proof (import_spec p N F) as I. destruct (import_messages fs locale p) as [c|e]; cbn; [|exists p; split; [left|done]].
  destruct (insert_open exotic p c m) as (m1 & -> & Gp & Q); [done| |done|].
  { eapply Forall_impl; [exact F|]. intros k K. by apply plain_spec in K as (_ & _ & _ & ?). }
  cbn. specialize (IH m1). destruct (load exotic fs locale (map (join [46]) ps) m1) as [m'|e].
  - destruct IH as [I1 I2].
    { rewrite Forall_forall in G, P |- *. intros q Mq. destruct (G q Mq) as (? & ? & ?). split_and!; [done|done|]. by apply Q; [apply P|]. }
    split.
    + intros q [->|Mq]%elem_of_cons; [|by apply I1]. exists c. split; [done|]. rewrite I2; [done|]. eapply Forall_impl; [exact P|]. intros ? ?. by apply apart_sym.
    + intros q [Aq Fq]%Forall_cons. rewrite I2 by done. by apply Q.
  - destruct IH as (q & Mq & X); [|exists q; split; [by right|done]].
    rewrite Forall_forall in G, P |- *. intros q Mq. destruct (G q Mq) as (? & ? & ?). split_and!; [done|done|]. by apply Q; [apply P|].
Qed.

End Load.

Lemma namespaces_paths fs : exists ps, namespaces fs = map (join [46]) ps /\ ps ≡ₚ map fst (files (fs (js "en"))).
Proof.
  unfold namespaces. assert (sort_strings (discoverNamespaces (fs (js "en")) []) ≡ₚ map (join [46]) (map fst (files (fs (js "en"))))) as P.
  { rewrite sort_strings_perm, discover_files. by rewrite map_map. }
  apply Permutation_map_inv in P as (ps & E & P). exists ps. by split.
Qed.

Lemma chosen_supported l : chosen l ∈ locales.
Proof.
  unfold chosen. assert (defaultLocale ∈ locales) by left. destruct l as [l|]; [|done]. destruct (str_empty l || negb (array_includes locales l)) eqn:E; [done|].
  apply orb_false_iff in E as [_ E]. apply negb_false_iff in E. by apply array_includes_spec.
Qed.

(** C38: A request is answered in a supported locale, and its messages hold,
    at the path of every message file of the default locale, the content of the
    chosen locale's file of that path, and nothing at paths that part from all
    of them; loading fails only when the chosen locale lacks one of those files.
    The directories are those of well-formed catalogues ([wf_dir]: plain names,
    and no file beside a directory of its name). *)
Theorem catalogues_complete exotic fs requestLocale :
  let locale := chosen requestLocale in
  wf_dir (fs defaultLocale) = true -> wf_dir (fs locale) = true ->
  locale ∈ locales /\
  match getRequestConfig exotic fs requestLocale with
  | Ret (l, messages) =>
      l = locale
      /\ (forall p c, (p, c) ∈ files (fs defaultLocale) -> exists d, (p, d) ∈ files (fs locale) /\ get_path p messages = Some d)
      /\ (forall q, q <> [] -> (forall p c, (p, c) ∈ files (fs defaultLocale) -> apart p q) -> get_path q messages = None)
  | Throw _ => locale <> defaultLocale /\ exists p c, (p, c) ∈ files (fs defaultLocale) /\ forall d, (p, d) ∉ files (fs locale)
  end.
Proof.
  intros locale W0 W. split; [apply chosen_supported|]. unfold getRequestConfig. fold locale.
  destruct (namespaces_paths fs) as (ps & -> & P). change (js "en") with defaultLocale in P.
  assert (forall p, p ∈ ps <-> exists c, (p, c) ∈ files (fs defaultLocale)) as E.
  { intros p. rewrite P, list_elem_of_fmap. split; [intros ([? c] & -> & ?); eauto|intros [c M]; by exists (p, c)]. }
  pose proof (load_spec exotic fs locale W ps (JObj [])) as L. destruct (load exotic fs locale (map (join [46]) ps) (JObj [])) as [messages|e]; cbn.
  - destruct L as [L1 L2].
    { apply Forall_forall. intros p [c M]%E. destruct (wf_files_plain _ _ _ W0 M). split_and!; [done|done|apply open_empty]. }
    { eapply pairs_perm; [apply apart_sym|symmetry; exact P|by apply wf_files_apart]. }
    split_and!; [done|intros p c M; apply L1, E; eauto|]. intros q N A. rewrite L2; [by destruct q|]. apply Forall_forall. intros p [c M]%E. by eapply A.
  - destruct L as (p & [c M]%E & X).
    { apply Forall_forall. intros p [c M]%E. destruct (wf_files_plain _ _ _ W0 M). split_and!; [done|done|apply open_empty]. }
    { eapply pairs_perm; [apply apart_sym|symmetry; exact P|by apply wf_files_apart]. }
    split; [|by exists p, c]. intros D. rewrite D in X. by apply (X c).
Qed.

Definition sample_fs : filesystem := fun l =>
  [File (js "common.json") (JObj [(js "save", JStr (l ++ js ":save"))]); File (js "README.md") JNull;
   Dir (js "errors") [File (js "auth.json") (JObj [(js "expired", JStr (l ++ js ":expired"))])]].

Lemma catalogues_complete_witness :
  match getRequestConfig (fun c _ _ => Ret c) sample_fs (Some (js "zh")) with
  | Ret (l, messages) => l = js "zh" /\ get_path [js "errors"; js "auth"; js "expired"] messages = Some (JStr (js "zh:expired"))
      /\ exists d, get_path [js "errors"; js "auth"] messages = Some d
  | Throw _ => False
  end.
Proof.
  pose proof (catalogues_complete (fun c _ _ => Ret c) sample_fs (Some (js "zh")) eq_refl eq_refl) as [_ H].
  destruct (getRequestConfig (fun c _ _ => Ret c) sample_fs (Some (js "zh"))) as [[l messages]|e] eqn:G; [|vm_compute in G; discriminate G].
  destruct H as (L & H & _). split_and!; [exact L|vm_compute in G; by injection G as <- <-|].
  destruct (H [js "errors"; js "auth"] (JObj [(js "expired", JStr (js "en:expired"))])) as (d & _ & D); [vm_compute; right; left|by exists d].
Defined.
