(* ===== verification/TableViews.v ===== *)
(** * The tables of the Control Panel, as they are shown

    Columns, cells, buttons and confirmation dialogs of the tables in
    [web/src/app/[locale]/(dashboard)]: what a row shows, what each of its
    buttons does, and that the two agree. *)

From S2P Require Import Prelude JsNumber Money JsString Json JsonPretty AdminRuntime FormActions ConfigActions TenantActions Format Urls AdminPages SearchPages AdminForms AccessForms AdminTables AdminDialogs.

(** ** What a table shows *)
Module View.

(** A piece of text in a cell, with the class or badge variant the code chooses. *)
Inductive piece : Type :=
  | Plain (s : jstr)
  | Muted (s : jstr)
  | Styled (style s : jstr)
  | Linked (href : result jstr) (s : jstr).

Definition cell : Type := list piece.

Section Rows.
  Context {Row : Type}.

(** What a click does: open the confirmation of a row action, act on the row
    at once, or hand the row to the page. *)
Inductive click : Type :=
  | Asks (a : RowActions.action) (row : Row)
  | Enables (row : Row)
  | Tests (name : jstr)
  | Views (row : Row)
  | Edits (row : Row).

Record button : Type := { label : jstr; disabled : bool; clicked : click }.

Record view : Type := { headings : list jstr; tbody : jstr + list (list cell * list button); next_page : option jstr }.

(** The heading row; the text of an empty table or the rows; the button for
    the next page. *)
Definition render (columns : list (jstr * (Row -> cell))) (buttons : Row -> list button) (empty next nextCursor : jstr) (rows : list Row) : view :=
  {| headings := map fst columns;
     tbody := match rows with [] => inl empty | _ => inr (map (fun row => (map (fun c => c.2 row) columns, buttons row)) rows) end;
     next_page := if str_empty nextCursor then None else Some next |}.

End Rows.
Arguments click : clear implicits.
Arguments button : clear implicits.
Arguments view : clear implicits.

(** A column without a [cell]: the value's text, nothing for a missing one. *)
Definition accessor (k : string) (row : json) : cell := [Plain (RowActions.row_text (Some row) (js k))].

(** [row.k] *)
Definition value (row : json) (k : string) : unknown := opt_prop (Some row) (js k).

(** [{v}] for a string or a number, the kinds the columns have; nothing for
    [undefined] and [null]. *)
Definition child (v : unknown) : jstr := match v with Some (JStr s) => s | Some (JNum n) => num_to_string n | _ => [] end.

Definition is_nullish (v : unknown) : bool := match v with None | Some JNull => true | _ => false end.

(** [String(v ?? d)] and [String(v || d)] *)
Definition or_null (v : unknown) (d : jstr) : jstr := to_string (nullish v (JStr d)).
Definition or_falsy (v : unknown) (d : jstr) : jstr := match v with Some x => if truthy v then to_string x else d | None => d end.

(** The confirmation dialog of a table. *)
Record dialog : Type := {
  title : jstr; message : jstr; confirmLabel : option jstr; loadingLabel : option jstr; busy : bool; problem : option jstr;
}.

Definition confirm_dialog (title_ label_ : jstr) (message_ : unknown -> jstr) (st : RowActions.row_state) : option dialog :=
  match Confirmed.target st with
  | Some row => Some {| title := title_; message := message_ row; confirmLabel := Some label_; loadingLabel := None;
                        busy := Confirmed.loading st; problem := Confirmed.failure st |}
  | None => None
  end.

(** [ConfirmModal]: the buttons with their disabled state, cancel first, and
    the error shown. *)
Definition ConfirmModal (tCommon : jstr -> jstr) (d : dialog) : list (jstr * bool) * option jstr :=
  ([(tCommon (js "actions.cancel"), false);
    (if busy d then default (tCommon (js "actions.deleting")) (loadingLabel d) else default (tCommon (js "actions.delete")) (confirmLabel d), busy d)],
   match problem d with Some (c :: e) => Some (c :: e) | _ => None end).

End View.
Import View.

(** ** Tenants, groups and applications *)
Module Toggles.
Section Toggles.
  (** The translations of the table's namespace, of [common], and of a message
      with arguments. *)
  Context (t tCommon : jstr -> jstr) (tp : jstr -> list (jstr * jstr) -> jstr).

(** The status column the three tables share. *)
Definition status_cell (row : json) : cell :=
  if truthy (value row "enabled") then [Styled (js "text-foreground") (t (js "status.enabled"))]
  else [Styled (js "text-destructive") (t (js "status.disabled"))].

Definition columns_tenants : list (jstr * (json -> cell)) :=
  [(t (js "columns.id"), accessor "id"); (t (js "columns.name"), accessor "name"); (t (js "columns.status"), status_cell)].

Definition columns_groups : list (jstr * (json -> cell)) :=
  [(t (js "columns.id"), accessor "id"); (t (js "columns.name"), accessor "name"); (t (js "columns.status"), status_cell)].

Definition columns_applications : list (jstr * (json -> cell)) :=
  [(t (js "columns.id"), accessor "id"); (t (js "columns.name"), accessor "name");
   (t (js "columns.ownerGroup"), accessor "owner_group_name"); (t (js "columns.status"), status_cell)].

Definition row_name (row : json) : jstr := RowActions.row_text (Some row) (js "name").

(** The toggle of a row, given the confirmed action that disables it. *)
Definition toggle_button (disable : RowActions.action) (enablingName : option jstr) (row : json) : button json :=
  if truthy (value row "enabled") then {| label := t (js "actions.disable"); disabled := false; clicked := Asks disable row |}
  else {| label := t (js "actions.enable"); disabled := bool_decide (enablingName = Some (row_name row)); clicked := Enables row |}.

Definition delete_button (a : RowActions.action) (row : json) : button json :=
  {| label := tCommon (js "actions.delete"); disabled := false; clicked := Asks a row |}.

Definition buttons_tenants (enablingName : option jstr) (row : json) : list (button json) :=
  [toggle_button RowActions.DisableTenant enablingName row].
Definition buttons_groups (enablingName : option jstr) (row : json) : list (button json) :=
  [toggle_button RowActions.DisableGroup enablingName row; delete_button RowActions.DeleteGroup row].
Definition buttons_applications (enablingName : option jstr) (row : json) : list (button json) :=
  [toggle_button RowActions.DisableApplication enablingName row; delete_button RowActions.DeleteApplication row].

Definition TenantsTable (enablingName : option jstr) (nextCursor : jstr) (rows : list json) : view json :=
  render columns_tenants (buttons_tenants enablingName) (t (js "actions.emptyState")) (tCommon (js "actions.nextPage")) nextCursor rows.
Definition GroupsTable (enablingName : option jstr) (nextCursor : jstr) (rows : list json) : view json :=
  render columns_groups (buttons_groups enablingName) (t (js "actions.emptyState")) (tCommon (js "actions.nextPage")) nextCursor rows.
Definition ApplicationsTable (enablingName : option jstr) (nextCursor : jstr) (rows : list json) : view json :=
  render columns_applications (buttons_applications enablingName) (t (js "actions.emptyState")) (tCommon (js "actions.nextPage")) nextCursor rows.

Definition named (key : string) (row : unknown) : jstr := tp (js key) [(js "name", RowActions.row_text row (js "name"))].

Definition disable_dialog_tenants : RowActions.row_state -> option dialog :=
  confirm_dialog (t (js "modal.disableTitle")) (t (js "actions.disable")) (named "actions.disableConfirm").
Definition disable_dialog_groups : RowActions.row_state -> option dialog :=
  confirm_dialog (t (js "modal.disableTitle")) (t (js "actions.disable")) (named "actions.disableConfirm").
Definition delete_dialog_groups : RowActions.row_state -> option dialog :=
  confirm_dialog (tCommon (js "modal.confirmDelete")) (tCommon (js "actions.delete")) (named "actions.deleteConfirm").
Definition disable_dialog_applications : RowActions.row_state -> option dialog :=
  confirm_dialog (t (js "modal.disableTitle")) (t (js "actions.disable")) (named "actions.disableConfirm").
Definition delete_dialog_applications : RowActions.row_state -> option dialog :=
  confirm_dialog (tCommon (js "modal.confirmDelete")) (tCommon (js "actions.delete")) (named "actions.deleteConfirm").

(** While a tenant, group or application is being disabled, the button of the
    dialog reads "deleting": none of the dialogs passes a label for that time. *)
Theorem disabling_reads_deleting row (st : RowActions.row_state) : Confirmed.target st = Some row ->
  let st' := Confirmed.confirm st in
  Forall (fun dialog_of => (fun d => nth 1 (ConfirmModal tCommon d).1 ([], false)) <$> dialog_of st' = Some (tCommon (js "actions.deleting"), true))
    [disable_dialog_tenants; disable_dialog_groups; disable_dialog_applications].
Proof. intros T. unfold Confirmed.confirm. rewrite T. by repeat constructor. Qed.

End Toggles.

(** *** Enabling

    [enablingName] disables the button of the row whose request is under way;
    [requested] and [answers] record the requests and the replies. *)
Record enabling : Type := { enablingName : option jstr; requested : list jstr; answers : nat; refreshed : nat }.

Definition resting : enabling := {| enablingName := None; requested := []; answers := 0; refreshed := 0 |}.

Inductive event : Type :=
  | Enable (row : json)
  | Answer.

(** [enable] up to its [await], and the rest of it. *)
Definition enable (row : json) (st : enabling) : enabling :=
  {| enablingName := Some (row_name row); requested := requested st ++ [row_name row]; answers := answers st; refreshed := refreshed st |}.
Definition enabled_reply (st : enabling) : enabling :=
  {| enablingName := None; requested := requested st; answers := S (answers st); refreshed := S (refreshed st) |}.

Definition handle (st : enabling) (e : event) : enabling :=
  match e with
  | Enable row => if bool_decide (enablingName st = Some (row_name row)) then st else enable row st
  | Answer => if (answers st <? length (requested st))%nat then enabled_reply st else st
  end.

(** *** The button and the status *)

Inductive resource : Type := Tenant | Group | Application.

Definition disables (r : resource) : RowActions.action :=
  match r with Tenant => RowActions.DisableTenant | Group => RowActions.DisableGroup | Application => RowActions.DisableApplication end.

Definition buttons (t tCommon : jstr -> jstr) (r : resource) : option jstr -> json -> list (button json) :=
  match r with Tenant => buttons_tenants t | Group => buttons_groups t tCommon | Application => buttons_applications t tCommon end.

Definition table_path (r : resource) : jstr :=
  match r with Tenant => js "/api/v1/tenants/{name}" | Group => js "/api/v1/groups/{name}" | Application => js "/api/v1/applications/{name}" end.

Section Press.
  Context {St Bk : Type} `{IronSession St} `{AdminApi Bk}.

(** A click on the toggle, and on the dialog's confirm button when it opens one. *)
Definition press (r : resource) (b : button json) : M St Bk unit :=
  match clicked b with
  | Asks a row => _ ← RowActions.confirmed a (Confirmed.ask true (Some row) Confirmed.idle); mret tt
  | Enables row => match r with
                   | Tenant => RowActions.enable_tenant (Some row)
                   | Group => RowActions.enable_group (Some row)
                   | Application => RowActions.enable_application (Some row)
                   end
  | _ => mret tt
  end.

(** The request that sets the status of a row. *)
Definition sets_enabled (r : resource) (row : json) (on : bool) : http_method * jstr * api_opts :=
  (PATCH, table_path r, path_body (js "name") (JStr (row_name row)) (JObj [(js "enabled", JBool on)])).

Lemma enable_sends c r row w b : clicked b = Enables row -> serverAdminClient w = (Ret c, w) ->
  exists ps, w_log (press r b w).2 = w_log w ++ Sent c PATCH (table_path r) (sets_enabled r row true).2 :: map Revalidated ps.
Proof.
  intros E C. assert (exists act, press r b = (_ ← act; mret tt) /\ RowActions.sends c (sets_enabled r row true) act) as (act & -> & S).
  { unfold press. rewrite E. destruct r; eexists; (split; [reflexivity|apply RowActions.sends_submit]). }
  destruct (S w C) as [ps L]. exists ps. unfold mbind, M_bind. by destruct (act w) as [[?|?] w'].
Qed.

Lemma disable_sends c r row w b : clicked b = Asks (disables r) row -> serverAdminClient w = (Ret c, w) ->
  exists ps, w_log (press r b w).2 = w_log w ++ Sent c PATCH (table_path r) (sets_enabled r row false).2 :: map Revalidated ps.
Proof.
  intros E C. destruct (RowActions.confirmed_sends c (disables r) (Some row)) as (act & A & S).
  assert (RowActions.action_request (disables r) (Some row) = sets_enabled r row false) as AR
    by (unfold sets_enabled, row_name, path_body; destruct r; cbv beta iota zeta delta [RowActions.action_request disables table_path]; reflexivity).
  rewrite AR in S. clear AR. destruct (S w C) as [ps L]. exists ps.
  unfold press. rewrite E, A. unfold RowActions.confirming, mbind, M_bind. cbn [Confirmed.target Confirmed.ask].
  destruct (act (Some row) w) as [[?|?] w']; exact L.
Qed.

(** C25: In the tenant, group and application tables the first button of a row
    asks for the opposite of the status its row shows, for the resource of that
    row: a row shown as enabled offers "disable", which opens the confirmation
    and, confirmed, sends [enabled: false]; any other row offers "enable", which
    sends [enabled: true]; one request each, whatever the back end answers. *)
Theorem toggle_opposes_status t tCommon r en row w c : serverAdminClient w = (Ret c, w) ->
  let on := truthy (value row "enabled") in
  exists b rest, buttons t tCommon r en row = b :: rest /\
    status_cell t row = [Styled (js (if on then "text-foreground" else "text-destructive")) (t (js (if on then "status.enabled" else "status.disabled")))] /\
    label b = t (js (if on then "actions.disable" else "actions.enable")) /\
    clicked b = (if on then Asks (disables r) row else Enables row) /\
    exists ps, w_log (press r b w).2 =
      w_log w ++ Sent c PATCH (table_path r) (path_body (js "name") (JStr (row_name row)) (JObj [(js "enabled", JBool (negb on))])) :: map Revalidated ps.
Proof.
  intros C on. assert (exists rest, buttons t tCommon r en row = toggle_button t (disables r) en row :: rest) as [rest B] by (destruct r; eexists; reflexivity).
  exists (toggle_button t (disables r) en row), rest. unfold status_cell, toggle_button. fold on. split; [unfold toggle_button in B; exact B|].
  destruct on; (split_and!; [done..|]); [by apply disable_sends|by apply enable_sends].
Qed.

End Press.

(** A second row enabled while the first is under way: the reply to the first
    makes the second row's button available again, and it sends a second time. *)
Theorem enable_guard_lost a b : row_name a <> row_name b ->
  let st := fold_left handle [Enable a; Enable b; Answer; Enable b] resting in
  requested st = [row_name a; row_name b; row_name b] /\ answers st = 1%nat.
Proof.
  intros N. set (x := row_name a) in *. set (y := row_name b) in *.
  unfold resting. cbn [fold_left handle enable enabled_reply enablingName requested answers app length Nat.ltb Nat.leb]. fold x y.
  rewrite (bool_decide_eq_false_2 (None = Some x)) by done. cbn [enable enablingName]. fold x.
  rewrite (bool_decide_eq_false_2 (Some x = Some y)) by congruence. cbn. by rewrite (bool_decide_eq_false_2 (None = Some (row_name b))).
Qed.

(** One row at a time: while the request of a row is under way, clicking its
    button again sends nothing. *)
Lemma enable_once a n : requested (fold_left handle (replicate (S n) (Enable a)) resting) = [row_name a].
Proof.
  assert (forall st, enablingName st = Some (row_name a) -> fold_left handle (replicate n (Enable a)) st = st) as I.
  { induction n as [|n IH]; intros st E; [done|]. cbn [replicate fold_left handle]. rewrite E, bool_decide_eq_true_2 by done. by apply IH. }
  cbn [replicate fold_left handle]. by rewrite I.
Qed.

End Toggles.

(** ** Providers *)
Module ProvidersTable.
Section Providers.
  Context (tP tCommon tErr : jstr -> jstr) (tp : jstr -> list (jstr * jstr) -> jstr).

(** The badge of an endpoint, as the column's [cell] would show it. *)
Definition adapter_badge (ep : json) : piece :=
  let v := or_null (value ep "adapter") [] in
  Styled (js (if streq v "claude" then "warning" else "info"))
    (if streq v "claude" then js "Anthropic" else if streq v "openai" then js "OpenAI" else v).

Definition endpoints_cell (row : json) : cell :=
  match value row "endpoints" with
  | Some (JArr (ep :: eps)) => map adapter_badge (ep :: eps)
  | _ => [Muted (js "—")]
  end.

(** Accessor and heading of each column; the rows print
    [String(cell.getValue() ?? "")], so that the [cell] of the adapter column
    is never called. *)
Definition columns : list (jstr * (json -> cell)) :=
  map (fun c => (tP (js c.1), fun row => [Plain (Cells.provider_cell (js <$> c.2) row)]))
    [("columns.name", Some "name"); ("columns.type", Some "type"); ("columns.adapter", None); ("columns.baseUrl", Some "base_url")]%string.

Definition buttons (testingName : option jstr) (row : json) : list (button json) :=
  let name := RowActions.row_text (Some row) (js "name") in
  let testing := bool_decide (testingName = Some name) in
  [{| label := tP (js (if testing then "test.testing" else "test.actionShort")); disabled := testing; clicked := Tests name |};
   {| label := tCommon (js "actions.edit"); disabled := false; clicked := Edits row |};
   {| label := tCommon (js "actions.delete"); disabled := false; clicked := Asks RowActions.DeleteProvider row |}].

Definition ProvidersTable (testingName : option jstr) (nextCursor : jstr) (rows : list json) : view json :=
  render columns (buttons testingName) (tP (js "actions.emptyState")) (tCommon (js "actions.nextPage")) nextCursor rows.

Definition delete_dialog : RowActions.row_state -> option dialog :=
  confirm_dialog (tCommon (js "modal.confirmDelete")) (tCommon (js "actions.delete"))
    (fun row => tp (js "actions.deleteConfirm") [(js "name", RowActions.row_text row (js "name"))]).

(** *** The connectivity test *)

Inductive toast : Type :=
  | Success (m : jstr)
  | Failure (m : jstr).

(** The toast of an outcome. *)
Definition test_toast (o : ProviderTestOutcome) : toast :=
  match o with
  | TestOk latency _ => Success (tp (js "test.success") [(js "latency", child latency)])
  | TestFailed e k => Failure (tp (js "test.failed") [(js "error", match k with Some k => if str_empty k then e else tErr k | None => e end)])
  end.

Context {St Bk : Type} `{IronSession St} `{AdminApi Bk}.

(** [runTest]: the toast shown, or the exception that leaves [testingName]
    set. *)
Definition runTest (name : jstr) : M St Bk toast := o ← testProvider name; mret (test_toast o).

(** A success is announced exactly when the gateway answered and reports that
    the provider was reached. *)
Lemma test_announced name w c r b' : serverAdminClient w = (Ret c, w) ->
  api_call c POST (js "/api/v1/providers/{name}/test") (with_path (js "name") (JStr name)) (w_backend w) = (Ret r, b') ->
  exists o, (runTest name w).1 = Ret (test_toast o) /\
    ((exists m, test_toast o = Success m) <-> failed r = false /\ truthy (opt_prop (data r) "ok") = true).
Proof.
  intros C A. exists (if failed r then testHttpFailure (error r) else toOutcome (data r)). split.
  - unfold runTest, testProvider, try_catch, mbind, M_bind, api. by rewrite C, A.
  - destruct (failed r); [split; [by intros [? ?]|by intros []]|]. unfold toOutcome.
    destruct (truthy (opt_prop (data r) "ok")); split; try done; [by eauto|by intros [? ?]|by intros []].
Qed.

End Providers.
End ProvidersTable.

(** ** Routes *)
Module RoutesTable.
Section Routes.
  Context (tR tCommon : jstr -> jstr) (tp : jstr -> list (jstr * jstr) -> jstr).

(** [t(`strategy.${s}`)] *)
Definition strategy_text (s : jstr) : jstr := tR (js "strategy." ++ s).

Definition strategy_cell (row : RouteForm.RouteRow) : cell :=
  match RouteForm.strategy row with
  | Some (c :: s) => [Plain (strategy_text (c :: s))]
  | _ => [Muted (js "-")]
  end.

(** A provider and its weight, which the table and the detail dialog
    introduce differently. *)
Definition provider_text (sep : string) (p : RouteProvider) : jstr :=
  rp_name p ++ match rp_weight p with Some w => js sep ++ num_to_string w | None => [] end.

Definition providers_cell (row : RouteForm.RouteRow) : cell :=
  match default [] (RouteForm.providers row) with
  | [] => [Muted (tR (js "actions.noProviders"))]
  | ps => map (fun p => Plain (provider_text " ·" p)) ps
  end.

Definition columns : list (jstr * (RouteForm.RouteRow -> cell)) :=
  [(tR (js "columns.modelAlias"), fun row => [Plain (RouteForm.model_alias row)]);
   (tR (js "columns.strategy"), strategy_cell); (tR (js "columns.providers"), providers_cell)].

Definition buttons (row : RouteForm.RouteRow) : list (button RouteForm.RouteRow) :=
  [{| label := tR (js "actions.view"); disabled := false; clicked := Views row |};
   {| label := tCommon (js "actions.edit"); disabled := false; clicked := Edits row |};
   {| label := tCommon (js "actions.delete"); disabled := false; clicked := Asks RowActions.DeleteRoute row |}].

Definition RoutesTable (nextCursor : jstr) (rows : list RouteForm.RouteRow) : view RouteForm.RouteRow :=
  render columns buttons (tR (js "actions.emptyState")) (tCommon (js "actions.nextPage")) nextCursor rows.

Definition delete_dialog : RowActions.row_state -> option dialog :=
  confirm_dialog (tCommon (js "modal.confirmDelete")) (tCommon (js "actions.delete"))
    (fun row => tp (js "actions.deleteConfirm") [(js "modelAlias", RowActions.row_text row (js "model_alias"))]).

(** The fields of the detail dialog, label and text. *)
Definition detail (row : RouteForm.RouteRow) : list (jstr * cell) :=
  [(tR (js "columns.modelAlias"), [Plain (RouteForm.model_alias row)]);
   (tR (js "columns.strategy"), [Plain match RouteForm.strategy row with Some (c :: s) => strategy_text (c :: s) | _ => js "-" end]);
   (tR (js "columns.providers"), match default [] (RouteForm.providers row) with
                                 | [] => [Muted (tR (js "actions.noProviders"))]
                                 | ps => map (fun p => Plain (provider_text " · weight: " p)) ps
                                 end)].

(** Above the table: the create button when there are models, otherwise a
    notice with the way to the models page. *)
Definition page_head {A} (models : list A) : option jstr * option (jstr * jstr * jstr) :=
  if nonempty models then (Some (tR (js "actions.create")), None)
  else (None, Some (tR (js "actions.noModels"), tR (js "actions.goToModels"), js "/models")).

End Routes.
End RoutesTable.

(** ** Plugins *)
Module PluginsTable.
Section Plugins.
  Context (tP tCommon : jstr -> jstr) (tp : jstr -> list (jstr * jstr) -> jstr).

Definition given (v : option jstr) : option jstr := match v with Some (c :: s) => Some (c :: s) | _ => None end.

Definition phase_text (v : jstr) : jstr := if streq v "pre" then tP (js "phase.pre") else tP (js "phase.post").

Definition columns : list (jstr * (PluginForm.PluginRow -> cell)) :=
  [(tP (js "columns.name"), fun r => [Plain (PluginForm.pl_name r)]);
   (tP (js "columns.phase"), fun r => match given (PluginForm.pl_phase r) with Some v => [Plain (phase_text v)] | None => [Muted (js "—")] end);
   (tP (js "columns.enabled"), fun r => if default false (PluginForm.pl_enabled r) then [Styled (js "success") (js "Yes")] else [Styled (js "secondary") (js "No")]);
   (tP (js "columns.scope"), fun r => match given (PluginForm.pl_scope r) with Some v => [Plain v] | None => [Muted (js "global")] end)].

Definition buttons (row : PluginForm.PluginRow) : list (button PluginForm.PluginRow) :=
  [{| label := tP (js "actions.view"); disabled := false; clicked := Views row |};
   {| label := tCommon (js "actions.edit"); disabled := false; clicked := Edits row |};
   {| label := tCommon (js "actions.delete"); disabled := false; clicked := Asks RowActions.DeletePlugin row |}].

Definition PluginsTable (nextCursor : jstr) (rows : list PluginForm.PluginRow) : view PluginForm.PluginRow :=
  render columns buttons (tP (js "actions.emptyState")) (tCommon (js "actions.nextPage")) nextCursor rows.

Definition delete_dialog : RowActions.row_state -> option dialog :=
  confirm_dialog (tCommon (js "modal.confirmDelete")) (tCommon (js "actions.delete"))
    (fun row => tp (js "actions.deleteConfirm") [(js "name", RowActions.row_text row (js "name"))]).

(** The detail dialog, label and text of each field. *)
Definition detail (r : PluginForm.PluginRow) : list (jstr * jstr) :=
  [(tP (js "columns.name"), PluginForm.pl_name r);
   (tP (js "columns.phase"), match given (PluginForm.pl_phase r) with Some v => phase_text v | None => js "—" end);
   (tP (js "columns.enabled"), if default false (PluginForm.pl_enabled r) then js "Yes" else js "No");
   (tP (js "columns.scope"), default (js "global") (given (PluginForm.pl_scope r)));
   (js "Params", stringify_pretty 0 (JObj (default [] (PluginForm.pl_params r))))].

(** The text of a cell. *)
Definition cell_text (c : cell) : jstr :=
  concat (map (fun p => match p with Plain s | Muted s | Styled _ s | Linked _ s => s end) c).

(** The dialog repeats the row and adds the parameters, which can be read back;
    opened for editing, the same text is in the editor unless the plugin has no
    parameters. *)
Theorem plugin_detail_faithful r : wf_json (JObj (default [] (PluginForm.pl_params r))) ->
  map fst (take 4 (detail r)) = headings (PluginsTable [] [r]) /\
  map snd (take 4 (detail r)) = map (fun c => cell_text (c.2 r)) columns /\
  exists params, nth 4 (detail r) ([], []) = (js "Params", params) /\ json_parse params = Ret (JObj (default [] (PluginForm.pl_params r))) /\
    PluginForm.paramsText (PluginForm.opened (Some r)) = match PluginForm.pl_params r with Some _ => params | None => [] end.
Proof.
  intros W. split; [done|]. split.
  - unfold detail, columns, cell_text. cbn [take map snd]. destruct (given (PluginForm.pl_phase r)), (default false (PluginForm.pl_enabled r)), (given (PluginForm.pl_scope r));
      cbn [map concat default]; by rewrite ?app_nil_r.
  - eexists. split; [reflexivity|]. split; [by apply json_parse_pretty|]. by destruct r as [? ? ? ? [?|]].
Qed.

(** Deleting is by name and scope; the question names the plugin only, so that
    of two instances of one plugin it does not say which. *)
Theorem plugin_question_ambiguous a b : RowActions.row_text a (js "name") = RowActions.row_text b (js "name") ->
  message <$> delete_dialog (Confirmed.ask true a Confirmed.idle) = message <$> delete_dialog (Confirmed.ask true b Confirmed.idle).
Proof. intros E. unfold delete_dialog, confirm_dialog. cbn. by rewrite E. Qed.

End Plugins.
End PluginsTable.

(** ** Operators *)
Module OperatorsTable.
Section Operators.
  Context (tOp tCommon : jstr -> jstr) (tp : jstr -> list (jstr * jstr) -> jstr).

Abbreviation row := OperatorForm.OperatorRow.

Definition columns : list (jstr * (row -> cell)) :=
  [(tOp (js "columns.id"), fun r => [Plain (num_to_string (OperatorForm.op_id r))]);
   (tOp (js "columns.email"), fun r => [Plain (OperatorForm.op_email r)]);
   (tOp (js "columns.role"), fun r => [Plain (tOp (js "roles." ++ OperatorForm.op_role r))]);
   (tOp (js "columns.tenantId"), fun r => [Plain match OperatorForm.op_tenant_id r with Some n => num_to_string n | None => js "—" end])].

(** [editable] is whether the page passes [onEdit]. *)
Definition buttons (editable : bool) (rows : list row) (r : row) : list (button row) :=
  (if editable then [{| label := tCommon (js "actions.edit"); disabled := false; clicked := Edits r |}] else [])
  ++ (if Cells.isLastSuperAdmin rows r then [] else [{| label := tCommon (js "actions.delete"); disabled := false; clicked := Asks RowActions.DeleteOperator r |}]).

Definition OperatorsTable (editable : bool) (rows : list row) : view row :=
  render columns (buttons editable rows) (tOp (js "actions.emptyState")) [] [] rows.

Definition delete_dialog : RowActions.row_state -> option dialog :=
  confirm_dialog (tCommon (js "modal.confirmDelete")) (tCommon (js "actions.delete"))
    (fun r => tp (js "actions.deleteConfirm") [(js "email", RowActions.row_text r (js "email"))]).

Definition deletable (bs : list (button row)) (r : row) : Prop :=
  exists b, b ∈ bs /\ clicked b = Asks RowActions.DeleteOperator r.

Lemma deletable_iff editable rows r : deletable (buttons editable rows r) r <-> Cells.isLastSuperAdmin rows r = false.
Proof.
  unfold deletable, buttons. split.
  - intros (b & M & E). destruct (Cells.isLastSuperAdmin rows r); [|done]. rewrite app_nil_r in M.
    destruct editable; [apply list_elem_of_singleton in M as ->; done|by apply elem_of_nil in M].
  - intros ->. eexists. split; [apply elem_of_app; right; by apply list_elem_of_singleton|done].
Qed.

(** Whichever row the table offers to delete, a super-admin is left on the
    page if there was one. *)
Theorem super_admin_left editable l1 r l2 :
  let rows := l1 ++ r :: l2 in
  deletable (buttons editable rows r) r ->
  (0 < Cells.superAdminCount rows)%nat -> (0 < Cells.superAdminCount (l1 ++ l2))%nat.
Proof.
  intros rows D. apply deletable_iff in D. unfold Cells.isLastSuperAdmin in D. unfold Cells.superAdminCount in *. subst rows.
  rewrite !List.filter_app, !length_app in *. cbn [List.filter] in *.
  destruct (streq (OperatorForm.op_role r) "super-admin"); cbn [andb length] in *; [|lia].
  apply Nat.leb_gt in D. lia.
Qed.

End Operators.
End OperatorsTable.

(** ** API keys *)
Module KeysTable.
Section Keys.
  Context (tK tCommon : jstr -> jstr) (tp : jstr -> list (jstr * jstr) -> jstr).

Abbreviation row := APIKeyForm.KeyRow.

Definition unbound_text : jstr := tK (js "identity.unbound").

Definition columns : list (jstr * (row -> cell)) :=
  [(tK (js "columns.keyId"), fun r => [Plain (APIKeyForm.key_id r)]);
   (tK (js "identity.group"), fun r => [Plain (from_option num_to_string unbound_text (APIKeyForm.group_id r))]);
   (tK (js "identity.application"), fun r => [Plain (from_option num_to_string unbound_text (APIKeyForm.application_id r))]);
   (tK (js "identity.environment"), fun r => [Plain (match APIKeyForm.environment r with Some (c :: s) => c :: s | _ => unbound_text end)])].

Definition complete (r : row) : bool :=
  APIKeyForm.truthy_num (APIKeyForm.group_id r) && APIKeyForm.truthy_num (APIKeyForm.application_id r) && APIKeyForm.truthy_str (APIKeyForm.environment r).

Definition buttons (editable : bool) (r : row) : list (button row) :=
  (if editable then [{| label := if complete r then tCommon (js "actions.edit") else tK (js "identity.completeBinding"); disabled := false; clicked := Edits r |}] else [])
  ++ [{| label := tK (js "actions.revoke"); disabled := false; clicked := Asks RowActions.RevokeKey r |}].

Definition APIKeysTable (unbound editable : bool) (nextCursor : jstr) (rows : list row) : view row :=
  render columns (buttons editable) (tK (js (if unbound then "identity.emptyUnbound" else "actions.emptyState"))) (tCommon (js "actions.nextPage")) nextCursor rows.

Definition revoke_dialog : RowActions.row_state -> option dialog :=
  confirm_dialog (tK (js "actions.revoke")) (tK (js "actions.revoke"))
    (fun r => tp (js "modal.revokeConfirm") [(js "keyId", RowActions.row_text r (js "key_id"))]).

(** Above the table: the switch between all keys and unbound keys, the hint,
    and the ways to the pages of missing groups and applications. *)
Definition unbound_switch (unbound : bool) : jstr * jstr :=
  if unbound then (js "/api-keys", tK (js "identity.showAll")) else (js "/api-keys?unbound=true", tK (js "identity.showUnbound")).

Definition head_links {A B} (unbound : bool) (groups : list A) (applications : list B) : list (jstr * jstr) :=
  [unbound_switch unbound]
  ++ (if nonempty groups then [] else [(js "/groups", tK (js "identity.createGroup"))])
  ++ (if nonempty applications then [] else [(js "/applications", tK (js "identity.createApplication"))]).

(** Where the switch leads, the page reads the other setting. *)
Definition unbound_at (href : jstr) : bool := is_str (search_param (search_of href) "unbound") "true".

Lemma switch_switches b : unbound_at (fst (unbound_switch b)) = negb b.
Proof. destruct b; by vm_compute. Qed.

(** The row offers to complete the binding exactly for the keys whose form
    binds the identity when it is submitted. *)
Theorem binding_offered r typed models st : exists bind,
  (text "bind_identity" (js "true") ∈ APIKeyForm.form_data (Some r) typed models st <-> bind = true) /\
  label <$> head (buttons true r) = Some (if bind then tK (js "identity.completeBinding") else tCommon (js "actions.edit")) /\
  clicked <$> head (buttons true r) = Some (Edits r).
Proof.
  exists (negb (APIKeyForm.bound (Some r))). split; [|split; [|done]].
  - unfold APIKeyForm.form_data. destruct (APIKeyForm.bound (Some r)) eqn:B; (split; [|try done]); [|done|intros _; set_solver].
    intros M. exfalso. unfold APIKeyForm.identity_entry in M. rewrite B in M.
    unfold APIKeyForm.bound in B. rewrite !andb_true_iff in B. destruct B as [[B1 B2] B3]. rewrite B1, B2, B3 in M. cbn [andb app] in M.
    rewrite !elem_of_cons in M. destruct M as [M|[M|M]]; [done..|]. destruct models; [by apply elem_of_nil in M|].
    apply list_elem_of_fmap in M as (x & M & _). done.
  - unfold buttons. change (complete r) with (APIKeyForm.bound (Some r)). by destruct (APIKeyForm.bound (Some r)).
Qed.

End Keys.
End KeysTable.

(** ** Roles *)
Module RolesTable.
Section Roles.
  Context (t : jstr -> jstr) (tp : jstr -> list (jstr * jstr) -> jstr).

Abbreviation row := RoleForm.RoleRow.

Definition headings : list jstr := map (fun k => t (js k)) ["cols.name"; "cols.scope"; "cols.permissions_count"; "cols.description"; "cols.actions"]%string.

Definition cells (r : row) : list cell :=
  let global := streq (RoleForm.scope_kind r) "global" in
  [Plain (RoleForm.name r) :: (if RoleForm.is_builtin r then [Muted (t (js "builtin"))] else []);
   [Styled (js (if global then "info" else "secondary")) (t (js (if global then "scope.global" else "scope.tenant")))];
   [Plain (num_to_string (int (Z.of_nat (length (RoleForm.permissions r))))
           ++ if array_includes (RoleForm.permissions r) (js "*") then js " (" ++ t (js "wildcard") ++ js ")" else [])];
   [Plain (if str_empty (RoleForm.description r) then js "—" else RoleForm.description r)]].

Definition buttons (r : row) : list (button row) :=
  {| label := t (js "actions.edit"); disabled := false; clicked := Edits r |}
  :: (if RoleForm.is_builtin r then [] else [{| label := t (js "actions.delete"); disabled := false; clicked := Asks RowActions.DeleteRole r |}]).

Definition RolesPageClient (roles : list row) : list jstr * (jstr + list (list cell * list (button row))) :=
  (headings, match roles with [] => inl (t (js "empty")) | _ => inr (map (fun r => (cells r, buttons r)) roles) end).

(** The dialog of a row's delete button. *)
Definition delete_dialog (r : row) (confirming deleting : bool) (error : option jstr) : option dialog :=
  if confirming then Some {| title := t (js "actions.deleteTitle"); message := tp (js "actions.deleteBody") [(js "name", RoleForm.name r)];
                             confirmLabel := None; loadingLabel := None; busy := deleting; problem := error |}
  else None.

(** Built-in roles can be edited but not deleted. *)
Lemma builtin_kept r : (exists b, b ∈ buttons r /\ clicked b = Asks RowActions.DeleteRole r) <-> RoleForm.is_builtin r = false.
Proof.
  unfold buttons. destruct (RoleForm.is_builtin r); split; try done.
  - intros (b & M & E). by apply list_elem_of_singleton in M as ->.
  - intros _. eexists. split; [right; by apply list_elem_of_singleton|done].
Qed.

End Roles.
End RolesTable.
