(* ===== verification/LogViews.v ===== *)
(** * Logs, history and models of the Control Panel, as they are shown

    Cells and panels of the read-only tables in
    [web/src/app/[locale]/(dashboard)]: request logs, audit, data-plane nodes,
    usage, trace sessions, configuration history, model cards and the model
    page. *)

From S2P Require Import Prelude JsNumber Money JsString Json AdminRuntime FormActions ConfigActions TenantActions Format DesktopApi Urls AdminPages PageProps SearchPages AdminForms AccessForms AdminTables AdminDialogs TableViews.
Import View.

(** ** Cells of the log tables *)
Module LogCells.
Section Cells.
  (** [new Date(v).toLocaleString()], [v.toLocaleString()] and the translator. *)
  Context (date_text number_text : json -> jstr) (t : jstr -> jstr).

Definition dash : cell := [Muted (js "—")].

(** A time, or a dash when it is missing or empty. *)
Definition time_cell (v : unknown) : cell :=
  match v with Some x => if truthy v then [Plain (date_text x)] else dash | None => dash end.

(** [v ?? —] *)
Definition text_cell (v : unknown) : cell := if is_nullish v then dash else [Plain (child v)].

(** A count, or a dash when it is missing; zero is a count. *)
Definition count_cell (v : unknown) : cell :=
  match v with None | Some JNull => dash | Some x => [Plain (number_text x)] end.

Definition attributed (v : unknown) : cell := [Plain (or_null v (t (js "identity.unattributed")))].
Definition environment_cell (v : unknown) : cell := [Plain (or_falsy v (t (js "identity.unattributed")))].

(** *** Request logs *)

(** The protocol and, when the provider's adapter is known, the badge that
    says whether it matches. *)
Definition protocol_cell (adapters : list (jstr * jstr)) (row : json) : cell :=
  match value row "ingress_protocol" with
  | Some (JStr (c :: s)) =>
      let proto := c :: s in
      Plain proto ::
      match Cells.passthrough adapters proto (as_string (value row "provider")) with
      | None => []
      | Some true => [Styled (js "bg-success/10 text-success") (t (js "badges.passthrough"))]
      | Some false => [Styled (js "bg-muted text-muted-foreground") (t (js "badges.translated"))]
      end
  | _ => dash
  end.

Definition error_cell (row : json) : cell :=
  let v := value row "error_type" in
  let blocked := value row "blocked_by" in
  if negb (truthy v) && negb (truthy blocked) then [Styled (js "text-success") (t (js "status.success"))]
  else [Styled (js "text-destructive") (if truthy blocked then t (js "columns.blockedBy") ++ js ": " ++ or_null blocked [] else child v)].

Definition session_href (v : jstr) : result jstr := s ← encodeURIComponent v; Ret (js "/request-logs/sessions/" ++ s).

(** [v.length > 12 ? `${v.slice(0, 10)}…` : v] *)
Definition short_session (v : jstr) : jstr := if (12 <? length v)%nat then take 10 v ++ js "…" else v.

Definition session_cell (row : json) : cell :=
  match value row "session_id" with
  | Some (JStr (c :: s)) => [Linked (session_href (c :: s)) (short_session (c :: s))]
  | _ => dash
  end.

Definition columns_request_logs (adapters : list (jstr * jstr)) : list (jstr * (json -> cell)) :=
  [(t (js "columns.time"), fun r => time_cell (value r "created_at"));
   (t (js "columns.tenant"), accessor "tenant");
   (t (js "identity.application"), fun r => attributed (value r "application_id"));
   (t (js "identity.environment"), fun r => environment_cell (value r "environment"));
   (t (js "columns.provider"), fun r => text_cell (value r "provider"));
   (t (js "columns.ingressProtocol"), protocol_cell adapters);
   (t (js "columns.modelRequested"), fun r => text_cell (value r "model_requested"));
   (t (js "columns.totalTokens"), fun r => count_cell (value r "total_tokens"));
   (t (js "columns.ttftMs"), fun r => count_cell (value r "ttft_ms"));
   (t (js "columns.durationMs"), fun r => count_cell (value r "duration_ms"));
   (t (js "columns.errorType"), error_cell);
   (t (js "columns.session"), session_cell)].

Definition RequestLogsTable (adapters : list (jstr * jstr)) (rows : list json) : view json :=
  render (columns_request_logs adapters) (fun _ => []) (t (js "actions.emptyState")) [] [] rows.

(** *** Audit *)

Definition action_cell (v : unknown) : cell :=
  match v with
  | Some (JStr (c :: s)) => [Styled (Cells.action_variant (c :: s)) (t (js "actions." ++ c :: s))]
  | _ => dash
  end.

Definition columns_audit : list (jstr * (json -> cell)) :=
  [(t (js "columns.time"), fun r => time_cell (value r "created_at"));
   (t (js "columns.operator"), fun r => text_cell (value r "operator_id"));
   (t (js "columns.tenant"), fun r => text_cell (value r "tenant"));
   (t (js "columns.resourceType"), fun r => text_cell (value r "resource_type"));
   (t (js "columns.resourceId"), fun r => text_cell (value r "resource_id"));
   (t (js "columns.action"), fun r => action_cell (value r "action"))].

Definition AuditTable (rows : list json) : view json :=
  render columns_audit (fun _ => []) (t (js "actions.emptyState")) [] [] rows.

(** *** Data-plane nodes *)

Definition status_colors : list (jstr * jstr) :=
  [(js "online", js "text-success"); (js "offline", js "text-destructive"); (js "draining", js "text-warning")].

(** [colors[s] ?? ""], for a status that is not an inherited name. *)
Definition status_color (s : jstr) : jstr := from_option snd [] (List.find (fun kv => streq kv.1 s) status_colors).

Definition node_status (v : unknown) : cell :=
  let s := or_null v (js "unknown") in
  let label := t (js "status." ++ s) in
  [Styled (status_color s) (if str_empty label then s else label)].

Definition version_cell (row : json) : cell :=
  Plain (child (value row "version"))
  :: match Cells.commit_text (child (value row "commit")) with Some c => [Muted c] | None => [] end.

Definition columns_nodes : list (jstr * (json -> cell)) :=
  [(t (js "columns.instanceId"), fun r => [Plain (child (value r "instance_id"))]);
   (t (js "columns.hostname"), accessor "hostname");
   (t (js "columns.addr"), fun r => [Plain (child (value r "addr"))]);
   (t (js "columns.version"), version_cell);
   (t (js "columns.configGeneration"), fun r => match value r "config_generation" with None | Some JNull => [Plain (js "—")] | Some x => [Plain (number_text x)] end);
   (t (js "columns.status"), fun r => node_status (value r "status"));
   (t (js "columns.startedAt"), fun r => time_cell (value r "started_at"));
   (t (js "columns.lastHeartbeat"), fun r => time_cell (value r "last_heartbeat_at"))].

Definition DataPlaneNodesTable (rows : list json) : view json :=
  render columns_nodes (fun _ => []) (t (js "actions.emptyState")) [] [] rows.

(** *** Usage *)

Definition cost_cell (row : json) : cell :=
  match value row "cost" with
  | None | Some JNull => dash
  | Some x => [Plain (Web.microToDisplay (param_number x) ++ js " " ++ or_falsy (value row "currency") (t (js "identity.unknownCurrency")))]
  end.

Definition columns_usage : list (jstr * (json -> cell)) :=
  [(t (js "columns.time"), fun r => time_cell (value r "created_at"));
   (t (js "columns.tenant"), fun r => text_cell (value r "tenant"));
   (t (js "identity.application"), fun r => attributed (value r "application_id"));
   (t (js "identity.environment"), fun r => environment_cell (value r "environment"));
   (t (js "columns.model"), fun r => text_cell (value r "model"));
   (t (js "columns.provider"), fun r => text_cell (value r "provider"));
   (t (js "columns.promptTokens"), fun r => count_cell (value r "prompt_tokens"));
   (t (js "columns.completionTokens"), fun r => count_cell (value r "completion_tokens"));
   (t (js "columns.cost"), cost_cell)].

Definition UsageTable (tCommon : jstr -> jstr) (nextCursor : jstr) (rows : list json) : view json :=
  render columns_usage (fun _ => []) (t (js "actions.emptyState")) (tCommon (js "actions.nextPage")) nextCursor rows.

End Cells.
End LogCells.

(** ** Trace sessions *)
Module TraceSessions.
Section Sessions.
  Context (date_text : json -> jstr) (t : jstr -> jstr).

Record SessionSummary : Type := {
  session_id : jstr; agent_type : jstr; request_count : num; prompt_tokens : num; completion_tokens : num; total_tokens : num;
  duration_ms : num; cost : num; started_at : jstr; has_errors : bool;
}.

Definition agentOptions : list jstr := map js ["claude-code"; "codex"; "codebuddy"; "workbuddy"; "opencode"]%string.

(** Value and text of the options of the agent filter. *)
Definition filter_options : list (jstr * jstr) := ([], t (js "agent.all")) :: map (fun a => (a, a)) agentOptions.

Definition headings : list jstr :=
  map (fun k => t (js k)) ["sessions.session"; "agent.type"; "sessions.requests"; "sessions.tokenTotal"; "sessions.duration"; "sessions.cost"; "sessions.startedAt"]%string.

Definition session_href (s : SessionSummary) : result jstr := e ← encodeURIComponent (session_id s); Ret (js "/trace/sessions/" ++ e).

(** The alert icon of a session with errors has no text. *)
Definition cells (s : SessionSummary) : list cell :=
  [Linked (session_href s) (session_id s) :: (if has_errors s then [Styled (js "text-destructive") []] else []);
   [Plain (if str_empty (agent_type s) then js "—" else agent_type s)];
   [Plain (num_to_string (request_count s))];
   [Plain (Cells.formatTokens (total_tokens s)); Muted (js "(" ++ Cells.formatTokens (prompt_tokens s) ++ js "/" ++ Cells.formatTokens (completion_tokens s) ++ js ")")];
   [Plain (Cells.formatDuration (duration_ms s))];
   [Plain (if nlt (int 0) (cost s) then Web.microToDisplay (cost s) else js "—")];
   [Plain (if str_empty (started_at s) then js "—" else date_text (JStr (started_at s)))]].

(** The list, or the reason why it is empty. *)
Definition session_list (sessions : list SessionSummary) (anyRows : bool) : jstr + list (list cell) :=
  match sessions with
  | [] => inl (t (js (if anyRows then "notFound" else "captureDisabled")))
  | _ => inr (map cells sessions)
  end.

(** The page computes [anyRows] from the very list it passes, so that a filter
    without matches is reported as capture being disabled. *)
Theorem not_found_never_shown {St Bk} `{IronSession St} `{AdminApi Bk} sp (w : world St Bk) anyRows filter :
  (TracePage sp w).1 = Ret (Page (JArr [], anyRows, filter)) -> session_list [] anyRows = inl (t (js "captureDisabled")).
Proof.
  enough (anyRows_false : (TracePage sp w).1 = Ret (Page (JArr [], anyRows, filter)) -> anyRows = false) by (intros E; by rewrite (anyRows_false E)).
  unfold TracePage, page_try, try_catch, fmap, M_fmap, mbind, M_bind.
  destruct (serverAdminClient w) as [[c|e] w1]; [|by destruct (handleAdminError e w1) as [[[]|] ?]].
  destruct (get c _ _ w1) as [[res|e] w2]; [|by destruct (handleAdminError e w2) as [[[]|] ?]].
  unfold lift. destruct (member_or res _ _) as [sessions|e]; [|by destruct (handleAdminError e w2) as [[[]|] ?]].
  cbn. intros [= -> <- _]. done.
Qed.

End Sessions.
End TraceSessions.

(** ** Links to a session *)
Section Links.
  Context {St Bk : Type} `{IronSession St} `{AdminApi Bk}.

(** A page whose body starts with a request makes that request. *)
Lemma page_asks {P} path ps q (k : AdminClient -> unknown -> M St Bk P) w c : serverAdminClient w = (Ret c, w) -> (forall x, reader (k c x)) ->
  exists rest, w_log (page_try (client ← serverAdminClient; res ← get_with client path ps q; k client res) w).2 =
    w_log w ++ Sent c GET path {| path_params := ps; query_params := q; body := None |} :: rest.
Proof.
  intros C R. set (o := {| path_params := ps; query_params := q; body := None |}).
  destruct (api c GET path o w) as [r w1] eqn:A. assert (L : w_log w1 = w_log w ++ [Sent c GET path o]).
  { unfold api in A. destruct (api_call c GET path o (w_backend w)) as [x b']. by injection A as _ <-. }
  assert (E : page_try (client ← serverAdminClient; res ← get_with client path ps q; k client res) w
            = page_try (x ← lift r; res ← lift (unwrap (Ret x)); k c res) w1).
  { unfold page_try, try_catch, fmap, M_fmap, get_with, lift, mbind, M_bind. rewrite C. fold o. rewrite A. by destruct r as [x|e]. }
  rewrite E. assert (reader (page_try (x ← lift r; res ← lift (unwrap (Ret x)); k c res))) as X.
  { apply reader_try.
    - apply reader_fmap, reader_bind; [apply reader_lift|]. intros x. apply reader_bind; [apply reader_lift|done].
    - intros e. apply reader_bind; [apply reader_handle|]. intros []. apply reader_ret. }
  specialize (X w1). destruct X as (_ & _ & evs & X & _). exists evs. rewrite X, L. by rewrite <- app_assoc.
Qed.

(** C15: Session links lead to their session: the request log's link for a
    well-formed session identifier opens the page that asks the gateway for
    exactly that identifier, whatever characters it has, and the segment in the
    trace list's link decodes to the identifier too; the link's text is the
    identifier, or its first ten units and an ellipsis. *)
Theorem session_links_open row s w c : value row "session_id" = Some (JStr s) -> s <> [] -> isWellFormed s = true -> wf_str s ->
  serverAdminClient w = (Ret c, w) ->
  exists segment rest,
    LogCells.session_cell row = [Linked (Ret (js "/request-logs/sessions/" ++ segment)) (LogCells.short_session s)] /\
    w_log (SessionTracePage (St := St) (Bk := Bk) segment w).2 =
      w_log w ++ Sent c GET (js "/api/v1/request-logs/sessions/{session_id}")
                   {| path_params := [(js "session_id", JStr s)]; query_params := []; body := None |} :: rest /\
    (forall x, TraceSessions.session_id x = s -> TraceSessions.session_href x = Ret (js "/trace/sessions/" ++ segment)) /\
    decodeURIComponent segment = Ret s /\
    LogCells.short_session s = (if (length s <=? 12)%nat then s else take 10 s ++ js "…").
Proof.
  intros V N W U C. destruct (component_roundtrip s W U) as (e & E & D). exists e.
  destruct (page_asks (js "/api/v1/request-logs/sessions/{session_id}") [(js "session_id", JStr s)] []
    (fun _ res => requests ← lift (member_or res "requests" (JArr [])); cost ← lift (member_or res "cost_summary" (JObj []));
                  mret {| st_sessionID := s; st_requests := requests; st_costSummary := cost |}) w c C) as [rest L].
  { intros x. apply reader_bind; [apply reader_lift|]. intros a. apply reader_bind; [apply reader_lift|]. intros b. apply reader_ret. }
  exists rest. split_and!; [| |intros x <-; unfold TraceSessions.session_href; by rewrite E|done|].
  - unfold LogCells.session_cell. rewrite V. destruct s as [|x s]; [done|]. unfold LogCells.session_href. by rewrite E.
  - rewrite <- L. unfold SessionTracePage. unfold mbind at 1, M_bind at 1, lift at 1. by rewrite D.
  - unfold LogCells.short_session. destruct (Nat.ltb_spec 12 (length s)), (Nat.leb_spec (length s) 12); done || lia.
Qed.

End Links.

(** A request is shown as failed in the log exactly when the session timeline
    shows it as failed, so both count the same errors. *)
Theorem failures_shown_alike t row :
  (exists x, LogCells.error_cell t row = [Styled (js "text-destructive") x]) <-> SessionSummary.has_error row = true.
Proof.
  unfold LogCells.error_cell, SessionSummary.has_error, value.
  destruct (truthy (opt_prop (Some row) "error_type")), (truthy (opt_prop (Some row) "blocked_by")); cbn [negb andb orb];
    (split; [|try (by eauto)]); try done. intros [x E]. by vm_compute in E.
Qed.

(** ** Configuration history *)
Module HistoryView.
Section History.
  Context (date_text : json -> jstr) (t : jstr -> jstr) (tp : jstr -> list (jstr * jstr) -> jstr).

Import History.

(** The version, with a label for the latest one, and the time. *)
Definition cells (latest : option num) (row : Snapshot) : list cell :=
  [Plain (js "v" ++ num_to_string (version row)) :: (if isLatest latest (version row) then [Styled (js "text-primary") (t (js "labels.current"))] else []);
   [Muted match created_at row with Some (c :: s) => date_text (JStr (c :: s)) | _ => js "—" end]].

Inductive click : Type := ViewDiff | ViewPreview | Rollback (v : num).

(** Label, whether it is disabled, and effect of the buttons of a row. *)
Definition buttons (pending : bool) (latest : option num) (row : Snapshot) : list (jstr * bool * click) :=
  [(t (js "actions.diff"), pending, ViewDiff); (t (js "actions.preview"), pending, ViewPreview)]
  ++ (if isLatest latest (version row) then [] else [(t (js "actions.rollback"), pending, Rollback (version row))]).

(** [+ n added], [− n removed] and the names, or the text for no changes; names
    are strings. *)
Definition DiffView (added removed : list json) : list piece :=
  [Styled (js "text-success") (js "+ " ++ num_to_string (int (Z.of_nat (length added))) ++ js " " ++ t (js "diff.added"));
   Styled (js "text-destructive") (js "− " ++ num_to_string (int (Z.of_nat (length removed))) ++ js " " ++ t (js "diff.removed"))]
  ++ map (fun n => Styled (js "text-success") (js "+ " ++ child (Some n))) added
  ++ map (fun n => Styled (js "text-destructive") (js "− " ++ child (Some n))) removed
  ++ (match added, removed with [], [] => [Muted (t (js "diff.noChanges"))] | _, _ => [] end).

(** The row under a snapshot while its diff is not idle. *)
Definition diff_row (failure_text : jstr) (d : DiffState) : option (list piece) :=
  match d with
  | DiffIdle => None
  | DiffLoading => Some [Muted (t (js "diff.loading"))]
  | DiffError => Some [Styled (js "text-destructive") failure_text]
  | DiffLoaded added removed => Some (DiffView added removed)
  end.

(** [result.impact.k ?? 0] *)
Definition impact_count (impact : unknown) (k : string) : jstr := to_string (nullish (opt_prop impact (js k)) (JNum (int 0))).

Definition warnings_of (r : unknown) : list json := match opt_prop r "warnings" with Some (JArr l) => l | _ => [] end.

(** The lists of a preview have the prefix [removed_], those of a diff
    [deleted_], as the two endpoints name them. *)
Definition PreviewView (r : unknown) : result (list piece) :=
  let diff := opt_prop r "diff" in
  added ← spreads (Some (nullish diff (JObj []))) (js "added_");
  removed ← spreads (Some (nullish diff (JObj []))) (js "removed_");
  let valid := truthy (opt_prop r "valid") in
  Ret ([Styled (js (if valid then "text-success" else "text-destructive")) (t (js (if valid then "preview.valid" else "preview.invalid")))]
       ++ (if truthy (opt_prop r "impact")
           then [Muted (tp (js "preview.impact") [(js "new", impact_count (opt_prop r "impact") "new_resources"); (js "deleted", impact_count (opt_prop r "impact") "deleted_resources")])]
           else [])
       ++ map (fun w => Styled (js "text-warning") (child (Some w))) (warnings_of r)
       ++ DiffView added removed).

Definition table (pending : bool) (rows : list Snapshot) : jstr + list (list cell * list (jstr * bool * click)) :=
  match rows with
  | [] => inl (t (js "table.empty"))
  | _ => inr (map (fun r => (cells (latestVersion rows) r, buttons pending (latestVersion rows) r)) rows)
  end.

(** The question before a roll-back. *)
Definition rollback_dialog (confirmVersion : option num) (pending : bool) : option dialog :=
  match confirmVersion with
  | Some v => Some {| title := t (js "confirm.title"); message := tp (js "confirm.body") [(js "version", num_to_string v)] ++ js " " ++ t (js "confirm.warning");
                      confirmLabel := Some (t (js "confirm.confirm")); loadingLabel := Some (t (js "confirm.rollingBack")); busy := pending; problem := None |}
  | None => None
  end.

(** A listed version can be rolled back to, unless the page shows it as the
    current one; the button asks for the version of its own row. *)
Theorem rollback_offered pending latest row v :
  (exists l d, (l, d, Rollback v) ∈ buttons pending latest row) <-> isLatest latest (version row) = false /\ v = version row.
Proof.
  unfold buttons. destruct (isLatest latest (version row)); split.
  - intros (l & d & M). rewrite app_nil_r in M. rewrite !elem_of_cons in M. by destruct M as [?|[?|?%elem_of_nil]].
  - by intros [].
  - intros (l & d & M). cbn [app] in M. rewrite !elem_of_cons in M. destruct M as [?|[?|[[= _ _ ->]|?%elem_of_nil]]]; done.
  - intros [_ ->]. do 2 eexists. do 2 right. by left.
Qed.

(** Counted names are listed names: the diff lists as many added and removed
    names as its counts say. *)
Lemma diff_listed added removed : added <> [] \/ removed <> [] ->
  length (DiffView added removed) = (2 + length added + length removed)%nat.
Proof.
  intros N. unfold DiffView. rewrite !length_app, !length_map. destruct added, removed; cbn [length]; try lia. by destruct N.
Qed.

End History.
End HistoryView.

(** ** Models *)
Module ModelViews.
Section Models.
  (** [n.toLocaleString()], the translator and messages with arguments. *)
  Context (number_text : num -> jstr) (t : jstr -> jstr) (tp : jstr -> list (jstr * jstr) -> jstr).

Import ModelForm.

Inductive click : Type := EditModel (m : ModelRow) | DeleteModel (m : ModelRow).

(** A card: heading, buttons, number of providers, description, chips with the
    number of those left out, context length and price. *)
Record card : Type := {
  card_alias : jstr; card_buttons : list (jstr * click); card_providers : option jstr; card_description : jstr;
  card_capabilities : list Format.label * option jstr; card_context : option jstr; card_price : jstr;
}.

Definition description_text (m : ModelRow) : jstr := match description m with Some (c :: s) => c :: s | _ => t (js "card.noDescription") end.

Definition context_text (key : string) (m : ModelRow) : option jstr :=
  match context_length m with Some n => if num_truthy n then Some (t (js key) ++ js ": " ++ number_text n) else None | None => None end.

Definition chips (m : ModelRow) : list Format.label * option jstr :=
  let '(shown, more) := ModelGrid.card_chips (default [] (capabilities m)) in
  (map (ModelGrid.capabilityLabel t) shown, (fun n => js "+" ++ num_to_string (int (Z.of_nat n))) <$> more).

Definition price_text (m : ModelRow) : jstr :=
  match ModelGrid.startingPrice (default [] (upstreams m)) with
  | Some v => t (js "card.startingPrice") ++ js " " ++ Web.microToDisplay v ++ js " " ++ t (js "card.perMillion")
  | None => t (js "card.noPricing")
  end.

Definition provider_count (m : ModelRow) : jstr := tp (js "card.providers") [(js "count", num_to_string (int (Z.of_nat (length (default [] (upstreams m))))))].

(** The card of the models page; [onEdit] and [onDelete] say which handlers it
    is given. *)
Definition ModelCard (onEdit onDelete : bool) (m : ModelRow) : card := {|
  card_alias := alias m;
  card_buttons := (if onEdit then [(t (js "actions.edit"), EditModel m)] else []) ++ (if onDelete then [(t (js "actions.delete"), DeleteModel m)] else []);
  card_providers := if onEdit || onDelete then None else if nonempty (default [] (upstreams m)) then Some (provider_count m) else None;
  card_description := description_text m; card_capabilities := chips m; card_context := context_text "card.contextLength" m; card_price := price_text m;
|}.

(** The card of the catalogue. *)
Definition CatalogCard (m : ModelRow) : card := {|
  card_alias := alias m; card_buttons := [];
  card_providers := if nonempty (default [] (upstreams m)) then Some (provider_count m) else None;
  card_description := description_text m; card_capabilities := chips m; card_context := context_text "card.contextLength" m; card_price := price_text m;
|}.

(** *** The grid *)

Definition chip_style (active : bool) : jstr := js (if active then "bg-primary text-primary-foreground" else "bg-muted text-foreground hover:bg-accent").

(** The filter chips, each with the value it sets; none without capabilities. *)
Definition filter_chips (models : list ModelRow) (capability : jstr) : list (jstr * Format.label * jstr) :=
  match ModelGrid.allCapabilities models with
  | [] => []
  | cs => ([], Text (t (js "filters.allCapabilities")), chip_style (str_empty capability))
          :: map (fun c => (c, ModelGrid.capabilityLabel t c, chip_style (streq capability c))) cs
  end.

(** Above the models grid: the create button, or for an operator who may write
    but has no providers the way to them. *)
Definition page_head (canWrite hasProviders : bool) : option jstr * option (jstr * jstr * jstr) :=
  (if canWrite && hasProviders then Some (t (js "actions.create")) else None,
   if canWrite && negb hasProviders then Some (t (js "actions.noProviders"), t (js "actions.goToProviders"), js "/providers") else None).

Definition model_href (base : string) (m : ModelRow) : result jstr := s ← encodeURIComponent (alias m); Ret (js base ++ s).

Definition models_grid (canWrite : bool) (ms : list ModelRow) : jstr + list (result jstr * card) :=
  match ms with
  | [] => inl (t (js "empty"))
  | _ => inr (map (fun m => (model_href "/models/" m, ModelCard canWrite canWrite m)) ms)
  end.

Definition catalog_grid (ms : list ModelRow) : jstr + list (result jstr * card) :=
  match ms with
  | [] => inl (t (js "empty"))
  | _ => inr (map (fun m => (model_href "/model-catalog/" m, CatalogCard m)) ms)
  end.

(** *** The model page *)

(** An upstream row: provider, model, prices and the token limit. *)
Definition upstream_row (u : ModelUpstream) : list jstr :=
  [provider u; upstream_model u; from_option (fun p => Web.microToDisplay (prompt_per_1m p)) (js "—") (pricing u);
   from_option (fun p => Web.microToDisplay (completion_per_1m p)) (js "—") (pricing u);
   match default_max_tokens u with Some n => if num_truthy n then number_text n else js "—" | None => js "—" end].

Record detail : Type := {
  d_alias : jstr; d_context : option jstr; d_buttons : list (jstr * click); d_description : jstr;
  d_capabilities : list jstr; d_tags : list jstr; d_headings : list jstr; d_upstreams : list (list jstr);
}.

Definition upstream_headings : list jstr :=
  map (fun k => t (js k)) ["detail.provider"; "detail.upstreamModel"; "detail.promptPrice"; "detail.completionPrice"; "detail.maxTokens"]%string.

(** The page of a model, or the text for a missing one.  Empty lists of
    capabilities and tags have no section; an empty upstream table has one row
    with a dash. *)
Definition ModelDetailClient (canWrite : bool) (model : option ModelRow) : jstr + detail :=
  match model with
  | None => inl (t (js "notFound"))
  | Some m => inr {|
      d_alias := alias m; d_context := context_text "detail.contextLength" m;
      d_buttons := if canWrite then [(t (js "actions.edit"), EditModel m); (t (js "actions.delete"), DeleteModel m)] else [];
      d_description := description_text m; d_capabilities := default [] (capabilities m); d_tags := default [] (tags m);
      d_headings := upstream_headings;
      d_upstreams := match default [] (upstreams m) with [] => [[js "—"]] | us => map upstream_row us end |}
  end.

(** The page of the catalogue. *)
Definition CatalogDetailClient (model : option ModelRow) : jstr + detail :=
  match model with
  | None => inl (t (js "notFound"))
  | Some m => inr {|
      d_alias := alias m; d_context := context_text "detail.contextLength" m; d_buttons := [];
      d_description := description_text m; d_capabilities := default [] (capabilities m); d_tags := default [] (tags m);
      d_headings := upstream_headings;
      d_upstreams := match default [] (upstreams m) with [] => [[js "—"]] | us => map upstream_row us end |}
  end.

(** The handler of the model page: as in the tables, but a success leads back
    to the list instead of refreshing. *)
Definition delete_dialog (tCommon : jstr -> jstr) : RowActions.row_state -> option dialog :=
  confirm_dialog (tCommon (js "modal.confirmDelete")) (tCommon (js "actions.delete"))
    (fun row => tp (js "actions.deleteConfirm") [(js "alias", RowActions.row_text row (js "alias"))]).

Definition deleted_to (before after : RowActions.row_state) : option jstr :=
  if (Confirmed.refreshed before <? Confirmed.refreshed after)%nat then Some (js "/models") else None.

(** *** Properties *)

Lemma startingPrice_some us v : ModelGrid.startingPrice us = Some v -> exists u p, u ∈ us /\ pricing u = Some p /\ prompt_per_1m p = v.
Proof.
  unfold ModelGrid.startingPrice. set (ps := omap _ us). intros E.
  assert (v ∈ ps) as M.
  { clearbody ps. assert (forall acc, foldl (fun min v => match min with None => Some v | Some m => if nlt v m then Some v else min end) acc ps = Some v -> acc = Some v \/ v ∈ ps) as G.
    { clear E. induction ps as [|x ps IH]; intros acc; cbn [foldl]; [by left|]. intros F. apply IH in F as [F|F]; [|right; by right].
      destruct acc as [m|]; [destruct (nlt x m)|]; injection F as ->; first [by left|right; by left]. }
    apply G in E as [E|E]; [done|done]. }
  apply list_elem_of_omap in M as (u & Mu & Eu). destruct (pricing u) as [p|] eqn:P; [|done]. injection Eu as <-. by exists u, p.
Qed.

(** The starting price on a model's card is the prompt price of one of the
    upstream rows on its page. *)
Theorem card_price_listed canWrite m v : ModelGrid.startingPrice (default [] (upstreams m)) = Some v ->
  match ModelDetailClient canWrite (Some m) with
  | inr d => card_price (ModelCard canWrite canWrite m) = t (js "card.startingPrice") ++ js " " ++ Web.microToDisplay v ++ js " " ++ t (js "card.perMillion") /\
      exists row, row ∈ d_upstreams d /\ nth 2 row [] = Web.microToDisplay v
  | inl _ => False
  end.
Proof.
  intros E. cbn. unfold price_text. rewrite E. split; [done|]. apply startingPrice_some in E as (u & p & M & P & <-).
  destruct (default [] (upstreams m)) as [|u0 us]; [by apply elem_of_nil in M|]. exists (upstream_row u). split; [exact (list_elem_of_fmap_2 upstream_row (u0 :: us) u M)|].
  unfold upstream_row. cbn [nth]. by rewrite P.
Qed.

(** Without the right to write, the models pages are those of the catalogue
    (under the same texts) and offer no change. *)
Theorem read_only_models m ms hasProviders :
  ModelCard false false m = CatalogCard m /\ ModelDetailClient false (Some m) = CatalogDetailClient (Some m) /\
  page_head false hasProviders = (None, None) /\
  match models_grid false ms, catalog_grid ms with
  | inl a, inl b => a = b
  | inr l, inr l' => map snd l = map snd l' /\ Forall (fun c => card_buttons c.2 = []) l
  | _, _ => False
  end.
Proof.
  split_and!; [done..|]. destruct ms as [|m0 ms]; [done|]. unfold models_grid, catalog_grid. rewrite !map_map. split; [done|].
  apply Forall_map, Forall_forall. done.
Qed.

End Models.
End ModelViews.

(** ** Witness *)

Lemma session_links_open_witness :
  let row := JObj [(js "session_id", JStr (js "a b/c?d#e f g"))] in
  exists c segment rest, LogCells.session_cell row = [Linked (Ret (js "/request-logs/sessions/" ++ segment)) (js "a b/c?d#e …")] /\
    w_log (SessionTracePage segment (Reference.world0 [])).2 =
      Sent c GET (js "/api/v1/request-logs/sessions/{session_id}")
        {| path_params := [(js "session_id", JStr (js "a b/c?d#e f g"))]; query_params := []; body := None |} :: rest.
Proof.
  cbv zeta. set (row := JObj _). set (w := Reference.world0 _).
  destruct (serverAdminClient w) as [[c|] w1] eqn:C; [|by vm_compute in C].
  assert (W : w1 = w) by (by injection C as _ <-). subst w1. exists c.
  assert (wf_str (js "a b/c?d#e f g")) as U 
    by (let l := eval vm_compute in (js "a b/c?d#e f g") in change (Forall unit_ok l); repeat apply Forall_cons_2; try apply Forall_nil_2; unfold unit_ok; lia).
  assert (js "a b/c?d#e f g" <> []) as N by discriminate.
  destruct (session_links_open row (js "a b/c?d#e f g") w c eq_refl N eq_refl U C) as (segment & rest & E & L & _).
  exists segment, rest. split; [exact E|exact L].
Defined.

Lemma toggle_opposes_status_witness :
  let row := JObj [(js "name", JStr (js "acme")); (js "enabled", JBool true)] in
  exists c b rest ps, Toggles.buttons (fun k => k) (fun k => k) Toggles.Group None row = b :: rest /\ label b = js "actions.disable" /\
    w_log (Toggles.press Toggles.Group b (Reference.world0 [Reference.reply 409 None (Reference.envelope "busy"%string)])).2 =
      Sent c PATCH (js "/api/v1/groups/{name}") (path_body (js "name") (JStr (js "acme")) (JObj [(js "enabled", JBool false)])) :: map Revalidated ps.
Proof.
  cbv zeta. set (row := JObj _). set (w := Reference.world0 _).
  destruct (serverAdminClient w) as [[c|] w1] eqn:C; [|by vm_compute in C].
  assert (W : w1 = w) by (by injection C as _ <-). subst w1. exists c.
  destruct (Toggles.toggle_opposes_status (fun k => k) (fun k => k) Toggles.Group None row w c C) as (b & rest & B & _ & L & _ & ps & S).
  exists b, rest, ps. split; [exact B|]. split; [exact L|exact S].
Defined.
