(* ===== verification/OverviewPage.v ===== *)
(** * The desktop overview page

    [desktop-ui/src/pages/Overview.tsx]: the two loading effects, the choice
    between skeleton, failure and page, and the cards of the page, put together
    from the figures of [Overview] and the ranges of [DateRanges]. *)

From stdpp Require Import relations.
From S2P Require Import Prelude JsNumber Money JsString Json DesktopApi Format ConfigForms Urls SearchPages Loaders ListPages Calendar DateRanges Overview.

#[global] Instance preset_eq_dec : EqDecision Preset.
Proof. solve_decision. Defined.

(** ** Loading *)

(** The hooks besides the dependencies [preset] and [tick]. *)
Record state : Type := { data : option json; loading : bool; refreshing : bool; error : option jstr }.

Definition first_state : state := {| data := None; loading := true; refreshing := false; error := None |}.

Definition begin (v : state) : state := {| data := data v; loading := loading v; refreshing := true; error := error v |}.

(** The handlers of the request: [then], [catch] and [finally]. *)
Definition finish (r : result json) (v : state) : state :=
  match r with
  | Ret d => {| data := Some d; loading := false; refreshing := false; error := None |}
  | Throw e => {| data := data v; loading := false; refreshing := false; error := Some (exn_message e) |}
  end.

Lemma finish_done r v : loading (finish r v) || refreshing (finish r v) = false.
Proof. by destruct r. Qed.

(** Skeleton while the first request runs; the failure when there is nothing
    else to show; otherwise the page. *)
Inductive body : Type := Skeleton | Failed (description : jstr) | Shown (failure : option jstr).

Definition page_body (v : state) : body :=
  if loading v then Skeleton
  else match error v with
       | Some (c :: e) => if truthy (data v) then Shown (Some (c :: e)) else Failed (c :: e)
       | _ => Shown None
       end.

(** The tabs and the refresh button are part of the page proper. *)
Definition controls (v : state) : bool := match page_body v with Shown _ => true | _ => false end.

Section Page.
  Context (tz : TimeZone) (now : Z) (first_rejected : exn -> list exn -> exn).

(** [fetchData]: the range of the preset at the current time, in UTC. *)
Definition fetchData (q : Preset * nat) (Net : Type) (F : Fetch Net) : D Net json :=
  let '(from, to) := rangeFor q.1 now in getOverview (toISOString <$> from) (toISOString <$> to).

(** The effect runs for each preset and each press of the refresh button, and
    has no cleanup. *)
Definition loader : Loader (Preset * nat) state := {|
  call := fun Net F q => fetchData q Net F; start := begin; settle := finish; busy := fun v => loading v || refreshing v;
  cancels := false; polls := false; refetches := false; offers := controls; settle_done := finish_done; cancels_only := fun _ => eq_refl;
|}.

(** The events: a tab, and the refresh button, which is disabled while a
    request is under way. *)
Definition pick (p : Preset) (q : Preset * nat) : Preset * nat := (p, q.2).
Definition refresh (v : state) (q : Preset * nat) : Preset * nat := if refreshing v then q else (q.1, S q.2).

Definition refresh_label (v : state) : jstr := if refreshing v then js "刷新中…" else js "刷新".

(** The second effect, for each press of the refresh button: the three lists
    together, or none when one of them fails. *)
Definition setup_loader : Loader nat (option json) := {|
  call := fun Net F _ => promise_all first_rejected [listProviders; listModels; listRoutes];
  start := fun v => v; settle := fun r _ => match r with Ret l => Some l | Throw _ => None end; busy := fun _ => false;
  cancels := false; polls := false; refetches := false; offers := fun _ => true; settle_done := fun _ _ => eq_refl; cancels_only := fun _ => eq_refl;
|}.

(** The gateway answers each period with its own figures. *)
Definition serving (answer : Preset -> json) (q : Preset * nat) (r : result response) : Prop :=
  r = Ret {| rs_status := 200; rs_text := stringify (answer q.1) |}.

Lemma overview_outcome answer q r : (forall p, wf_json (answer p)) -> serving answer q r -> outcome_of loader q r = Ret (answer q.1).
Proof.
  intros W ->. unfold outcome_of. cbn [call loader]. unfold fetchData. destruct (rangeFor q.1 now) as [from to].
  unfold getOverview, getJSON, send, mbind, D_bind. cbn. by rewrite json_parse_stringify.
Qed.

(** The first load, then two periods picked one after the other whose replies
    come in the opposite order. *)
Lemma overview_reordered answer p0 p p' : (forall p, wf_json (answer p)) -> p0 <> p -> p <> p' ->
  exists st, reachable loader (serving answer) any_order (p0, 0%nat) first_state st /\
    due st = false /\ pending st = [] /\ current st = (p', 0%nat) /\
    view st = {| data := Some (answer p); loading := false; refreshing := false; error := None |}.
Proof.
  intros W N0 N. set (rep q := Ret {| rs_status := 200; rs_text := stringify (answer q) |} : result response).
  assert (D : forall (q : Preset * nat) (st : @machine (Preset * nat) state), committed st <> Some q -> current st = q -> due st = true)
    by (intros q st H1 <-; unfold due; by rewrite bool_decide_false).
  assert (O : forall q, outcome_of loader (q, 0%nat) (rep q) = Ret (answer q)) by (intros q; by apply (overview_outcome answer (q, 0%nat) _ W)).
  eexists. split.
  - unfold reachable.
    eapply rtc_l; [apply s_internal, i_commit; by apply (D (p0, 0%nat))|].
    eapply rtc_l; [eapply s_internal, (i_reply loader (serving answer) any_order _ 0 None (p0, 0%nat) (rep p0)); done|].
    eapply rtc_l; [apply (s_change loader _ _ _ (p, 0%nat)); cbn [reply view commit mounted cancelled settle loader]; by rewrite O|].
    eapply rtc_l; [apply s_internal, i_commit; apply (D (p, 0%nat)); cbn; congruence|].
    eapply rtc_l; [apply (s_change loader _ _ _ (p', 0%nat)); cbn [reply view commit change mounted cancelled settle start loader]; by rewrite O|].
    eapply rtc_l; [apply s_internal, i_commit; apply (D (p', 0%nat)); cbn; congruence|].
    eapply rtc_l; [eapply s_internal, (i_reply loader (serving answer) any_order _ 1 None (p', 0%nat) (rep p')); done|].
    eapply rtc_l; [eapply s_internal, (i_reply loader (serving answer) any_order _ 0 None (p, 0%nat) (rep p)); done|]. apply rtc_refl.
  - split_and!; [unfold due; cbn; by rewrite bool_decide_eq_true_2|done|done|].
    cbn [reply view commit change mounted cancelled settle start loader]. by rewrite !O.
Qed.

(** C31: The desktop overview comes to rest within a bound once the user stops,
    the figures and the lists of the setup card alike; with replies in order it
    then shows the figures the gateway answered for the selected period.  There
    is no cancellation: when, after the first load, two periods are picked one
    after the other and their replies arrive in the opposite order, the page
    comes to rest showing the figures of the period selected before, with no
    error and no sign of loading. *)
Theorem overview_loads answer : (forall p, wf_json (answer p)) ->
  settles loader /\ settles setup_loader /\
  (forall q0 v0 st, reachable loader (serving answer) in_order q0 v0 st -> due st = false -> pending st = [] ->
     data (view st) = Some (answer (current st).1) /\ error (view st) = None) /\
  forall p0 p p', p0 <> p -> p <> p' -> exists st, reachable loader (serving answer) any_order (p0, 0%nat) first_state st /\
    due st = false /\ pending st = [] /\ current st = (p', 0%nat) /\
    view st = {| data := Some (answer p); loading := false; refreshing := false; error := None |}.
Proof.
  intros W. split; [by apply loader_settles|]. split; [by apply loader_settles|]. split.
  - intros q0 v0 st R D P. destruct (loader_shows_selected loader eq_refl _ _ _ _ R D P) as (r & v & S & ->).
    by rewrite (overview_outcome _ _ _ W S).
  - intros p0 p p'. by apply overview_reordered.
Qed.

End Page.

(** ** What the page shows *)
Section Shown.
  Context `{Locale} (fmtDay : Z -> jstr) `{TimeZone}.

Record Totals : Type := { t_prompt_tokens : num; t_completion_tokens : num }.
Record Scalars : Type := {
  total_requests : num; success_rate : num; avg_duration_ms : num; avg_ttft_ms : num; s_error_count : num;
}.
Record OverviewResult : Type := {
  agents : list AgentUsage; totals : option Totals; providers : list DimensionUsage; models : list DimensionUsage;
  errors : list ErrorUsage; scalars : option Scalars;
}.

Definition no_result : OverviewResult := {| agents := []; totals := None; providers := []; models := []; errors := []; scalars := None |}.

(** Label, value and whether it is a warning. *)
Definition stat_cards (d : OverviewResult) : list (jstr * jstr * bool) :=
  match scalars d, totals d with
  | Some s, Some t =>
      [(js "总调用", formatNumber (Some (total_requests s)), false);
       (js "成功率", formatPercent (Some (success_rate s)), nlt (success_rate s) (int 1) && nlt (int 0) (total_requests s));
       (js "平均延迟", Format.formatDuration (Some (avg_duration_ms s)), false);
       (js "平均 TTFT", Format.formatDuration (Some (avg_ttft_ms s)), false);
       (js "输入 Token", Format.formatTokens (Some (t_prompt_tokens t)), false);
       (js "输出 Token", Format.formatTokens (Some (t_completion_tokens t)), false)]
  | _, _ => []
  end.

(** A line of a distribution: key, cost, count, errors when there are any, and
    the width of its bar. *)
Record line : Type := { l_key : jstr; l_suffix : option jstr; l_count : jstr; l_errors : option jstr; l_bar : num }.

Definition distribution_line (maxReq : num) (sfx : DimensionUsage -> option jstr) (d : DimensionUsage) : line := {|
  l_key := key d; l_suffix := sfx d; l_count := formatNumber (Some (d_request_count d)) ++ js " 次";
  l_errors := if nlt (int 0) (d_error_count d) then Some (formatNumber (Some (d_error_count d)) ++ js " 错") else None;
  l_bar := bar_width (d_request_count d) maxReq |}.

Definition DistributionCard (empty : jstr) (sfx : DimensionUsage -> option jstr) (items : list DimensionUsage) : jstr + list line :=
  match items with
  | [] => inl empty
  | _ => inr (map (distribution_line (max_of (map d_request_count items)) sfx) items)
  end.

(** The two distributions, unless both are empty. *)
Definition distributions (configs : list ModelForm.Model) (d : OverviewResult) : option ((jstr + list line) * (jstr + list line)) :=
  match providers d, models d with
  | [], [] => None
  | _, _ => Some (DistributionCard (js "暂无供应商维度的请求记录。") (fun _ => None) (providers d),
                  DistributionCard (js "暂无模型维度的请求记录。") (suffix configs) (models d))
  end.

(** The card of an agent. *)
Record agent_card : Type := {
  a_title : label; a_badge : jstr; a_tone : tone; a_calls : jstr; a_calls_bar : num; a_input : jstr; a_output : jstr;
  a_errors : jstr; a_errors_red : bool; a_errors_bar : num; a_averages : jstr; a_link : result jstr;
}.

(** [`/sessions?agent=${encodeURIComponent(a.agent_type)}`] *)
Definition sessions_link (agent : jstr) : result jstr := e ← encodeURIComponent agent; Ret (js "/sessions?agent=" ++ e).

Definition AgentCard (maxReq maxErr : num) (a : AgentUsage) : agent_card := {|
  a_title := agentLabel (agent_type a); a_badge := if str_empty (agent_type a) then js "unknown" else agent_type a; a_tone := agentTone (agent_type a);
  a_calls := formatNumber (Some (request_count a)); a_calls_bar := bar_width (request_count a) maxReq;
  a_input := Format.formatTokens (Some (prompt_tokens a)); a_output := Format.formatTokens (Some (completion_tokens a));
  a_errors := formatNumber (Some (error_count a)); a_errors_red := nlt (int 0) (error_count a); a_errors_bar := bar_width (error_count a) maxErr;
  a_averages := js "平均耗时 " ++ Format.formatDuration (Some (average (duration_ms a) (request_count a))) ++ js " · 平均 TTFT "
                ++ Format.formatDuration (Some (average (ttft_ms a) (request_count a)));
  a_link := sessions_link (agent_type a) |}.

Definition presetLabel (p : Preset) : jstr := from_option snd [] (List.find (fun x => bool_decide (x.1 = p)) PRESETS).

Definition agent_cards (p : Preset) (d : OverviewResult) : jstr + list agent_card :=
  match agents d with
  | [] => inl (js "「" ++ presetLabel p ++ js "」时间段内没有请求记录，让任意 Agent 通过本网关发请求后即可看到统计。")
  | l => inr (map (AgentCard (max_of (map request_count l)) (max_of (map error_count l))) l)
  end.

(** The lines of the error card: type, count and share. *)
Definition error_lines (d : OverviewResult) : list (jstr * jstr) :=
  map (fun e => (error_type e, formatNumber (Some (count e)) ++ js " 次 · "
                  ++ num_to_string (error_row e (from_option s_error_count (int 0) (scalars d))) ++ js "%")) (errors d).

(** The remark that costs are estimates. *)
Definition cost_remark (configs : list ModelForm.Model) (d : OverviewResult) : bool :=
  negb (str_empty (costCurrency configs)) && nlt (int 0) (totalCostMicro configs (models d)).

(** The tabs and the caption beside them. *)
Definition preset_tabs (p : Preset) : list (jstr * bool) := map (fun x => (x.2, bool_decide (x.1 = p))) PRESETS.
Definition caption (p : Preset) (now : Z) : jstr := rangeText fmtDay p now.

(** [Promise.all] of the three lists; any failure leaves no setup state. *)
Definition setup_state (ps : result (list ProviderForm.Provider)) (ms rs : result nat) : option setup :=
  match ps, ms, rs with Ret p, Ret m, Ret r => Some {| s_providers := p; s_models := m; s_routes := r |} | _, _, _ => None end.

(** The link of an agent's card opens the session list filtered by that agent,
    whatever characters its name has. *)
Theorem agent_link_filters maxReq maxErr a : isWellFormed (agent_type a) = true -> wf_str (agent_type a) ->
  exists href, a_link (AgentCard maxReq maxErr a) = Ret href /\
    Sessions.agent (Sessions.first_query (usp_get (search_of href) (js "agent"))) = agent_type a.
Proof.
  intros W U. destruct (component_param (js "agent") (agent_type a)) as (e & E & P & _);
    [done|apply (bool_decide_unpack _); by vm_compute..|by vm_compute|done|done|].
  exists (js "/sessions?agent=" ++ e). split; [cbn; unfold sessions_link; by rewrite E|].
  assert (search_of (js "/sessions?agent=" ++ e) = [(js "agent", agent_type a)]) as -> by exact P.
  reflexivity.
Qed.

(** What failed earlier stays beside figures that are shown, and the first
    failure is the page. *)
Lemma failure_shown v r : let v' := finish r (begin v) in
  page_body v' = match r with
               | Ret _ => Shown None
               | Throw e => match exn_message e with
                            | [] => Shown None
                            | m => if truthy (data v) then Shown (Some m) else Failed m
                            end
               end.
Proof. destruct r as [d|e]; [done|]. cbn. unfold page_body. cbn [loading error data finish]. by destruct (exn_message e). Qed.

End Shown.

(** ** Witness *)

Definition sample_answer (p : Preset) : json := JObj [(js "today", JBool (bool_decide (p = Today)))].

Lemma overview_loads_witness : exists st,
  reachable (loader (fixed_zone 0) 0) (serving sample_answer) any_order (AllTime, 0%nat) first_state st /\
  due st = false /\ pending st = [] /\ current st = (Week, 0%nat) /\ data (view st) = Some (sample_answer Today).
Proof.
  assert (W : forall p, wf_json (sample_answer p)).
  { intros p. split; [reflexivity|]. split; [split; [|exact I]|exact I]. cbn [fst].
    let l := eval vm_compute in (js "today") in change (js "today") with l. repeat apply Forall_cons_2; try apply Forall_nil_2; unfold unit_ok; lia. }
  destruct (overview_loads (fixed_zone 0) 0 (fun x _ => x) sample_answer W) as (_ & _ & _ & H).
  destruct (H AllTime Today Week ltac:(discriminate) ltac:(discriminate)) as (st & R & D & P & C & V).
  exists st. split; [exact R|]. split; [exact D|]. split; [exact P|]. split; [exact C|]. rewrite V. reflexivity.
Defined.
