(* ===== verification/DesktopPages.v ===== *)
(** * Pages and frame of the desktop UI

    The provider, model and route pages around their forms
    ([desktop-ui/src/pages/Providers.tsx], [Models.tsx], [Routes.tsx]): loading,
    tables and dialogs; the pane of one request in [pages/TraceViewer.tsx]; and the frame of the application: sidebar
    ([components/layout/sidebar.tsx]), tabs ([components/ui/tabs.tsx]) and the
    keyboard shortcut ([App.tsx]). *)

From stdpp Require Import relations.
From S2P Require Import Prelude JsNumber Money JsString Json JsonPretty Trace JsonTree DesktopApi Format ConfigForms Loaders ListPages.

(** ** Configuration pages *)
Module ConfigPage.

(** The hooks: the lists as they were received, in the order of the requests. *)
Record view : Type := { lists : list json; loading : bool; error : option jstr }.

(** Every list starts empty. *)
Definition no_lists (n : nat) : view := {| lists := replicate n (JArr []); loading := true; error := None |}.

Definition begin (v : view) : view := {| lists := lists v; loading := true; error := error v |}.

(** [then], [catch] and [finally] of the model and route pages. *)
Definition finish (r : result json) (v : view) : view :=
  match r with
  | Ret (JArr ls) => {| lists := ls; loading := false; error := None |}
  | Ret _ => {| lists := lists v; loading := false; error := error v |}
  | Throw e => {| lists := lists v; loading := false; error := Some (exn_message e) |}
  end.

(** [for (const h of health)] with [h.provider] read of every element. *)
Definition health_error (health : json) : option jstr :=
  match health with
  | JArr l => if existsb (fun h => match h with JNull => true | _ => false end) l
              then Some (js "Cannot read properties of null (reading 'provider')") else None
  | JStr _ => None
  | _ => Some (js "health is not iterable")
  end.

(** The provider page goes through the health list in [then]: a reply it cannot
    go through raises there, after the rows were set. *)
Definition finish_providers (r : result json) (v : view) : view :=
  match r with
  | Ret (JArr [rows; health]) =>
      match health_error health with
      | None => {| lists := [rows; health]; loading := false; error := None |}
      | Some e => {| lists := rows :: tail (lists v); loading := false; error := Some e |}
      end
  | Ret _ => {| lists := lists v; loading := false; error := error v |}
  | Throw e => {| lists := lists v; loading := false; error := Some (exn_message e) |}
  end.

Lemma finish_loading r v : loading (finish r v) = false.
Proof. by destruct r as [[]|]. Qed.

Lemma finish_providers_loading r v : loading (finish_providers r v) = false.
Proof. destruct r as [[| | | |l|]|]; try done. destruct l as [|? [|h [|? ?]]]; try done.
  cbn. by destruct (health_error h).
Qed.

Section Loaders.
  Context (first_rejected : exn -> list exn -> exn).

Definition load_providers (Net : Type) (F : Fetch Net) (q : unit) : D Net json :=
  promise_all first_rejected [listProviders; or_no_list getProviderHealth].
Definition load_models (Net : Type) (F : Fetch Net) (q : unit) : D Net json :=
  promise_all first_rejected [listModels; listProviders].
Definition load_routes (Net : Type) (F : Fetch Net) (q : unit) : D Net json :=
  promise_all first_rejected [listRoutes; listModels; listProviders].

(** [useEffect(load, [])], and [load()] again after every change; there is no
    cleanup. *)
Definition providers_loader : Loader unit view := {|
  call := load_providers; start := begin; settle := finish_providers; busy := loading; cancels := false; polls := false;
  refetches := true; offers := fun v => negb (loading v); settle_done := finish_providers_loading; cancels_only := fun E => match E in _ = b return (if b then true = false else True) with eq_refl => I end |}.
Definition models_loader : Loader unit view := {|
  call := load_models; start := begin; settle := finish; busy := loading; cancels := false; polls := false;
  refetches := true; offers := fun v => negb (loading v); settle_done := finish_loading; cancels_only := fun E => match E in _ = b return (if b then true = false else True) with eq_refl => I end |}.
Definition routes_loader : Loader unit view := {|
  call := load_routes; start := begin; settle := finish; busy := loading; cancels := false; polls := false;
  refetches := true; offers := fun v => negb (loading v); settle_done := finish_loading; cancels_only := fun E => match E in _ = b return (if b then true = false else True) with eq_refl => I end |}.

(** The pages come to rest; with replies in order they then show the answer to
    the last load. *)
Lemma config_pages_rest : settles providers_loader /\ settles models_loader /\ settles routes_loader /\
  shows_last_asked providers_loader /\ shows_last_asked models_loader /\ shows_last_asked routes_loader.
Proof. split_and!; first [by apply loader_settles|apply loader_shows_last]. Qed.

End Loaders.

(** *** Dialogs *)

(** [Row] is the type of the rows; they are deleted by name. *)
Section Dialogs.
  Context {Row : Type}.

Record dialogs : Type := { createOpen : bool; editRow : option Row; detailRow : option Row; deleting : option jstr }.

Definition closed : dialogs := {| createOpen := false; editRow := None; detailRow := None; deleting := None |}.

Inductive event : Type :=
  | OpenCreate | CloseCreate | Created
  | Edit (row : Row) | CloseEdit | Edited
  | Detail (row : Row) | CloseDetail
  | AskDelete (name : jstr) | CancelDelete | Deleted.

(** The dialogs after an event, and whether it reloads the lists.  [Created],
    [Edited] and [Deleted] are the successes. *)
Definition handle (d : dialogs) (e : event) : dialogs * bool :=
  let set c ed de dl := {| createOpen := c; editRow := ed; detailRow := de; deleting := dl |} in
  match e with
  | OpenCreate => (set true (editRow d) (detailRow d) (deleting d), false)
  | CloseCreate => (set false (editRow d) (detailRow d) (deleting d), false)
  | Created => (set false (editRow d) (detailRow d) (deleting d), true)
  | Edit row => (set (createOpen d) (Some row) (detailRow d) (deleting d), false)
  | CloseEdit => (set (createOpen d) None (detailRow d) (deleting d), false)
  | Edited => (set (createOpen d) None (detailRow d) (deleting d), true)
  | Detail row => (set (createOpen d) (editRow d) (Some row) (deleting d), false)
  | CloseDetail => (set (createOpen d) (editRow d) None (deleting d), false)
  | AskDelete name => (set (createOpen d) (editRow d) (detailRow d) (Some name), false)
  | CancelDelete => (set (createOpen d) (editRow d) (detailRow d) None, false)
  | Deleted => (set (createOpen d) (editRow d) (detailRow d) None, match deleting d with Some _ => true | None => false end)
  end.

End Dialogs.
Arguments dialogs : clear implicits.

(** *** Rendering *)

(** [v.length] of what the gateway sent: [NaN] stands for [undefined], which
    numbers, booleans and objects give. *)
Definition length_of (v : unknown) : result num :=
  match v with
  | None => Throw (err_type (js "Cannot read properties of undefined (reading 'length')"))
  | Some JNull => Throw (err_type (js "Cannot read properties of null (reading 'length')"))
  | Some (JArr l) => Ret (int (Z.of_nat (length l)))
  | Some (JStr s) => Ret (int (Z.of_nat (length s)))
  | Some _ => Ret NaN
  end.

(** [v.length > 0] *)
Definition has_any (v : unknown) : result bool := n ← length_of v; Ret (nlt (int 0) n).

(** [rows.length === 0 ? empty : rows.map(...)] *)
Definition as_rows (v : unknown) : result (list json) :=
  n ← length_of v;
  if neqb n (int 0) then Ret []
  else match v with Some (JArr l) => Ret l | _ => Throw (err_type (js "rows.map is not a function")) end.

Lemma as_rows_arr l : as_rows (Some (JArr l)) = Ret l.
Proof. by destruct l. Qed.

Lemma has_any_arr l : has_any (Some (JArr l)) = Ret (match l with [] => false | _ => true end).
Proof. by destruct l. Qed.

(** Skeleton, or the page with the text for an empty table or its rows. *)
Inductive page (A : Type) : Type := PSkeleton | PTable (alert : option jstr) (notice : bool) (rows : jstr + list A).
Arguments PSkeleton {A}.
Arguments PTable {A} alert notice rows.

Definition alert_of (v : view) : option jstr := match error v with Some (c :: e) => Some (c :: e) | _ => None end.

(** [needed] is the list that must not be empty for "create" to be offered;
    without it there is a notice instead.  Its length is read before the
    skeleton is chosen. *)
Definition render {A} (empty : jstr) (needed : option nat) (cells : list json -> json -> A) (v : view) : result (page A) :=
  offered ← match needed with None => Ret true | Some i => has_any (lists v !! i) end;
  if loading v then Ret PSkeleton
  else
    rows ← as_rows (lists v !! 0%nat);
    Ret (PTable (alert_of v) (negb offered) (match rows with [] => inl empty | _ => inr (map (cells (lists v)) rows) end)).

Definition Providers {A} (cells : list json -> json -> A) : view -> result (page A) := render (js "暂无供应商。") None cells.
Definition Models {A} (cells : list json -> json -> A) : view -> result (page A) := render (js "暂无模型") (Some 1%nat) cells.
Definition Routes {A} (cells : list json -> json -> A) : view -> result (page A) := render (js "暂无路由。") (Some 1%nat) cells.

(** *** Properties *)

(** A gateway that answers every request with the value [v]. *)
Definition says (v : json) : result response := Ret {| rs_status := 200; rs_text := stringify v |}.

Lemma get_says (path : jstr) ps v log : wf_json v ->
  exists log', @getJSON unit (answered (says v)) path ps (tt, log) = (Ret v, (tt, log')).
Proof.
  intros W. unfold getJSON, send, says, answered, mbind, D_bind. cbn. rewrite json_parse_stringify by done. eauto.
Qed.

Lemma all_ret n v : rejections (replicate n (Ret v)) = [] /\ values (replicate n (Ret v)) = replicate n v.
Proof. induction n as [|n [IH1 IH2]]; [done|]. split; [exact IH1|]. cbn. by f_equal. Qed.

Lemma settle_says fr v paths : wf_json v -> forall log,
  exists log', promise_all fr (map (fun p => @getJSON unit (answered (says v)) p []) paths) (tt, log) = (Ret (JArr (replicate (length paths) v)), (tt, log')).
Proof.
  intros W. assert (forall log, exists log', settle_all (map (fun p => @getJSON unit (answered (says v)) p []) paths) (tt, log)
    = (Ret (replicate (length paths) (Ret v)), (tt, log'))) as S.
  { induction paths as [|p paths IH]; intros log; [by exists log|]. cbn [map settle_all length replicate].
    destruct (get_says p [] v log W) as [l1 E1]. destruct (IH l1) as [l2 E2]. exists l2.
    unfold mbind, D_bind, settled. rewrite E1. unfold mbind, D_bind in E2. by rewrite E2. }
  intros log. destruct (S log) as [l E]. exists l. unfold promise_all, mbind, D_bind. unfold mbind, D_bind in E. rewrite E.
  destruct (all_ret (length paths) v) as [-> ->]. done.
Qed.

Lemma routes_says fr v : wf_json v -> outcome_of (routes_loader fr) tt (says v) = Ret (JArr [v; v; v]).
Proof.
  intros W. unfold outcome_of. cbn [call routes_loader]. unfold load_routes, listRoutes, listModels, listProviders.
  destruct (settle_says fr v [js "/routes"; js "/models"; js "/providers"] W []) as [l E]. cbn [map] in E. by rewrite E.
Qed.

Lemma models_says fr v : wf_json v -> outcome_of (models_loader fr) tt (says v) = Ret (JArr [v; v]).
Proof.
  intros W. unfold outcome_of. cbn [call models_loader]. unfold load_models, listModels, listProviders.
  destruct (settle_says fr v [js "/models"; js "/providers"] W []) as [l E]. cbn [map] in E. by rewrite E.
Qed.

(** The configuration pages of the desktop UI come to rest after every
    load.  Answered with lists, the route page shows exactly their rows; but
    answered with [null] for a list, as the gateway does when the configuration
    has none, the model and route pages raise a TypeError instead of showing an
    empty table. *)
Theorem config_pages_lists fr (l : list json) v {A} (cells : list json -> json -> A) : wf_json (JArr l) ->
  settles (providers_loader fr) /\ settles (models_loader fr) /\ settles (routes_loader fr) /\
  Routes cells (settle (Loader := routes_loader fr) (outcome_of (routes_loader fr) tt (says (JArr l))) v)
    = Ret (PTable None (match l with [] => true | _ => false end) (match l with [] => inl (js "暂无路由。") | _ => inr (map (cells [JArr l; JArr l; JArr l]) l) end)) /\
  (exists e, Routes cells (settle (Loader := routes_loader fr) (outcome_of (routes_loader fr) tt (says JNull)) v) = Throw e /\
     exn_message e = js "Cannot read properties of null (reading 'length')") /\
  exists e, Models cells (settle (Loader := models_loader fr) (outcome_of (models_loader fr) tt (says JNull)) v) = Throw e /\
     exn_message e = js "Cannot read properties of null (reading 'length')".
Proof.
  intros W. split_and!; try by apply loader_settles.
  - rewrite routes_says by done. by destruct l.
  - rewrite routes_says by done. eexists. by split.
  - rewrite models_says by done. eexists. by split.
Qed.

(** When the first load fails, the model and route pages add to the error that
    a provider or a model has to be created first. *)
Theorem failed_load_misleads {A} (cells : list json -> json -> A) e c m : exn_message e = c :: m ->
  Models cells (finish (Throw e) (begin (no_lists 2))) = Ret (PTable (Some (c :: m)) true (inl (js "暂无模型"))) /\
  Routes cells (finish (Throw e) (begin (no_lists 3))) = Ret (PTable (Some (c :: m)) true (inl (js "暂无路由。"))).
Proof. intros E. unfold Models, Routes, render, finish, alert_of. cbn. by rewrite E. Qed.

(** A success closes its own dialog, reloads, and leaves the others alone. *)
Lemma success_reloads {Row} (d : dialogs Row) e : e = Created \/ e = Edited ->
  (handle d e).2 = true /\ detailRow (handle d e).1 = detailRow d /\ deleting (handle d e).1 = deleting d /\
  (e = Created -> createOpen (handle d e).1 = false) /\ (e = Edited -> editRow (handle d e).1 = None).
Proof. by intros [-> | ->]. Qed.

End ConfigPage.

(** ** Rows of the configuration pages *)
Module ConfigCells.
Import ConfigForms.

(** [adapter] as the badge of an endpoint names it *)
Definition adapter_label (adapter : jstr) : jstr :=
  if streq adapter (js "claude") then js "Anthropic" else if streq adapter (js "openai") then js "OpenAI" else adapter.

(** Name, type, endpoints ([None] for the dash), health badges. *)
Definition provider_row (formatTimeShort : jstr -> jstr) (healthMap : Health.health_map) (p : ProviderForm.Provider) :
  jstr * jstr * option (list (jstr * jstr)) * option (list Health.badge) :=
  (ProviderForm.p_name p, ProviderForm.p_type p,
   match ProviderForm.p_endpoints p with
   | [] => None
   | eps => Some (map (fun ep => (adapter_label (ProviderForm.ep_adapter ep), ProviderForm.ep_base_url ep)) eps)
   end,
   Health.HealthBadges formatTimeShort (default [] (Health.get healthMap (ProviderForm.p_name p)))).

(** One upstream of a model, on one line. *)
Definition upstream_text (u : ModelForm.ModelUpstream) : jstr :=
  ModelForm.provider u ++ js " · " ++ ModelForm.upstream_model u
  ++ match ModelForm.pricing u with
     | None => []
     | Some p => js " · " ++ Money.Desktop.microToDisplay (ModelForm.prompt_per_1m p) ++ js "/"
                 ++ Money.Desktop.microToDisplay (ModelForm.completion_per_1m p) ++ js " per 1M"
     end
  ++ match ModelForm.pricing u ≫= ModelForm.cache_hit_multiplier with
     | Some m => if num_truthy m then js " · cache " ++ num_to_string (ndiv m (int 10000)) ++ js "%" else []
     | None => []
     end.

(** Alias, and the upstreams or the text for none. *)
Definition model_row (m : ModelForm.Model) : jstr * (jstr + list jstr) :=
  (ModelForm.alias m, match ModelForm.upstreams m with [] => inl (js "无上游") | us => inr (map upstream_text us) end).

Definition provider_text (mark : jstr) (p : RouteForm.RouteProvider) : jstr :=
  RouteForm.rp_name p ++ match RouteForm.rp_weight p with Some w => mark ++ num_to_string w | None => [] end.

Definition provider_list (mark : jstr) (r : RouteForm.Route) : jstr + list jstr :=
  match RouteForm.providers r with [] => inl (js "暂无供应商") | ps => inr (map (provider_text mark) ps) end.

(** The row of the table, and the dialog with the details. *)
Definition route_row (r : RouteForm.Route) : jstr * label * (jstr + list jstr) :=
  (RouteForm.model_alias r,
   if str_empty (RouteForm.strategy r) then Text (js "-") else RouteForm.strategyLabel (Some (RouteForm.strategy r)),
   provider_list (js " ·") r).
Definition RouteDetail (r : RouteForm.Route) : jstr * label * (jstr + list jstr) :=
  (RouteForm.model_alias r, RouteForm.strategyLabel (Some (RouteForm.strategy r)), provider_list (js " · weight: ") r).

(** The questions of the three deletions, empty without a row. *)
Definition ask (before after : jstr) (deleting : option jstr) : jstr :=
  match deleting with Some name => before ++ name ++ after | None => [] end.
Definition delete_provider_message : option jstr -> jstr := ask (js "删除供应商 " ++ [34]) ([34] ++ js "?").
Definition delete_model_message : option jstr -> jstr := ask (js "确定要删除模型「") (js "」吗？需先移除引用它的路由。").
Definition delete_route_message : option jstr -> jstr := ask (js "确认删除路由 " ++ [34]) ([34] ++ js "？").

(** The prices and the cache rate in the table are the texts the edit form
    starts with, when the stored multiplier is not negative. *)
Theorem upstream_as_edited uuid (u : ModelForm.ModelUpstream) :
  (forall m, ModelForm.pricing u ≫= ModelForm.cache_hit_multiplier = Some m -> num_truthy m = nlt (int 0) m) ->
  let d := ModelForm.toDraft uuid u in
  upstream_text u = ModelForm.ud_provider d ++ js " · " ++ ModelForm.ud_upstream_model d
    ++ match ModelForm.pricing u with
       | None => []
       | Some _ => js " · " ++ ModelForm.ud_prompt_price d ++ js "/" ++ ModelForm.ud_completion_price d ++ js " per 1M"
       end
    ++ match ModelForm.pricing u ≫= ModelForm.cache_hit_multiplier with
       | Some m => if nlt (int 0) m then js " · cache " ++ ModelForm.ud_cache_hit_pct d ++ js "%" else []
       | None => []
       end.
Proof.
  intros H d. unfold d, upstream_text, ModelForm.toDraft.
  cbn [ModelForm.ud_provider ModelForm.ud_upstream_model ModelForm.ud_prompt_price ModelForm.ud_completion_price ModelForm.ud_cache_hit_pct].
  destruct (ModelForm.pricing u) as [p|]; [|done]. cbn [mbind option_bind] in *. destruct (ModelForm.cache_hit_multiplier p) as [m|]; [|done].
  rewrite (H m eq_refl). by destruct (nlt (int 0) m).
Qed.

(** A route without strategy is a dash in the table and blank in the details;
    any other is named alike in both. *)
Theorem strategy_shown (r : RouteForm.Route) :
  if str_empty (RouteForm.strategy r) then (route_row r).1.2 = Text (js "-") /\ (RouteDetail r).1.2 = Text []
  else (route_row r).1.2 = (RouteDetail r).1.2.
Proof.
  unfold route_row, RouteDetail. cbn [fst snd]. destruct (str_empty (RouteForm.strategy r)) eqn:E; [|done].
  split; [done|]. destruct (RouteForm.strategy r); [by vm_compute|done].
Qed.

(** The health badges of a row are those of the endpoints the gateway reported
    under the provider's name, in its order. *)
Theorem row_health fmt health p :
  (provider_row fmt (Health.load_health health) p).2
  = Health.HealthBadges fmt (List.filter (fun h => streq (Health.provider h) (ProviderForm.p_name p)) health).
Proof. cbn. by rewrite Health.load_health_spec. Qed.

End ConfigCells.

(** ** Frame *)
Module Frame.

(** [sectionMatch(href)] *)
Definition sectionMatch (href pathname : jstr) : bool := streq pathname href || startsWith (href ++ js "/") pathname.

Record item : Type := { to : jstr; label : jstr; matches : jstr -> bool }.

Definition section (name text : string) : item := {| to := js name; label := js text; matches := sectionMatch (js name) |}.

Definition configItems : list item := [
  {| to := js "/"; label := js "概览"; matches := fun p => streq p (js "/") |};
  section "/providers" "供应商"; section "/models" "模型"; section "/routes" "路由";
  section "/playground" "连通性测试"; section "/settings" "设置"].

Definition observeItems : list item := [
  {| to := js "/sessions"; label := js "会话浏览器"; matches := fun p => sectionMatch (js "/sessions") p || sectionMatch (js "/trace") p |};
  section "/request-logs" "请求日志"; section "/prompts" "Prompt 收藏"; section "/logs" "运行日志"].

Definition sidebar : list item := configItems ++ observeItems.

(** The links in order, each with its state. *)
Definition Sidebar (pathname : jstr) : list (jstr * jstr * bool) := map (fun i => (to i, label i, matches i pathname)) sidebar.

(** [isMac] is the test on the user agent. *)
Definition reloadShortcut (isMac : bool) : jstr := if isMac then js "⌘R" else js "Ctrl+R".
Definition reload_title (isMac : bool) : jstr := js "重载配置 (" ++ reloadShortcut isMac ++ js ")".

(** [onKeyDown]: the key is lower-cased by [lower]. *)
Definition onKeyDown {Net} `{Fetch Net} (lower : jstr -> jstr) (ctrlKey metaKey : bool) (key : jstr) : D Net unit :=
  if (ctrlKey || metaKey) && streq (lower key) (js "r") then reloadConfigWithToast else mret tt.

(** The dialog before quitting: closed first, then the request. *)
Definition onQuit {Net} `{Fetch Net} (quitOpen : bool) : D Net bool := _ ← quitAppWithToast; mret false.

(** The paths with a page; [:sessionId] stands for one segment. *)
Definition routes : list jstr :=
  map js ["/"; "/sessions"; "/request-logs"; "/logs"; "/trace/:sessionId"; "/providers"; "/models"; "/routes"; "/settings"; "/playground"; "/prompts"].

(** *** Tabs *)

Record TabItem : Type := { tab_value : jstr; tab_label : jstr; disabled : bool }.

(** [useState(defaultValue ?? items[0]?.value ?? "")] *)
Definition initial (items : list TabItem) (defaultValue : option jstr) : jstr :=
  match defaultValue with Some v => v | None => match items with i :: _ => tab_value i | [] => [] end end.

Definition active (value : option jstr) (internal : jstr) : jstr := default internal value.

(** The internal state after a click, and the call of [onValueChange]. *)
Definition handleClick (value : option jstr) (internal : jstr) (v : jstr) (is_disabled : bool) : jstr * option jstr :=
  if is_disabled then (internal, None) else (match value with None => v | Some _ => internal end, Some v).

(** The buttons: value, selected, disabled. *)
Definition Tabs (items : list TabItem) (value : option jstr) (internal : jstr) : list (jstr * bool * bool) :=
  map (fun it => (tab_value it, streq (tab_value it) (active value internal), disabled it)) items.

(** *** Properties *)

(** The first segments of the paths that highlight an item. *)
Definition heads (i : item) : list jstr :=
  if streq (to i) (js "/") then [[]] else if streq (to i) (js "/sessions") then [js "sessions"; js "trace"] else [drop 1 (to i)].

Lemma sectionMatch_head w p : 47 ∉ w -> sectionMatch (47 :: w) p = true -> split_char 47 p !! 1%nat = Some w.
Proof.
  intros N M. unfold sectionMatch in M. apply orb_true_iff in M as [E|E].
  - apply streq_true in E as ->. cbn. by rewrite split_char_none.
  - apply startsWith_spec in E as [r ->]. change (js "/") with [47]. cbn [app]. rewrite <- app_assoc. cbn [app].
    cbn [split_char]. rewrite Z.eqb_refl. by rewrite split_char_app.
Qed.

(** An item is active only where the first segment is one of its own. *)
Lemma active_head i p : i ∈ sidebar -> matches i p = true -> exists w, w ∈ heads i /\ split_char 47 p !! 1%nat = Some w.
Proof.
  intros I M. unfold sidebar, configItems, observeItems, section in I. cbn [app] in I.
  repeat (apply elem_of_cons in I as [->|I]); [..|by apply elem_of_nil in I]; cbn [matches] in M.
  1: apply streq_true in M as ->; exists []; split; [by apply list_elem_of_singleton|by vm_compute].
  6: apply orb_true_iff in M as [M|M].
  all: match type of M with sectionMatch (js ?s) _ = true =>
         let l := eval vm_compute in (js s) in
         match l with _ :: ?w => change (sectionMatch (47 :: w) p = true) in M; apply sectionMatch_head in M;
           [exists w; split; [|exact M]; apply (bool_decide_unpack _); by vm_compute|apply (bool_decide_unpack _); by vm_compute] end end.
Qed.

(** At every path at most one link of the sidebar is highlighted. *)
Theorem one_active p i j a b : sidebar !! i = Some a -> sidebar !! j = Some b -> matches a p = true -> matches b p = true -> i = j.
Proof.
  intros Ia Ib Ma Mb.
  destruct (active_head a p) as (w & Wa & Ea); [by eapply list_elem_of_lookup_2|done|].
  destruct (active_head b p) as (w' & Wb & Eb); [by eapply list_elem_of_lookup_2|done|].
  rewrite Ea in Eb. injection Eb as <-.
  assert (D : Forall (fun i => Forall (fun j => i = j \/
            Forall (fun w => w ∉ from_option heads [] (sidebar !! j)) (from_option heads [] (sidebar !! i))) (seq 0 10)) (seq 0 10)).
  { apply (bool_decide_unpack _). by vm_compute. }
  pose proof (lookup_lt_Some _ _ _ Ia) as La. pose proof (lookup_lt_Some _ _ _ Ib) as Lb. change (length sidebar) with 10%nat in La, Lb.
  rewrite Forall_forall in D. specialize (D i ltac:(apply elem_of_seq; lia)). rewrite Forall_forall in D.
  specialize (D j ltac:(apply elem_of_seq; lia)). rewrite Ia, Ib in D. destruct D as [D|D]; [done|].
  rewrite Forall_forall in D. by destruct (D w Wa).
Qed.

(** Every page of the application has its link highlighted, the trace viewer
    that of the sessions; and every link leads to a page. *)
Theorem pages_linked :
  Forall (fun r => exists i, i ∈ sidebar /\ matches i r = true) routes /\ Forall (fun i => to i ∈ routes /\ matches i (to i) = true) sidebar.
Proof.
  split; [|apply (bool_decide_unpack _); by vm_compute].
  assert (F : Forall (fun r => existsb (fun i => matches i r) sidebar = true) routes) by (apply (bool_decide_unpack _); by vm_compute).
  eapply Forall_impl; [exact F|]. intros r E. apply existsb_exists in E as (i & I & M). exists i. split; [by apply list_elem_of_In|done].
Qed.

(** A click on an enabled tab selects it, unless the owner keeps another value;
    the owner is told in both cases.  A disabled one does nothing. *)
Theorem tab_click items value internal it : it ∈ items ->
  let '(internal', told) := handleClick value internal (tab_value it) (disabled it) in
  if disabled it then internal' = internal /\ told = None
  else told = Some (tab_value it) /\ (value = None -> (tab_value it, true, false) ∈ Tabs items None internal').
Proof.
  intros I. unfold handleClick. destruct (disabled it) eqn:D; [done|]. split; [done|]. intros ->.
  apply list_elem_of_fmap. exists it. split; [|done]. cbn. by rewrite D, streq_refl.
Qed.

End Frame.

(** ** The pane of one request *)
Module DetailView.

Record TraceSummary : Type := {
  id : num; request_id : jstr; session_id : jstr; trace_id : jstr; tenant : jstr; provider : jstr; model_requested : jstr; stream : bool;
  agent_type : jstr; status_code : num; stop_reason : jstr; n_messages : num; n_tool_use : num; created_at : jstr;
}.
Record TraceDetail : Type := { summary : TraceSummary; d_messages : json; d_request_raw : json; d_response_raw : jstr; error_raw : jstr }.

(** What the tree of the messages reads of it. *)
Definition like (d : TraceDetail) : TraceDetailLike :=
  {| messages := Some (d_messages d); request_raw := Some (d_request_raw d); response_raw := Some (JStr (d_response_raw d)) |}.

Definition isError (d : TraceDetail) : bool := nle (int 400) (status_code (summary d)).

(** The heading: badges with their tones, model, short identifier, and whether
    it is marked as a failure. *)
Definition heading (d : TraceDetail) : (jstr * tone) * (Format.label * tone) * jstr * jstr * bool :=
  let s := summary d in
  ((js "HTTP " ++ num_to_string (status_code s), statusTone (Some (status_code s))), (agentLabel (agent_type s), agentTone (agent_type s)),
   model_requested s, shortId (Some (request_id s)) 18, isError d).

Definition or_dash (v : jstr) : jstr := if str_empty v then js "—" else v.

Definition MetadataCard `{Locale} (d : TraceDetail) : list (jstr * jstr) :=
  let s := summary d in
  [(js "Provider", provider s); (js "Stream", if stream s then js "是" else js "否"); (js "Stop Reason", or_dash (stop_reason s));
   (js "Messages", num_to_string (n_messages s)); (js "Tool Uses", num_to_string (n_tool_use s)); (js "Tenant", or_dash (tenant s));
   (js "Trace ID", shortId (Some (trace_id s)) 18); (js "Created At", formatTime (Some (created_at s)))].

Definition shown_tabs (d : TraceDetail) : list jstr := Metrics.tabs (negb (str_empty (d_response_raw d))) (negb (str_empty (error_raw d))).

Inductive panel : Type :=
  | Messages (tree : result (option (list SectionView)))
  | Tree (v : json)
  | Failure (s : jstr)
  | Blank.

Definition shown_panel (t : jstr -> jstr) (d : TraceDetail) (previous : option TraceDetail) (activeTab : jstr) : panel :=
  if streq activeTab (js "messages") then Messages (TraceCategories t (like d) (like <$> previous))
  else if streq activeTab (js "request") then Tree (d_request_raw d)
  else if streq activeTab (js "response") then if str_empty (d_response_raw d) then Blank else Tree (JStr (d_response_raw d))
  else if streq activeTab (js "error") then if str_empty (error_raw d) then Blank else Failure (error_raw d)
  else Blank.

(** The copy buttons: key, label and text. *)
Definition copy_buttons (copied : option jstr) (d : TraceDetail) : list (jstr * jstr * jstr) :=
  let button k label v := (js k, if bool_decide (copied = Some (js k)) then js "已复制" else js label, stringify_pretty 0 v) in
  [button "prompt" "复制 prompt" (d_request_raw d); button "raw" "复制 messages" (d_messages d)].

(** [onCopy]: a button marked as used, for as long as its time-out runs. *)
Record marks : Type := { copied : option jstr; timers : nat }.

Inductive event : Type := Copied (key : jstr) | Elapsed.

Definition onCopied (m : marks) (e : event) : marks :=
  match e with
  | Copied key => {| copied := Some key; timers := S (timers m) |}
  | Elapsed => match timers m with O => m | S n => {| copied := None; timers := n |} end
  end.

(** Every tab that is offered has something to show, and the effect that leaves
    a tab the row does not have ends on one that is offered. *)
Theorem panel_shown t d previous tab : let tab' := Metrics.snap_tab (negb (str_empty (d_response_raw d))) (negb (str_empty (error_raw d))) tab in
  tab' ∈ shown_tabs d /\ shown_panel t d previous tab' <> Blank.
Proof.
  intros tab'. assert (M : tab' ∈ shown_tabs d).
  { unfold tab', Metrics.snap_tab, shown_tabs. destruct (existsb _ _) eqn:E; [|by left].
    apply existsb_exists in E as (x & I & X). apply streq_true in X as ->. by apply list_elem_of_In. }
  split; [done|]. clearbody tab'. unfold shown_tabs, Metrics.tabs in M. rewrite !elem_of_app in M. unfold shown_panel.
  destruct M as [M|[M|M]].
  - apply elem_of_cons in M as [->|M%list_elem_of_singleton]; [by rewrite streq_refl|subst tab']. by destruct (streq _ _).
  - destruct (str_empty (d_response_raw d)) eqn:R; [by apply elem_of_nil in M|]. apply list_elem_of_singleton in M as ->. by vm_compute.
  - destruct (str_empty (error_raw d)) eqn:R; [by apply elem_of_nil in M|]. apply list_elem_of_singleton in M as ->. by vm_compute.
Qed.

(** What is copied is the stored request and the stored messages: the texts
    parse to them. *)
Theorem copied_parses c d : wf_json (d_request_raw d) -> wf_json (d_messages d) ->
  map (fun b => json_parse b.2) (copy_buttons c d) = [Ret (d_request_raw d); Ret (d_messages d)].
Proof. intros R M. unfold copy_buttons. cbn [map snd]. by rewrite !json_parse_pretty. Qed.

(** Time-outs are not cancelled: the first one takes the mark of a button used
    after it away while that button's own is still running. *)
Lemma mark_cut_short a b : fold_left onCopied [Copied a; Copied b; Elapsed] {| copied := None; timers := 0 |} = {| copied := None; timers := 1 |}.
Proof. done. Qed.

End DetailView.
