(* ===== verification/BudgetViews.v ===== *)
(** * Budgets and tenancy pages of the Control Panel

    The budgets page and the page of one budget
    ([web/src/app/[locale]/(dashboard)/budgets/client.tsx], [budgets/[id]/page.tsx]),
    the attribution card of the applications page, and the create dialogs of
    the tenant, group and application pages with their forms. *)

From S2P Require Import Prelude JsNumber Money JsString Json AdminRuntime FormActions TenantActions DesktopApi Format Urls AdminPages SearchPages AdminForms AccessForms AdminTables TableViews.
Import View.

(** ** Budgets *)
Module Budgets.

Record BudgetPolicy : Type := {
  p_id : num; p_name : jstr; scope_kind : jstr; scope_ref : jstr; p_environment : jstr; period : jstr; timezone : jstr; p_currency : jstr;
  limit : num; mode : jstr; thresholds : list num; p_enabled : bool; p_version : num; p_created_at : jstr;
}.
Record BudgetEvent : Type := {
  e_id : num; account_id : option num; reservation_id : jstr; kind : jstr; threshold : num; amount : num; operator_id : option num;
  e_reason : jstr; evidence : jstr; e_created_at : jstr;
}.
Record Reservation : Type := {
  r_id : jstr; request_id : jstr; status : jstr; estimate : num; actual : option num; r_currency : jstr; r_reason : jstr; r_version : num;
  r_created_at : jstr;
}.
Record BudgetAccount : Type := {
  a_id : num; period_start : jstr; period_end : jstr; a_currency : jstr; a_limit : num; reserved : num; committed : num; released : num;
  available : num;
}.

(** What a button of a row does. *)
Inductive pressed : Type :=
  | Opens (href : result jstr)
  | EditPolicy (p : BudgetPolicy)
  | EventDetail (e : BudgetEvent)
  | Resolve (r : Reservation).

Definition table : Type := list jstr * (jstr + list (list cell * list (jstr * pressed))).

Section Page.
  (** The translations of [budgets] and [common], whether a message exists, a
      message with arguments, [s.toUpperCase()] and an instant in UTC. *)
  Context (t tc : jstr -> jstr) (has_message : jstr -> bool) (tp : jstr -> list (jstr * jstr) -> jstr) (upper time : jstr -> jstr).

(** [v || d] *)
Definition text_or (v d : jstr) : jstr := if str_empty v then d else v.

Definition money (v : num) (currency : option jstr) : jstr :=
  Web.microToDisplay v ++ js " " ++ text_or (from_option upper [] currency) (t (js "unknownCurrency")).

Definition columns (keys : list string) : list jstr := map (fun k => t (js "fields." ++ js k)) keys.

Definition BudgetTable {A} (headers : list jstr) (emptyTitle : jstr) (row : A -> list cell * list (jstr * pressed)) (rows : list A) : table :=
  (headers, match rows with [] => inl emptyTitle | _ => inr (map row rows) end).

(** [`/budgets/${policy.id}${global ? `?tenant=${encodeURIComponent(tenant)}` : ""}`] *)
Definition account_href (global : bool) (tenant : jstr) (p : BudgetPolicy) : result jstr :=
  q ← (if global then e ← encodeURIComponent tenant; Ret (js "?tenant=" ++ e) else Ret []);
  Ret (js "/budgets/" ++ num_to_string (p_id p) ++ q).

Definition policy_row (global canWrite : bool) (tenant : jstr) (p : BudgetPolicy) : list cell * list (jstr * pressed) :=
  ([[Plain (p_name p)];
    Plain (t (js "scope." ++ scope_kind p)) :: (if str_empty (scope_ref p) then [] else [Muted (scope_ref p ++ js " " ++ p_environment p)]);
    [Plain (t (js "period." ++ period p)); Muted (timezone p)];
    [Plain (money (limit p) (Some (p_currency p)))];
    [Styled (js (if streq (mode p) (js "enforce") then "info" else "outline")) (t (js "mode." ++ mode p))];
    [Styled (js (if p_enabled p then "success" else "outline")) (t (js "enabled." ++ (if p_enabled p then js "true" else js "false")))]],
   (t (js "actions.accounts"), Opens (account_href global tenant p)) :: (if canWrite then [(tc (js "actions.edit"), EditPolicy p)] else [])).

Definition kind_text (k : jstr) : jstr := let key := js "eventKind." ++ k in if has_message key then t key else k.

Definition event_row (e : BudgetEvent) : list cell * list (jstr * pressed) :=
  ([[Plain (time (e_created_at e))]; [Plain (kind_text (kind e))]; [Plain (from_option num_to_string (t (js "none")) (account_id e))];
    [Plain (if num_truthy (threshold e) then num_to_string (threshold e) ++ js "%" else t (js "none"))]; [Plain (money (amount e) None)]],
   [(t (js "actions.details"), EventDetail e)]).

Definition unresolved (r : Reservation) : bool := streq (status r) (js "unknown") || streq (status r) (js "released_unknown").

Definition reservation_row (canResolve : bool) (r : Reservation) : list cell * list (jstr * pressed) :=
  ([[Plain (request_id r); Muted (time (r_created_at r))];
    [Styled (js (if unresolved r then "warning" else "outline")) (t (js "status." ++ status r))];
    [Plain (money (estimate r) (Some (r_currency r)))];
    [Plain (from_option (fun a => money a (Some (r_currency r))) (t (js "unknownAmount")) (actual r))];
    [Plain (text_or (r_reason r) (t (js "none")))]],
   if canResolve && unresolved r then [(t (js "actions.resolve"), Resolve r)] else []).

(** *** The page *)

Record props : Type := {
  tenant : jstr; global : bool; tenants : list jstr; shown_view : jstr; shown_status : jstr; policies : list BudgetPolicy;
  events : list BudgetEvent; reservations : list Reservation; nextCursor : jstr; canWrite : bool; canResolve : bool;
}.

Definition selected (p : props) : bool := negb (global p) || negb (str_empty (tenant p)).

(** [Array.from(new Set(...))] *)
Definition unique (l : list jstr) : list jstr := foldl (fun acc x => if array_includes acc x then acc else acc ++ [x]) [] l.

Definition tenantOptions (p : props) : list jstr := unique (tenants p ++ (if str_empty (tenant p) then [] else [tenant p])).

(** The list shown for the view; its notes and the status filter are left out. *)
Definition content (p : props) : list table :=
  let view v := streq (shown_view p) (js v) in
  (if view "policies" then
     [BudgetTable (columns ["name"; "scope_kind"; "period"; "limit"; "mode"; "enabled"; "actions"]) (t (js "emptyPolicies"))
        (policy_row (global p) (canWrite p) (tenant p)) (policies p)] else [])
  ++ (if view "events" then
     [BudgetTable (columns ["time"; "kind"; "account"; "thresholds"; "amount"; "actions"]) (t (js "emptyEvents")) event_row (events p)] else [])
  ++ (if view "reservations" then
     [BudgetTable (columns ["request"; "status"; "estimate"; "actual"; "reason"; "actions"]) (t (js "emptyReservations"))
        (reservation_row (canResolve p)) (reservations p)] else []).

(** The buttons below, with the address each leads to; [None] refreshes. *)
Definition pager (p : props) (searchParams : params) : list (jstr * option jstr) :=
  (match usp_get searchParams (js "cursor") with Some _ => [(tc (js "pagination.firstPage"), Some (navigate [(js "cursor", [])] searchParams))] | None => [] end)
  ++ (if str_empty (nextCursor p) then [] else [(tc (js "actions.nextPage"), Some (navigate [(js "cursor", nextCursor p)] searchParams))])
  ++ [(t (js "actions.refresh"), None)].

Definition statuses : list jstr := map js ["unknown"; "released_unknown"; "reserved"; "dispatched"; "settled"; "released"; "all"].

(** The switch between the views: label, whether it is the current one, address. *)
Definition views (p : props) (searchParams : params) : list (jstr * bool * jstr) :=
  map (fun v => (t (js "views." ++ js v), streq (shown_view p) (js v), navigate [(js "view", js v)] searchParams))
    ["policies"; "events"; "reservations"]%string.

(** Create button; tenants to choose from or the note; switch; and, once a
    tenant is selected, the list and the buttons below. *)
Record page : Type := {
  create : option jstr; choice : jstr + list jstr; switch : list (jstr * bool * jstr);
  body : (jstr * jstr) + (list table * list (jstr * option jstr));
}.

Definition BudgetsClient (p : props) (searchParams : params) : page := {|
  create := if canWrite p && selected p then Some (t (js "actions.create")) else None;
  choice := if global p then inr (tenantOptions p) else inl (tp (js "tenantScope") [(js "tenant", tenant p)]);
  switch := views p searchParams;
  body := if selected p then inr (content p, pager p searchParams) else inl (t (js "selectTenant"), t (js "selectTenantHint"));
|}.

(** The dialog with the details of an event. *)
Definition event_detail (e : BudgetEvent) : list (jstr * jstr) :=
  [(t (js "fields.reservation"), text_or (reservation_id e) (t (js "none")));
   (t (js "fields.operator"), from_option num_to_string (t (js "none")) (operator_id e));
   (t (js "fields.reason"), text_or (e_reason e) (t (js "none"))); (t (js "fields.evidence"), text_or (evidence e) (t (js "none")))].

(** *** One budget *)

(** [back]; [tenant] is the parameter of the address. *)
Definition back (global : bool) (tenant : option jstr) : result jstr :=
  match tenant with
  | Some tn => if global && negb (str_empty tn) then e ← encodeURIComponent tn; Ret (js "/budgets?tenant=" ++ e) else Ret (js "/budgets")
  | None => Ret (js "/budgets")
  end.

(** [`${back}${back.includes("?") ? "&" : "?"}view=${v}`] *)
Definition view_link (back v : jstr) : jstr := back ++ (if existsb (Z.eqb 63) back then js "&" else js "?") ++ js "view=" ++ v.

Definition policy_fields (p : BudgetPolicy) : list (jstr * cell) :=
  [(t (js "fields.scope_kind"), [Plain (t (js "scope." ++ scope_kind p) ++ js " " ++ scope_ref p ++ js " " ++ p_environment p)]);
   (t (js "fields.period"), [Plain (t (js "period." ++ period p) ++ js " · " ++ timezone p)]);
   (t (js "fields.limit"), [Plain (money (limit p) (Some (p_currency p)))]);
   (t (js "fields.mode"), [Plain (t (js "mode." ++ mode p))]);
   (t (js "fields.thresholds"), [Plain (text_or (join (js ", ") (map (fun v => num_to_string v ++ js "%") (thresholds p))) (t (js "none")))]);
   (t (js "fields.enabled"), [Styled (js (if p_enabled p then "success" else "outline")) (t (js "enabled." ++ (if p_enabled p then js "true" else js "false")))]);
   (t (js "fields.createdAt"), [Plain (time (p_created_at p))]);
   (t (js "fields.version"), [Plain (num_to_string (p_version p))])].

(** The balance of the older quota, with its scope. *)
Definition legacy (currency scope : jstr) (balance : num) : jstr * jstr :=
  (if str_empty currency then t (js "legacyUnknown") else money balance (Some currency), scope).

Definition amount_cell (a : BudgetAccount) (red : bool) (v : num) : cell :=
  [Styled (js (if red then "text-destructive" else "text-foreground")) (money v (Some (a_currency a)))].

Definition account_row (a : BudgetAccount) : list cell :=
  [[Plain (num_to_string (a_id a))]; [Plain (time (period_start a)); Muted (time (period_end a))]]
  ++ map (amount_cell a false) [a_limit a; committed a; reserved a; released a]
  ++ [amount_cell a (nlt (available a) (int 0)) (available a)].

Definition account_table (accounts : list BudgetAccount) : list jstr * ((jstr * jstr) + list (list cell)) :=
  (columns ["account"; "periodWindow"; "limit"; "committed"; "reserved"; "released"; "available"],
   match accounts with [] => inl (t (js "emptyAccounts"), t (js "emptyAccountsHint")) | _ => inr (map account_row accounts) end).

(** *** Properties *)

Lemma unique_spec l : NoDup (unique l) /\ forall x, x ∈ unique l <-> x ∈ l.
Proof.
  unfold unique. induction l as [|a l [N E]] using rev_ind; [split; [constructor|done]|]. rewrite foldl_snoc.
  destruct (array_includes _ a) eqn:A.
  - split; [done|]. intros x. rewrite E, elem_of_app, list_elem_of_singleton. apply array_includes_spec in A.
    split; [by left|]. intros [X|X]; [done|]. subst x. by apply E.
  - assert (a ∉ foldl (fun acc x => if array_includes acc x then acc else acc ++ [x]) [] l) as X.
    { intros I. apply array_includes_spec in I. congruence. }
    split; [|intros x; by rewrite !elem_of_app, E]. apply NoDup_app. split_and!; [done| |apply NoDup_singleton].
    intros x I J. apply list_elem_of_singleton in J as ->. done.
Qed.

(** The tenants to choose from are those of the API, once each, and the one
    selected by the address even when it is not among them. *)
Theorem tenants_offered p : NoDup (tenantOptions p) /\
  (forall x, x ∈ tenantOptions p <-> x ∈ tenants p \/ (x = tenant p /\ tenant p <> [])).
Proof.
  destruct (unique_spec (tenants p ++ (if str_empty (tenant p) then [] else [tenant p]))) as [N E]. split; [done|].
  intros x. unfold tenantOptions. rewrite E, elem_of_app. destruct (tenant p) eqn:T; cbn [str_empty].
  - rewrite elem_of_nil. split; [by intros [?|[]]; left|by intros [?|[_ ?]]; [left|]].
  - rewrite list_elem_of_singleton. split; [intros [?| ->]; [by left|by right]|intros [?|[-> _]]; [by left|by right]].
Qed.

Lemma view_link_more e v : view_link (js "/budgets?tenant=" ++ e) v = js "/budgets" ++ 63 :: (js "tenant" ++ 61 :: e) ++ 38 :: js "view=" ++ v.
Proof.
  unfold view_link. assert (js "/budgets?tenant=" ++ e = js "/budgets" ++ 63 :: js "tenant" ++ 61 :: e) as -> by reflexivity.
  assert (existsb (Z.eqb 63) (js "/budgets" ++ 63 :: js "tenant" ++ 61 :: e) = true) as -> by (rewrite existsb_app; cbn [existsb]; by rewrite Z.eqb_refl, orb_true_r).
  change (js "&") with [38]. by rewrite <- app_assoc.
Qed.

(** A link of the page of one budget, or back from it, keeps the tenant,
    whatever characters its name has; the links to the other views add the
    view to it. *)
Theorem budget_links_keep_tenant p n tn v : p_id p = int n -> 0 <= n <= 2 ^ 53 -> isWellFormed tn = true -> wf_str tn -> tn <> [] ->
  v = js "reservations" \/ v = js "events" ->
  exists href b,
    account_href true tn p = Ret href /\ search_of href = [(js "tenant", tn)] /\
    back true (Some tn) = Ret b /\ search_of b = [(js "tenant", tn)] /\
    search_of (view_link b v) = [(js "tenant", tn); (js "view", v)] /\
    account_href false tn p = Ret (js "/budgets/" ++ num_to_string (p_id p)) /\
    view_link (js "/budgets") v = js "/budgets?view=" ++ v.
Proof.
  intros Hn Bn W U N V. destruct (component_param (js "tenant") tn) as (e & E & P & Q); [done|apply (bool_decide_unpack _); by vm_compute..|by vm_compute|done|done|].
  exists (js "/budgets/" ++ num_to_string (p_id p) ++ js "?tenant=" ++ e), (js "/budgets?tenant=" ++ e).
  unfold account_href, back, search_of. cbn [andb]. rewrite E. destruct tn as [|c tn]; [done|]. cbn [str_empty negb]. cbv iota. split_and!; try done.
  - rewrite app_assoc. change (js "?tenant=" ++ e) with (63 :: (js "tenant" ++ 61 :: e)). rewrite after_question_app; [exact P|].
    rewrite not_elem_of_app. split; [apply (bool_decide_unpack _); by vm_compute|].
    rewrite Hn, num_to_string_int by done. intros I. destruct (digits_spec n ltac:(lia)) as [_ D]. rewrite Forall_forall in D.
    apply D in I. by vm_compute in I.
  - rewrite view_link_more, after_question_app, Q by (apply (bool_decide_unpack _); by vm_compute). f_equal. destruct V as [-> | ->]; by vm_compute.
  - cbn [mbind result_bind]. by rewrite app_nil_r.
Qed.

(** The resolve button is offered exactly to operators who may resolve, for
    reservations whose amount is not known; a button of the table hands its own
    reservation on, and settling is always possible in the form it opens. *)
Theorem resolve_offered cr r :
  (reservation_row cr r).2 = (if cr && unresolved r then [(t (js "actions.resolve"), Resolve r)] else []) /\
  (unresolved r = true -> js "settle" ∈ ResolveForm.actions (status r)) /\
  (forall a, unresolved r = true -> streq (status r) (js "unknown") = false -> a ∈ ResolveForm.actions (status r) -> a = js "settle").
Proof.
  split; [done|]. unfold ResolveForm.actions, unresolved. split.
  - intros _. destruct (streq (status r) "released_unknown"); [by apply list_elem_of_singleton|by left].
  - intros a X Y. rewrite Y in X. cbn [orb] in X. rewrite X. by intros A%list_elem_of_singleton.
Qed.

(** For amounts the API keeps ([available = limit - committed - reserved]), the
    available amount is marked exactly when spent and reserved amounts together
    exceed the limit. *)
Theorem over_limit_marked a l c r : a_limit a = int l -> committed a = int c -> reserved a = int r -> available a = int (l - c - r) ->
  exists row s, account_row a = row ++ [[Styled (js (if bool_decide (l < c + r) then "text-destructive" else "text-foreground")) s]].
Proof.
  intros L C R A. unfold account_row. eexists _, _. rewrite app_assoc. repeat f_equal. unfold amount_cell. rewrite A, nlt_int.
  case_bool_decide; [rewrite (proj2 (Z.ltb_lt _ _)) by lia|rewrite (proj2 (Z.ltb_ge _ _)) by lia]; done.
Qed.

(** Without a tenant an operator of all tenants is asked for one, and nothing
    is listed or created. *)
Theorem tenant_needed p sp : global p = true -> tenant p = [] ->
  create (BudgetsClient p sp) = None /\ body (BudgetsClient p sp) = inl (t (js "selectTenant"), t (js "selectTenantHint")).
Proof. intros G T. unfold BudgetsClient, selected. rewrite G, T. cbn. by rewrite andb_false_r. Qed.

(** The amount of an event never carries a currency. *)
Lemma event_currency_unknown e : nth 4 (event_row e).1 [] = [Plain (Web.microToDisplay (amount e) ++ js " " ++ t (js "unknownCurrency"))].
Proof. done. Qed.

End Page.
End Budgets.

(** ** Attribution of usage to applications *)
Module Attribution.

Record figures : Type := {
  unbound_key_count : num; request_count : num; unattributed_request_count : num; unattributed_request_ratio : num;
  recorded_unattributed_costs : list (jstr * num);
}.

Section Card.
  (** The translations; numbers and ratios as the reader's locale writes them. *)
  Context (t : jstr -> jstr) (number percent : num -> jstr).

Definition cost_text (c : jstr * num) : jstr := Web.microToDisplay c.2 ++ js " " ++ (if str_empty c.1 then t (js "attribution.unknownCurrency") else c.1).

(** Nothing; a failure, which takes precedence; or the figures and the costs. *)
Definition card (a : option figures) (failure : option jstr) : option (jstr + (list (jstr * jstr) * (jstr + list jstr))) :=
  match failure, a with
  | Some e, _ => Some (inl (t (js "attribution." ++ e)))
  | None, None => None
  | None, Some a => Some (inr (
      [(t (js "attribution.unboundKeys"), number (unbound_key_count a)); (t (js "attribution.requestCount"), number (request_count a));
       (t (js "attribution.unattributedRequests"), number (unattributed_request_count a));
       (t (js "attribution.unattributedRatio"), percent (unattributed_request_ratio a))],
      match recorded_unattributed_costs a with [] => inl (t (js "attribution.noCosts")) | cs => inr (map cost_text cs) end))
  end.

End Card.
End Attribution.

(** ** Create dialogs of tenants, groups and applications *)
Module CreateDialog.

Section Forms.
  Context {St Bk} `{IronSession St} `{AdminApi Bk}.
  (** The translations of the page, of [common] and of [errors]. *)
  Context (t tCommon tErr : jstr -> jstr).

Definition action (r : Toggles.resource) : FormData -> M St Bk FormResult :=
  match r with Toggles.Tenant => createTenant | Toggles.Group => createGroup | Toggles.Application => createApplication end.

(** The fields of the form. *)
Definition form_data (r : Toggles.resource) (name ownerGroup : jstr) : FormData :=
  text "name" name :: match r with Toggles.Application => [text "owner_group" ownerGroup] | _ => [] end.

(** [String(g.name ?? "")], value and label *)
Definition groupOptions (groups : list json) : list (jstr * jstr) := map (fun g => let n := or_null (value g "name") [] in (n, n)) groups.

(** The alert: a known error translated, any other as it is. *)
Definition alert (state : option FormResult) : option jstr :=
  match state with
  | Some (FErr e (Some (c :: k))) => Some (tErr (c :: k))
  | Some (FErr e _) => Some e
  | _ => None
  end.

(** The submit button: text and whether it is disabled. *)
Definition submit_button (r : Toggles.resource) (pending : bool) : jstr * bool :=
  (if pending then tCommon (js "actions.saving")
   else match r with Toggles.Tenant => t (js "actions.create") | _ => t (js "actions.save") end, pending).

(** The page around the form: whether the dialog is open, the state of the
    form, which lives while it is, and the refreshes asked for. *)
Record dialog : Type := { createOpen : bool; state : option FormResult; pending : bool; refreshes : nat }.

Definition closed : dialog := {| createOpen := false; state := None; pending := false; refreshes := 0 |}.

Inductive event : Type := Open | Cancel | Submit | Reply (r : FormResult).

(** [Reply] is the reply to the form that is mounted: the form of a dialog
    closed meanwhile is gone, and so is the effect of its reply. *)
Definition handle (d : dialog) (e : event) : dialog :=
  match e with
  | Open => {| createOpen := true; state := state d; pending := pending d; refreshes := refreshes d |}
  | Cancel => {| createOpen := false; state := None; pending := false; refreshes := refreshes d |}
  | Submit => if createOpen d && negb (pending d) then {| createOpen := true; state := state d; pending := true; refreshes := refreshes d |} else d
  | Reply r =>
      if pending d then
        match r with
        | FOk => {| createOpen := false; state := None; pending := false; refreshes := S (refreshes d) |}
        | FErr _ _ => {| createOpen := createOpen d; state := Some r; pending := false; refreshes := refreshes d |}
        end
      else d
  end.

Definition create_path (r : Toggles.resource) : jstr :=
  match r with Toggles.Tenant => js "/api/v1/tenants" | Toggles.Group => js "/api/v1/groups" | Toggles.Application => js "/api/v1/applications" end.

(** Submitting sends one request with the names as typed, less surrounding
    space; with a name or the group of an application left blank, nothing is
    sent and the form says so. *)
Theorem create_sends r name owner w c : serverAdminClient w = (Ret c, w) ->
  let owned := match r with Toggles.Application => [(js "owner_group", JStr (trim owner))] | _ => [] end in
  if str_empty (trim name) || (match r with Toggles.Application => str_empty (trim owner) | _ => false end)
  then exists e k, action r (form_data r name owner) w = (Ret (FErr e k), w)
  else exists ps, w_log (action r (form_data r name owner) w).2 =
         w_log w ++ Sent c POST (create_path r) (with_body (JObj ((js "name", JStr (trim name)) :: owned))) :: map Revalidated ps.
Proof.
  intros C owned.
  assert (field (form_data r name owner) "name" = name) as F1 by (by destruct r).
  assert (r = Toggles.Application -> field (form_data r name owner) "owner_group" = owner) as F2 by (by intros ->).
  destruct r; cbn [action]; unfold createTenant, createGroup, createApplication; rewrite F1, ?(F2 eq_refl);
    destruct (str_empty (trim name)); cbn [orb]; try (by eexists _, _); try (destruct (str_empty (trim owner)); [by eexists _, _|]);
    exact (RowActions.sends_submit c POST _ _ _ _ w C).
Qed.

(** An error stays on screen until it is answered or the dialog is closed, and a
    dialog opened again starts without it; the list is refreshed at most once
    for every success. *)
Theorem dialog_starts_clean evs : let d := fold_left handle evs closed in
  (createOpen d = false -> state d = None /\ pending d = false) /\
  (alert (state d) <> None -> createOpen d = true) /\
  (refreshes d <= length (List.filter (fun e => match e with Reply FOk => true | _ => false end) evs))%nat.
Proof.
  intros d. assert ((createOpen d = false -> state d = None /\ pending d = false) /\
    (refreshes d <= length (List.filter (fun e => match e with Reply FOk => true | _ => false end) evs))%nat) as [A B].
  { unfold d. induction evs as [|e evs [A B]] using rev_ind; [done|]. rewrite fold_left_app, List.filter_app, length_app. cbn [fold_left].
    set (d' := fold_left handle evs closed) in *. clearbody d'. destruct e as [| | |r]; cbn [handle].
    - split; [done|cbn; lia].
    - split; [done|cbn; lia].
    - destruct (createOpen d' && negb (pending d')); cbn; (split; [first [done|exact A]|lia]).
    - destruct (pending d') eqn:P.
      + destruct r; cbn; (split; [|lia]); [done|]. intros O. destruct (A O) as [_ X]. congruence.
      + rewrite P. split; [exact A|destruct r; cbn; lia]. }
  split_and!; [exact A| |exact B]. intros N. destruct (createOpen d) eqn:O; [done|]. destruct (A eq_refl) as [E _]. by rewrite E in N.
Qed.

End Forms.
End CreateDialog.
